(* ===== verification/_CoqProject ===== *)
-Q . S2P
Prelude.v
Bitcoin.v
Toy.v
Types.v
Policy.v
Transactions.v
Signable.v
Keys.v
FileSystem.v
FsProgress.v
Storage.v
Crypto.v
Social.v
SocialFacts.v
Ceremony.v
CeremonyValidate.v
CeremonySound.v
CeremonyBuild.v
ToyCeremony.v
CeremonyTheorems.v
Recovery.v
RecoveryFacts.v
ColdWallet.v
ColdWalletFacts.v
ColdWalletSpend.v
CeremonyTransport.v
CeremonyWorkspace.v
CeremonyApproval.v
CeremonyComplete.v
ColdWalletWitness.v
CeremonyWitness.v
ColdSigner.v
ColdSignerWriter.v
ColdSignerWalk.v
ColdSignerGraph.v
ColdSignerJobs.v
ColdSignerTheorems.v
ColdSignerScripts.v
HotWallet.v
Phone.v
PhonePaths.v
PhoneActivation.v
PhoneHistory.v
PhoneBroadcast.v
PhoneArtifacts.v
PhoneRoundTrip.v
PhoneEmergency.v
PhoneComplete.v
PhoneWorkspace.v
Lifecycle.v
ToyPhone.v
PhoneWitness.v
LifecycleWitness.v
Vanity.v
VanitySearch.v
Rotation.v
Preserve.v
RotationFacts.v
RotationSafety.v
RotationComplete.v
RotationWitness.v
Ledger.v
LedgerProtocol.v
LedgerSession.v
LedgerLive.v
LedgerWitness.v
Chain.v
Sync.v
SyncFacts.v
ChainFacts.v
ChainWitness.v
SyncWitness.v
Cli.v
CliCommands.v
CliSafety.v
CliReview.v
CliNetwork.v
CliBackends.v
CliWitness.v
CliBackendsWitness.v
