(* ===== verification/Prelude.v ===== *)
(** * Anzen: a verification library for the renewable bitcoin vault

    Anzen keeps a vault of bitcoin behind two keys, one on a phone and one on a
    hardware wallet (HWW).  Both together may spend at any time; either may
    sweep the vault alone after a long timelock.  Once a year the phone
    proposes, and the HWW approves, a _policy_: one rollover transaction and a
    chain of presigned monthly allowances, with an optional emergency path,
    each of which also spends a small _controller_ output that either device
    can revoke.  This development models the Rust workspace under [src/] and
    proves what its parts promise to each other.

    ** The program's parts and how they interact

    - [src/src/core]: constants and data, the two script policies, PSBTs, device
      keys, files, encryption, the social-recovery envelope, the ceremony
      (proposal, validation, packages), sweeps and rotations, chain backends.
    - [src/src/hot_wallet]: the phone.  It proposes and activates policies,
      broadcasts what was activated, pays, sweeps, and rotates its key.
    - [src/src/cold_wallet]: the HWW.  It validates what it is shown and signs.
    - [src/src/main.rs]: the command line, which carries JSON artifacts from one
      device to the other and asks the user.
    - [src/cold-signer] and [src/ledger-app]: the signing workload of a real
      device, without allocation, and the app that runs it for a host.

    The devices share no memory: they meet in artifacts (packages of a manifest
    and its PSBTs), in the files of the vault and in the chain.

    ** How the code is modelled

    Errors.  [anyhow::Result] is [result] of this file: a value, an error with
    its message, or a panic (an index out of range, an overflow of an unchecked
    operator, an [unwrap] of nothing).  Messages that only format the same
    values are shortened.

    State.  A function that reads state takes it; one that changes state is a
    step of the monad [M S], whose errors keep the state reached so far, so a
    theorem can speak of what a failed run leaves behind.  [S] is the file
    system [FS] for the HWW and the storage code, with a random source where
    one is drawn from; [World] for the phone (files, random source, wallet
    database, chain backend); [RotationWorld] while a rotation archives;
    [CliWorld] for a command (with its terminal); the log and the device for
    the Ledger app.

    Integers.  [u64], [u32] and [u16] are [N] with the bounds of [U64_MAX] and
    the like: checked operations fail, unchecked ones panic, saturating ones
    saturate.  Bytes are naturals below 256; the scalar arithmetic of the
    signing workload is on byte arrays, as written.

    Files.  [FileSystem] maps paths to files and directories; a fault oracle
    lets every call fail at every stage, so the theorems about writes hold for
    every crash point between two steps.  The wallet's SQLite files live in the
    database [Db]; [DbFiles] says how a rename moves them.

    Foreign code.  What is not under [src/] is a class: the bitcoin crates
    ([BitcoinTypes], [BitcoinLib]), key derivation ([KeyLib]), BDK ([BdkLib]),
    encryption ([CryptoLib]), OpenPGP ([PgpLib]), serde ([Json], [JsonVec]), the
    RPC and Electrum clients ([RpcApi], [RpcClients], [ElectrumApi]), BDK's
    updates and chain sources ([BdkUpdates], [BlockEmitter], [ElectrumSource]),
    the Ledger SDK ([LedgerSdk]), dates ([Chrono]).  What the vault relies on of them is a
    class of laws beside each ([BitcoinLaws], [KeyLaws], [CryptoLaws],
    [PgpLaws], [JsonLaws], [JsonVecLaws], [LedgerLaws], [Sha256Laws],
    [TxidTextLaws], [MarkerLaws], [EmitterLaws]), and each has a concrete instance ([Toy] and the files of
    witnesses) on which the laws are proved and the witnesses run.

    Interfaces of the program's own.  [Blockchain] is the trait the phone's
    code is written against; [Chain] and [Sync] implement it twice, and
    [CliBackends] for the one that a command selects; [Connector] is what only
    the commands ask of a backend.  [HotAddressProvider]
    is the trait of the ceremony; the phone's wallet implements it.  [Sha256]
    is the trait of the signing workload; the Ledger app implements it.

    Histories.  The attempts to activate a policy, and the work between them,
    are a step relation on [World] ([PhoneHistory]); what the relation assumes
    of other work is its [quiet].

    Threads.  The vanity search is a step relation on its workers, which share
    a stop flag, the number of attempts, the last report and a channel; the
    interleaving is arbitrary and the theorems hold for every one.  [search], given to the
    operations that start a search, stands for the interleaving that happened.

    Loops.  Recursion is structural almost everywhere.  [strip] (trimming) has
    the length of its text as fuel, and stops before it is used up;
    [home_loop] and [sample_main] of the Ledger app, which never end, run for a
    given number of events, and their theorems hold for every number.
    [connect_blocks], which follows a node to the end of its chain, has as fuel
    a bound on the blocks that the node announces; [sync_core_terminates] is
    that it is enough.

    ** Files

    - [Prelude]: outcomes, checked integers, the monad [M], shared lemmas.
    - [Bitcoin], [Toy], [Types]: the crates' interface, its instance, constants.
    - [Policy], [Transactions], [Keys]: [core/policy.rs], [transactions.rs],
      [keys.rs]; [Signable]: when signing succeeds.
    - [FileSystem], [Storage], [Crypto]: [core/storage.rs] on files,
      [crypto.rs]; [FsProgress]: when calls on files succeed.
    - [Social], [SocialFacts]: [core/social.rs].
    - [Ceremony], [CeremonyValidate] (definitions), [CeremonySound],
      [CeremonyBuild], [CeremonyTheorems] (proofs), [ToyCeremony]:
      [core/ceremony.rs].
    - [Recovery], [RecoveryFacts]: [core/recovery.rs].
    - [ColdWallet], [ColdWalletFacts], [ColdWalletSpend], [ColdWalletWitness]:
      [cold_wallet/mod.rs].
    - [CeremonyTransport], [CeremonyWorkspace], [CeremonyApproval],
      [CeremonyComplete], [CeremonyWitness]: the whole ceremony, from the
      phone's proposal through both packages to activation.
    - [ColdSigner] (definitions), [ColdSignerWriter], [ColdSignerWalk],
      [ColdSignerGraph], [ColdSignerJobs], [ColdSignerTheorems],
      [ColdSignerScripts]: [cold-signer/src/benchmark.rs].
    - [HotWallet]: [hot_wallet/wallet.rs] and the phone's world.
    - [Phone] (definitions), [PhonePaths], [PhoneActivation], [PhoneHistory],
      [PhoneBroadcast], [PhoneArtifacts], [PhoneRoundTrip], [PhoneEmergency],
      [PhoneComplete], [ToyPhone], [PhoneWitness], and [Vanity],
      [VanitySearch]: [hot_wallet/mod.rs].
    - [PhoneWorkspace], [Lifecycle], [LifecycleWitness]: the
      phone and the ceremony together, from the proposal to the broadcasts.
    - [Rotation], [Preserve], [RotationFacts], [RotationSafety],
      [RotationComplete], [RotationWitness]: [hot_wallet/rotation.rs].
    - [Ledger], [LedgerProtocol], [LedgerSession], [LedgerLive],
      [LedgerWitness]: [ledger-app/src].
    - [Chain], [ChainFacts], [ChainWitness]: [core/chain.rs]; [Sync],
      [SyncFacts], [SyncWitness]: synchronising the everyday wallet with either
      backend.
    - [Cli], [CliCommands] (definitions), [CliSafety], [CliReview],
      [CliNetwork], [CliBackends], [CliWitness], [CliBackendsWitness]:
      [main.rs].

    A definition has the name of the function it models; a phase of a long
    function, or an arm of a [match], has a name of its own.

    ** What the theorems show

    - Ceremony: an accepted batch is the one that its manifest describes, to the
      last script, timelock and satoshi; value is conserved; and every proposal
      that the phone builds is accepted (a refinement of the validator by the
      builder).  A package carries a batch to another machine unchanged, and
      the ceremony completes: what the phone proposed is approved and comes
      back ready to be activated, on file systems without faults and with a
      descriptor library that records the cosigner's leaves and finalises
      complete inputs.
    - HWW: it signs a batch only after validating it, only the vault's inputs,
      and a batch it rejects changes nothing; revocations, sweeps, rotations and
      backups likewise.
    - Phone: nothing of an active policy changes before the network has the
      rollover; over any history of activations, failed and repeated, the disk
      follows an automaton in which a replaced epoch never returns; on a working
      disk an approved batch whose rollover the network takes is activated; what
      the phone broadcasts is what the schedule says; every authorization of an
      activated batch, and the trigger and the withdrawal of its emergency path,
      can be decrypted, completed and broadcast.
    - Both devices together: whatever the phone proposed comes to life.
      Approved, carried back and activated, each of its transactions goes out
      as it was proposed.  The assumptions are those of [working_vault] (the
      devices' keys, libraries that serialise, and a descriptor library that
      records the keys' leaves and finalises what is signed) and disks without
      faults.
    - Keys: from the first broadcast of a rotation on, both generations of the
      phone's key are on disk, whatever fails afterwards; after a rotation that
      succeeds the phone is the new generation's, with no file of the old epoch
      in use.
    - Recovery: sweeps are mature, bounded in fee, and pay the destination;
      envelopes open with either device's key or a friend's, and their friend
      list cannot be exchanged.
    - Vanity search: it ends under every interleaving, with a matching index
      unless there is none; comparing bits is comparing address text.
    - Signing workload: it builds the annual graph of its specification, its
      messages are those of BIP341, its buffers are never overrun, and it makes
      the scripts of the vault's own policies.
    - Ledger app: every run is a word of the protocol automaton of
      [LedgerProtocol]; the device's key signs only after an approval on the
      device and only the fixed digest; a host that keeps to the protocol is
      served to the end.
    - Chain backends: a connection is to the network asked for, and a scan
      reports exactly the confirmed outputs.  A command's backend is of the
      vault's network and stays on it.
    - Everyday wallet: a recovery scan is marked as done only after its result
      is stored, however many attempts fail; a node's blocks and memory pool
      are stored as a whole or not at all.
    - Command line: without the user's approval the HWW's commands leave no
      trace, what was shown is what was signed (for packages whose names stay
      apart, and [CliWitness] shows what happens to others), and a vault of
      another network is not touched.

    ** Not modelled

    - The inside of the crates and of the Ledger SDK: the classes above.
    - Parsing of the command line (clap), failing writes to the terminal, the
      progress lines of a vanity search, and the layout of the Ledger screens.
    - Symbolic links, permissions and [fsync] of the file system; the URL,
      credentials and timeouts of a connection.
    - Tests, media and scripts. *)

From stdpp Require Export base option list gmap strings numbers pretty.
From Stdlib Require Export Lia.

(** * Outcomes of fallible code

    [anyhow::Result] with its message, plus the panic that an out-of-range
    index, an [unwrap] of [None] or an overflowing unchecked operator raises. *)

Inductive result (A : Type) : Type :=
  | Ok (a : A)
  | Err (msg : string)
  | Panic.
Arguments Ok {A} a.
Arguments Err {A} msg.
Arguments Panic {A}.

#[export] Instance result_ret : MRet result := λ A a, Ok a.
#[export] Instance result_bind : MBind result := λ A B f r,
  match r with
  | Ok a => f a
  | Err e => Err e
  | Panic => Panic
  end.
#[export] Instance result_fmap : FMap result := λ A B f r,
  match r with
  | Ok a => Ok (f a)
  | Err e => Err e
  | Panic => Panic
  end.

#[export] Instance result_eq_dec {A} `{!EqDecision A} : EqDecision (result A).
Proof. solve_decision. Defined.

(** [bail!] under a condition. *)
Definition bail_if (c : bool) (msg : string) : result unit :=
  if c then Err msg else Ok tt.

(** [Option::context] and [Option::ok_or]. *)
Definition or_err {A} (o : option A) (msg : string) : result A :=
  match o with
  | Some a => Ok a
  | None => Err msg
  end.

(** [with_context] on a [Result]: the outermost message is the one shown. *)
Definition with_context {A} (r : result A) (msg : string) : result A :=
  match r with
  | Ok a => Ok a
  | Err _ => Err msg
  | Panic => Panic
  end.

(** Indexing a slice and unwrapping: a panic outside the domain. *)
Definition unwrap {A} (o : option A) : result A :=
  match o with
  | Some a => Ok a
  | None => Panic
  end.

Definition index {A} (l : list A) (i : nat) : result A := unwrap (l !! i).

(** A condition whose evaluation can panic, with the short circuit of
    Rust's [||]. *)
Definition orb_lazy (a : bool) (b : result bool) : result bool :=
  if a then Ok true else b.

Definition orb_seq (a b : result bool) : result bool :=
  x ← a; orb_lazy x b.

Declare Scope anzen_scope.
Delimit Scope anzen_scope with anzen.
Notation "a '||?' b" := (orb_seq a b) (at level 50, left associativity) : anzen_scope.
Notation "'!!=' a" := (Ok (negb (bool_decide a))) (at level 40) : anzen_scope.
Open Scope anzen_scope.

Definition bail_when (c : result bool) (msg : string) : result unit :=
  b ← c; bail_if b msg.

(** [Iterator::any] and [Iterator::try_fold] over a slice. *)
Fixpoint any_r {A} (f : A → result bool) (l : list A) : result bool :=
  match l with
  | [] => Ok false
  | x :: l' => f x ||? any_r f l'
  end.

Fixpoint try_fold {A S} (f : S → A → result S) (s : S) (l : list A) : result S :=
  match l with
  | [] => Ok s
  | x :: l' => s' ← f s x; try_fold f s' l'
  end.

(** A loop that only checks: [for x in l { f(x)?; }]. *)
Fixpoint for_each {A} (f : A → result unit) (l : list A) : result unit :=
  match l with
  | [] => Ok tt
  | x :: l' => _ ← f x; for_each f l'
  end.

(** * Code that changes state

    The state reached survives an error, as a file written before the error
    does. *)

Definition M (S A : Type) : Type := S → result A * S.

#[export] Instance M_ret S : MRet (M S) := λ A a s, (Ok a, s).
#[export] Instance M_bind S : MBind (M S) := λ A B f m s,
  match m s with
  | (Ok a, s') => f a s'
  | (Err e, s') => (Err e, s')
  | (Panic, s') => (Panic, s')
  end.

(** A pure step ([?] on a [Result]). *)
Definition pure {S A} (r : result A) : M S A := λ s, (r, s).

Definition get {S} : M S S := λ s, (Ok s, s).
Definition put {S} (s : S) : M S unit := λ _, (Ok tt, s).

(** A step on a local variable, which an error discards. *)
Definition exec {S A} (m : M S A) (s : S) : result S :=
  match m s with
  | (Ok _, s') => Ok s'
  | (Err e, _) => Err e
  | (Panic, _) => Panic
  end.

Fixpoint for_eachM {S A} (f : A → M S unit) (l : list A) : M S unit :=
  match l with
  | [] => mret tt
  | x :: l' => _ ← f x; for_eachM f l'
  end.

(** * Machine integers

    Unsigned integers are naturals of [N] below their bound.  The checked
    operators return [None] outside it; the plain operators panic there (the
    debug profile's behaviour: theorems show that no such panic is
    reachable). *)

Definition U64_MAX : N := 18446744073709551615.
Definition U32_MAX : N := 4294967295.

Definition checked_add (a b : N) : option N :=
  if (a + b <=? U64_MAX)%N then Some (a + b)%N else None.
Definition checked_sub (a b : N) : option N :=
  if (b <=? a)%N then Some (a - b)%N else None.
Definition checked_mul (a b : N) : option N :=
  if (a * b <=? U64_MAX)%N then Some (a * b)%N else None.

Definition add_u64 (a b : N) : result N := unwrap (checked_add a b).
Definition sub_u64 (a b : N) : result N := unwrap (checked_sub a b).
Definition mul_u64 (a b : N) : result N := unwrap (checked_mul a b).

Definition saturating_add (a b : N) : N := N.min (a + b) U64_MAX.
Definition saturating_sub (a b : N) : N := (a - b)%N.

Definition as_u32 (n : nat) : N := (N.of_nat n mod 4294967296)%N.
Definition bool_to_nat (b : bool) : nat := if b then 1 else 0.
Definition bool_to_N (b : bool) : N := if b then 1%N else 0%N.

(** [slice::contains]. *)
Definition mem {A} `{EqDecision A} (x : A) (l : list A) : bool := bool_decide (x ∈ l).

Lemma mem_true {A} `{EqDecision A} (x : A) l : mem x l = true ↔ x ∈ l.
Proof. apply bool_decide_eq_true. Qed.

Lemma mem_false {A} `{EqDecision A} (x : A) l : mem x l = false ↔ x ∉ l.
Proof. apply bool_decide_eq_false. Qed.

(** [bool::then_some]. *)
Definition then_some {A} (b : bool) (a : A) : option A := if b then Some a else None.

(** * Reasoning about outcomes *)

Section outcomes.
Context {A B : Type}.
Implicit Types (r : result A) (f : A → result B).

Lemma bind_Ok r f b : (a ← r; f a) = Ok b ↔ ∃ a, r = Ok a ∧ f a = Ok b.
Proof.
  unfold mbind, result_bind. destruct r; naive_solver.
Qed.

Lemma bind_not_Panic r f :
  r ≠ Panic → (∀ a, r = Ok a → f a ≠ Panic) → (a ← r; f a) ≠ Panic.
Proof. destruct r; intros ? Hf; [by apply Hf| |]; done. Qed.

Lemma fmap_Ok (g : A → B) r b : g <$> r = Ok b ↔ ∃ a, r = Ok a ∧ g a = b.
Proof. unfold fmap, result_fmap. destruct r; naive_solver. Qed.

Lemma or_err_Ok (o : option A) msg a : or_err o msg = Ok a ↔ o = Some a.
Proof. destruct o; naive_solver. Qed.

Lemma with_context_Ok r msg a : with_context r msg = Ok a ↔ r = Ok a.
Proof. destruct r; naive_solver. Qed.

Lemma unwrap_Ok (o : option A) a : unwrap o = Ok a ↔ o = Some a.
Proof. destruct o; naive_solver. Qed.

Lemma index_Ok (l : list A) i a : index l i = Ok a ↔ l !! i = Some a.
Proof. apply unwrap_Ok. Qed.

Lemma or_err_not_Panic (o : option A) msg : or_err o msg ≠ Panic.
Proof. by destruct o. Qed.

Lemma with_context_not_Panic r msg : r ≠ Panic → with_context r msg ≠ Panic.
Proof. by destruct r. Qed.

Lemma index_not_Panic (l : list A) i : i < length l → index l i ≠ Panic.
Proof. intros [x Hx]%lookup_lt_is_Some. unfold index. by rewrite Hx. Qed.
End outcomes.

(** Two runs with equal steps. *)
Lemma bind_ext {A B} (r r' : result A) (g g' : A → result B) :
  r = r' → (∀ a, g a = g' a) → (a ← r; g a) = (a ← r'; g' a).
Proof. intros <- Hg. destruct r; simpl; [apply Hg|done..]. Qed.

Lemma bail_if_Ok c msg u : bail_if c msg = Ok u ↔ c = false.
Proof. destruct c, u; naive_solver. Qed.

Lemma bail_when_Ok c msg u : bail_when c msg = Ok u ↔ c = Ok false.
Proof. destruct c as [[]| |], u; naive_solver. Qed.

Lemma bail_if_not_Panic c msg : bail_if c msg ≠ Panic.
Proof. by destruct c. Qed.

Lemma bail_when_not_Panic c msg : c ≠ Panic → bail_when c msg ≠ Panic.
Proof. by destruct c as [[]| |]. Qed.

Lemma orb_seq_false a b : a ||? b = Ok false ↔ a = Ok false ∧ b = Ok false.
Proof. destruct a as [[]| |]; naive_solver. Qed.

Lemma orb_seq_not_Panic a b : a ≠ Panic → (a = Ok false → b ≠ Panic) → a ||? b ≠ Panic.
Proof. destruct a as [[]| |]; naive_solver. Qed.

Lemma neg_decide_false P `{!Decision P} : !!= P = Ok false ↔ P.
Proof.
  split.
  - intros [= H%negb_false_iff]. by apply bool_decide_eq_true in H.
  - intros H. by rewrite bool_decide_eq_true_2.
Qed.

Lemma Ok_bool_false (b : bool) : Ok b = Ok false ↔ b = false.
Proof. naive_solver. Qed.

Lemma any_r_false {A} (f : A → result bool) l :
  any_r f l = Ok false ↔ Forall (λ x, f x = Ok false) l.
Proof.
  induction l as [|x l IH]; simpl; [by split; [constructor|]|].
  rewrite Forall_cons_iff, <-IH. apply orb_seq_false.
Qed.

Lemma for_each_Ok {A} (f : A → result unit) l u :
  for_each f l = Ok u ↔ Forall (λ x, f x = Ok tt) l.
Proof.
  destruct u. induction l as [|x l IH]; simpl; [by split; [constructor|]|].
  split.
  - intros ([] & ? & ?%IH)%bind_Ok. by constructor.
  - intros [? ?%IH]%Forall_cons_iff. apply bind_Ok. eauto.
Qed.

Lemma for_each_not_Panic {A} (f : A → result unit) l :
  Forall (λ x, f x ≠ Panic) l → for_each f l ≠ Panic.
Proof. induction 1; simpl; [done|]. by apply bind_not_Panic. Qed.

Lemma checked_add_Some a b c :
  checked_add a b = Some c ↔ c = (a + b)%N ∧ (a + b ≤ U64_MAX)%N.
Proof.
  unfold checked_add. destruct (N.leb_spec (a + b)%N U64_MAX);
    split; [intros [= <-]; done|intros [-> ?]; done|done|intros [-> ?]; exfalso; lia].
Qed.

Lemma checked_sub_Some a b c : checked_sub a b = Some c ↔ c = (a - b)%N ∧ (b ≤ a)%N.
Proof.
  unfold checked_sub. destruct (N.leb_spec b a);
    split; [intros [= <-]; done|intros [-> ?]; done|done|intros [-> ?]; exfalso; lia].
Qed.

Lemma checked_mul_Some a b c :
  checked_mul a b = Some c ↔ c = (a * b)%N ∧ (a * b ≤ U64_MAX)%N.
Proof.
  unfold checked_mul. destruct (N.leb_spec (a * b)%N U64_MAX);
    split; [intros [= <-]; done|intros [-> ?]; done|done|intros [-> ?]; exfalso; lia].
Qed.

(** The fold that sums amounts with [checked_add] gives the plain sum when it
    succeeds, and it succeeds exactly when the sum fits. *)
Definition sumN (l : list N) : N := foldr N.add 0%N l.

Lemma sumN_app l k : sumN (l ++ k) = (sumN l + sumN k)%N.
Proof. induction l as [|x l IH]; simpl; [done|]. rewrite IH. lia. Qed.

Lemma sumN_fmap_cons {A} (f : A → N) x l : sumN (f <$> x :: l) = (f x + sumN (f <$> l))%N.
Proof. done. Qed.

Definition sum_step {A} (f : A → N) (msg : string) (s : N) (x : A) : result N :=
  or_err (checked_add s (f x)) msg.

Lemma try_fold_sum_Ok {A} (f : A → N) msg s l t :
  try_fold (sum_step f msg) s l = Ok t →
  t = (s + sumN (f <$> l))%N.
Proof.
  revert s. induction l as [|x l IH]; intros s.
  - intros [= <-]. simpl. lia.
  - rewrite sumN_fmap_cons. simpl. rewrite bind_Ok. intros (s' & (-> & ?)%or_err_Ok%checked_add_Some & ->%IH). lia.
Qed.

Lemma try_fold_sum_fits {A} (f : A → N) msg s l :
  (s + sumN (f <$> l) ≤ U64_MAX)%N →
  try_fold (sum_step f msg) s l = Ok (s + sumN (f <$> l))%N.
Proof.
  revert s. induction l as [|x l IH]; intros s; [simpl; intros; f_equal; lia|].
  rewrite sumN_fmap_cons. intros Hs. simpl.
  assert (sum_step f msg s x = Ok (s + f x)%N) as ->.
  { apply or_err_Ok, checked_add_Some. lia. }
  simpl. rewrite IH by lia. f_equal. lia.
Qed.

Lemma try_fold_sum_not_Panic {A} (f : A → N) msg s l :
  try_fold (sum_step f msg) s l ≠ Panic.
Proof.
  revert s. induction l as [|x l IH]; simpl; intros s; [done|].
  apply bind_not_Panic; [apply or_err_not_Panic|auto].
Qed.

(** State-passing steps. *)
Lemma M_bind_Ok {S A B} (m : M S A) (f : A → M S B) s b s' :
  (a ← m; f a) s = (Ok b, s') ↔ ∃ a s1, m s = (Ok a, s1) ∧ f a s1 = (Ok b, s').
Proof.
  unfold mbind, M_bind. destruct (m s) as [[a|e|] s1]; split; naive_solver.
Qed.

Lemma pure_Ok {S A} (r : result A) (s s' : S) a :
  pure r s = (Ok a, s') ↔ r = Ok a ∧ s' = s.
Proof. unfold pure. naive_solver. Qed.

Lemma mret_Ok {S A} (x : A) (s s' : S) a :
  (mret x : M S A) s = (Ok a, s') ↔ x = a ∧ s' = s.
Proof. unfold mret, M_ret. naive_solver. Qed.

Lemma exec_Ok {S A} (m : M S A) (s s' : S) : exec m s = Ok s' ↔ ∃ a, m s = (Ok a, s').
Proof. unfold exec. destruct (m s) as [[]]; naive_solver. Qed.

(** Membership in a list that is written out. *)
Ltac in_list := first [left | right; in_list].

(** [inv_ok H] takes a successful run apart into the successes of its steps. *)
Ltac inv_ok H :=
  match type of H with
  | Ok _ = Ok _ => injection H as H; try subst
  | Err _ = Ok _ => discriminate H
  | Panic = Ok _ => discriminate H
  | mbind _ _ = Ok _ =>
      let x := fresh "x" in let H1 := fresh "H" in
      apply bind_Ok in H as (x & H1 & H); try (inv_ok H1); try (inv_ok H)
  | fmap _ _ = Ok _ =>
      let x := fresh "x" in let H1 := fresh "H" in
      apply fmap_Ok in H as (x & H1 & H); try (inv_ok H1)
  | bail_if _ _ = Ok _ => apply bail_if_Ok in H
  | bail_when _ _ = Ok _ => apply bail_when_Ok in H
  | or_err _ _ = Ok _ => apply or_err_Ok in H
  | with_context _ _ = Ok _ => apply with_context_Ok in H; try (inv_ok H)
  | unwrap _ = Ok _ => apply unwrap_Ok in H
  | index _ _ = Ok _ => apply index_Ok in H
  end.

(** [ok_step t] proves that a run succeeds, one step at a time: [t] proves the
    next step's success. *)
Tactic Notation "ok_step" tactic3(t) :=
  apply bind_Ok; eexists; split; [t|cbv beta].
