(* ===== verification/Bitcoin.v ===== *)
(** The boundary with the bitcoin, secp256k1 and miniscript crates.

    The crates' plain data (transactions, outpoints, PSBT inputs) are records.
    Their opaque types and their functions are the fields of the classes
    [BitcoinTypes] and [BitcoinLib]; what the vault relies on of them, as
    their documentation states it, is the class [BitcoinLaws].  Module [Toy]
    at the end instantiates the three with small concrete functions, so every
    hypothesis of this kind is known to be satisfiable. *)

From S2P Require Import Prelude.

(** * Opaque types *)

Inductive Network := Bitcoin | Testnet | Testnet4 | Signet | Regtest.
#[export] Instance Network_eq_dec : EqDecision Network.
Proof. solve_decision. Defined.

(** Script bytes. *)
Abbreviation ScriptBuf := (list N).

Class BitcoinTypes := {
  Txid : Type;
  XOnlyPublicKey : Type;
  Keypair : Type;
  TapLeafHash : Type;
  TapNodeHash : Type;
  TweakedPublicKey : Type;
  Message : Type;
  SchnorrSignature : Type;
  Address : Type;
  UncheckedAddress : Type;
  Descriptor : Type;
  DefiniteDescriptor : Type;
  DerivedDescriptor : Type;
  Tr : Type;
  ControlBlock : Type;
  PsbtInputOther : Type;
  PsbtOther : Type;
  Txid_eq_dec :: EqDecision Txid;
  Txid_countable :: Countable Txid;
  XOnlyPublicKey_eq_dec :: EqDecision XOnlyPublicKey;
  XOnlyPublicKey_countable :: Countable XOnlyPublicKey;
  TapLeafHash_eq_dec :: EqDecision TapLeafHash;
  TapLeafHash_countable :: Countable TapLeafHash;
}.

(** * Transactions *)

Record TxOut := { value : N; script_pubkey : ScriptBuf }.
#[export] Instance TxOut_eq_dec : EqDecision TxOut.
Proof. solve_decision. Defined.

Section data.
Context {T : BitcoinTypes}.

Record OutPoint := { txid : Txid; vout : N }.

Record TxIn := {
  previous_output : OutPoint;
  script_sig : ScriptBuf;
  sequence : N;
  witness : list (list N);
}.

Record Transaction := {
  version : N;
  lock_time : N;
  input : list TxIn;
  output : list TxOut;
}.

(** [taproot::Signature]; the sighash type is its consensus byte. *)
Record TapSignature := {
  signature : SchnorrSignature;
  sig_sighash_type : N;
}.

(** The fields of [psbt::Input] that the vault reads or writes.
    [tap_key_origins] keeps the leaf hashes of each origin. *)
Record PsbtInput := {
  witness_utxo : option TxOut;
  sighash_type : option N;
  tap_key_origins : gmap XOnlyPublicKey (list TapLeafHash);
  tap_script_sigs : gmap (XOnlyPublicKey * TapLeafHash) TapSignature;
  input_other : PsbtInputOther;
}.

Record Psbt := {
  unsigned_tx : Transaction;
  inputs : list PsbtInput;
  psbt_other : PsbtOther;
}.

Inductive PsbtSighashMsg :=
  | TapSighash (m : Message)
  | OtherSighash.
End data.

#[export] Instance OutPoint_eq_dec `{BitcoinTypes} : EqDecision OutPoint.
Proof. solve_decision. Defined.
#[export] Instance TxIn_eq_dec `{BitcoinTypes} : EqDecision TxIn.
Proof. solve_decision. Defined.
#[export] Instance Transaction_eq_dec `{BitcoinTypes} : EqDecision Transaction.
Proof. solve_decision. Defined.

(** [Version::TWO], [LockTime::ZERO], [Sequence::MAX],
    [Sequence::ENABLE_RBF_NO_LOCKTIME] and [TapSighashType::Default]. *)
Definition VERSION_TWO : N := 2.
Definition LOCK_TIME_ZERO : N := 0.
Definition SEQUENCE_MAX : N := 4294967295.
Definition ENABLE_RBF_NO_LOCKTIME : N := 4294967293.
Definition TAP_SIGHASH_DEFAULT : N := 0.

(** Opcode bytes used by the policy scripts. *)
Definition OP_CHECKSIG : N := 172.
Definition OP_CHECKSIGADD : N := 186.
Definition OP_CSV : N := 178.
Definition OP_NUMEQUAL : N := 156.
Definition OP_VERIFY : N := 105.

(** * Functions of the crates

    A fallible function of a crate is an [option]. *)

Class BitcoinLib {T : BitcoinTypes} := {
  (* bitcoin: transactions *)
  compute_txid : Transaction → Txid;
  txid_to_string : Txid → string;
  all_zeros : Txid;
  vsize : Transaction → N;
  minimal_non_dust : ScriptBuf → N;
  from_seconds_ceil : N → option N;
  (* bitcoin: addresses *)
  address_to_string : Address → string;
  address_script_pubkey : Address → ScriptBuf;
  address_from_str : string → option UncheckedAddress;
  require_network : UncheckedAddress → Network → option Address;
  (* secp256k1 *)
  key_to_string : XOnlyPublicKey → string;
  key_from_str : string → option XOnlyPublicKey;
  key_serialize : XOnlyPublicKey → list N;
  x_only_public_key : Keypair → XOnlyPublicKey;
  sign_schnorr_no_aux_rand : Message → Keypair → SchnorrSignature;
  verify_schnorr : SchnorrSignature → Message → XOnlyPublicKey → bool;
  (* bitcoin: scripts and taproot *)
  push_int : Z → ScriptBuf → ScriptBuf;
  push_opcode : N → ScriptBuf → ScriptBuf;
  push_x_only_key : XOnlyPublicKey → ScriptBuf → ScriptBuf;
  leaf_hash_from_script : ScriptBuf → TapLeafHash;
  node_hash_from_script : ScriptBuf → TapNodeHash;
  node_from_node_hashes : TapNodeHash → TapNodeHash → TapNodeHash;
  tap_tweak : XOnlyPublicKey → TapNodeHash → TweakedPublicKey;
  p2tr_tweaked : TweakedPublicKey → Network → Address;
  control_block_serialize : ControlBlock → list N;
  (* miniscript *)
  descriptor_from_str : string → option Descriptor;
  descriptor_to_string : Descriptor → string;
  at_derivation_index : Descriptor → N → option DefiniteDescriptor;
  derived_descriptor : Descriptor → N → option DerivedDescriptor;
  derived_address : DerivedDescriptor → Network → option Address;
  as_tr : DerivedDescriptor → option Tr;
  iter_scripts : Tr → list (N * ScriptBuf);
  control_block : Tr → ScriptBuf → option ControlBlock;
  (* bitcoin and miniscript: PSBTs *)
  from_unsigned_tx : Transaction → option Psbt;
  update_input_with_descriptor : Psbt → nat → DefiniteDescriptor → option Psbt;
  sighash_msg : Psbt → nat → TapLeafHash → option PsbtSighashMsg;
  finalize_mut : Psbt → option Psbt;
  finalize_inp_mut : Psbt → nat → option Psbt;
  extract : Psbt → option Transaction;
  psbt_to_string : Psbt → string;
  psbt_from_str : string → option Psbt;
}.

Section helpers.
Context `{BitcoinLib}.

(** [OutPoint::null]. *)
Definition null_outpoint : OutPoint := {| txid := all_zeros; vout := U32_MAX |}.

Definition new_outpoint (t : Txid) (v : N) : OutPoint := {| txid := t; vout := v |}.

(** Assignment to one field of a PSBT input. *)
Definition set_witness_utxo (o : TxOut) (i : PsbtInput) : PsbtInput :=
  {| witness_utxo := Some o; sighash_type := sighash_type i;
     tap_key_origins := tap_key_origins i; tap_script_sigs := tap_script_sigs i;
     input_other := input_other i |}.
Definition set_sighash_type (t : N) (i : PsbtInput) : PsbtInput :=
  {| witness_utxo := witness_utxo i; sighash_type := Some t;
     tap_key_origins := tap_key_origins i; tap_script_sigs := tap_script_sigs i;
     input_other := input_other i |}.
Definition insert_tap_script_sig (k : XOnlyPublicKey * TapLeafHash)
    (s : TapSignature) (i : PsbtInput) : PsbtInput :=
  {| witness_utxo := witness_utxo i; sighash_type := sighash_type i;
     tap_key_origins := tap_key_origins i; tap_script_sigs := <[k:=s]> (tap_script_sigs i);
     input_other := input_other i |}.

(** [psbt.inputs[index]] as a place that is assigned: a panic outside it. *)
Definition modify_input (f : PsbtInput → PsbtInput) (i : nat) (p : Psbt) : result Psbt :=
  x ← index (inputs p) i;
  mret {| unsigned_tx := unsigned_tx p; inputs := <[i := f x]> (inputs p);
          psbt_other := psbt_other p |}.

(** What a transaction does: it spends the same outputs with the same
    sequences and creates the same outputs. *)
Definition same_effect (t u : Transaction) : Prop :=
  version t = version u ∧ lock_time t = lock_time u ∧ output t = output u ∧
  (λ i, (previous_output i, sequence i)) <$> input t =
  (λ i, (previous_output i, sequence i)) <$> input u.

(** Two inputs, or PSBTs, that differ at most in their script signatures. *)
Definition input_no_sigs (i : PsbtInput) : PsbtInput :=
  {| witness_utxo := witness_utxo i; sighash_type := sighash_type i;
     tap_key_origins := tap_key_origins i; tap_script_sigs := ∅;
     input_other := input_other i |}.
Definition same_but_sigs (p q : Psbt) : Prop :=
  unsigned_tx p = unsigned_tx q ∧ psbt_other p = psbt_other q ∧
  input_no_sigs <$> inputs p = input_no_sigs <$> inputs q.

(** What a serialised size depends on: the outpoints, sequences and amounts
    have fixed widths. *)
Definition txin_shape (i : TxIn) : nat * list nat :=
  (length (script_sig i), length <$> witness i).
Definition tx_shape (t : Transaction) : list (nat * list nat) * list nat :=
  (txin_shape <$> input t, (λ o, length (script_pubkey o)) <$> output t).

(** BIP141: [vsize = ceil((3 * base + total) / 4)], the total counting the
    marker, the flag and the witnesses when an input has one. *)
Definition varint_len (n : nat) : N :=
  let n := N.of_nat n in
  if (n <? 253)%N then 1 else if (n <=? 65535)%N then 3
  else if (n <=? 4294967295)%N then 5 else 9.
Definition with_len (n : nat) : N := (varint_len n + N.of_nat n)%N.
Definition base_size (s : list (nat * list nat) * list nat) : N :=
  (4 + varint_len (length s.1) + sumN ((λ i, 40 + with_len i.1) <$> s.1)
     + varint_len (length s.2) + sumN ((λ o, 8 + with_len o) <$> s.2) + 4)%N.
Definition witness_size (s : list (nat * list nat) * list nat) : N :=
  if forallb (λ i, match i.2 with [] => true | _ => false end) s.1 then 0%N
  else (2 + sumN ((λ i, varint_len (length i.2) + sumN (with_len <$> i.2)) <$> s.1))%N.
Definition bip141_vsize (s : list (nat * list nat) * list nat) : N :=
  ((4 * base_size s + witness_size s + 3) / 4)%N.

(** An address printed and read back for a network is the same address. *)
Definition on_network (a : Address) (n : Network) : Prop :=
  (u ← address_from_str (address_to_string a); require_network u n) = Some a.

(** [Psbt::from_str] accepts, and [Psbt::from_unsigned_tx] makes, PSBTs of
    unsigned transactions with one map per input. *)
Definition txin_unsigned (i : TxIn) : Prop := script_sig i = [] ∧ witness i = [].
Definition psbt_wf (p : Psbt) : Prop :=
  length (inputs p) = length (input (unsigned_tx p)) ∧
  Forall txin_unsigned (input (unsigned_tx p)).

(** Text of visible ASCII characters only, such as base64. *)
Definition is_visible (c : Ascii.ascii) : bool :=
  let n := Ascii.N_of_ascii c in ((33 <=? n) && (n <=? 126))%N.
Fixpoint visible_ascii (s : string) : bool :=
  match s with
  | EmptyString => true
  | String c s' => is_visible c && visible_ascii s'
  end.
End helpers.

(** * What the vault relies on *)

Class BitcoinLaws `{L : BitcoinLib} : Prop := {
  (* The virtual size is computed from the serialised lengths. *)
  vsize_bip141 t : vsize t = bip141_vsize (tx_shape t);
  (* BIP68: the type flag and the number of 512-second units, rounded up. *)
  from_seconds_ceil_spec s :
    ((s + 511) / 512 ≤ 65535)%N →
    from_seconds_ceil s = Some (4194304 + (s + 511) / 512)%N;
  key_round_trip k : key_from_str (key_to_string k) = Some k;
  (* An x-only key is 32 bytes. *)
  key_serialize_length k : length (key_serialize k) = 32;
  (* The script builder appends; 2 has an opcode of its own and a number with
     its fifteenth bit set takes three little-endian bytes and a sign byte. *)
  push_int_two s : push_int 2 s = s ++ [82%N];
  push_int_u16 n s : (32768 ≤ n ≤ 65535)%N →
    push_int (Z.of_N n) s = s ++ [3; n mod 256; n / 256; 0]%N;
  push_opcode_spec o s : push_opcode o s = s ++ [o];
  push_x_only_key_spec k s : push_x_only_key k s = s ++ 32%N :: key_serialize k;
  from_unsigned_tx_spec t p : from_unsigned_tx t = Some p →
    unsigned_tx p = t ∧ psbt_wf p ∧
    Forall (λ i, tap_script_sigs i = ∅) (inputs p);
  update_input_spec p i d p' : update_input_with_descriptor p i d = Some p' →
    unsigned_tx p' = unsigned_tx p ∧ length (inputs p') = length (inputs p) ∧
    (∀ j, j ≠ i → inputs p' !! j = inputs p !! j) ∧
    (∀ x, inputs p !! i = Some x → ∃ x', inputs p' !! i = Some x' ∧
       witness_utxo x' = witness_utxo x ∧ sighash_type x' = sighash_type x ∧
       tap_script_sigs x' = tap_script_sigs x);
  psbt_round_trip p : psbt_wf p → psbt_from_str (psbt_to_string p) = Some p;
  psbt_text p : visible_ascii (psbt_to_string p) = true;
  psbt_from_str_wf s p : psbt_from_str s = Some p → psbt_wf p;
  (* The base64 decoder takes nothing but its alphabet. *)
  psbt_from_str_text s p : psbt_from_str s = Some p → visible_ascii s = true;
  schnorr_correct m k :
    verify_schnorr (sign_schnorr_no_aux_rand m k) m (x_only_public_key k) = true;
  (* Finalising fills in witnesses; the extracted transaction is the unsigned
     one with them. *)
  finalize_mut_tx p p' : finalize_mut p = Some p' → unsigned_tx p' = unsigned_tx p;
  extract_spec p t : extract p = Some t → same_effect t (unsigned_tx p);
  (* The BIP341 message does not cover the PSBT's signatures. *)
  sighash_msg_sigs p q i l : same_but_sigs p q → sighash_msg p i l = sighash_msg q i l;
}.

(** * Consequences *)

Section consequences.
Context `{Laws : BitcoinLaws}.

Lemma vsize_shape t1 t2 : tx_shape t1 = tx_shape t2 → vsize t1 = vsize t2.
Proof. intros Hs. by rewrite !vsize_bip141, Hs. Qed.

Lemma modify_input_Ok f i p p' :
  modify_input f i p = Ok p' ↔
  ∃ x, inputs p !! i = Some x ∧
    p' = {| unsigned_tx := unsigned_tx p; inputs := <[i := f x]> (inputs p);
            psbt_other := psbt_other p |}.
Proof.
  unfold modify_input. rewrite bind_Ok. split.
  - intros (x & Hx%index_Ok & [= <-]). eauto.
  - intros (x & Hx & ->). exists x. by rewrite index_Ok.
Qed.

Lemma modify_input_not_Panic f i p : i < length (inputs p) → modify_input f i p ≠ Panic.
Proof.
  intros Hi. apply bind_not_Panic; [by apply index_not_Panic|done].
Qed.

Lemma insert_sig_no_sigs k s i :
  input_no_sigs (insert_tap_script_sig k s i) = input_no_sigs i.
Proof. done. Qed.

Lemma same_but_sigs_refl p : same_but_sigs p p.
Proof. done. Qed.

Lemma same_but_sigs_sym p q : same_but_sigs p q → same_but_sigs q p.
Proof. intros (? & ? & ?). done. Qed.

Lemma same_but_sigs_trans p q r :
  same_but_sigs p q → same_but_sigs q r → same_but_sigs p r.
Proof. intros (?&?&?) (?&?&?). split_and!; congruence. Qed.

Lemma same_but_sigs_length p q :
  same_but_sigs p q → length (inputs p) = length (inputs q).
Proof. intros (_ & _ & Heq%(f_equal length)). by rewrite !length_fmap in Heq. Qed.

Lemma same_but_sigs_lookup p q i x y :
  same_but_sigs p q → inputs p !! i = Some x → inputs q !! i = Some y →
  input_no_sigs x = input_no_sigs y.
Proof.
  intros (_ & _ & Heq) Hx Hy. apply (f_equal (.!! i)) in Heq.
  rewrite !list_lookup_fmap, Hx, Hy in Heq. by apply (inj Some) in Heq.
Qed.

Lemma modify_sigs_same p p' k s i :
  modify_input (insert_tap_script_sig k s) i p = Ok p' → same_but_sigs p p'.
Proof.
  intros (x & Hx & ->)%modify_input_Ok. split_and!; [done..|]. simpl.
  rewrite list_fmap_insert, insert_sig_no_sigs.
  symmetry. apply list_insert_id. by rewrite list_lookup_fmap, Hx.
Qed.

Lemma psbt_wf_same p q : same_but_sigs p q → psbt_wf p → psbt_wf q.
Proof.
  intros Hs [Hl Ht]. pose proof (same_but_sigs_length _ _ Hs) as Hl'.
  destruct Hs as (Htx & _). split; congruence.
Qed.
End consequences.
