(* ===== verification/Toy.v ===== *)
(** A concrete instance of the crate interface.

    Keys, addresses and descriptors are their own text, hashes are
    polynomials over the hashed numbers, a signature is the signed message
    with the signer, and a PSBT's text is the digits of its fields.  The laws
    of [BitcoinLaws] are proved of it; the witnesses of the development
    evaluate on it. *)

From S2P Require Import Prelude Bitcoin.
From Stdlib Require Import Ascii.

(** * Self-delimiting encodings

    A value is a list of symbols below 64; a number has five bits per symbol,
    the sixth saying that more follow. *)

Definition symbolic (l : list N) : Prop := Forall (λ n, n < 64)%N l.

Class Ser (A : Type) := {
  ser : A → list N;
  de : list N → option (A * list N);
  de_ser a k : de (ser a ++ k) = Some (a, k);
  ser_symbolic a : symbolic (ser a);
}.

Fixpoint ser_num (fuel : nat) (n : N) : list N :=
  match fuel with
  | 0 => [n]
  | S fuel => if (n <? 32)%N then [n] else (32 + n mod 32)%N :: ser_num fuel (n / 32)
  end.
Fixpoint de_num (l : list N) : option (N * list N) :=
  match l with
  | [] => None
  | x :: l => if (x <? 32)%N then Some (x, l)
              else '(m, k) ← de_num l; Some (x - 32 + 32 * m, k)%N
  end.
Lemma de_ser_num fuel n k : (n < 2 ^ N.of_nat fuel)%N → de_num (ser_num fuel n ++ k) = Some (n, k).
Proof.
  revert n. induction fuel as [|fuel IH]; intros n Hn.
  - assert (n = 0)%N as -> by (simpl in Hn; lia). done.
  - rewrite Nat2N.inj_succ, N.pow_succ_r' in Hn. simpl. destruct (N.ltb_spec n 32) as [Hs|Hs].
    + simpl. by rewrite (proj2 (N.ltb_lt n 32)).
    + simpl. pose proof (N.mod_lt n 32 ltac:(done)) as Hm. pose proof (N.div_mod n 32 ltac:(done)) as Hd.
      revert Hm Hd. generalize (n mod 32)%N (n / 32)%N. intros m q Hm Hd.
      destruct (N.ltb_spec (32 + m) 32); [lia|]. rewrite IH by lia. simpl.
      f_equal. f_equal. lia.
Qed.

Lemma ser_num_symbolic fuel n : (n < 2 ^ N.of_nat fuel)%N → symbolic (ser_num fuel n).
Proof.
  revert n. induction fuel as [|fuel IH]; intros n Hn.
  - constructor; [simpl in Hn; lia|constructor].
  - rewrite Nat2N.inj_succ, N.pow_succ_r' in Hn. simpl. destruct (N.ltb_spec n 32) as [Hs|Hs].
    + constructor; [lia|constructor].
    + pose proof (N.mod_lt n 32 ltac:(done)) as Hm. pose proof (N.div_mod n 32 ltac:(done)) as Hd.
      revert Hm Hd. generalize (n mod 32)%N (n / 32)%N. intros m q Hm Hd. constructor; [lia|]. apply IH. lia.
Qed.
Lemma size_nat_bound n : (n < 2 ^ N.of_nat (N.size_nat n))%N.
Proof.
  destruct n as [|p]; [done|]. pose proof (N.size_gt (N.pos p)) as Hs. simpl in *.
  enough (N.of_nat (Pos.size_nat p) = N.pos (Pos.size p)) as -> by done.
  clear. induction p; simpl; lia.
Qed.

#[export, refine] Instance ser_N : Ser N := {| ser n := ser_num (N.size_nat n) n; de := de_num |}.
Proof.
  - intros n k. apply de_ser_num, size_nat_bound.
  - intros n. apply ser_num_symbolic, size_nat_bound.
Defined.

#[export, refine] Instance ser_unit : Ser unit := {| ser _ := []; de l := Some ((), l) |}.
Proof. { by intros []. } { constructor. } Defined.

#[export, refine] Instance ser_bool : Ser bool := {|
  ser (b : bool) := [if b then 1 else 0]%N;
  de l := match l with x :: l => Some ((x =? 1)%N, l) | [] => None end |}.
Proof. { by intros []. } { intros []; by repeat constructor. } Defined.

#[export, refine] Instance ser_pair {A B} `{Ser A, Ser B} : Ser (A * B) := {|
  ser x := ser x.1 ++ ser x.2;
  de l := '(a, l) ← de l; '(b, l) ← de l; Some ((a, b), l);
|}.
Proof.
  - intros [a b] k. simpl. by rewrite <-(assoc_L (++)), de_ser; simpl; rewrite de_ser.
  - intros [a b]. apply Forall_app; split; apply ser_symbolic.
Defined.

#[export, refine] Instance ser_option {A} `{Ser A} : Ser (option A) := {|
  ser x := match x with Some a => 1%N :: ser a | None => [0%N] end;
  de l := match l with
          | 1%N :: l => '(a, l) ← de l; Some (Some a, l)
          | 0%N :: l => Some (None, l)
          | _ => None
          end;
|}.
Proof.
  - intros [a|] k; simpl; by rewrite ?de_ser.
  - intros [a|]; (constructor; [done|]); [apply ser_symbolic|constructor].
Defined.

Fixpoint de_many {A} `{Ser A} (n : nat) (l : list N) : option (list A * list N) :=
  match n with
  | 0 => Some ([], l)
  | S n => '(a, l) ← de l; '(r, l) ← de_many n l; Some (a :: r, l)
  end.
Lemma de_many_ser {A} `{Ser A} (r : list A) k :
  de_many (length r) (mjoin (ser <$> r) ++ k) = Some (r, k).
Proof.
  induction r as [|a r IH]; [done|]. csimpl.
  by rewrite <-(assoc_L (++)), de_ser; simpl; rewrite IH.
Qed.
#[export, refine] Instance ser_list {A} `{Ser A} : Ser (list A) := {|
  ser r := ser (N.of_nat (length r)) ++ mjoin (ser <$> r);
  de l := '(n, l) ← de l; de_many (N.to_nat n) l;
|}.
Proof.
  - intros r k. rewrite <-(assoc_L (++)), de_ser. simpl. rewrite Nat2N.id. apply de_many_ser.
  - intros r. apply Forall_app; split; [apply ser_symbolic|].
    induction r as [|a r IH]; [constructor|]. csimpl. apply Forall_app; split; [apply ser_symbolic|done].
Defined.

(** Encodings through an injection. *)
Definition ser_inj {A B} `{Ser B} (f : A → B) (g : B → A) (gf : ∀ a, g (f a) = a) : Ser A.
Proof.
  refine {| ser a := ser (f a); de l := '(b, l) ← de l; Some (g b, l) |}.
  - intros a k. rewrite de_ser. simpl. by rewrite gf.
  - intros a. apply ser_symbolic.
Defined.

Fixpoint codes (s : string) : list N :=
  match s with
  | EmptyString => []
  | String c s => Ascii.N_of_ascii c :: codes s
  end.
Definition of_codes (l : list N) : string :=
  foldr (λ n s, String (Ascii.ascii_of_N n) s) EmptyString l.
Lemma of_codes_codes s : of_codes (codes s) = s.
Proof. induction s as [|c s IH]; simpl; [done|]. by rewrite Ascii.ascii_N_embedding, IH. Qed.
#[export] Instance ser_string : Ser string := ser_inj codes of_codes of_codes_codes.

#[export] Instance ser_gmap {K A} `{Countable K, Ser K, Ser A} : Ser (gmap K A) :=
  ser_inj map_to_list list_to_map (λ m, list_to_map_to_list m).

(** Symbols as the visible characters from 33 on. *)
Definition symbols_to_string (l : list N) : string :=
  foldr (λ n s, String (Ascii.ascii_of_N (33 + n)) s) EmptyString l.
Fixpoint string_to_symbols (s : string) : list N :=
  match s with
  | EmptyString => []
  | String c s => (Ascii.N_of_ascii c - 33)%N :: string_to_symbols s
  end.
Lemma string_to_symbols_to_string l :
  symbolic l → string_to_symbols (symbols_to_string l) = l.
Proof.
  induction 1 as [|n l Hn Hl IH]; [done|]. simpl. rewrite IH. f_equal.
  rewrite Ascii.N_ascii_embedding by lia. lia.
Qed.
Lemma symbols_visible l : symbolic l → visible_ascii (symbols_to_string l) = true.
Proof.
  induction 1 as [|n l Hn Hl IH]; [done|]. simpl. rewrite IH. unfold is_visible.
  rewrite Ascii.N_ascii_embedding by lia. rewrite !(proj2 (N.leb_le _ _)) by lia. done.
Qed.

(** The text of a value, and back; anything left over is an error. *)
Definition to_text {A} `{Ser A} (a : A) : string := symbols_to_string (ser a).
Definition of_text {A} `{Ser A} (s : string) : option A :=
  match de (string_to_symbols s) with Some (a, []) => Some a | _ => None end.
Lemma of_to_text {A} `{Ser A} (a : A) : of_text (to_text a) = Some a.
Proof.
  unfold of_text, to_text. rewrite string_to_symbols_to_string by apply ser_symbolic.
  by rewrite <-(app_nil_r (ser a)), de_ser.
Qed.

(** * The instance *)

Definition is_delimiter (c : Ascii.ascii) : bool :=
  existsb (Ascii.eqb c) ["("; ")"; ","; "{"; "}"]%char.

(** The maximal runs of characters between delimiters. *)
Fixpoint tokens_go (s acc : string) : list string :=
  let flush k := if bool_decide (acc = EmptyString) then k else acc :: k in
  match s with
  | EmptyString => flush []
  | String c s => if is_delimiter c then flush (tokens_go s EmptyString)
                  else tokens_go s (acc +:+ String c EmptyString)
  end.
Definition tokens (s : string) : list string := tokens_go s EmptyString.

Definition hash (l : list N) : N := foldl (λ h x, (h * 257 + x + 1) mod 2147483647)%N 5381%N l.

#[export] Instance toy_types : BitcoinTypes := {|
  Txid := N; XOnlyPublicKey := string; Keypair := string; TapLeafHash := N;
  TapNodeHash := N; TweakedPublicKey := N; Message := N;
  SchnorrSignature := N * string; Address := string; UncheckedAddress := string;
  Descriptor := string; DefiniteDescriptor := string; DerivedDescriptor := string;
  Tr := string; ControlBlock := unit; PsbtInputOther := unit; PsbtOther := unit;
|}.

Definition toy_txid (t : Transaction) : N :=
  hash (version t :: lock_time t ::
    (i ← input t; [txid (previous_output i); vout (previous_output i); sequence i]) ++
    (o ← output t; value o :: script_pubkey o)).

Definition pad (n : nat) (l : list N) : list N := take n (l ++ replicate n 0%N).

Definition toy_push_key (k : string) (s : ScriptBuf) : ScriptBuf := s ++ 32%N :: pad 32 (codes k).
Definition toy_push_int (n : Z) (s : ScriptBuf) : ScriptBuf :=
  if bool_decide (n = 2%Z) then s ++ [82%N]
  else s ++ [3; Z.to_N (n mod 256); Z.to_N (n / 256); 0]%N.
Definition toy_checksig (k : string) : ScriptBuf := toy_push_key k [] ++ [OP_CHECKSIG].
Definition toy_coop (p h : string) : ScriptBuf :=
  toy_push_int 2 (toy_push_key h (toy_checksig p) ++ [OP_CHECKSIGADD]) ++ [OP_NUMEQUAL].
Definition toy_recovery (k : string) (n : Z) : ScriptBuf :=
  toy_push_int n [] ++ [OP_CSV; OP_VERIFY] ++ toy_checksig k.

(** The leaves of the two descriptor shapes, with the keys of each. *)
Definition toy_leaves (d : string) : list (N * ScriptBuf * list string) :=
  match tokens d with
  | [_; _; "multi_a"; _; p; h; _; _; _; _; _; _; _; _; _; _] =>
      [(1%N, toy_coop p h, [p; h]); (2%N, toy_recovery p 61200, [p]);
       (2%N, toy_recovery h 65535, [h])]
  | [_; _; _; p; _; h] => [(1%N, toy_checksig p, [p]); (1%N, toy_checksig h, [h])]
  | _ => []
  end.

Definition toy_origins (d : string) : gmap string (list N) :=
  foldr (λ '(_, s, ks) m, foldr (λ k m, <[k := hash s :: default [] (m !! k)]> m) m ks)
        ∅ (toy_leaves d).

Definition toy_from_unsigned_tx (t : Transaction) : option Psbt :=
  if forallb (λ i, bool_decide (script_sig i = [] ∧ witness i = [])) (input t)
  then Some {| unsigned_tx := t;
               inputs := (λ _, {| witness_utxo := None; sighash_type := None;
                                  tap_key_origins := ∅; tap_script_sigs := ∅;
                                  input_other := () |}) <$> input t;
               psbt_other := () |}
  else None.

Definition toy_update (p : Psbt) (i : nat) (d : string) : option Psbt :=
  x ← inputs p !! i;
  Some {| unsigned_tx := unsigned_tx p;
          inputs := <[i := {| witness_utxo := witness_utxo x; sighash_type := sighash_type x;
                              tap_key_origins := toy_origins d;
                              tap_script_sigs := tap_script_sigs x; input_other := () |}]> (inputs p);
          psbt_other := () |}.

Definition toy_sighash (p : Psbt) (i : nat) (l : N) : option PsbtSighashMsg :=
  x ← inputs p !! i;
  o ← witness_utxo x;
  Some (TapSighash (hash [toy_txid (unsigned_tx p); N.of_nat i; value o;
                          default 0%N (sighash_type x); l])).

(** An input can be finalised when some leaf has the signature of each of the
    keys that occur in it. *)
Definition toy_input_complete (x : PsbtInput) : bool :=
  let origins := map_to_list (tap_key_origins x) in
  let leaves := mjoin (snd <$> origins) in
  existsb (λ l, forallb (λ '(k, ls),
      bool_decide (l ∉ ls) || bool_decide (is_Some (tap_script_sigs x !! (k, l))))
    origins) leaves.

Definition toy_finalize_inp (p : Psbt) (i : nat) : option Psbt :=
  x ← inputs p !! i; if toy_input_complete x then Some p else None.
Definition toy_finalize (p : Psbt) : option Psbt :=
  if forallb toy_input_complete (inputs p) then Some p else None.
Definition toy_extract (p : Psbt) : option Transaction :=
  let t := unsigned_tx p in
  Some {| version := version t; lock_time := lock_time t;
          input := (λ i, {| previous_output := previous_output i; script_sig := script_sig i;
                            sequence := sequence i; witness := [[1%N]] |}) <$> input t;
          output := output t |}.

#[export] Instance ser_OutPoint : Ser OutPoint.
Proof.
  refine (ser_inj (B:=N * N) (λ o, (txid o : N, vout o)) (λ '(t, v), {| txid := (t : Txid); vout := v |}) _).
  by intros [].
Defined.
#[export] Instance ser_TxOut : Ser TxOut.
Proof.
  refine (ser_inj (λ o, (value o, script_pubkey o)) (λ '(v, s), {| value := v; script_pubkey := s |}) _).
  by intros [].
Defined.
#[export] Instance ser_TxIn : Ser TxIn.
Proof.
  refine (ser_inj (B:=OutPoint * list N * N * list (list N)) (λ i, (previous_output i, script_sig i, sequence i, witness i))
          (λ '(o, s, n, w), {| previous_output := o; script_sig := s; sequence := n; witness := w |}) _).
  by intros [].
Defined.
#[export] Instance ser_Transaction : Ser Transaction.
Proof.
  refine (ser_inj (B:=N * N * list TxIn * list TxOut) (λ t, (version t, lock_time t, input t, output t))
          (λ '(v, l, i, o), {| version := v; lock_time := l; input := i; output := o |}) _).
  by intros [].
Defined.
#[export] Instance ser_TapSignature : Ser TapSignature.
Proof.
  refine (ser_inj (B:=N * string * N) (λ s, (signature s : N * string, sig_sighash_type s))
          (λ '(s, t), {| signature := s : SchnorrSignature; sig_sighash_type := t |}) _).
  by intros [].
Defined.
#[export] Instance ser_PsbtInput : Ser PsbtInput.
Proof.
  refine (ser_inj (B:=option TxOut * option N * gmap string (list N) * gmap (string * N) TapSignature)
    (λ x, (witness_utxo x, sighash_type x,
                 tap_key_origins x : gmap string (list N),
                 tap_script_sigs x : gmap (string * N) TapSignature))
          (λ '(w, t, o, s), {| witness_utxo := w; sighash_type := t;
             tap_key_origins := o : gmap XOnlyPublicKey (list TapLeafHash);
             tap_script_sigs := s : gmap (XOnlyPublicKey * TapLeafHash) TapSignature;
             input_other := () |}) _).
  by intros [? ? ? ? []].
Defined.
#[export] Instance ser_Psbt : Ser Psbt.
Proof.
  refine (ser_inj (B:=Transaction * list PsbtInput) (λ p, (unsigned_tx p, inputs p))
          (λ '(t, i), {| unsigned_tx := t; inputs := i; psbt_other := () |}) _).
  by intros [? ? []].
Defined.

Definition psbt_wfb (p : Psbt) : bool := bool_decide (length (inputs p) = length (input (unsigned_tx p)))
  && forallb (λ i, bool_decide (script_sig i = [] ∧ witness i = [])) (input (unsigned_tx p)).
Definition toy_psbt_from_str (s : string) : option Psbt :=
  if visible_ascii s then p ← of_text s; if psbt_wfb p then Some p else None else None.

(** An address text that starts with [b] is a mainnet one. *)
Definition toy_network (a : string) : Network :=
  match a with String "b" _ => Bitcoin | _ => Regtest end.
Definition toy_prefix (n : Network) : string :=
  match n with Bitcoin => "b" | _ => "r" end.

#[export] Instance toy_lib : BitcoinLib := {|
  compute_txid := toy_txid;
  txid_to_string t := pretty t;
  all_zeros := 0%N : Txid;
  vsize t := bip141_vsize (tx_shape t);
  minimal_non_dust _ := 330%N;
  from_seconds_ceil s :=
    let u := ((s + 511) / 512)%N in if (u <=? 65535)%N then Some (4194304 + u)%N else None;
  address_to_string a := a;
  address_script_pubkey a := [81; 32]%N ++ pad 32 (rev (codes a));
  address_from_str s := Some s : option UncheckedAddress;
  require_network u n := if bool_decide (toy_network u = n) then Some u : option Address else None;
  key_to_string k := k;
  key_from_str s := Some s : option XOnlyPublicKey;
  key_serialize k := pad 32 (codes k);
  x_only_public_key k := k : XOnlyPublicKey;
  sign_schnorr_no_aux_rand m k := (m, k) : SchnorrSignature;
  verify_schnorr s m k := bool_decide ((s : N * string) = (m, k));
  push_int := toy_push_int;
  push_opcode o s := s ++ [o];
  push_x_only_key := toy_push_key;
  leaf_hash_from_script s := hash s : TapLeafHash;
  node_hash_from_script s := hash s : TapNodeHash;
  node_from_node_hashes a b := hash [N.min a b; N.max a b] : TapNodeHash;
  tap_tweak k n := hash (n :: codes k) : TweakedPublicKey;
  p2tr_tweaked t n := toy_prefix n +:+ pretty (t : N) : Address;
  control_block_serialize _ := replicate 65 0%N;
  descriptor_from_str s := Some s : option Descriptor;
  descriptor_to_string d := d;
  at_derivation_index d _ := Some d : option DefiniteDescriptor;
  derived_descriptor d _ := Some d : option DerivedDescriptor;
  derived_address d n := Some (toy_prefix n +:+ d) : option Address;
  as_tr d := Some d : option Tr;
  iter_scripts t := fst <$> toy_leaves t;
  control_block t s := if bool_decide (s ∈ (toy_leaves t).*1.*2) then Some () else None;
  from_unsigned_tx := toy_from_unsigned_tx;
  update_input_with_descriptor := toy_update;
  sighash_msg := toy_sighash;
  finalize_mut := toy_finalize;
  finalize_inp_mut := toy_finalize_inp;
  extract := toy_extract;
  psbt_to_string p := to_text p;
  psbt_from_str := toy_psbt_from_str;
|}.

Lemma psbt_wfb_spec p : psbt_wfb p = true ↔ psbt_wf p.
Proof.
  unfold psbt_wfb, psbt_wf. rewrite andb_true_iff, bool_decide_eq_true, forallb_forall, Forall_forall.
  f_equiv. apply forall_proper. intros i. by rewrite bool_decide_eq_true, list_elem_of_In.
Qed.

#[export] Instance toy_laws : BitcoinLaws.
Proof.
  split; try done.
  - intros s Hs. cbn. destruct (N.leb_spec ((s + 511) / 512) 65535); [done|lia].
  - intros k. cbn. unfold pad. rewrite length_take, length_app, length_replicate. lia.
  - intros n s Hn. cbn. unfold toy_push_int. rewrite bool_decide_eq_false_2 by lia.
    rewrite !Z2N.inj_div, !Z2N.inj_mod, N2Z.id by lia. done.
  - intros t p. cbn. unfold toy_from_unsigned_tx. case_match eqn:Hu; [|done]. intros [= <-].
    split_and!; [done| |].
    + apply psbt_wfb_spec. unfold psbt_wfb. cbn. rewrite Hu, length_fmap.
      by rewrite bool_decide_eq_true_2.
    + cbn. apply Forall_fmap, Forall_true. done.
  - intros p i d p'. cbn. unfold toy_update.
    destruct (inputs p !! i) as [x|] eqn:Hx; [|done]. intros [= <-]. cbn.
    split_and!; [done|by rewrite length_insert| |].
    + intros j Hj. by rewrite list_lookup_insert_ne.
    + intros y [= <-]. eexists. split.
      * apply list_lookup_insert_eq. by eapply lookup_lt_Some.
      * done.
  - intros p Hp%psbt_wfb_spec. change (toy_psbt_from_str (to_text p) = Some p).
    unfold toy_psbt_from_str. rewrite of_to_text.
    unfold to_text. rewrite symbols_visible by apply ser_symbolic. cbn. by rewrite Hp.
  - intros p. apply symbols_visible, ser_symbolic.
  - intros s p. cbn. unfold toy_psbt_from_str. destruct (visible_ascii s); [|done].
    destruct (of_text s) as [q|]; [|done]. cbn.
    case_match eqn:Hp; [|done]. intros [= <-]. by apply psbt_wfb_spec.
  - intros s p. cbn. unfold toy_psbt_from_str. by destruct (visible_ascii s).
  - intros m k. cbn. by apply bool_decide_eq_true_2.
  - intros p p'. cbn. unfold toy_finalize. case_match; [by intros [= <-]|done].
  - intros p t. cbn. intros [= <-]. split_and!; [done..|]. cbn. by rewrite <-list_fmap_compose.
  - intros p q i l Hs. cbn. unfold toy_sighash.
    pose proof (same_but_sigs_lookup p q i) as Hl. pose proof Hs as (Htx & ? & Hi).
    assert (inputs p !! i = None ↔ inputs q !! i = None) as Hn.
    { rewrite !lookup_ge_None. apply (f_equal length) in Hi. rewrite !length_fmap in Hi. lia. }
    destruct (inputs p !! i) as [x|], (inputs q !! i) as [y|]; [|naive_solver..].
    specialize (Hl x y Hs eq_refl eq_refl). injection Hl as Hw Ht _ _. cbn.
    by rewrite Htx, Hw, Ht.
Qed.
