(* ===== verification/Types.v ===== *)
(** Protocol constants ([core/mod.rs]) and plain protocol data
    ([core/types.rs]). *)

From S2P Require Import Prelude Bitcoin.

Definition PHONE_RECOVERY_BLOCKS : N := 61200.
Definition HWW_RECOVERY_BLOCKS : N := 65535.
Definition MONTHS_PER_ROLLOVER : nat := 12.
Definition DEFAULT_MONTHLY_LIMIT_SATS : N := 10000000.
Definition DEFAULT_FEE_RATE_SAT_VB : N := 1.
Definition CONNECTOR_VALUE_SATS : N := 1000.
Definition MONTHLY_ALLOWANCE_DELAY_SECONDS : N := 5063 * 512.
Definition EMERGENCY_ACCESS_DELAY_SECONDS : N := 1182 * 512.

Record VaultUtxo `{BitcoinTypes} := {
  utxo_outpoint : OutPoint;
  utxo_txout : TxOut;
  confirmation_height : N;
}.

Section delays.
Context `{Laws : BitcoinLaws}.

(** The BIP68 encodings of the two delays: the time flag, bit 22, with
    5063 and 1182 units of 512 seconds. *)
Lemma monthly_delay_encodes :
  from_seconds_ceil MONTHLY_ALLOWANCE_DELAY_SECONDS = Some 4199367%N.
Proof. by rewrite from_seconds_ceil_spec. Qed.

Lemma emergency_delay_encodes :
  from_seconds_ceil EMERGENCY_ACCESS_DELAY_SECONDS = Some 4195486%N.
Proof. by rewrite from_seconds_ceil_spec. Qed.
End delays.
