(* ===== verification/Policy.v ===== *)
(** The vault and controller policies ([core/policy.rs]): descriptor texts,
    the lookup of a spending leaf, and the fast address encoder. *)

From S2P Require Import Prelude Bitcoin Toy Types.

Inductive SpendPath := Cooperative | PhoneRecovery | HwwRecovery.
#[export] Instance SpendPath_eq_dec : EqDecision SpendPath.
Proof. solve_decision. Defined.

Inductive ControllerPath := PhonePath | HwwPath.
#[export] Instance ControllerPath_eq_dec : EqDecision ControllerPath.
Proof. solve_decision. Defined.

Definition BIP341_NUMS_KEY : string :=
  "50929b74c1a04954b78b4b6035e97a5e078a5a0f28ec96d547bfee9ace803ac0".

(** [slice::windows]; a size of zero panics. *)
Fixpoint windows_go (n : nat) (l : list N) : list (list N) :=
  match l with
  | [] => []
  | _ :: l' => if bool_decide (n ≤ length l) then take n l :: windows_go n l' else []
  end.
Definition windows (n : nat) (l : list N) : result (list (list N)) :=
  if bool_decide (n = 0) then Panic else Ok (windows_go n l).

Section policy.
Context `{BitcoinLib}.

Record VaultPolicy := {
  vault_descriptor_of : Descriptor;
  vault_address_of : Address;
}.

Record VaultLeaf := {
  leaf_path : SpendPath;
  leaf_depth : N;
  leaf_script : ScriptBuf;
  leaf_hash : TapLeafHash;
  leaf_control_block : ControlBlock;
}.

Record ControllerLeaf := {
  cleaf_path : ControllerPath;
  cleaf_depth : N;
  cleaf_script : ScriptBuf;
  cleaf_hash : TapLeafHash;
  cleaf_control_block : ControlBlock;
}.

Record ControllerPolicy := {
  controller_descriptor_of : Descriptor;
  controller_address_of : Address;
  controller_phone : XOnlyPublicKey;
  controller_hww : XOnlyPublicKey;
}.

Record VaultAddressTemplate := {
  internal_key : XOnlyPublicKey;
  template_hww_pubkey : XOnlyPublicKey;
  hww_recovery_node : TapNodeHash;
}.

(** ** Scripts *)

Definition cooperative_script (phone hww : XOnlyPublicKey) : ScriptBuf :=
  push_opcode OP_NUMEQUAL (push_int 2 (push_opcode OP_CHECKSIGADD
    (push_x_only_key hww (push_opcode OP_CHECKSIG (push_x_only_key phone []))))).

Definition recovery_script (key : XOnlyPublicKey) (delay : N) : ScriptBuf :=
  push_opcode OP_CHECKSIG (push_x_only_key key (push_opcode OP_VERIFY
    (push_opcode OP_CSV (push_int (Z.of_N delay) [])))).

Definition single_key_script (key : XOnlyPublicKey) : ScriptBuf :=
  push_opcode OP_CHECKSIG (push_x_only_key key []).

(** ** [VaultAddressTemplate] *)

Definition template_new (hww_pubkey : XOnlyPublicKey) : result VaultAddressTemplate :=
  internal ← or_err (key_from_str BIP341_NUMS_KEY) "invalid BIP341 NUMS internal key";
  mret {| internal_key := internal; template_hww_pubkey := hww_pubkey;
          hww_recovery_node :=
            node_hash_from_script (recovery_script hww_pubkey HWW_RECOVERY_BLOCKS) |}.

Definition output_key (t : VaultAddressTemplate) (phone : XOnlyPublicKey) : TweakedPublicKey :=
  let cooperative_node :=
    node_hash_from_script (cooperative_script phone (template_hww_pubkey t)) in
  let phone_recovery_node :=
    node_hash_from_script (recovery_script phone PHONE_RECOVERY_BLOCKS) in
  let recovery_node := node_from_node_hashes phone_recovery_node (hww_recovery_node t) in
  let merkle_root := node_from_node_hashes cooperative_node recovery_node in
  tap_tweak (internal_key t) merkle_root.

Definition template_address (t : VaultAddressTemplate) (phone : XOnlyPublicKey)
    (network : Network) : Address :=
  p2tr_tweaked (output_key t phone) network.

(** ** [VaultPolicy] *)

Definition vault_descriptor_text (phone hww : XOnlyPublicKey) : string :=
  "tr(" +:+ BIP341_NUMS_KEY +:+ ",{multi_a(2," +:+ key_to_string phone +:+ ","
    +:+ key_to_string hww +:+ "),{and_v(v:older(" +:+ pretty PHONE_RECOVERY_BLOCKS
    +:+ "),pk(" +:+ key_to_string phone +:+ ")),and_v(v:older("
    +:+ pretty HWW_RECOVERY_BLOCKS +:+ "),pk(" +:+ key_to_string hww +:+ "))}})".

(** [descriptor.derived_descriptor(.., 0)?.address(network)?]. *)
Definition descriptor_address (d : Descriptor) (network : Network) : result Address :=
  derived ← or_err (derived_descriptor d 0) "derivation failed";
  or_err (derived_address derived network) "descriptor has no address".

Definition from_descriptor_for_network (text : string) (network : Network)
    : result VaultPolicy :=
  descriptor ← or_err (descriptor_from_str text) "invalid vault descriptor";
  address ← descriptor_address descriptor network;
  mret {| vault_descriptor_of := descriptor; vault_address_of := address |}.

Definition from_descriptor (text : string) : result VaultPolicy :=
  from_descriptor_for_network text Regtest.

Definition vault_new_for_network (phone hww : XOnlyPublicKey) (network : Network)
    : result VaultPolicy :=
  descriptor ← or_err (descriptor_from_str (vault_descriptor_text phone hww))
                      "invalid vault descriptor";
  address ← descriptor_address descriptor network;
  mret {| vault_descriptor_of := descriptor; vault_address_of := address |}.

Definition vault_definite_descriptor (p : VaultPolicy) : result DefiniteDescriptor :=
  or_err (at_derivation_index (vault_descriptor_of p) 0)
         "vault descriptor could not be made definite".

Definition vault_descriptor_string (p : VaultPolicy) : string :=
  descriptor_to_string (vault_descriptor_of p).

Definition target_depth (path : SpendPath) : N :=
  match path with
  | Cooperative => 1
  | PhoneRecovery | HwwRecovery => 2
  end.

Definition target_delay (path : SpendPath) : option N :=
  match path with
  | Cooperative => None
  | PhoneRecovery => Some PHONE_RECOVERY_BLOCKS
  | HwwRecovery => Some HWW_RECOVERY_BLOCKS
  end.

(** Does the script contain the pushed delay as consecutive bytes? *)
Definition contains_delay (delay : N) (script : ScriptBuf) : result bool :=
  let delay_script_num := push_int (Z.of_N delay) [] in
  ws ← windows (length delay_script_num) script;
  mret (existsb (λ w, bool_decide (w = delay_script_num)) ws).

(** The loop over the descriptor's leaves. *)
Fixpoint vault_leaf_search (tr : Tr) (path : SpendPath)
    (leaves : list (N * ScriptBuf)) : result VaultLeaf :=
  match leaves with
  | [] => Err "vault descriptor does not contain the requested leaf"
  | (depth, script) :: leaves' =>
      if negb (bool_decide (depth = target_depth path)) then vault_leaf_search tr path leaves'
      else
        found ← match target_delay path with
                | Some delay => contains_delay delay script
                | None => Ok true
                end;
        if negb found then vault_leaf_search tr path leaves'
        else
          control ← or_err (control_block tr script)
                           "vault leaf has no Taproot control block";
          mret {| leaf_path := path; leaf_depth := depth; leaf_script := script;
                  leaf_hash := leaf_hash_from_script script;
                  leaf_control_block := control |}
  end.

Definition vault_leaf (p : VaultPolicy) (path : SpendPath) : result VaultLeaf :=
  derived ← or_err (derived_descriptor (vault_descriptor_of p) 0) "derivation failed";
  tr ← or_err (as_tr derived) "vault descriptor is not Taproot";
  vault_leaf_search tr path (iter_scripts tr).

(** ** [ControllerPolicy] *)

Definition controller_descriptor_text (phone hww : XOnlyPublicKey) : string :=
  "tr(" +:+ BIP341_NUMS_KEY +:+ ",{pk(" +:+ key_to_string phone +:+ "),pk("
    +:+ key_to_string hww +:+ ")})".

Definition controller_new_for_network (phone hww : XOnlyPublicKey) (network : Network)
    : result ControllerPolicy :=
  descriptor ← or_err (descriptor_from_str (controller_descriptor_text phone hww))
                      "invalid controller descriptor";
  address ← descriptor_address descriptor network;
  mret {| controller_descriptor_of := descriptor; controller_address_of := address;
          controller_phone := phone; controller_hww := hww |}.

Definition controller_definite_descriptor (p : ControllerPolicy) : result DefiniteDescriptor :=
  or_err (at_derivation_index (controller_descriptor_of p) 0)
         "controller descriptor could not be made definite".

Definition controller_descriptor_string (p : ControllerPolicy) : string :=
  descriptor_to_string (controller_descriptor_of p).

Fixpoint controller_leaf_search (tr : Tr) (path : ControllerPath) (target_script : ScriptBuf)
    (leaves : list (N * ScriptBuf)) : result ControllerLeaf :=
  match leaves with
  | [] => Err "controller descriptor does not contain the requested leaf"
  | (depth, script) :: leaves' =>
      if negb (bool_decide (script = target_script))
      then controller_leaf_search tr path target_script leaves'
      else
        control ← or_err (control_block tr script)
                         "controller leaf has no Taproot control block";
        mret {| cleaf_path := path; cleaf_depth := depth; cleaf_script := script;
                cleaf_hash := leaf_hash_from_script script;
                cleaf_control_block := control |}
  end.

Definition controller_leaf (p : ControllerPolicy) (path : ControllerPath)
    : result ControllerLeaf :=
  let key := match path with
             | PhonePath => controller_phone p
             | HwwPath => controller_hww p
             end in
  derived ← or_err (derived_descriptor (controller_descriptor_of p) 0) "derivation failed";
  tr ← or_err (as_tr derived) "controller descriptor is not Taproot";
  controller_leaf_search tr path (single_key_script key) (iter_scripts tr).
End policy.

(** * Which leaf is found *)

Section windows_facts.
Implicit Types (d rest l : list N).

Lemma windows_go_prefix d rest : 0 < length d → d ∈ windows_go (length d) (d ++ rest).
Proof.
  intros Hd. destruct d as [|x d]; [simpl in *; lia|]. simpl.
  rewrite bool_decide_eq_true_2 by (rewrite length_app; simpl; lia).
  rewrite take_app_length. left.
Qed.

(** The windows of [n] elements are the segments of that length. *)
Lemma elem_of_windows_go n l w :
  0 < n → w ∈ windows_go n l ↔ length w = n ∧ ∃ a b, l = a ++ w ++ b.
Proof.
  intros Hn. induction l as [|x l IH]; simpl.
  - split; [by intros ?%elem_of_nil|]. intros (<- & a & b & Heq).
    destruct a, w; simpl in *; (lia || done).
  - case_bool_decide as Hl; [rewrite elem_of_cons, IH|]; split.
    + intros [->|(? & a & b & ->)]; [|split; [done|by exists (x :: a), b]].
      split; [rewrite length_take; simpl in *; lia|]. exists [], (drop n (x :: l)).
      simpl. by rewrite take_drop.
    + intros (Hw & [|y a] & b & Heq); simpl in Heq.
      * left. by rewrite Heq, <-Hw, take_app_length.
      * right. split; [done|]. injection Heq as -> ->. eauto.
    + by intros ?%elem_of_nil.
    + intros (Hw & a & b & Heq). apply (f_equal length) in Heq.
      rewrite !length_app in Heq. simpl in *. lia.
Qed.
End windows_facts.

Section leaf_lookup.
Context `{Laws : BitcoinLaws}.
Implicit Types (phone hww key : XOnlyPublicKey).

(** [iter_scripts] and [control_block] of a policy made from the vault
    descriptor of two keys, as miniscript compiles it. *)
Definition compiles_vault (p : VaultPolicy) phone hww : Prop :=
  ∃ d tr, derived_descriptor (vault_descriptor_of p) 0 = Some d ∧ as_tr d = Some tr ∧
    iter_scripts tr = [(1%N, cooperative_script phone hww);
                       (2%N, recovery_script phone PHONE_RECOVERY_BLOCKS);
                       (2%N, recovery_script hww HWW_RECOVERY_BLOCKS)] ∧
    Forall (λ l, is_Some (control_block tr l.2)) (iter_scripts tr).

Definition compiles_controller (p : ControllerPolicy) : Prop :=
  ∃ d tr, derived_descriptor (controller_descriptor_of p) 0 = Some d ∧ as_tr d = Some tr ∧
    iter_scripts tr = [(1%N, single_key_script (controller_phone p));
                       (1%N, single_key_script (controller_hww p))] ∧
    Forall (λ l, is_Some (control_block tr l.2)) (iter_scripts tr).

Lemma recovery_script_bytes key n :
  (32768 ≤ n ≤ 65535)%N →
  recovery_script key n =
    [3; n mod 256; n / 256; 0; OP_CSV; OP_VERIFY; 32]%N ++ key_serialize key ++ [OP_CHECKSIG].
Proof.
  intros Hn. unfold recovery_script.
  rewrite !push_opcode_spec, push_x_only_key_spec, push_int_u16 by done.
  by rewrite <-!(assoc_L (++)).
Qed.

(** The pushed delay occurs in the script's own bytes, not as a push. *)
Definition delay_bytes (n : N) : list N := [3; n mod 256; n / 256; 0]%N.

Lemma contains_delay_spec n script :
  (32768 ≤ n ≤ 65535)%N →
  contains_delay n script = Ok (bool_decide (delay_bytes n ∈ windows_go 4 script)).
Proof.
  intros Hn. unfold contains_delay. rewrite push_int_u16 by done.
  change (windows _ script) with (Ok (windows_go 4 script)).
  unfold mbind, result_bind, mret, result_ret. f_equal. fold (delay_bytes n).
  apply eq_bool_prop_intro. rewrite bool_decide_spec, Is_true_true, existsb_exists.
  setoid_rewrite bool_decide_eq_true. setoid_rewrite <-list_elem_of_In. naive_solver.
Qed.

Lemma own_delay_found key n :
  (32768 ≤ n ≤ 65535)%N → delay_bytes n ∈ windows_go 4 (recovery_script key n).
Proof.
  intros Hn. rewrite recovery_script_bytes by done.
  apply (windows_go_prefix (delay_bytes n)). simpl. lia.
Qed.

(** Every byte of the phone's recovery script is fixed but those of the key:
    the HWW delay occurs in it exactly when it occurs in the key. *)
Lemma hww_delay_in_phone_script phone :
  delay_bytes HWW_RECOVERY_BLOCKS ∈ windows_go 4 (recovery_script phone PHONE_RECOVERY_BLOCKS) ↔
  delay_bytes HWW_RECOVERY_BLOCKS ∈ windows_go 4 (key_serialize phone).
Proof.
  rewrite recovery_script_bytes, !elem_of_windows_go by (unfold PHONE_RECOVERY_BLOCKS; lia).
  pose proof (key_serialize_length phone) as Hk. revert Hk.
  generalize (key_serialize phone) as k. intros k Hk.
  change (delay_bytes HWW_RECOVERY_BLOCKS) with [3; 255; 255; 0]%N.
  split; intros [? (a & b & Heq)]; (split; [done|]).
  - do 7 (destruct a as [|? a]; [simpl in Heq; discriminate|simpl in Heq; injection Heq as _ Heq]).
    change (k ++ [OP_CHECKSIG] = a ++ [3; 255; 255; 0] ++ b)%N in Heq.
    destruct (decide (b = [])) as [->|Hb].
    + exfalso. rewrite app_nil_r in Heq.
      change [3; 255; 255; 0]%N with ([3; 255; 255] ++ [0])%N in Heq.
      rewrite (assoc_L (++)) in Heq. by apply app_inj_tail in Heq as [_ ?].
    + destruct (exists_last Hb) as (b' & y & ->).
      rewrite !(assoc_L (++)) in Heq. apply app_inj_tail in Heq as [-> _].
      exists a, b'. by rewrite <-(assoc_L (++)).
  - subst k. exists ([3; 16; 239; 0; OP_CSV; OP_VERIFY; 32]%N ++ a), (b ++ [OP_CHECKSIG]).
    by rewrite <-!(assoc_L (++)).
Qed.

(** The script of the leaf that the search returns. *)
Definition expected_leaf_script phone hww (path : SpendPath) : ScriptBuf :=
  match path with
  | Cooperative => cooperative_script phone hww
  | PhoneRecovery => recovery_script phone PHONE_RECOVERY_BLOCKS
  | HwwRecovery =>
      if decide (delay_bytes HWW_RECOVERY_BLOCKS ∈ windows_go 4 (key_serialize phone))
      then recovery_script phone PHONE_RECOVERY_BLOCKS
      else recovery_script hww HWW_RECOVERY_BLOCKS
  end.

Lemma vault_leaf_returns p phone hww path :
  compiles_vault p phone hww →
  ∃ l, vault_leaf p path = Ok l ∧ leaf_path l = path ∧
    leaf_depth l = target_depth path ∧
    leaf_script l = expected_leaf_script phone hww path ∧
    leaf_hash l = leaf_hash_from_script (leaf_script l).
Proof.
  intros (d & tr & Hd & Htr & Hs & Hc). unfold vault_leaf. rewrite Hd. simpl.
  rewrite Htr. simpl. rewrite Hs in Hc |- *.
  apply Forall_cons_iff in Hc as [[c1 H1] [[c2 H2] [[c3 H3] _]%Forall_cons_iff]%Forall_cons_iff].
  simpl in *.
  destruct path; simpl; rewrite ?contains_delay_spec by
    (unfold PHONE_RECOVERY_BLOCKS, HWW_RECOVERY_BLOCKS; lia); simpl.
  - rewrite H1. simpl. by eexists.
  - rewrite bool_decide_eq_true_2 by (apply own_delay_found; unfold PHONE_RECOVERY_BLOCKS; lia).
    simpl. rewrite H2. simpl. by eexists.
  - destruct (decide (delay_bytes _ ∈ windows_go 4 (key_serialize _))) as [Hin|Hin];
      rewrite <-hww_delay_in_phone_script in Hin.
    + rewrite bool_decide_eq_true_2 by done. simpl. rewrite H2. simpl. by eexists.
    + rewrite bool_decide_eq_false_2 by done. simpl.
      rewrite bool_decide_eq_true_2 by (apply own_delay_found; unfold HWW_RECOVERY_BLOCKS; lia).
      simpl. rewrite H3. simpl. by eexists.
Qed.

(** [VaultPolicy::leaf] returns, for each spending path, the leaf of
    that path with its depth, script and hash; for the HWW recovery path as
    long as the pushed HWW delay does not occur among the bytes of the phone
    key. *)
Theorem vault_leaf_selects p phone hww path :
  compiles_vault p phone hww →
  (path = HwwRecovery →
     delay_bytes HWW_RECOVERY_BLOCKS ∉ windows_go 4 (key_serialize phone)) →
  ∃ l, vault_leaf p path = Ok l ∧ leaf_path l = path ∧ leaf_depth l = target_depth path ∧
    leaf_script l = match path with
                    | Cooperative => cooperative_script phone hww
                    | PhoneRecovery => recovery_script phone PHONE_RECOVERY_BLOCKS
                    | HwwRecovery => recovery_script hww HWW_RECOVERY_BLOCKS
                    end ∧
    leaf_hash l = leaf_hash_from_script (leaf_script l).
Proof.
  intros Hc Hp. destruct (vault_leaf_returns p phone hww path Hc) as (l & ? & ? & ? & Hs & ?).
  exists l. split_and!; [done..| |done]. rewrite Hs. destruct path; simpl; [done..|].
  by rewrite decide_False by auto.
Qed.

(** C40: The recovery leaves are told apart by a search for the delay's
    push as a byte string, so a phone key with the bytes [03 ff ff 00] makes
    [VaultPolicy::leaf] return the phone's recovery leaf for the HWW path. *)
Theorem vault_leaf_hww_confused p phone hww :
  compiles_vault p phone hww →
  delay_bytes HWW_RECOVERY_BLOCKS ∈ windows_go 4 (key_serialize phone) →
  ∃ l, vault_leaf p HwwRecovery = Ok l ∧
    leaf_script l = recovery_script phone PHONE_RECOVERY_BLOCKS.
Proof.
  intros Hc Hp. destruct (vault_leaf_returns p phone hww HwwRecovery Hc) as (l & ? & ? & ? & Hs & ?).
  exists l. split; [done|]. rewrite Hs. simpl. by rewrite decide_True.
Qed.

(** [ControllerPolicy::leaf] returns the single-signature leaf of the
    device asked for. *)
Theorem controller_leaf_selects p path :
  compiles_controller p →
  ∃ l, controller_leaf p path = Ok l ∧ cleaf_path l = path ∧ cleaf_depth l = 1%N ∧
    cleaf_script l = single_key_script
      (match path with PhonePath => controller_phone p | HwwPath => controller_hww p end) ∧
    cleaf_hash l = leaf_hash_from_script (cleaf_script l).
Proof.
  intros (d & tr & Hd & Htr & Hs & Hc). unfold controller_leaf. rewrite Hd. simpl.
  rewrite Htr. simpl. rewrite Hs in Hc |- *.
  apply Forall_cons_iff in Hc as [[c1 H1] [[c2 H2] _]%Forall_cons_iff]. simpl in *.
  destruct path.
  - rewrite bool_decide_eq_true_2 by done. simpl. rewrite H1. simpl. by eexists.
  - destruct (decide (single_key_script (controller_phone p) = single_key_script (controller_hww p)))
      as [Heq|Hne].
    + rewrite bool_decide_eq_true_2 by done. simpl. rewrite H1. simpl.
      eexists. split_and!; [done..|]. done.
    + rewrite bool_decide_eq_false_2 by done. simpl.
      rewrite bool_decide_eq_true_2 by done. simpl. rewrite H2. simpl. by eexists.
Qed.
End leaf_lookup.
(** The witnesses' keys. *)
Definition toy_phone : Toy.toy_types.(XOnlyPublicKey) := "phone".
Definition toy_hww : Toy.toy_types.(XOnlyPublicKey) := "hww".

Definition toy_vault : VaultPolicy :=
  let d : Descriptor := vault_descriptor_text toy_phone toy_hww in
  {| vault_descriptor_of := d; vault_address_of := "r" +:+ d |}.
Definition toy_controller : ControllerPolicy :=
  let d : Descriptor := controller_descriptor_text toy_phone toy_hww in
  {| controller_descriptor_of := d; controller_address_of := "r" +:+ d;
     controller_phone := toy_phone; controller_hww := toy_hww |}.

Lemma toy_vault_new : vault_new_for_network toy_phone toy_hww Regtest = Ok toy_vault.
Proof. reflexivity. Qed.
Lemma toy_controller_new : controller_new_for_network toy_phone toy_hww Regtest = Ok toy_controller.
Proof. reflexivity. Qed.

Lemma toy_compiles_vault : compiles_vault toy_vault toy_phone toy_hww.
Proof.
  do 2 eexists. split_and!; [reflexivity|reflexivity|reflexivity|].
  repeat constructor; vm_compute; by eexists.
Qed.
Lemma toy_compiles_controller : compiles_controller toy_controller.
Proof.
  do 2 eexists. split_and!; [reflexivity|reflexivity|reflexivity|].
  repeat constructor; vm_compute; by eexists.
Qed.

(** A phone key with the HWW delay's push in its bytes. *)
Definition toy_bad_phone : XOnlyPublicKey := Toy.of_codes [112; 3; 255; 255; 0; 112]%N.
Definition toy_bad_vault : VaultPolicy :=
  let d : Descriptor := vault_descriptor_text toy_bad_phone toy_hww in
  {| vault_descriptor_of := d; vault_address_of := "r" +:+ d |}.

Lemma toy_compiles_bad_vault : compiles_vault toy_bad_vault toy_bad_phone toy_hww.
Proof.
  do 2 eexists. split_and!; [reflexivity|reflexivity|reflexivity|].
  repeat constructor; vm_compute; by eexists.
Qed.

Lemma vault_leaf_selects_witness :
  ∃ l, vault_leaf toy_vault HwwRecovery = Ok l ∧ leaf_path l = HwwRecovery ∧
    leaf_depth l = 2%N ∧ leaf_script l = recovery_script toy_hww HWW_RECOVERY_BLOCKS ∧
    leaf_hash l = leaf_hash_from_script (leaf_script l).
Proof.
  apply (vault_leaf_selects toy_vault toy_phone toy_hww HwwRecovery toy_compiles_vault).
  intros _. refine (bool_decide_eq_false_1 (_ ∈ _) _). reflexivity.
Defined.

Lemma vault_leaf_hww_confused_witness :
  ∃ l, vault_leaf toy_bad_vault HwwRecovery = Ok l ∧
    leaf_script l = recovery_script toy_bad_phone PHONE_RECOVERY_BLOCKS.
Proof.
  apply (vault_leaf_hww_confused toy_bad_vault toy_bad_phone toy_hww toy_compiles_bad_vault).
  refine (bool_decide_eq_true_1 (_ ∈ _) _). reflexivity.
Defined.

Lemma controller_leaf_selects_witness :
  ∃ l, controller_leaf toy_controller HwwPath = Ok l ∧ cleaf_path l = HwwPath ∧
    cleaf_depth l = 1%N ∧ cleaf_script l = single_key_script toy_hww ∧
    cleaf_hash l = leaf_hash_from_script (cleaf_script l).
Proof. apply (controller_leaf_selects toy_controller HwwPath toy_compiles_controller). Defined.
