(* ===== verification/Transactions.v ===== *)
(** PSBT construction, signing, verification and size estimation
    ([core/transactions.rs]). *)

From S2P Require Import Prelude Bitcoin Toy Types Policy.

Section transactions.
Context `{BitcoinLib}.

(** ** Construction *)

(** The loop of the three constructors: input [i] gets its previous output,
    the default sighash type and the descriptor chosen for it. *)
Fixpoint fill_inputs (choose : nat → DefiniteDescriptor * string) (i : nat)
    (prevouts : list TxOut) (psbt : Psbt) : result Psbt :=
  match prevouts with
  | [] => Ok psbt
  | prevout :: prevouts' =>
      psbt ← modify_input (set_witness_utxo prevout) i psbt;
      psbt ← modify_input (set_sighash_type TAP_SIGHASH_DEFAULT) i psbt;
      psbt ← or_err (update_input_with_descriptor psbt i (choose i).1) (choose i).2;
      fill_inputs choose (S i) prevouts' psbt
  end.

Definition create_vault_psbt (transaction : Transaction) (prevouts : list TxOut)
    (policy : VaultPolicy) : result Psbt :=
  _ ← bail_if (negb (bool_decide (length (input transaction) = length prevouts)))
        "transaction inputs and previous outputs differ in number";
  psbt ← or_err (from_unsigned_tx transaction) "not an unsigned transaction";
  descriptor ← vault_definite_descriptor policy;
  fill_inputs (λ _, (descriptor, "failed to add vault descriptor to PSBT input"))
    0 prevouts psbt.

(** The two role lists name every input exactly once. *)
Definition not_exact_partition (count : nat) (vault controller : list nat) : bool :=
  let vault_indexes : gset nat := list_to_set vault in
  let controller_indexes : gset nat := list_to_set controller in
  negb (bool_decide (size vault_indexes = length vault)) ||
  negb (bool_decide (size controller_indexes = length controller)) ||
  negb (bool_decide (vault_indexes ## controller_indexes)) ||
  negb (bool_decide (size vault_indexes + size controller_indexes = count)) ||
  existsb (λ i, bool_decide (count ≤ i))
    (elements vault_indexes ++ elements controller_indexes).

Definition create_policy_psbt (transaction : Transaction) (prevouts : list TxOut)
    (vault_input_indexes controller_input_indexes : list nat)
    (vault : VaultPolicy) (controller : ControllerPolicy) : result Psbt :=
  _ ← bail_if (negb (bool_decide (length (input transaction) = length prevouts)))
        "transaction inputs and previous outputs differ in number";
  let vault_indexes : gset nat := list_to_set vault_input_indexes in
  _ ← bail_if (not_exact_partition (length (input transaction))
                 vault_input_indexes controller_input_indexes)
        "policy PSBT input roles do not form an exact input partition";
  psbt ← or_err (from_unsigned_tx transaction) "not an unsigned transaction";
  vault_descriptor ← vault_definite_descriptor vault;
  controller_descriptor ← controller_definite_descriptor controller;
  fill_inputs (λ i,
      if bool_decide (i ∈ vault_indexes)
      then (vault_descriptor, "failed to add vault descriptor to PSBT input")
      else (controller_descriptor, "failed to add controller descriptor to PSBT input"))
    0 prevouts psbt.

Definition create_controller_psbt (transaction : Transaction) (prevouts : list TxOut)
    (controller : ControllerPolicy) : result Psbt :=
  _ ← bail_if (negb (bool_decide (length (input transaction) = length prevouts)))
        "transaction inputs and previous outputs differ in number";
  psbt ← or_err (from_unsigned_tx transaction) "not an unsigned transaction";
  descriptor ← controller_definite_descriptor controller;
  fill_inputs (λ _, (descriptor, "failed to add controller descriptor to PSBT input"))
    0 prevouts psbt.

(** ** Sizes *)

Definition set_witness (w : list (list N)) (i : TxIn) : TxIn :=
  {| previous_output := previous_output i; script_sig := script_sig i;
     sequence := sequence i; witness := w |}.
Definition set_inputs (l : list TxIn) (t : Transaction) : Transaction :=
  {| version := version t; lock_time := lock_time t; input := l; output := output t |}.

(** A placeholder signature: [0_u8; 64]. *)
Definition zero_signature : list N := replicate 64 0%N.

Definition vault_signature_count (path : SpendPath) : nat :=
  match path with
  | Cooperative => 2
  | PhoneRecovery | HwwRecovery => 1
  end.

Definition vault_placeholder (leaf : VaultLeaf) (count : nat) : list (list N) :=
  replicate count zero_signature ++
    [leaf_script leaf; control_block_serialize (leaf_control_block leaf)].
Definition controller_placeholder (leaf : ControllerLeaf) : list (list N) :=
  [zero_signature; cleaf_script leaf; control_block_serialize (cleaf_control_block leaf)].

Definition signed_vsize (transaction : Transaction) : N := vsize transaction.

Definition estimate_vault_vsize (transaction : Transaction) (policy : VaultPolicy)
    (path : SpendPath) : result N :=
  leaf ← vault_leaf policy path;
  let w := vault_placeholder leaf (vault_signature_count path) in
  mret (vsize (set_inputs (set_witness w <$> input transaction) transaction)).

(** The loop that gives each input the witness of its role. *)
Fixpoint role_witnesses (vault_indexes controller_indexes : gset nat)
    (vault_witness controller_witness : list (list N)) (i : nat) (l : list TxIn)
    : result (list TxIn) :=
  match l with
  | [] => Ok []
  | x :: l' =>
      w ← if bool_decide (i ∈ vault_indexes) then Ok vault_witness
          else if bool_decide (i ∈ controller_indexes) then Ok controller_witness
          else Err "policy vsize input has no role";
      l' ← role_witnesses vault_indexes controller_indexes vault_witness
             controller_witness (S i) l';
      mret (set_witness w x :: l')
  end.

Definition estimate_policy_vsize (transaction : Transaction) (vault : VaultPolicy)
    (vault_path : SpendPath) (vault_input_indexes : list nat)
    (controller : ControllerPolicy) (controller_path : ControllerPath)
    (controller_input_indexes : list nat) : result N :=
  vleaf ← vault_leaf vault vault_path;
  cleaf ← controller_leaf controller controller_path;
  let vault_indexes : gset nat := list_to_set vault_input_indexes in
  let controller_indexes : gset nat := list_to_set controller_input_indexes in
  _ ← bail_if (negb (bool_decide (vault_indexes ## controller_indexes)) ||
               negb (bool_decide (size vault_indexes + size controller_indexes
                                  = length (input transaction))))
        "policy vsize input roles do not form an exact input partition";
  l ← role_witnesses vault_indexes controller_indexes
        (vault_placeholder vleaf (vault_signature_count vault_path))
        (controller_placeholder cleaf) 0 (input transaction);
  mret (vsize (set_inputs l transaction)).

Definition estimate_controller_vsize (transaction : Transaction)
    (controller : ControllerPolicy) (path : ControllerPath) : result N :=
  leaf ← controller_leaf controller path;
  mret (vsize (set_inputs (set_witness (controller_placeholder leaf) <$> input transaction)
                          transaction)).

(** ** Revocation of connectors *)

Definition revocation_input (utxo : VaultUtxo) : TxIn :=
  {| previous_output := utxo_outpoint utxo; script_sig := [];
     sequence := ENABLE_RBF_NO_LOCKTIME; witness := [] |}.

Definition build_controller_revocation_psbt (controller_utxos : list VaultUtxo)
    (destination : ScriptBuf) (fee_rate_sat_vb : N) (controller : ControllerPolicy)
    : result (Psbt * N) :=
  _ ← bail_if (bool_decide (controller_utxos = []))
        "no live controller outputs were provided for revocation";
  let controller_script := address_script_pubkey (controller_address_of controller) in
  _ ← bail_if (existsb (λ u, negb (bool_decide
                 (script_pubkey (utxo_txout u) = controller_script))) controller_utxos)
        "revocation input is outside the fixed controller policy";
  total_input ← try_fold (sum_step (λ u, value (utxo_txout u))
                  "controller revocation input total overflowed") 0%N controller_utxos;
  let inputs := revocation_input <$> controller_utxos in
  let template := {| version := VERSION_TWO; lock_time := LOCK_TIME_ZERO; input := inputs;
                     output := [{| value := 1; script_pubkey := destination |}] |} in
  size ← estimate_controller_vsize template controller PhonePath;
  fee_sats ← or_err (checked_mul size fee_rate_sat_vb) "controller revocation fee overflowed";
  change_sats ← or_err (checked_sub total_input fee_sats)
                       "controller outputs cannot pay the revocation fee";
  _ ← bail_if (change_sats <? minimal_non_dust destination)%N
        "controller revocation would create dust change";
  let transaction := {| version := VERSION_TWO; lock_time := LOCK_TIME_ZERO; input := inputs;
                        output := [{| value := change_sats; script_pubkey := destination |}] |} in
  psbt ← create_controller_psbt transaction (utxo_txout <$> controller_utxos) controller;
  mret (psbt, fee_sats).

(** ** Signing and verification *)

(** Every input must leave the sighash type out or set it to the default. *)
Definition validate_default_sighashes (psbt : Psbt) : result unit :=
  for_each (λ i, match sighash_type i with
                 | Some t => bail_if (negb (bool_decide (t = TAP_SIGHASH_DEFAULT)))
                                     "PSBT input must use SIGHASH_DEFAULT"
                 | None => Ok tt
                 end) (inputs psbt).

(** The BIP341 message of an input for a leaf. *)
Definition tap_message (psbt : Psbt) (i : nat) (leaf : TapLeafHash) (msg : string)
    : result Message :=
  m ← or_err (sighash_msg psbt i leaf) "sighash computation failed";
  match m with
  | TapSighash m => Ok m
  | OtherSighash => Err msg
  end.

Definition sign_vault_input (leaf : VaultLeaf) (keypair : Keypair) (i : nat) : M Psbt unit :=
  psbt ← get;
  _ ← pure (bail_if (bool_decide (length (inputs psbt) ≤ i))
              "vault signing input index is out of range");
  let signing_pubkey := x_only_public_key keypair in
  x ← pure (index (inputs psbt) i);
  origins ← pure (or_err (tap_key_origins x !! signing_pubkey)
                    "signing key is not in PSBT input");
  _ ← pure (bail_if (negb (mem (leaf_hash leaf) origins))
              "signing key is not authorized by the leaf");
  message ← pure (tap_message psbt i (leaf_hash leaf)
                    "vault input did not produce a Taproot sighash");
  psbt ← pure (modify_input (insert_tap_script_sig (signing_pubkey, leaf_hash leaf)
                 {| signature := sign_schnorr_no_aux_rand message keypair;
                    sig_sighash_type := TAP_SIGHASH_DEFAULT |}) i psbt);
  put psbt.

Definition sign_vault_psbt_inputs (policy : VaultPolicy) (path : SpendPath)
    (keypair : Keypair) (input_indexes : list nat) : M Psbt unit :=
  psbt ← get;
  _ ← pure (validate_default_sighashes psbt);
  leaf ← pure (vault_leaf policy path);
  for_eachM (sign_vault_input leaf keypair) input_indexes.

Definition sign_vault_psbt (policy : VaultPolicy) (path : SpendPath) (keypair : Keypair)
    : M Psbt unit :=
  psbt ← get;
  sign_vault_psbt_inputs policy path keypair (seq 0 (length (inputs psbt))).

Definition sign_controller_input (leaf : ControllerLeaf) (keypair : Keypair) (i : nat)
    : M Psbt unit :=
  psbt ← get;
  _ ← pure (bail_if (bool_decide (length (inputs psbt) ≤ i))
              "controller signing input index is out of range");
  let signing_pubkey := x_only_public_key keypair in
  x ← pure (index (inputs psbt) i);
  origins ← pure (or_err (tap_key_origins x !! signing_pubkey)
                    "controller signing key is not in PSBT input");
  _ ← pure (bail_if (negb (mem (cleaf_hash leaf) origins))
              "signing key is not authorized by the controller leaf");
  message ← pure (tap_message psbt i (cleaf_hash leaf)
                    "controller input did not produce a Taproot sighash");
  psbt ← pure (modify_input (insert_tap_script_sig (signing_pubkey, cleaf_hash leaf)
                 {| signature := sign_schnorr_no_aux_rand message keypair;
                    sig_sighash_type := TAP_SIGHASH_DEFAULT |}) i psbt);
  put psbt.

Definition sign_controller_psbt_inputs (policy : ControllerPolicy) (path : ControllerPath)
    (keypair : Keypair) (input_indexes : list nat) : M Psbt unit :=
  psbt ← get;
  _ ← pure (validate_default_sighashes psbt);
  leaf ← pure (controller_leaf policy path);
  for_eachM (sign_controller_input leaf keypair) input_indexes.

Definition verify_vault_input (psbt : Psbt) (leaf : VaultLeaf)
    (signing_pubkey : XOnlyPublicKey) (i : nat) : result unit :=
  _ ← bail_if (bool_decide (length (inputs psbt) ≤ i))
        "vault verification input index is out of range";
  x ← index (inputs psbt) i;
  sig ← or_err (tap_script_sigs x !! (signing_pubkey, leaf_hash leaf))
          "PSBT input lacks the expected signature";
  _ ← bail_if (negb (bool_decide (sig_sighash_type sig = TAP_SIGHASH_DEFAULT)))
        "PSBT input uses a non-default Taproot sighash";
  message ← tap_message psbt i (leaf_hash leaf) "vault input did not produce a Taproot sighash";
  bail_if (negb (verify_schnorr (signature sig) message signing_pubkey))
    "invalid vault signature on PSBT input".

Definition verify_vault_psbt_signatures (psbt : Psbt) (policy : VaultPolicy)
    (path : SpendPath) (signing_pubkey : XOnlyPublicKey) (input_indexes : list nat)
    : result unit :=
  _ ← validate_default_sighashes psbt;
  leaf ← vault_leaf policy path;
  for_each (verify_vault_input psbt leaf signing_pubkey) input_indexes.

Definition verify_vault_psbt_signature (psbt : Psbt) (policy : VaultPolicy)
    (path : SpendPath) (signing_pubkey : XOnlyPublicKey) : result unit :=
  verify_vault_psbt_signatures psbt policy path signing_pubkey (seq 0 (length (inputs psbt))).

Definition verify_controller_input (psbt : Psbt) (leaf : ControllerLeaf)
    (signing_pubkey : XOnlyPublicKey) (i : nat) : result unit :=
  _ ← bail_if (bool_decide (length (inputs psbt) ≤ i))
        "controller verification input index is out of range";
  x ← index (inputs psbt) i;
  sig ← or_err (tap_script_sigs x !! (signing_pubkey, cleaf_hash leaf))
          "PSBT input lacks the expected controller signature";
  _ ← bail_if (negb (bool_decide (sig_sighash_type sig = TAP_SIGHASH_DEFAULT)))
        "PSBT input uses a non-default Taproot sighash";
  message ← tap_message psbt i (cleaf_hash leaf)
              "controller input did not produce a Taproot sighash";
  bail_if (negb (verify_schnorr (signature sig) message signing_pubkey))
    "invalid controller signature on PSBT input".

Definition verify_controller_psbt_signatures (psbt : Psbt) (policy : ControllerPolicy)
    (path : ControllerPath) (signing_pubkey : XOnlyPublicKey) (input_indexes : list nat)
    : result unit :=
  _ ← validate_default_sighashes psbt;
  leaf ← controller_leaf policy path;
  for_each (verify_controller_input psbt leaf signing_pubkey) input_indexes.

Definition finalize_vault_psbt (psbt : Psbt) : result Transaction :=
  _ ← validate_default_sighashes psbt;
  psbt ← or_err (finalize_mut psbt) "unable to finalize vault PSBT";
  or_err (extract psbt) "unable to extract finalized vault transaction".

(** [witness_for_path]; a signature is given serialised. *)
Definition witness_for_path (policy : VaultPolicy) (path : SpendPath)
    (signatures_in_script_order : list (list N)) : result (list (list N)) :=
  leaf ← vault_leaf policy path;
  mret (rev signatures_in_script_order ++
        [leaf_script leaf; control_block_serialize (leaf_control_block leaf)]).
End transactions.

(** * Construction *)

Section construction.
Context `{Laws : BitcoinLaws}.

(** An input as the constructors leave it. *)
Definition prepared_input (x : PsbtInput) (o : TxOut) : Prop :=
  witness_utxo x = Some o ∧ sighash_type x = Some TAP_SIGHASH_DEFAULT ∧ tap_script_sigs x = ∅.

Definition prepared (p : Psbt) (tx : Transaction) (prevouts : list TxOut) : Prop :=
  unsigned_tx p = tx ∧ psbt_wf p ∧ Forall2 prepared_input (inputs p) prevouts.

Lemma fill_inputs_step choose i o p p' x :
  inputs p !! i = Some x → tap_script_sigs x = ∅ →
  (q ← modify_input (set_witness_utxo o) i p;
   q ← modify_input (set_sighash_type TAP_SIGHASH_DEFAULT) i q;
   or_err (update_input_with_descriptor q i (choose i : DefiniteDescriptor * string).1)
          (choose i).2) = Ok p' →
  unsigned_tx p' = unsigned_tx p ∧ length (inputs p') = length (inputs p) ∧
  (∀ j, j ≠ i → inputs p' !! j = inputs p !! j) ∧
  ∃ x', inputs p' !! i = Some x' ∧ prepared_input x' o.
Proof.
  intros Hx Hs Hp.
  apply bind_Ok in Hp as (q & (y & Hy & ->)%modify_input_Ok & Hp).
  apply bind_Ok in Hp as (r & (z & Hz & ->)%modify_input_Ok & Hp%or_err_Ok).
  simpl in *. pose proof (lookup_lt_Some _ _ _ Hx) as Hi.
  rewrite list_lookup_insert_eq in Hz by done. injection Hz as <-.
  assert (y = x) as -> by congruence.
  destruct (update_input_spec _ _ _ _ Hp) as (Htx & Hlen & Hne & Heq). simpl in *.
  rewrite !length_insert in Hlen. split_and!; [done|done| |].
  - intros j Hj. by rewrite Hne, !list_lookup_insert_ne by done.
  - destruct (Heq (set_sighash_type TAP_SIGHASH_DEFAULT (set_witness_utxo o x)))
      as (x' & Hx' & Hw & Ht & Hsig).
    { apply list_lookup_insert_eq. by rewrite length_insert. }
    exists x'. split; [done|]. split_and!; [done..|]. by rewrite Hsig.
Qed.

Lemma fill_inputs_spec choose i prevouts p p' :
  length (inputs p) = i + length prevouts →
  Forall (λ x, tap_script_sigs x = ∅) (drop i (inputs p)) →
  fill_inputs choose i prevouts p = Ok p' →
  unsigned_tx p' = unsigned_tx p ∧ take i (inputs p') = take i (inputs p) ∧
  Forall2 prepared_input (drop i (inputs p')) prevouts.
Proof.
  revert i p. induction prevouts as [|o prevouts IH]; intros i p Hlen Hs; simpl in *.
  - intros [= <-]. split_and!; [done..|]. rewrite drop_ge by lia. constructor.
  - destruct (lookup_lt_is_Some_2 (inputs p) i) as [x Hx]; [lia|].
    rewrite (drop_S _ x) in Hs by done. apply Forall_cons_iff in Hs as [Hsx Hs].
    intros Hp. apply bind_Ok in Hp as (q1 & Hq1 & Hp). apply bind_Ok in Hp as (q2 & Hq2 & Hp).
    apply bind_Ok in Hp as (q & Hq & Hp).
    destruct (fill_inputs_step choose i o p q x) as (Htx & Hl & Hne & x' & Hx' & Hpre);
      [done..| |].
    { apply bind_Ok. exists q1. split; [done|]. apply bind_Ok. eauto. }
    destruct (IH (S i) q) as (Htx' & Htake & Hall); [lia| |done|].
    { assert (drop (S i) (inputs q) = drop (S i) (inputs p)) as ->; [|done].
      apply list_eq. intros j. rewrite !lookup_drop. apply Hne. lia. }
    assert (take i (inputs p') = take i (inputs q)) as Hi.
    { apply (f_equal (take i)) in Htake. by rewrite !take_take, !Nat.min_l in Htake by lia. }
    split_and!; [congruence| |].
    + rewrite Hi. apply list_eq. intros j. destruct (decide (j < i)).
      * rewrite !lookup_take_lt by done. apply Hne. lia.
      * by rewrite !lookup_take_ge by lia.
    + assert (inputs p' !! i = Some x') as Hx''.
      { rewrite <-(lookup_take_lt _ (S i)), Htake, lookup_take_lt by lia. done. }
      rewrite (drop_S _ x') by done. by constructor.
Qed.

Lemma from_unsigned_fill choose tx prevouts p p' :
  length (input tx) = length prevouts → from_unsigned_tx tx = Some p →
  fill_inputs choose 0 prevouts p = Ok p' → prepared p' tx prevouts.
Proof.
  intros Hlen Hu Hp. destruct (from_unsigned_tx_spec _ _ Hu) as (<- & [Hl Hin] & Hs).
  destruct (fill_inputs_spec choose 0 prevouts p p') as (Htx & _ & Hall); [lia|by rewrite drop_0|done|].
  rewrite drop_0 in Hall. split_and!; [done| |done]. split; [|by rewrite Htx].
  rewrite Htx. by rewrite (Forall2_length _ _ _ Hall).
Qed.

(** [create_vault_psbt], [create_policy_psbt] and [create_controller_psbt]
    build the PSBT of the transaction with the given previous outputs, the
    default sighash type and no signature. *)
Lemma create_vault_psbt_prepared tx prevouts policy p :
  create_vault_psbt tx prevouts policy = Ok p → prepared p tx prevouts.
Proof.
  unfold create_vault_psbt. intros Hp. inv_ok Hp.
  eapply from_unsigned_fill; [|done..]. by apply negb_false_iff, bool_decide_eq_true in H.
Qed.

Lemma create_controller_psbt_prepared tx prevouts policy p :
  create_controller_psbt tx prevouts policy = Ok p → prepared p tx prevouts.
Proof.
  unfold create_controller_psbt. intros Hp. inv_ok Hp.
  eapply from_unsigned_fill; [|done..]. by apply negb_false_iff, bool_decide_eq_true in H.
Qed.

Lemma create_policy_psbt_prepared tx prevouts vs cs vault controller p :
  create_policy_psbt tx prevouts vs cs vault controller = Ok p → prepared p tx prevouts.
Proof.
  unfold create_policy_psbt. intros Hp. inv_ok Hp.
  eapply from_unsigned_fill; [|done..]. by apply negb_false_iff, bool_decide_eq_true in H.
Qed.

Lemma prepared_lookup p tx prevouts i o :
  prepared p tx prevouts → prevouts !! i = Some o →
  ∃ x, inputs p !! i = Some x ∧ prepared_input x o.
Proof. intros (_ & _ & Hall) Ho. by apply (Forall2_lookup_r _ _ _ _ _ Hall). Qed.

Lemma prepared_default p tx prevouts :
  prepared p tx prevouts → validate_default_sighashes p = Ok tt.
Proof.
  intros (_ & _ & Hall). apply for_each_Ok, Forall_lookup. intros i x Hx.
  destruct (Forall2_lookup_l _ _ _ _ _ Hall Hx) as (o & _ & _ & -> & _). done.
Qed.
End construction.

(** * Exact partitions *)

Section partition.
Implicit Types (l vs cs : list nat).

Lemma size_list_to_set_NoDup l :
  size (list_to_set l : gset nat) = length l ↔ NoDup l.
Proof.
  split; [|apply size_list_to_set].
  induction l as [|x l IH]; [constructor|]. rewrite list_to_set_cons, length_cons. intros Hs.
  destruct (decide (x ∈ l)) as [Hx|Hx].
  - exfalso. rewrite subseteq_union_1_L in Hs by set_solver.
    assert (∀ k, size (list_to_set k : gset nat) ≤ length k) as Hle.
    { intros k. induction k as [|y k IHk]; [done|]. rewrite list_to_set_cons, length_cons.
      pose proof (size_union_alt {[y]} (list_to_set k : gset nat)) as Hu.
      rewrite size_singleton in Hu.
      assert (size (list_to_set k ∖ {[y]} : gset nat) ≤ size (list_to_set k : gset nat))
        by (apply subseteq_size; set_solver). lia. }
    specialize (Hle l). lia.
  - constructor; [done|]. apply IH. rewrite size_union in Hs by set_solver.
    rewrite size_singleton in Hs. lia.
Qed.

(** The check accepts exactly the pairs of lists that together enumerate
    the input positions once. *)
Lemma not_exact_partition_false n vs cs :
  not_exact_partition n vs cs = false ↔ (vs ++ cs) ≡ₚ seq 0 n.
Proof.
  unfold not_exact_partition.
  rewrite !orb_false_iff, !negb_false_iff, !bool_decide_eq_true, !size_list_to_set_NoDup.
  split.
  - intros [[[[Hv Hc] Hd] Hn] Hr].
    assert (NoDup (vs ++ cs)) as Hnd by (apply NoDup_app; set_solver).
    apply submseteq_length_Permutation.
    + apply NoDup_submseteq; [done|]. intros i Hi. apply elem_of_seq. split; [lia|].
      destruct (decide (i < n)); [lia|]. exfalso.
      enough (true = false) by done. rewrite <-Hr. symmetry. apply existsb_exists.
      exists i. split; [apply list_elem_of_In; set_solver|apply bool_decide_eq_true; lia].
    + rewrite length_seq, length_app. apply size_list_to_set_NoDup in Hv, Hc. lia.
  - intros Hp.
    assert (NoDup (vs ++ cs)) as Hnd by (rewrite Hp; apply NoDup_seq).
    pose proof Hnd as (Hv & Hd & Hc)%NoDup_app.
    apply Permutation_length in Hp as Hlen. rewrite length_seq, length_app in Hlen.
    split_and!; [done|done|set_solver| |].
    + apply size_list_to_set_NoDup in Hv, Hc. lia.
    + apply not_true_is_false. intros (i & Hi & Hn%bool_decide_eq_true)%existsb_exists.
      apply list_elem_of_In in Hi.
      assert (i ∈ vs ++ cs) as Hin by set_solver. rewrite Hp, elem_of_seq in Hin. lia.
Qed.
End partition.

(** * Sizes *)

Section sizes.
Context `{Laws : BitcoinLaws}.

(** What an estimate depends on: the placeholders replace the witnesses. *)
Definition unsigned_shape (t : Transaction) : list nat * list nat :=
  ((λ i, length (script_sig i)) <$> input t, (λ o, length (script_pubkey o)) <$> output t).

Lemma role_witnesses_shape vi ci vw cw i (l1 l2 : list TxIn) :
  (λ x, length (script_sig x)) <$> l1 = (λ x, length (script_sig x)) <$> l2 →
  (λ l : list TxIn, txin_shape <$> l) <$> (role_witnesses vi ci vw cw i l1) =
  (λ l : list TxIn, txin_shape <$> l) <$> (role_witnesses vi ci vw cw i l2).
Proof.
  revert i l2. induction l1 as [|x l1 IH]; intros i [|y l2] Heq; try done.
  injection Heq as Hxy Hl. specialize (IH (S i) l2 Hl). simpl.
  destruct (if bool_decide (i ∈ vi) then _ else _) as [w| |]; simpl; [|done..].
  destruct (role_witnesses _ _ _ _ (S i) l1), (role_witnesses _ _ _ _ (S i) l2);
    simpl in *; try done.
  injection IH as IH. unfold mret, result_ret. f_equal. csimpl. f_equal; [|done].
  unfold txin_shape. simpl. by rewrite Hxy.
Qed.

Lemma vsize_set_inputs (l1 l2 : list TxIn) t1 t2 :
  txin_shape <$> l1 = txin_shape <$> l2 → (unsigned_shape t1).2 = (unsigned_shape t2).2 →
  vsize (set_inputs l1 t1) = vsize (set_inputs l2 t2).
Proof. intros Hi Ho. apply vsize_shape. unfold tx_shape. simpl. by f_equal. Qed.

Lemma estimate_policy_vsize_shape t1 t2 v vp vs c cp cs :
  unsigned_shape t1 = unsigned_shape t2 →
  estimate_policy_vsize t1 v vp vs c cp cs = estimate_policy_vsize t2 v vp vs c cp cs.
Proof.
  intros [= Hi Ho]. unfold estimate_policy_vsize.
  assert (length (input t1) = length (input t2)) as ->.
  { apply (f_equal length) in Hi. by rewrite !length_fmap in Hi. }
  destruct (vault_leaf v vp) as [vl| |]; simpl; [|done..].
  destruct (controller_leaf c cp) as [cl| |]; simpl; [|done..].
  destruct (bail_if _ _) as [u| |]; simpl; [|done..].
  pose proof (role_witnesses_shape (list_to_set vs) (list_to_set cs)
    (vault_placeholder vl (vault_signature_count vp)) (controller_placeholder cl) 0 _ _ Hi) as Hr.
  do 2 destruct (role_witnesses _ _ _ _ _ _); simpl in *; try done; [|congruence].
  injection Hr as Hr. unfold mret, result_ret. f_equal. by apply vsize_set_inputs.
Qed.

Lemma set_witness_shape w (l1 l2 : list TxIn) :
  (λ x, length (script_sig x)) <$> l1 = (λ x, length (script_sig x)) <$> l2 →
  txin_shape <$> (set_witness w <$> l1) = txin_shape <$> (set_witness w <$> l2).
Proof.
  revert l2. induction l1 as [|x l1 IH]; intros [|y l2] Heq; try done.
  injection Heq as Hxy Hl. csimpl. f_equal; [|by apply IH].
  unfold txin_shape. simpl. by rewrite Hxy.
Qed.

Lemma estimate_vault_vsize_shape t1 t2 v vp :
  unsigned_shape t1 = unsigned_shape t2 →
  estimate_vault_vsize t1 v vp = estimate_vault_vsize t2 v vp.
Proof.
  intros [= Hi Ho]. unfold estimate_vault_vsize.
  destruct (vault_leaf v vp) as [vl| |]; simpl; [|done..].
  unfold mret, result_ret. f_equal. apply vsize_set_inputs; [|done]. by apply set_witness_shape.
Qed.

Lemma estimate_controller_vsize_shape t1 t2 c cp :
  unsigned_shape t1 = unsigned_shape t2 →
  estimate_controller_vsize t1 c cp = estimate_controller_vsize t2 c cp.
Proof.
  intros [= Hi Ho]. unfold estimate_controller_vsize.
  destruct (controller_leaf c cp) as [cl| |]; simpl; [|done..].
  unfold mret, result_ret. f_equal. apply vsize_set_inputs; [|done]. by apply set_witness_shape.
Qed.

(** No lookup of a leaf and no estimate panics. *)
Lemma vault_leaf_not_Panic p path : vault_leaf p path ≠ Panic.
Proof.
  unfold vault_leaf. apply bind_not_Panic; [apply or_err_not_Panic|intros d _].
  apply bind_not_Panic; [apply or_err_not_Panic|intros tr _].
  generalize (iter_scripts tr) as l. induction l as [|[depth script] l IH]; [done|]. simpl.
  case_match; [done|]. apply bind_not_Panic.
  - destruct path; simpl; [done| |]; 
      rewrite contains_delay_spec; done.
  - intros [] _; simpl; [|done]. by destruct (control_block tr script).
Qed.

Lemma controller_leaf_not_Panic p path : controller_leaf p path ≠ Panic.
Proof.
  unfold controller_leaf. apply bind_not_Panic; [apply or_err_not_Panic|intros d _].
  apply bind_not_Panic; [apply or_err_not_Panic|intros tr _].
  generalize (iter_scripts tr) as l. generalize (single_key_script
    match path with PhonePath => controller_phone p | HwwPath => controller_hww p end) as target.
  intros target l. induction l as [|[depth script] l IH]; [done|]. simpl.
  case_match; [done|]. by destruct (control_block tr script).
Qed.

Lemma role_witnesses_not_Panic vi ci vw cw i l : role_witnesses vi ci vw cw i l ≠ Panic.
Proof.
  revert i. induction l as [|x l IH]; intros i; [done|]. simpl.
  apply bind_not_Panic; [by repeat case_match|]. intros w _.
  apply bind_not_Panic; [apply IH|done].
Qed.

Lemma estimate_policy_vsize_not_Panic t v vp vs c cp cs :
  estimate_policy_vsize t v vp vs c cp cs ≠ Panic.
Proof.
  apply bind_not_Panic; [apply vault_leaf_not_Panic|intros vl _].
  apply bind_not_Panic; [apply controller_leaf_not_Panic|intros cl _].
  apply bind_not_Panic; [apply bail_if_not_Panic|intros ? _].
  apply bind_not_Panic; [apply role_witnesses_not_Panic|done].
Qed.

Lemma estimate_vault_vsize_not_Panic t v vp : estimate_vault_vsize t v vp ≠ Panic.
Proof. apply bind_not_Panic; [apply vault_leaf_not_Panic|done]. Qed.

Lemma estimate_controller_vsize_not_Panic t c cp : estimate_controller_vsize t c cp ≠ Panic.
Proof. apply bind_not_Panic; [apply controller_leaf_not_Panic|done]. Qed.
End sizes.

(** * Signing *)

Section signing.
Context `{Laws : BitcoinLaws}.
Implicit Types (p q : Psbt) (lh : TapLeafHash) (kp : Keypair).

(** Both signing loops are this step, with messages of their own. *)
Definition sign_input (lh : TapLeafHash) (e1 e2 e3 e4 : string) (kp : Keypair) (i : nat)
    : M Psbt unit :=
  psbt ← get;
  _ ← pure (bail_if (bool_decide (length (inputs psbt) ≤ i)) e1);
  x ← pure (index (inputs psbt) i);
  origins ← pure (or_err (tap_key_origins x !! x_only_public_key kp) e2);
  _ ← pure (bail_if (negb (mem lh origins)) e3);
  message ← pure (tap_message psbt i lh e4);
  psbt ← pure (modify_input (insert_tap_script_sig (x_only_public_key kp, lh)
                 {| signature := sign_schnorr_no_aux_rand message kp;
                    sig_sighash_type := TAP_SIGHASH_DEFAULT |}) i psbt);
  put psbt.

(** What a successful step requires and does. *)
Definition signed_input lh kp i p p' : Prop :=
  ∃ x m, inputs p !! i = Some x ∧ sighash_msg p i lh = Some (TapSighash m) ∧
    (∃ origins, tap_key_origins x !! x_only_public_key kp = Some origins ∧ lh ∈ origins) ∧
    p' = {| unsigned_tx := unsigned_tx p;
            inputs := <[i := insert_tap_script_sig (x_only_public_key kp, lh)
               {| signature := sign_schnorr_no_aux_rand m kp;
                  sig_sighash_type := TAP_SIGHASH_DEFAULT |} x]> (inputs p);
            psbt_other := psbt_other p |}.

Lemma tap_message_Ok p i lh e m :
  tap_message p i lh e = Ok m ↔ sighash_msg p i lh = Some (TapSighash m).
Proof. unfold tap_message. destruct (sighash_msg p i lh) as [[]|]; naive_solver. Qed.

Lemma tap_message_not_Panic p i lh e : tap_message p i lh e ≠ Panic.
Proof. unfold tap_message. by destruct (sighash_msg p i lh) as [[]|]. Qed.

Lemma sign_input_run lh e1 e2 e3 e4 kp i p r p' :
  sign_input lh e1 e2 e3 e4 kp i p = (r, p') →
  (r = Ok tt ∧ signed_input lh kp i p p') ∨ ((∃ e, r = Err e) ∧ p' = p).
Proof.
  unfold sign_input, pure, get, put, mbind, M_bind. simpl.
  case_bool_decide as Hi; simpl; [intros [= <- <-]; eauto|].
  destruct (lookup_lt_is_Some_2 (inputs p) i) as [x Hx]; [lia|].
  unfold index at 1. rewrite Hx. simpl.
  destruct (tap_key_origins x !! x_only_public_key kp) as [o|] eqn:Ho; simpl;
    [|intros [= <- <-]; eauto].
  destruct (mem lh o) eqn:Hl; simpl; [|intros [= <- <-]; eauto].
  destruct (tap_message p i lh e4) as [m|e|] eqn:Hm; simpl; [|intros [= <- <-]; eauto|].
  - apply tap_message_Ok in Hm. unfold modify_input, mbind, result_bind, index.
    rewrite Hx. simpl. intros [= <- <-]. left. split; [done|]. apply mem_true in Hl. exists x, m. eauto 10.
  - by apply tap_message_not_Panic in Hm.
Qed.

Lemma signed_input_same lh kp i p p' : signed_input lh kp i p p' → same_but_sigs p p'.
Proof.
  intros (x & m & Hx & _ & _ & ->). apply (modify_sigs_same _ _ (x_only_public_key kp, lh)
    {| signature := sign_schnorr_no_aux_rand m kp; sig_sighash_type := TAP_SIGHASH_DEFAULT |} i).
  apply modify_input_Ok. eauto.
Qed.

(** The signature that signing input [i] of [p] for [lh] adds. *)
Definition signature_of p i lh kp : option TapSignature :=
  match sighash_msg p i lh with
  | Some (TapSighash m) => Some {| signature := sign_schnorr_no_aux_rand m kp;
                                   sig_sighash_type := TAP_SIGHASH_DEFAULT |}
  | _ => None
  end.

Lemma signature_of_same p q i lh kp :
  same_but_sigs p q → signature_of p i lh kp = signature_of q i lh kp.
Proof. intros Hs. unfold signature_of. by rewrite (sighash_msg_sigs p q). Qed.

(** [signed lh kp ids p p']: [p'] is [p] with the signatures of [kp] for the
    leaf on the inputs [is], and nothing else changed. *)
Definition signed lh kp (ids : list nat) p p' : Prop :=
  same_but_sigs p p' ∧
  (∀ i, i ∈ ids → i < length (inputs p) ∧ ∃ s, signature_of p i lh kp = Some s) ∧
  ∀ i x x', inputs p !! i = Some x → inputs p' !! i = Some x' →
    tap_script_sigs x' =
      if decide (i ∈ ids) then
        match signature_of p i lh kp with
        | Some s => <[(x_only_public_key kp, lh) := s]> (tap_script_sigs x)
        | None => tap_script_sigs x
        end
      else tap_script_sigs x.

Lemma signed_nil lh kp p : signed lh kp [] p p.
Proof. split_and!; [done|by intros i ?%elem_of_nil|]. intros i x x' ? ?. simplify_eq/=. done. Qed.

Lemma signed_cons lh kp i ids p q p' :
  signed_input lh kp i p q → signed lh kp ids q p' → signed lh kp (i :: ids) p p'.
Proof.
  intros Hi (Hs & Hin & Hsig). pose proof (signed_input_same _ _ _ _ _ Hi) as Hpq.
  destruct Hi as (y & m & Hy & Hm & _ & Hq).
  assert (signature_of p i lh kp = Some {| signature := sign_schnorr_no_aux_rand m kp;
            sig_sighash_type := TAP_SIGHASH_DEFAULT |}) as Hsi
    by (unfold signature_of; by rewrite Hm).
  split_and!; [by eapply same_but_sigs_trans| |].
  - intros j [->|Hj]%elem_of_cons; [split; eauto using lookup_lt_Some|].
    rewrite (same_but_sigs_length p q), (signature_of_same p q) by done. auto.
  - intros j x x' Hx Hx'.
    assert (∃ z, inputs q !! j = Some z ∧
      tap_script_sigs z = if decide (j = i) then
         match signature_of p i lh kp with
         | Some s => <[(x_only_public_key kp, lh) := s]> (tap_script_sigs x)
         | None => tap_script_sigs x end else tap_script_sigs x) as (z & Hz & Hzs).
    { rewrite Hq. simpl. destruct (decide (j = i)) as [->|].
      - rewrite list_lookup_insert_eq by eauto using lookup_lt_Some.
        rewrite Hsi. assert (y = x) as -> by congruence. by eexists.
      - rewrite list_lookup_insert_ne by done. by eexists. }
    rewrite (Hsig j z x') by done. rewrite <-(signature_of_same p q) by done. rewrite Hzs.
    destruct (decide (j = i)) as [->|Hne].
    + rewrite (decide_True (P:=i ∈ i :: ids)) by set_solver. rewrite Hsi.
      case_decide; [|done]. by rewrite insert_insert_eq.
    + destruct (decide (j ∈ ids)), (decide (j ∈ i :: ids)); try done; set_solver.
Qed.

Lemma sign_inputs_run lh e1 e2 e3 e4 kp ids p p' :
  for_eachM (sign_input lh e1 e2 e3 e4 kp) ids p = (Ok tt, p') → signed lh kp ids p p'.
Proof.
  revert p. induction ids as [|i ids IH]; intros p; simpl.
  - intros [= <-]. apply signed_nil.
  - intros ([] & q & Hi & Hr)%M_bind_Ok.
    destruct (sign_input_run _ _ _ _ _ _ _ _ _ _ Hi) as [[_ Hsi]|[[? ?] _]]; [|done].
    by eapply signed_cons; [|apply IH].
Qed.

Lemma sign_inputs_not_Panic lh e1 e2 e3 e4 kp ids p :
  (for_eachM (sign_input lh e1 e2 e3 e4 kp) ids p).1 ≠ Panic.
Proof.
  revert p. induction ids as [|i ids IH]; intros p; simpl; [done|].
  unfold mbind, M_bind. destruct (sign_input _ _ _ _ _ _ i p) as [r q] eqn:Hi.
  destruct (sign_input_run _ _ _ _ _ _ _ _ _ _ Hi) as [[-> _]|[[e ->] _]]; [apply IH|done].
Qed.

Lemma sign_vault_psbt_inputs_Ok policy path kp ids p p' :
  sign_vault_psbt_inputs policy path kp ids p = (Ok tt, p') →
  validate_default_sighashes p = Ok tt ∧
  ∃ leaf, vault_leaf policy path = Ok leaf ∧ signed (leaf_hash leaf) kp ids p p'.
Proof.
  unfold sign_vault_psbt_inputs. intros (q & ? & [= <- <-] & Hr)%M_bind_Ok.
  apply M_bind_Ok in Hr as ([] & ? & (Hv & ->)%pure_Ok & Hr). split; [done|].
  apply M_bind_Ok in Hr as (leaf & ? & (Hl & ->)%pure_Ok & Hr). exists leaf. split; [done|].
  by apply (sign_inputs_run _ _ _ _ _ _ _ _ _ Hr).
Qed.

Lemma sign_controller_psbt_inputs_Ok policy path kp ids p p' :
  sign_controller_psbt_inputs policy path kp ids p = (Ok tt, p') →
  validate_default_sighashes p = Ok tt ∧
  ∃ leaf, controller_leaf policy path = Ok leaf ∧ signed (cleaf_hash leaf) kp ids p p'.
Proof.
  unfold sign_controller_psbt_inputs. intros (q & ? & [= <- <-] & Hr)%M_bind_Ok.
  apply M_bind_Ok in Hr as ([] & ? & (Hv & ->)%pure_Ok & Hr). split; [done|].
  apply M_bind_Ok in Hr as (leaf & ? & (Hl & ->)%pure_Ok & Hr). exists leaf. split; [done|].
  by apply (sign_inputs_run _ _ _ _ _ _ _ _ _ Hr).
Qed.

Lemma sign_controller_psbt_Ok policy path kp ids psbt psbt' :
  exec (sign_controller_psbt_inputs policy path kp ids) psbt = Ok psbt' →
  ∃ leaf, controller_leaf policy path = Ok leaf ∧ signed (cleaf_hash leaf) kp ids psbt psbt'.
Proof. by intros ([] & [_ ?]%sign_controller_psbt_inputs_Ok)%exec_Ok. Qed.

Lemma sign_vault_psbt_inputs_not_Panic policy path kp ids p :
  (sign_vault_psbt_inputs policy path kp ids p).1 ≠ Panic.
Proof.
  unfold sign_vault_psbt_inputs, get, pure, mbind, M_bind. simpl.
  destruct (validate_default_sighashes p) as [[]| |] eqn:Hv; simpl; [|done|].
  - destruct (vault_leaf policy path) as [l| |] eqn:Hl; simpl; [|done|].
    + apply sign_inputs_not_Panic.
    + by apply vault_leaf_not_Panic in Hl.
  - exfalso. revert Hv. apply for_each_not_Panic, Forall_true. intros x.
    case_match; [apply bail_if_not_Panic|done].
Qed.
End signing.

(** * Verification *)

Section verification.
Context `{Laws : BitcoinLaws}.
Implicit Types (p q : Psbt) (lh : TapLeafHash) (kp : Keypair) (pk : XOnlyPublicKey).

(** Input [i] carries a valid default-sighash signature of the key. *)
Definition has_sig lh pk p (i : nat) : Prop :=
  ∃ x s m, inputs p !! i = Some x ∧ tap_script_sigs x !! (pk, lh) = Some s ∧
    sig_sighash_type s = TAP_SIGHASH_DEFAULT ∧ sighash_msg p i lh = Some (TapSighash m) ∧
    verify_schnorr (signature s) m pk = true.

(** Both verification loops are this step. *)
Definition verify_input (lh : TapLeafHash) (e1 e2 e3 e4 e5 : string) (pk : XOnlyPublicKey)
    (psbt : Psbt) (i : nat) : result unit :=
  _ ← bail_if (bool_decide (length (inputs psbt) ≤ i)) e1;
  x ← index (inputs psbt) i;
  sig ← or_err (tap_script_sigs x !! (pk, lh)) e2;
  _ ← bail_if (negb (bool_decide (sig_sighash_type sig = TAP_SIGHASH_DEFAULT))) e3;
  message ← tap_message psbt i lh e4;
  bail_if (negb (verify_schnorr (signature sig) message pk)) e5.

Lemma verify_input_Ok lh e1 e2 e3 e4 e5 pk p i :
  verify_input lh e1 e2 e3 e4 e5 pk p i = Ok tt ↔ has_sig lh pk p i.
Proof.
  split.
  - unfold verify_input. intros Hv. inv_ok Hv.
    apply tap_message_Ok in H3. apply negb_false_iff in Hv.
    apply negb_false_iff, bool_decide_eq_true in H2. by eexists _, _, _.
  - intros (x & s & m & Hx & Hs & Ht & Hm & Hv). unfold verify_input.
    rewrite bool_decide_eq_false_2 by (apply lookup_lt_Some in Hx; lia). simpl.
    unfold index. rewrite Hx. simpl. rewrite Hs. simpl. rewrite bool_decide_eq_true_2 by done. simpl.
    apply tap_message_Ok with (e := e4) in Hm. rewrite Hm. simpl. by rewrite Hv.
Qed.

Lemma verify_vault_iff p policy path pk ids :
  verify_vault_psbt_signatures p policy path pk ids = Ok tt ↔
  validate_default_sighashes p = Ok tt ∧
  ∃ leaf, vault_leaf policy path = Ok leaf ∧ Forall (has_sig (leaf_hash leaf) pk p) ids.
Proof.
  unfold verify_vault_psbt_signatures. rewrite bind_Ok. split.
  - intros ([] & Hv & (leaf & Hl & Hf%for_each_Ok)%bind_Ok). split; [done|].
    exists leaf. split; [done|]. eapply Forall_impl; [done|]. intros i Hi.
    eapply (proj1 (verify_input_Ok _ _ _ _ _ _ _ _ _)). exact Hi.
  - intros (Hv & leaf & Hl & Hf). exists tt. split; [done|]. apply bind_Ok.
    exists leaf. split; [done|]. apply for_each_Ok. eapply Forall_impl; [done|]. intros i Hi.
    by apply (proj2 (verify_input_Ok _ _ _ _ _ _ _ _ _)).
Qed.

Lemma verify_controller_iff p policy path pk ids :
  verify_controller_psbt_signatures p policy path pk ids = Ok tt ↔
  validate_default_sighashes p = Ok tt ∧
  ∃ leaf, controller_leaf policy path = Ok leaf ∧ Forall (has_sig (cleaf_hash leaf) pk p) ids.
Proof.
  unfold verify_controller_psbt_signatures. rewrite bind_Ok. split.
  - intros ([] & Hv & (leaf & Hl & Hf%for_each_Ok)%bind_Ok). split; [done|].
    exists leaf. split; [done|]. eapply Forall_impl; [done|]. intros i Hi.
    eapply (proj1 (verify_input_Ok _ _ _ _ _ _ _ _ _)). exact Hi.
  - intros (Hv & leaf & Hl & Hf). exists tt. split; [done|]. apply bind_Ok.
    exists leaf. split; [done|]. apply for_each_Ok. eapply Forall_impl; [done|]. intros i Hi.
    by apply (proj2 (verify_input_Ok _ _ _ _ _ _ _ _ _)).
Qed.

Lemma validate_default_same p q :
  same_but_sigs p q → validate_default_sighashes p = validate_default_sighashes q.
Proof.
  intros (_ & _ & Heq). unfold validate_default_sighashes. revert Heq.
  generalize (inputs q) as k. induction (inputs p) as [|x l IH]; intros [|y k] Heq; try done.
  injection Heq as _ Ht _ _ Hl. simpl. rewrite Ht. by rewrite (IH k Hl).
Qed.

Lemma same_lookup p q i x :
  same_but_sigs p q → inputs p !! i = Some x → ∃ y, inputs q !! i = Some y.
Proof.
  intros Hs Hx%lookup_lt_Some. apply lookup_lt_is_Some_2.
  by rewrite <-(same_but_sigs_length p q).
Qed.

Lemma signed_has_sig lh kp ids p p' i :
  signed lh kp ids p p' → i ∈ ids → has_sig lh (x_only_public_key kp) p' i.
Proof.
  intros (Hs & Hin & Hsig) Hi. destruct (Hin i Hi) as (Hlt & s & Hso).
  destruct (lookup_lt_is_Some_2 _ _ Hlt) as [x Hx].
  destruct (same_lookup p p' i x) as [x' Hx']; [done..|].
  specialize (Hsig i x x' Hx Hx'). rewrite decide_True, Hso in Hsig by done.
  unfold signature_of in Hso. destruct (sighash_msg p i lh) as [[m|]|] eqn:Hm; try done.
  injection Hso as <-. eexists x', _, m. rewrite <-(sighash_msg_sigs p p') by done.
  split_and!; [done|by rewrite Hsig, lookup_insert_eq|done|done|]. apply schnorr_correct.
Qed.

Lemma signed_keeps_sig lh kp ids p p' lh' pk i :
  signed lh kp ids p p' → has_sig lh' pk p i → has_sig lh' pk p' i.
Proof.
  intros Hsd (x & s & m & Hx & Hxs & Ht & Hm & Hv). pose proof Hsd as (Hs & Hin & Hsig).
  destruct (same_lookup p p' i x) as [x' Hx']; [done..|].
  specialize (Hsig i x x' Hx Hx').
  destruct (decide (i ∈ ids ∧ (pk, lh') = (x_only_public_key kp, lh))) as [[Hi [= -> ->]]|Hne].
  { by eapply signed_has_sig. }
  exists x', s, m. rewrite <-(sighash_msg_sigs p p') by done. split_and!; [done| |done..].
  rewrite Hsig. case_decide as Hi; [|done]. destruct (Hin i Hi) as (_ & ? & ->).
  rewrite lookup_insert_ne; [done|]. naive_solver.
Qed.

(** A PSBT constructor for mixed inputs succeeds only if the two role
    lists name every input exactly once, and then yields the PSBT of the
    given transaction with each previous output, the default sighash type
    and no signature. *)
Theorem create_policy_psbt_correct tx prevouts vs cs vault controller p :
  create_policy_psbt tx prevouts vs cs vault controller = Ok p →
  (vs ++ cs) ≡ₚ seq 0 (length (input tx)) ∧ prepared p tx prevouts.
Proof.
  intros Hp. split; [|by eapply create_policy_psbt_prepared].
  unfold create_policy_psbt in Hp. inv_ok Hp. by apply not_exact_partition_false.
Qed.

(** Signing vault inputs succeeds only on a PSBT whose inputs all
    use the default sighash type; it changes nothing but the signatures, the
    new signatures verify for the signing key on every requested input, and
    every signature that verified before still does. *)
Theorem sign_vault_then_verify policy path kp ids p p' :
  sign_vault_psbt_inputs policy path kp ids p = (Ok tt, p') →
  same_but_sigs p p' ∧
  verify_vault_psbt_signatures p' policy path (x_only_public_key kp) ids = Ok tt ∧
  ∀ path' pk ids', verify_vault_psbt_signatures p policy path' pk ids' = Ok tt →
    verify_vault_psbt_signatures p' policy path' pk ids' = Ok tt.
Proof.
  intros (Hd & leaf & Hl & Hsd)%sign_vault_psbt_inputs_Ok. pose proof Hsd as (Hs & _).
  split; [done|]. split.
  - apply verify_vault_iff. rewrite <-(validate_default_same p p') by done.
    split; [done|]. exists leaf. split; [done|]. apply Forall_forall.
    intros i Hi. by eapply signed_has_sig.
  - intros path' pk ids' (_ & leaf' & Hl' & Hf)%verify_vault_iff. apply verify_vault_iff.
    rewrite <-(validate_default_same p p') by done. split; [done|]. exists leaf'.
    split; [done|]. eapply Forall_impl; [done|]. intros i. by apply (signed_keeps_sig _ _ _ _ _ _ _ _ Hsd).
Qed.

(** A non-default sighash type anywhere in the PSBT makes both
    signing routines fail before any signature is added, whatever inputs
    were to be signed, and makes verification and finalisation fail. *)
Theorem non_default_sighash_rejected p i x t :
  inputs p !! i = Some x → sighash_type x = Some t → t ≠ TAP_SIGHASH_DEFAULT →
  (∀ policy path kp ids, ∃ e, sign_vault_psbt_inputs policy path kp ids p = (Err e, p)) ∧
  (∀ policy path kp ids, ∃ e, sign_controller_psbt_inputs policy path kp ids p = (Err e, p)) ∧
  (∀ policy path pk ids, ∃ e, verify_vault_psbt_signatures p policy path pk ids = Err e) ∧
  (∀ policy path pk ids, ∃ e, verify_controller_psbt_signatures p policy path pk ids = Err e) ∧
  ∃ e, finalize_vault_psbt p = Err e.
Proof.
  intros Hx Ht Hne.
  assert (∃ e, validate_default_sighashes p = Err e) as [e He].
  { destruct (validate_default_sighashes p) as [[]| |] eqn:Hv; [|by eexists|].
    - apply for_each_Ok in Hv. eapply Forall_lookup_1 in Hv; [|done]. simpl in Hv.
      rewrite Ht in Hv. by apply bail_if_Ok, negb_false_iff, bool_decide_eq_true in Hv.
    - exfalso. revert Hv. apply for_each_not_Panic, Forall_true. intros y.
      case_match; [apply bail_if_not_Panic|done]. }
  split_and!; intros; exists e;
    unfold sign_vault_psbt_inputs, sign_controller_psbt_inputs, verify_vault_psbt_signatures,
      verify_controller_psbt_signatures, finalize_vault_psbt, pure, get, mbind, M_bind;
    simpl; by rewrite He.
Qed.
End verification.

(** * Revocation *)

Section revocation.
Context `{Laws : BitcoinLaws}.

(** A revocation spends exactly the connectors it is given, with
    RBF sequences and no lock time, pays its fee at the given rate for its
    estimated size, and sends everything else to the one destination: the
    inputs' value is the change plus the fee, and the change is not dust. *)
Lemma revocation_conserves utxos destination rate controller psbt fee :
  build_controller_revocation_psbt utxos destination rate controller = Ok (psbt, fee) →
  ∃ change size,
    unsigned_tx psbt = {| version := VERSION_TWO; lock_time := LOCK_TIME_ZERO;
      input := revocation_input <$> utxos;
      output := [{| value := change; script_pubkey := destination |}] |} ∧
    sumN ((λ u, value (utxo_txout u)) <$> utxos) = (change + fee)%N ∧
    estimate_controller_vsize (unsigned_tx psbt) controller PhonePath = Ok size ∧
    fee = (size * rate)%N ∧ (minimal_non_dust destination ≤ change)%N ∧
    Forall2 prepared_input (inputs psbt) (utxo_txout <$> utxos) ∧
    Forall (λ u, script_pubkey (utxo_txout u) =
                 address_script_pubkey (controller_address_of controller)) utxos.
Proof.
  unfold build_controller_revocation_psbt. intros Hp. inv_ok Hp.
  injection Hp as <- <-. apply try_fold_sum_Ok in H1. apply checked_mul_Some in H3 as [-> ?].
  apply checked_sub_Some in H4 as [-> ?]. apply N.ltb_ge in H5.
  apply create_controller_psbt_prepared in H6 as (Htx & _ & Hall).
  eexists _, _. split; [done|]. split_and!; [|rewrite Htx, <-H2|done|done|done|].
  - subst. simpl. lia.
  - by apply estimate_controller_vsize_shape.
  - apply Forall_forall. intros u Hu. apply not_true_iff_false in H0.
    destruct (decide (script_pubkey (utxo_txout u) =
                      address_script_pubkey (controller_address_of controller))); [done|].
    exfalso. apply H0, existsb_exists. exists u. split; [by apply list_elem_of_In|].
    by rewrite bool_decide_eq_false_2.
Qed.
End revocation.

(** * Witnesses *)

Definition toy_phone_keypair : Toy.toy_types.(Keypair) := "phone".
Definition toy_hww_keypair : Toy.toy_types.(Keypair) := "hww".
Definition toy_outpoint (n : N) : OutPoint := {| txid := n : Txid; vout := 0 |}.
Definition toy_vault_script : ScriptBuf := address_script_pubkey (vault_address_of toy_vault).
Definition toy_controller_script : ScriptBuf :=
  address_script_pubkey (controller_address_of toy_controller).
Definition toy_hot_script : ScriptBuf := [81; 32]%N ++ Toy.pad 32 [104; 111; 116]%N.

Definition toy_action : Transaction :=
  {| version := VERSION_TWO; lock_time := LOCK_TIME_ZERO;
     input := [{| previous_output := toy_outpoint 7; script_sig := []; sequence := SEQUENCE_MAX;
                  witness := [] |};
               {| previous_output := toy_outpoint 8; script_sig := [];
                  sequence := ENABLE_RBF_NO_LOCKTIME; witness := [] |}];
     output := [{| value := 1000000; script_pubkey := toy_hot_script |}] |}.
Definition toy_prevouts : list TxOut :=
  [{| value := 1000000; script_pubkey := toy_vault_script |};
   {| value := CONNECTOR_VALUE_SATS; script_pubkey := toy_controller_script |}].

Definition toy_empty_psbt : Psbt :=
  {| unsigned_tx := toy_action; inputs := []; psbt_other := () |}.
Definition get_ok {A} (r : result A) (d : A) : A := match r with Ok a => a | _ => d end.

Definition toy_unsigned : Psbt := Eval vm_compute in
  get_ok (create_policy_psbt toy_action toy_prevouts [0] [1] toy_vault toy_controller) toy_empty_psbt.
Definition toy_signed : Psbt := Eval vm_compute in
  (sign_vault_psbt_inputs toy_vault Cooperative toy_phone_keypair [0] toy_unsigned).2.

Lemma create_policy_psbt_correct_witness :
  create_policy_psbt toy_action toy_prevouts [0] [1] toy_vault toy_controller = Ok toy_unsigned ∧
  [0; 1] ≡ₚ seq 0 2 ∧ prepared toy_unsigned toy_action toy_prevouts.
Proof.
  split; [reflexivity|].
  apply (create_policy_psbt_correct toy_action toy_prevouts [0] [1] toy_vault toy_controller).
  reflexivity.
Defined.

Lemma sign_vault_then_verify_witness :
  sign_vault_psbt_inputs toy_vault Cooperative toy_phone_keypair [0] toy_unsigned
    = (Ok tt, toy_signed) ∧
  verify_vault_psbt_signatures toy_signed toy_vault Cooperative toy_phone [0] = Ok tt.
Proof.
  split; [reflexivity|].
  destruct (sign_vault_then_verify toy_vault Cooperative toy_phone_keypair [0]
    toy_unsigned toy_signed) as (_ & Hv & _); [reflexivity|]. exact Hv.
Defined.

(** The signed action with SIGHASH_ALL selected on its second input. *)
Definition toy_sighash_all : Psbt := Eval vm_compute in
  {| unsigned_tx := unsigned_tx toy_signed;
     inputs := alter (set_sighash_type 1) 1 (inputs toy_signed);
     psbt_other := psbt_other toy_signed |}.

Definition toy_dummy_input : PsbtInput :=
  {| witness_utxo := None; sighash_type := None; tap_key_origins := ∅; tap_script_sigs := ∅;
     input_other := () |}.
Definition toy_all_input : PsbtInput := Eval vm_compute in
  default toy_dummy_input (inputs toy_sighash_all !! 1).

Lemma non_default_sighash_rejected_witness :
  ∃ e, sign_vault_psbt_inputs toy_vault Cooperative toy_hww_keypair [0] toy_sighash_all
       = (Err e, toy_sighash_all).
Proof.
  apply (non_default_sighash_rejected toy_sighash_all 1 toy_all_input 1);
    [reflexivity|reflexivity|discriminate].
Defined.

Definition toy_connector (n : N) : VaultUtxo :=
  {| utxo_outpoint := toy_outpoint n;
     utxo_txout := {| value := CONNECTOR_VALUE_SATS; script_pubkey := toy_controller_script |};
     confirmation_height := 1 |}.
Definition toy_revocation : Psbt * N := Eval vm_compute in
  get_ok (build_controller_revocation_psbt [toy_connector 8] toy_hot_script 1 toy_controller)
         (toy_empty_psbt, 0%N).

(** The fee of the README: a standalone revocation is 137 virtual bytes. *)
Example toy_revocation_fee : toy_revocation.2 = 137%N.
Proof. reflexivity. Qed.
