(* ===== verification/Signable.v ===== *)
(** When signing succeeds: an input that a descriptor has described, whose
    message exists, is signed by every key of the leaf. *)

From S2P Require Import Prelude Bitcoin Types Policy Transactions.

Section signable.
Context `{Laws : BitcoinLaws}.
Implicit Types (p q : Psbt) (d : DefiniteDescriptor) (kp : Keypair) (ids : list nat).

(** ** What an input knows of its descriptor *)

(** The key origins of input [i] are those that the descriptor [d] gave it. *)
Definition described d p i : Prop :=
  ∃ q q' x y, update_input_with_descriptor q i d = Some q' ∧ inputs q' !! i = Some y ∧
    inputs p !! i = Some x ∧ tap_key_origins x = tap_key_origins y.

Lemma described_same d p q i : same_but_sigs p q → described d p i → described d q i.
Proof.
  intros Hs (r & r' & x & y & Hu & Hy & Hx & Ho).
  destruct (same_lookup p q i x) as [z Hz]; [done..|].
  injection (same_but_sigs_lookup _ _ _ _ _ Hs Hx Hz) as _ _ Hxz _.
  exists r, r', z, y. split_and!; [done..|]. congruence.
Qed.

Lemma fill_inputs_keeps choose i prevouts p p' j :
  fill_inputs choose i prevouts p = Ok p' → j < i → inputs p' !! j = inputs p !! j.
Proof.
  revert i p. induction prevouts as [|o prevouts IH]; intros i p; simpl; [by intros [= <-]|].
  intros (q1 & (x1 & Hx1 & ->)%modify_input_Ok & Hp)%bind_Ok Hj.
  apply bind_Ok in Hp as (q2 & (x2 & Hx2 & ->)%modify_input_Ok & Hp).
  apply bind_Ok in Hp as (q & Hu%or_err_Ok & Hp).
  destruct (update_input_spec _ _ _ _ Hu) as (_ & _ & Hne & _). simpl in Hne.
  rewrite (IH _ _ Hp), Hne, !list_lookup_insert_ne by lia. done.
Qed.

Lemma fill_inputs_described choose i prevouts p p' j :
  fill_inputs choose i prevouts p = Ok p' → i ≤ j < i + length prevouts →
  described (choose j).1 p' j.
Proof.
  revert i p. induction prevouts as [|o prevouts IH]; intros i p; simpl; [intros; lia|].
  intros (q1 & (x1 & Hx1 & ->)%modify_input_Ok & Hp)%bind_Ok Hj.
  apply bind_Ok in Hp as (q2 & (x2 & Hx2 & ->)%modify_input_Ok & Hp).
  apply bind_Ok in Hp as (q & Hu%or_err_Ok & Hp).
  destruct (decide (j = i)) as [->|Hne]; [|apply (IH _ _ Hp); lia].
  destruct (update_input_spec _ _ _ _ Hu) as (_ & _ & _ & Heq). simpl in Heq.
  destruct (Heq (set_sighash_type TAP_SIGHASH_DEFAULT x2)) as (x & Hx & _).
  { apply list_lookup_insert_eq. by eapply lookup_lt_Some. }
  eexists _, q, x, x. split_and!; [exact Hu|exact Hx| |done].
  by rewrite (fill_inputs_keeps _ _ _ _ _ _ Hp) by lia.
Qed.

Lemma create_policy_psbt_described tx prevouts vs cs vault controller p :
  create_policy_psbt tx prevouts vs cs vault controller = Ok p →
  (∀ i, i ∈ vs → i < length prevouts) →
  ∃ d, vault_definite_descriptor vault = Ok d ∧ Forall (described d p) vs.
Proof.
  unfold create_policy_psbt. intros ([] & _ & Hp)%bind_Ok Hlt.
  apply bind_Ok in Hp as ([] & _ & Hp). apply bind_Ok in Hp as (p0 & _ & Hp).
  apply bind_Ok in Hp as (d & Hd & Hp). apply bind_Ok in Hp as (cd & _ & Hp).
  exists d. split; [done|]. apply Forall_forall. intros i Hi.
  pose proof (fill_inputs_described _ _ _ _ _ i Hp) as Hdesc. cbn beta in Hdesc.
  rewrite bool_decide_eq_true_2 in Hdesc by (by apply elem_of_list_to_set).
  apply Hdesc. specialize (Hlt i Hi). lia.
Qed.

Lemma create_policy_psbt_described_controller tx prevouts vs cs vault controller p :
  create_policy_psbt tx prevouts vs cs vault controller = Ok p →
  (∀ i, i ∈ cs → i ∉ vs ∧ i < length prevouts) →
  ∃ d, controller_definite_descriptor controller = Ok d ∧ Forall (described d p) cs.
Proof.
  unfold create_policy_psbt. intros ([] & _ & Hp)%bind_Ok Hlt.
  apply bind_Ok in Hp as ([] & _ & Hp). apply bind_Ok in Hp as (p0 & _ & Hp).
  apply bind_Ok in Hp as (d & _ & Hp). apply bind_Ok in Hp as (cd & Hcd & Hp).
  exists cd. split; [done|]. apply Forall_forall. intros i [Hi Hl]%Hlt.
  pose proof (fill_inputs_described _ _ _ _ _ i Hp) as Hdesc. cbn beta in Hdesc.
  rewrite bool_decide_eq_false_2 in Hdesc by (by rewrite elem_of_list_to_set).
  apply Hdesc. lia.
Qed.

(** ** Signing succeeds *)

Definition signable lh kp p i : Prop :=
  ∃ x m origins, inputs p !! i = Some x ∧ sighash_msg p i lh = Some (TapSighash m) ∧
    tap_key_origins x !! x_only_public_key kp = Some origins ∧ lh ∈ origins.

Lemma signable_same lh kp p q i : same_but_sigs p q → signable lh kp p i → signable lh kp q i.
Proof.
  intros Hs (x & m & o & Hx & Hm & Ho & Hl).
  destruct (same_lookup p q i x) as [z Hz]; [done..|].
  injection (same_but_sigs_lookup _ _ _ _ _ Hs Hx Hz) as _ _ Hxz _.
  exists z, m, o. rewrite <-(sighash_msg_sigs p q) by done. split_and!; [done..| |done]. congruence.
Qed.

Lemma sign_input_complete lh e1 e2 e3 e4 kp i p :
  signable lh kp p i → ∃ q, sign_input lh e1 e2 e3 e4 kp i p = (Ok tt, q) ∧ same_but_sigs p q.
Proof.
  intros (x & m & o & Hx & Hm & Ho & Hl).
  destruct (sign_input lh e1 e2 e3 e4 kp i p) as [r q] eqn:Hr.
  destruct (sign_input_run _ _ _ _ _ _ _ _ _ _ Hr) as [[-> Hs]|[[e ->] _]].
  { exists q. split; [done|]. by eapply signed_input_same. }
  exfalso. unfold sign_input, pure, get, put, mbind, M_bind in Hr. simpl in Hr.
  rewrite bool_decide_eq_false_2 in Hr by (apply lookup_lt_Some in Hx; lia). simpl in Hr.
  unfold index at 1 in Hr. rewrite Hx in Hr. simpl in Hr. rewrite Ho in Hr. simpl in Hr.
  rewrite (proj2 (mem_true _ _) Hl) in Hr. simpl in Hr.
  rewrite (proj2 (tap_message_Ok p i lh e4 m) Hm) in Hr.
  unfold modify_input, mbind, result_bind, index in Hr. rewrite Hx in Hr. discriminate Hr.
Qed.

Lemma sign_inputs_complete lh e1 e2 e3 e4 kp ids p :
  Forall (signable lh kp p) ids →
  ∃ q, for_eachM (sign_input lh e1 e2 e3 e4 kp) ids p = (Ok tt, q).
Proof.
  revert p. induction ids as [|i ids IH]; intros p Hall; simpl; [by eexists|].
  apply Forall_cons_iff in Hall as [Hi Hall].
  destruct (sign_input_complete lh e1 e2 e3 e4 kp i p Hi) as (q & Hq & Hs).
  unfold mbind, M_bind. rewrite Hq. apply IH.
  eapply Forall_impl; [exact Hall|]. intros j. by apply signable_same.
Qed.

Lemma sign_vault_complete policy path kp ids p leaf :
  validate_default_sighashes p = Ok tt → vault_leaf policy path = Ok leaf →
  Forall (signable (leaf_hash leaf) kp p) ids →
  ∃ q, sign_vault_psbt_inputs policy path kp ids p = (Ok tt, q).
Proof.
  intros Hd Hl Hall. unfold sign_vault_psbt_inputs, get, pure, mbind, M_bind. rewrite Hd, Hl.
  by apply (sign_inputs_complete (leaf_hash leaf) _ _ _ _ kp ids p).
Qed.

(** What the phone has signed, a cosigner of the same leaf can sign. *)
Lemma has_sig_signable lh pk kp p i :
  has_sig lh pk p i →
  (∀ x, inputs p !! i = Some x → ∃ o, tap_key_origins x !! x_only_public_key kp = Some o ∧ lh ∈ o) →
  signable lh kp p i.
Proof.
  intros (x & s & m & Hx & _ & _ & Hm & _) Ho. destruct (Ho x Hx) as (o & Hko & Hl).
  exists x, m, o. by split_and!.
Qed.
End signable.
