(* ===== verification/Keys.v ===== *)
(** Device keys ([core/keys.rs]): the vault key and the hot-wallet descriptors
    that a recovery phrase determines. *)

From S2P Require Import Prelude Bitcoin Toy.

(** The parts of bip39 and bip32 that the module calls. *)
Class KeyLib `{BitcoinTypes} := {
  Mnemonic : Type;
  Xpriv : Type;
  Xpub : Type;
  DerivationPath : Type;
  ChildNumber : Type;
  from_entropy_in : list N → option Mnemonic;
  parse_in_normalized : string → option Mnemonic;
  mnemonic_to_string : Mnemonic → string;
  to_seed_normalized : Mnemonic → list N;
  new_master : Network → list N → option Xpriv;
  derivation_path_from_str : string → option DerivationPath;
  derive_priv : Xpriv → DerivationPath → option Xpriv;
  from_normal_idx : N → option ChildNumber;
  derive_child : Xpriv → ChildNumber → option Xpriv;
  xpub_from_priv : Xpriv → Xpub;
  xpriv_to_string : Xpriv → string;
  xpub_to_string : Xpub → string;
  fingerprint : Xpriv → string;
  keypair_from_secret_key : Xpriv → Keypair;
}.

(** Bip32: a normal child index is below [2^31]. *)
Class KeyLaws `{KeyLib} : Prop := {
  from_normal_idx_spec n : is_Some (from_normal_idx n) ↔ (n < 2147483648)%N;
  mnemonic_round_trip m : parse_in_normalized (mnemonic_to_string m) = Some m;
}.

Section keys.
Context `{BitcoinLib, !KeyLib}.

Record DeviceKeys := {
  keys_network : Network;
  mnemonic : Mnemonic;
  vault_key_index : N;
  seed : list N;
  master_xpriv : Xpriv;
  vault_xpriv : Xpriv;
  vault_keypair : Keypair;
  vault_pubkey : XOnlyPublicKey;
}.

Definition coin_type (network : Network) : result N :=
  match network with
  | Bitcoin => Ok 0%N
  | Regtest => Ok 1%N
  | _ => Err "unsupported device-key network"
  end.

Definition derive_vault_key_from_parent (parent : Xpriv) (index : N)
    : result (Xpriv * Keypair * XOnlyPublicKey) :=
  child ← or_err (from_normal_idx index) "vault key index must be below 2^31";
  vault_xpriv ← or_err (derive_child parent child) "derivation failed";
  let vault_keypair := keypair_from_secret_key vault_xpriv in
  mret (vault_xpriv, vault_keypair, x_only_public_key vault_keypair).

Definition from_mnemonic (mnemonic : Mnemonic) (network : Network) (index : N)
    : result DeviceKeys :=
  coin_type ← coin_type network;
  let seed := to_seed_normalized mnemonic in
  master ← or_err (new_master network seed) "invalid seed";
  parent_path ← or_err (derivation_path_from_str ("m/86'/" +:+ pretty coin_type +:+ "'/100'/0"))
                  "invalid derivation path";
  parent ← or_err (derive_priv master parent_path) "derivation failed";
  '(xpriv, keypair, pubkey) ← derive_vault_key_from_parent parent index;
  mret {| keys_network := network; mnemonic := mnemonic; vault_key_index := index;
          seed := seed; master_xpriv := master; vault_xpriv := xpriv;
          vault_keypair := keypair; vault_pubkey := pubkey |}.

(** [OsRng] supplies the 32 bytes of entropy. *)
Definition generate_for_network_at_index (entropy : list N) (network : Network) (index : N)
    : result DeviceKeys :=
  mnemonic ← or_err (from_entropy_in entropy) "failed to generate mnemonic";
  from_mnemonic mnemonic network index.

Definition generate_for_network (entropy : list N) (network : Network) : result DeviceKeys :=
  generate_for_network_at_index entropy network 0.

Definition generate (entropy : list N) : result DeviceKeys := generate_for_network entropy Regtest.

Definition parse_for_network_at_index (words : string) (network : Network) (index : N)
    : result DeviceKeys :=
  mnemonic ← or_err (parse_in_normalized words) "invalid mnemonic";
  from_mnemonic mnemonic network index.

Definition parse_for_network (words : string) (network : Network) : result DeviceKeys :=
  parse_for_network_at_index words network 0.

Definition parse (words : string) : result DeviceKeys := parse_for_network words Regtest.

Definition hot_descriptors (k : DeviceKeys) : result (string * string) :=
  coin_type ← coin_type (keys_network k);
  account_path ← or_err (derivation_path_from_str ("m/86'/" +:+ pretty coin_type +:+ "'/0'"))
                   "invalid derivation path";
  account_xpriv ← or_err (derive_priv (master_xpriv k) account_path) "derivation failed";
  let account_xpub := xpub_from_priv account_xpriv in
  let prefix := "tr([" +:+ fingerprint (master_xpriv k) +:+ "/86'/" +:+ pretty coin_type
                +:+ "'/0']" +:+ xpub_to_string account_xpub in
  mret (prefix +:+ "/0/*)", prefix +:+ "/1/*)").

Definition hot_private_descriptors (k : DeviceKeys) : result (string * string) :=
  coin_type ← coin_type (keys_network k);
  account_path ← or_err (derivation_path_from_str ("m/86'/" +:+ pretty coin_type +:+ "'/0'"))
                   "invalid derivation path";
  account_xpriv ← or_err (derive_priv (master_xpriv k) account_path) "derivation failed";
  let prefix := "tr([" +:+ fingerprint (master_xpriv k) +:+ "/86'/" +:+ pretty coin_type
                +:+ "'/0']" +:+ xpriv_to_string account_xpriv in
  mret (prefix +:+ "/0/*)", prefix +:+ "/1/*)").

Definition vault_parent_xpriv (k : DeviceKeys) : result Xpriv :=
  coin_type ← coin_type (keys_network k);
  path ← or_err (derivation_path_from_str ("m/86'/" +:+ pretty coin_type +:+ "'/100'/0"))
           "invalid derivation path";
  or_err (derive_priv (master_xpriv k) path) "derivation failed".

Definition with_vault_key_index (k : DeviceKeys) (index : N) : result DeviceKeys :=
  parent ← vault_parent_xpriv k;
  '(xpriv, keypair, pubkey) ← derive_vault_key_from_parent parent index;
  mret {| keys_network := keys_network k; mnemonic := mnemonic k; vault_key_index := index;
          seed := seed k; master_xpriv := master_xpriv k; vault_xpriv := xpriv;
          vault_keypair := keypair; vault_pubkey := pubkey |}.

(** Keys as every constructor makes them. *)
Definition keys_of (k : DeviceKeys) : Prop :=
  from_mnemonic (mnemonic k) (keys_network k) (vault_key_index k) = Ok k.
End keys.

(** * What the keys determine *)

Section facts.
Context `{BitcoinLib, !KeyLib, !KeyLaws}.
Implicit Types (k : DeviceKeys).

Lemma derive_vault_key_Ok p i x kp pk :
  derive_vault_key_from_parent p i = Ok (x, kp, pk) →
  (i < 2147483648)%N ∧ pk = x_only_public_key kp.
Proof.
  unfold derive_vault_key_from_parent. intros Hx. inv_ok Hx. injection Hx as <- <- <-.
  split; [|done]. apply from_normal_idx_spec. by eexists.
Qed.

(** A successful run, step by step. *)
Lemma from_mnemonic_Ok m n i k :
  from_mnemonic m n i = Ok k ↔
  ∃ c master path parent x kp pk, coin_type n = Ok c ∧
    new_master n (to_seed_normalized m) = Some master ∧
    derivation_path_from_str ("m/86'/" +:+ pretty c +:+ "'/100'/0") = Some path ∧
    derive_priv master path = Some parent ∧
    derive_vault_key_from_parent parent i = Ok (x, kp, pk) ∧
    k = {| keys_network := n; mnemonic := m; vault_key_index := i;
           seed := to_seed_normalized m; master_xpriv := master; vault_xpriv := x;
           vault_keypair := kp; vault_pubkey := pk |}.
Proof.
  unfold from_mnemonic. split.
  - intros Hk. inv_ok Hk. destruct x3 as [[x3 kp] pk]. injection Hk as <-.
    by eexists _, _, _, _, x3, kp, pk.
  - intros (c & ma & pa & pr & x & kp & pk & -> & Hma & Hpa & Hpr & Hd & ->). simpl.
    rewrite Hma. simpl. rewrite Hpa. simpl. rewrite Hpr. simpl. by rewrite Hd.
Qed.

Lemma from_mnemonic_inv m n i k :
  from_mnemonic m n i = Ok k →
  keys_network k = n ∧ mnemonic k = m ∧ vault_key_index k = i ∧ (i < 2147483648)%N ∧
  vault_pubkey k = x_only_public_key (vault_keypair k).
Proof.
  intros (c & ma & pa & pr & x & kp & pk & _ & _ & _ & _ & Hd & ->)%from_mnemonic_Ok.
  by apply derive_vault_key_Ok in Hd as [? ->].
Qed.

Lemma from_mnemonic_keys_of m n i k : from_mnemonic m n i = Ok k → keys_of k.
Proof.
  intros Hk. unfold keys_of. by destruct (from_mnemonic_inv _ _ _ _ Hk) as (-> & -> & -> & _).
Qed.

Lemma parse_keys_of words n i k : parse_for_network_at_index words n i = Ok k → keys_of k.
Proof.
  unfold parse_for_network_at_index. intros Hk. inv_ok Hk. by apply from_mnemonic_keys_of in Hk.
Qed.

(** Moving the keys of a recovery phrase to another vault-key index
    gives exactly the keys that parsing the phrase at that index gives, so a
    rotation never depends on the index the device was at; the index is below
    [2^31], and the public key is that of the key pair. *)
Theorem with_vault_key_index_is_parse words n i j k :
  parse_for_network_at_index words n i = Ok k →
  with_vault_key_index k j = parse_for_network_at_index words n j ∧
  (i < 2147483648)%N ∧ vault_pubkey k = x_only_public_key (vault_keypair k).
Proof.
  unfold parse_for_network_at_index. intros Hk. inv_ok Hk. rewrite H2. simpl.
  pose proof (from_mnemonic_inv _ _ _ _ Hk) as (_ & _ & _ & Hi & Hpk). split; [|by split].
  apply from_mnemonic_Ok in Hk
    as (c & ma & pa & pr & xp & kp & pk & Hc & Hma & Hpa & Hpr & Hd & ->).
  unfold with_vault_key_index, vault_parent_xpriv, from_mnemonic. simpl.
  by rewrite Hc; simpl; rewrite Hma, Hpa; simpl; rewrite Hpr.
Qed.
End facts.

(** * A concrete instance for the witnesses *)

Definition toy_derive (x : string) (p : string) : option string := Some (x +:+ p).

#[export] Instance toy_key_lib : KeyLib := {|
  Mnemonic := string; Xpriv := string; Xpub := string; DerivationPath := string;
  ChildNumber := N;
  from_entropy_in l := Some (Toy.of_codes l);
  parse_in_normalized s := Some s;
  mnemonic_to_string m := m;
  to_seed_normalized m := Toy.codes m;
  new_master _ l := Some (Toy.of_codes l);
  derivation_path_from_str s := Some s;
  derive_priv := toy_derive;
  from_normal_idx n := if (n <? 2147483648)%N then Some n else None;
  derive_child x n := Some (x +:+ pretty n);
  xpub_from_priv x := x;
  xpriv_to_string x := x;
  xpub_to_string x := x;
  fingerprint _ := "00000000";
  keypair_from_secret_key x := x : Keypair;
|}.

#[export] Instance toy_key_laws : KeyLaws.
Proof.
  split; [|done]. intros n. simpl.
  destruct (N.ltb_spec n 2147483648); split; [done|by eexists|by intros [? [=]]|lia].
Qed.

Definition toy_keys (m : string) (n : Network) : DeviceKeys :=
  match parse_for_network m n with
  | Ok k => k
  | _ => {| keys_network := n; mnemonic := m; vault_key_index := 0; seed := [];
            master_xpriv := ""; vault_xpriv := ""; vault_keypair := "" : Keypair;
            vault_pubkey := "" : XOnlyPublicKey |}
  end.

Lemma with_vault_key_index_is_parse_witness :
  parse_for_network_at_index "abandon" Bitcoin 0 = Ok (toy_keys "abandon" Bitcoin) ∧
  with_vault_key_index (toy_keys "abandon" Bitcoin) 7 =
    parse_for_network_at_index "abandon" Bitcoin 7.
Proof.
  split; [reflexivity|].
  apply (with_vault_key_index_is_parse "abandon" Bitcoin 0 7 (toy_keys "abandon" Bitcoin)).
  reflexivity.
Defined.
