(* ===== verification/FileSystem.v ===== *)
(** The parts of [std::path], [std::fs] and [str] that the storage code uses,
    and [write_private] and [read_json] of [core/storage.rs] on top of them.

    A file system is a map from the names on the way from the root to files
    and directories.  A fault oracle lets any call fail at any stage; the
    theorems quantify over it.  Symbolic links and permissions are not
    modelled. *)

From S2P Require Import Prelude.
From Stdlib Require Import Ascii.

(** * [std::path] *)

Inductive Component :=
  | RootDir
  | CurDir
  | ParentDir
  | Normal (name : string).
#[export] Instance Component_eq_dec : EqDecision Component.
Proof. solve_decision. Defined.

Abbreviation Path := (list Component).

(** The segments between the slashes. *)
Fixpoint split_slash (s : string) : list string :=
  match s with
  | EmptyString => [EmptyString]
  | String c s' =>
      if bool_decide (c = "/"%char) then EmptyString :: split_slash s'
      else match split_slash s' with
           | [] => [String c EmptyString]
           | x :: l => String c x :: l
           end
  end.

Definition segment_component (s : string) : option Component :=
  if bool_decide (s = EmptyString) then None
  else if bool_decide (s = ".") then None
  else if bool_decide (s = "..") then Some ParentDir
  else Some (Normal s).

(** [Path::components]: empty and current-directory segments vanish, except a
    leading one of the latter; a leading slash is the root. *)
Definition components (s : string) : Path :=
  match split_slash s with
  | [] => []
  | x :: l =>
      let rest := omap segment_component l in
      if bool_decide (x = EmptyString) then
        (match l with [] => [] | _ => RootDir :: rest end)
      else if bool_decide (x = ".") then CurDir :: rest
      else match segment_component x with Some c => c :: rest | None => rest end
  end.

Definition is_absolute (s : string) : bool :=
  match s with String c _ => bool_decide (c = "/"%char) | EmptyString => false end.

(** [Path::join] with relative text; an absolute one replaces the base. *)
Definition join (base : Path) (s : string) : Path :=
  if is_absolute s then components s
  else base ++ filter (λ c, c ≠ CurDir) (components s).

(** [Path::parent], the empty one read as the current directory. *)
Definition parent (p : Path) : Path :=
  match last p with
  | None | Some RootDir => []
  | _ => removelast p
  end.

(** * File systems *)

Abbreviation Key := (list string).

Inductive Node := File (content : string) | Dir.
#[export] Instance Node_eq_dec : EqDecision Node.
Proof. solve_decision. Defined.

(** Where a call on a file can fail: opening it to read, creating its
    directories, writing the temporary file, or the final flush of the
    directory, when the new content is in place already. *)
Inductive Fault := AtRead | AtCreate | AtWrite | AtDirSync.
#[export] Instance Fault_eq_dec : EqDecision Fault.
Proof. solve_decision. Defined.

Record FS := {
  nodes : gmap Key Node;
  cwd : Key;
  fault : Key → option Fault;
}.

Definition set_nodes (n : gmap Key Node) (f : FS) : FS :=
  {| nodes := n; cwd := cwd f; fault := fault f |}.

(** What a path names, from the current directory. *)
Definition step_key (k : Key) (c : Component) : Key :=
  match c with
  | RootDir => []
  | CurDir => k
  | ParentDir => removelast k
  | Normal s => k ++ [s]
  end.
Definition resolve (f : FS) (p : Path) : Key := foldl step_key (cwd f) p.

Definition node_at (f : FS) (k : Key) : option Node :=
  match k with [] => Some Dir | _ => nodes f !! k end.

(** [Path::exists]. *)
Definition exists_ (f : FS) (p : Path) : bool :=
  match node_at f (resolve f p) with Some _ => true | None => false end.

(** [dir.read_dir()?.next().is_some()]. *)
Definition has_entry (f : FS) (p : Path) : result bool :=
  let k := resolve f p in
  match node_at f k with
  | Some Dir =>
      Ok (existsb (λ '(k', _), bool_decide (take (length k) k' = k ∧ length k < length k'))
                  (map_to_list (nodes f)))
  | _ => Err "failed to read directory"
  end.

Definition is_file (f : FS) (k : Key) : bool :=
  match node_at f k with Some (File _) => true | _ => false end.

(** [fs::create_dir_all]: the missing directories on the way, unless a file
    is in it. *)
Definition prefixes (k : Key) : list Key := (λ n, take (S n) k) <$> seq 0 (length k).
Definition add_dir (n : gmap Key Node) (k : Key) : gmap Key Node :=
  match n !! k with Some _ => n | None => <[k := Dir]> n end.
Definition create_key (k : Key) : M FS unit :=
  f ← get;
  _ ← pure (bail_if (existsb (is_file f) (prefixes k)) "failed to create directory");
  _ ← pure (bail_if (bool_decide (fault f k = Some AtCreate)) "failed to create directory");
  put (set_nodes (foldl add_dir (nodes f) (prefixes k)) f).
Definition create_dir_all (p : Path) : M FS unit :=
  f ← get; create_key (resolve f p).

(** [write_private]: the directories, then the temporary file, then the
    rename, then the flush of the directory. *)
Definition write_private (p : Path) (bytes : string) : M FS unit :=
  f ← get;
  let k := resolve f p in
  _ ← create_dir_all (parent p);
  _ ← pure (bail_if (bool_decide (fault f k = Some AtWrite)) "failed to write");
  f ← get;
  _ ← pure (bail_if (match node_at f k with Some Dir => true | _ => false end)
              "failed to replace");
  _ ← put (set_nodes (<[k := File bytes]> (nodes f)) f);
  pure (bail_if (bool_decide (fault f k = Some AtDirSync)) "failed to flush directory").

(** [fs::read]. *)
Definition read (f : FS) (p : Path) : result string :=
  let k := resolve f p in
  if bool_decide (fault f k = Some AtRead) then Err "failed to read"
  else match node_at f k with Some (File s) => Ok s | _ => Err "failed to read" end.

(** [fs::remove_dir_all]: the directory and everything below it. *)
Definition remove_dir_all (p : Path) : M FS unit :=
  f ← get;
  let k := resolve f p in
  _ ← pure (bail_if (negb (bool_decide (node_at f k = Some Dir))
                     || bool_decide (fault f k = Some AtWrite)) "failed to remove directory");
  put (set_nodes (filter (λ e, take (length k) e.1 ≠ k) (nodes f)) f).

(** [fs::remove_file]. *)
Definition remove_file (p : Path) : M FS unit :=
  f ← get;
  let k := resolve f p in
  _ ← pure (bail_if (negb (is_file f k) || bool_decide (fault f k = Some AtWrite))
              "failed to remove file");
  put (set_nodes (delete k (nodes f)) f).

(** [fs::rename]: a file or a directory with everything below it, into a
    directory that exists; it replaces a file by a file and an empty directory
    by a directory. *)
Definition below (k x : Key) : bool := bool_decide (take (length k) x = k).
Definition is_dir (f : FS) (k : Key) : bool :=
  match node_at f k with Some Dir => true | _ => false end.
Definition rename_fails (f : FS) (k k' : Key) : bool :=
  match node_at f k, node_at f k' with
  | None, _ => true
  | Some (File _), Some Dir => true
  | Some Dir, Some (File _) => true
  | Some Dir, Some Dir =>
      existsb (λ '(x, _), below k' x && negb (bool_decide (x = k'))) (map_to_list (nodes f))
  | _, None => negb (is_dir f (removelast k'))
  | _, _ => false
  end || below k k' || bool_decide (fault f k = Some AtWrite).
Definition moved (k k' : Key) (n : gmap Key Node) : gmap Key Node :=
  list_to_map ((λ e, (k' ++ drop (length k) e.1, e.2))
                 <$> filter (λ e, below k e.1 = true) (map_to_list n))
  ∪ filter (λ e, below k e.1 = false) n.
Definition rename (p q : Path) : M FS unit :=
  f ← get;
  let k := resolve f p in
  let k' := resolve f q in
  _ ← pure (bail_if (rename_fails f k k') "failed to rename");
  put (set_nodes (moved k k' (nodes f)) f).

(** * [str] *)

Definition bytes_of (s : string) : list N := N_of_ascii <$> String.list_ascii_of_string s.

(** Well-formed UTF-8 (Unicode, table 3-7), which [fs::read_to_string]
    requires. *)
Definition between (a b x : N) : bool := ((a <=? x) && (x <=? b))%N.
Definition cont (x : N) : bool := between 128 191 x.
Definition three_ok (a b : N) : bool :=
  if (a =? 224)%N then between 160 191 b
  else if (a =? 237)%N then between 128 159 b
  else (between 225 236 a || between 238 239 a) && cont b.
Definition four_ok (a b : N) : bool :=
  if (a =? 240)%N then between 144 191 b
  else if (a =? 244)%N then between 128 143 b
  else between 241 243 a && cont b.
Fixpoint utf8 (l : list N) : bool :=
  match l with
  | [] => true
  | a :: l =>
      if (a <? 128)%N then utf8 l else
      match l with
      | [] => false
      | b :: l =>
          if between 194 223 a && cont b then utf8 l else
          match l with
          | [] => false
          | c :: l =>
              if three_ok a b && cont c then utf8 l else
              match l with
              | [] => false
              | d :: l => four_ok a b && cont c && cont d && utf8 l
              end
          end
      end
  end.

Definition read_to_string (f : FS) (p : Path) : result string :=
  s ← read f p;
  _ ← bail_if (negb (utf8 (bytes_of s))) "stream did not contain valid UTF-8";
  mret s.

(** [str::trim]: the encodings of the [White_Space] characters, removed at
    both ends. *)
Definition white_space : list (list N) :=
  ([[9]; [10]; [11]; [12]; [13]; [32]; [194; 133]; [194; 160]; [225; 154; 128]]
   ++ ((λ n, [226; 128; N.of_nat n]) <$> seq 128 11)
   ++ [[226; 128; 168]; [226; 128; 169]; [226; 128; 175]; [226; 129; 159]; [227; 128; 128]])%N.

Fixpoint strip (fuel : nat) (spaces : list (list N)) (l : list N) : list N :=
  match fuel with
  | 0 => l
  | S fuel =>
      match List.find (λ s, bool_decide (take (length s) l = s)) spaces with
      | Some s => strip fuel spaces (drop (length s) l)
      | None => l
      end
  end.

Definition string_of (l : list N) : string := String.string_of_list_ascii (ascii_of_N <$> l).

Definition trim (s : string) : string :=
  let l := bytes_of s in
  let l := strip (length l) white_space l in
  let l := rev (strip (length l) (@rev N <$> white_space) (rev l)) in
  string_of l.

Definition NEWLINE : string := String "010" EmptyString.

(** * JSON

    [serde_json] with the derived implementations of a type. *)
Class Json (A : Type) := {
  to_vec_pretty : A → option string;
  from_slice : string → option A;
}.
Class JsonLaws (A : Type) `{Json A} : Prop := {
  json_round_trip a s : to_vec_pretty a = Some s → from_slice s = Some a;
}.

Definition write_json `{Json A} (p : Path) (a : A) : M FS unit :=
  bytes ← pure (or_err (to_vec_pretty a) "failed to serialize");
  write_private p bytes.

Definition read_json `{Json A} (f : FS) (p : Path) : result A :=
  bytes ← read f p;
  or_err (from_slice bytes) "invalid JSON".

(** * Facts *)

Section text_facts.

Lemma bytes_app s t : bytes_of (s +:+ t) = bytes_of s ++ bytes_of t.
Proof.
  unfold bytes_of. induction s as [|c s IH]; [done|]. csimpl. f_equal. exact IH.
Qed.

Lemma string_of_bytes s : string_of (bytes_of s) = s.
Proof.
  unfold string_of, bytes_of. induction s as [|c s IH]; [done|]. csimpl.
  rewrite ascii_N_embedding. f_equal. exact IH.
Qed.

(** Bytes that no white-space encoding starts or ends with. *)
Definition plain (x : N) : Prop := (33 ≤ x ≤ 126)%N.

Lemma strip_plain spaces fuel x l :
  plain x → Forall (λ s, ∃ y s', s = y :: s' ∧ ¬ plain y) spaces →
  strip fuel spaces (x :: l) = x :: l.
Proof.
  intros Hx Hs. destruct fuel as [|fuel]; [done|]. simpl.
  destruct (List.find _ spaces) as [s|] eqn:Hf; [|done].
  apply find_some in Hf as [Hin Heq%bool_decide_eq_true]. apply list_elem_of_In in Hin.
  rewrite Forall_forall in Hs. destruct (Hs s Hin) as (y & s' & -> & Hy).
  by injection Heq as -> _.
Qed.

Lemma not_plain_dec x : (x <? 33)%N || (126 <? x)%N = true → ¬ plain x.
Proof. unfold plain. intros [?%N.ltb_lt|?%N.ltb_lt]%orb_true_iff; lia. Qed.

Lemma white_space_starts : Forall (λ s, ∃ y s', s = y :: s' ∧ ¬ plain y) white_space.
Proof.
  repeat (constructor; [eexists _, _; split; [reflexivity|by apply not_plain_dec]|]). constructor.
Qed.
Lemma white_space_ends : Forall (λ s, ∃ y s', s = y :: s' ∧ ¬ plain y) (@rev N <$> white_space).
Proof.
  repeat (constructor; [eexists _, _; split; [reflexivity|by apply not_plain_dec]|]). constructor.
Qed.

Lemma strip_newline l : strip (S (length l)) (@rev N <$> white_space) (10%N :: l) =
  strip (length l) (@rev N <$> white_space) l.
Proof. reflexivity. Qed.

(** A line of plain text, read back and trimmed. *)
Lemma trim_line s : Forall plain (bytes_of s) → trim (s +:+ NEWLINE) = s.
Proof.
  intros Hp. unfold trim. rewrite bytes_app. change (bytes_of NEWLINE) with [10%N].
  destruct (decide (bytes_of s = [])) as [He|He].
  { assert (s = EmptyString) as -> by (destruct s; done). reflexivity. }
  destruct (exists_last He) as (l & z & Hz).
  assert (strip (length (bytes_of s ++ [10%N])) white_space (bytes_of s ++ [10%N])
          = bytes_of s ++ [10%N]) as ->.
  { destruct (bytes_of s) as [|x k]; [done|]. apply Forall_cons_iff in Hp as [Hx _].
    simpl app. apply strip_plain; [done|]. apply white_space_starts. }
  rewrite rev_app_distr, length_app, Nat.add_1_r, <-length_rev. simpl (rev [10%N] ++ _).
  rewrite strip_newline, Hz, rev_app_distr. change (rev [z] ++ rev l) with (z :: rev l).
  rewrite strip_plain.
  - change (z :: rev l) with (rev [z] ++ rev l).
    rewrite <-rev_app_distr, rev_involutive, <-Hz. apply string_of_bytes.
  - rewrite Hz in Hp. apply Forall_app in Hp as [_ [Hp _]%Forall_cons_iff]. done.
  - apply white_space_ends.
Qed.

Lemma utf8_plain l : Forall plain l → utf8 l = true.
Proof.
  induction 1 as [|x l Hx Hl IH]; [done|]. unfold plain in Hx. simpl.
  destruct (N.ltb_spec x 128); [done|lia].
Qed.
Lemma utf8_line l : Forall plain l → utf8 (l ++ [10%N]) = true.
Proof.
  induction 1 as [|x l Hx Hl IH]; [done|]. unfold plain in Hx. simpl app. simpl.
  destruct (N.ltb_spec x 128); [done|lia].
Qed.
End text_facts.

Section fs_facts.
Implicit Types (f : FS) (p : Path) (k : Key).

(** The contents of the file of a name. *)
Definition file_at f k : option string :=
  match node_at f k with Some (File s) => Some s | _ => None end.

Definition no_read_fault f : Prop := ∀ k, fault f k ≠ Some AtRead.

(** Two file systems of the same process. *)
Definition same_env f f' : Prop := cwd f' = cwd f ∧ fault f' = fault f.

Lemma resolve_env f f' p : same_env f f' → resolve f' p = resolve f p.
Proof. intros [Hc _]. unfold resolve. by rewrite Hc. Qed.

(** What a call may do to a name it does not write: make it a directory when
    it is on the way. *)
Definition node_kept f f' (dirs : list Key) k : Prop :=
  node_at f' k = node_at f k ∨ (node_at f k = None ∧ node_at f' k = Some Dir ∧ k ∈ dirs).

Lemma node_kept_file f f' dirs k : node_kept f f' dirs k → file_at f' k = file_at f k.
Proof. unfold file_at. by intros [->|(-> & -> & _)]. Qed.

Lemma add_dirs_lookup n l k :
  foldl add_dir n l !! k = match n !! k with
                           | Some x => Some x
                           | None => if decide (k ∈ l) then Some Dir else None
                           end.
Proof.
  revert n. induction l as [|d l IH]; intros n; simpl; [by destruct (n !! k)|].
  rewrite IH. unfold add_dir. destruct (n !! d) as [y|] eqn:Hd; destruct (decide (d = k)) as [->|Hne].
  - by rewrite Hd.
  - destruct (n !! k); [done|]. repeat case_decide; set_solver.
  - rewrite lookup_insert_eq, Hd. by rewrite decide_True by set_solver.
  - rewrite lookup_insert_ne by done. destruct (n !! k); [done|].
    repeat case_decide; set_solver.
Qed.

(** Making directories. *)
Lemma create_key_run k f r f' :
  create_key k f = (r, f') →
  same_env f f' ∧ r ≠ Panic ∧ ∀ k', node_kept f f' (prefixes k) k'.
Proof.
  unfold create_key, get, put, pure, mbind, M_bind.
  destruct (existsb _ _) eqn:He; simpl; [by intros [= <- <-]; split_and!; [done|done|left]|].
  case_bool_decide; simpl; [by intros [= <- <-]; split_and!; [done|done|left]|]. intros [= <- <-].
  split; [done|]. split; [done|]. intros [|a k']; [by left|]. unfold node_kept, node_at.
  simpl. rewrite add_dirs_lookup. destruct (nodes f !! (a :: k')); [by left|].
  case_decide; [by right|by left].
Qed.

Lemma write_private_run p bytes f r f' :
  write_private p bytes f = (r, f') →
  same_env f f' ∧ r ≠ Panic ∧
  (∀ k, k ≠ resolve f p → node_kept f f' (prefixes (resolve f (parent p))) k) ∧
  (node_at f' (resolve f p) = Some (File bytes) ∨
   r ≠ Ok tt ∧ node_kept f f' (prefixes (resolve f (parent p))) (resolve f p)).
Proof.
  unfold write_private, create_dir_all, get, put, pure.
  do 2 (unfold mbind at 1, M_bind). unfold mbind at 1, M_bind.
  destruct (create_key (resolve f (parent p)) f) as [r1 f1] eqn:H1.
  apply create_key_run in H1 as (He & Hp & Hf).
  destruct r1 as [u|e|]; [|intros [= <- <-]; split_and!; eauto|done].
  unfold mbind, M_bind. simpl. case_bool_decide as Hw; simpl; [intros [= <- <-]; split_and!; eauto|].
  destruct (match node_at f1 (resolve f p) with Some Dir => true | _ => false end) eqn:Hd;
    simpl; [intros [= <- <-]; split_and!; eauto|].
  intros Hr.
  assert (f' = set_nodes (<[resolve f p := File bytes]> (nodes f1)) f1 ∧ r ≠ Panic) as [-> Hr'].
  { case_bool_decide; simpl in Hr; by injection Hr as <- <-. }
  destruct (resolve f p) as [|a k0] eqn:Hk; [done|]. split_and!; [done|done| |left].
  - intros [|b k'] Hne; [by left|]. specialize (Hf (b :: k')). unfold node_kept, node_at in *.
    simpl. by rewrite lookup_insert_ne by congruence.
  - unfold node_at. simpl. by rewrite lookup_insert_eq.
Qed.

(** In terms of the contents of files. *)
Lemma write_private_files p bytes f r f' :
  write_private p bytes f = (r, f') →
  same_env f f' ∧ r ≠ Panic ∧
  (∀ k, k ≠ resolve f p → file_at f' k = file_at f k) ∧
  (file_at f' (resolve f p) = Some bytes ∨
   r ≠ Ok tt ∧ file_at f' (resolve f p) = file_at f (resolve f p)).
Proof.
  intros (He & Hp & Hk & Hn)%write_private_run. split_and!; [done|done| |].
  - intros k Hne. by eapply node_kept_file, Hk.
  - destruct Hn as [Hn|[Hr Hn]]; [left; unfold file_at; by rewrite Hn|right].
    split; [done|]. by eapply node_kept_file.
Qed.

Lemma read_Ok f p s :
  read f p = Ok s ↔ fault f (resolve f p) ≠ Some AtRead ∧ file_at f (resolve f p) = Some s.
Proof.
  unfold read, file_at. case_bool_decide; [naive_solver|].
  destruct (node_at f (resolve f p)) as [[]|]; naive_solver.
Qed.

Lemma read_not_Panic f p : read f p ≠ Panic.
Proof. unfold read. case_bool_decide; [done|]. by destruct (node_at _ _) as [[]|]. Qed.

Lemma read_to_string_not_Panic f p : read_to_string f p ≠ Panic.
Proof.
  apply bind_not_Panic; [apply read_not_Panic|intros s _].
  by apply bind_not_Panic; [apply bail_if_not_Panic|].
Qed.

Lemma read_line f p s :
  no_read_fault f → Forall plain (bytes_of s) → file_at f (resolve f p) = Some (s +:+ NEWLINE) →
  read_to_string f p = Ok (s +:+ NEWLINE).
Proof.
  intros Hn Hs Hf. unfold read_to_string. rewrite (proj2 (read_Ok f p (s +:+ NEWLINE))) by done.
  simpl. rewrite bytes_app. change (bytes_of NEWLINE) with [10%N]. by rewrite utf8_line.
Qed.

Lemma write_json_run `{Json A} p (a : A) f r f' :
  write_json p a f = (r, f') →
  same_env f f' ∧ r ≠ Panic ∧
  (∀ k, k ≠ resolve f p → file_at f' k = file_at f k) ∧
  (r = Ok tt → ∃ s, to_vec_pretty a = Some s ∧ file_at f' (resolve f p) = Some s).
Proof.
  unfold write_json, pure, mbind, M_bind.
  destruct (to_vec_pretty a) as [s|] eqn:Hs; simpl; [|by intros [= <- <-]].
  intros (He & Hp & Ho & Hk)%write_private_files. split_and!; [done..|].
  intros ->. exists s. split; [done|]. by destruct Hk as [|[? _]].
Qed.

Lemma read_json_of `{JsonLaws A} f p (a : A) s :
  no_read_fault f → to_vec_pretty a = Some s → file_at f (resolve f p) = Some s →
  read_json f p = Ok a.
Proof.
  intros Hn Hs Hf. unfold read_json. rewrite (proj2 (read_Ok f p s)) by done. simpl.
  by rewrite (json_round_trip _ _ Hs).
Qed.

Lemma read_json_not_Panic `{Json A} f p : read_json f p ≠ (Panic : result A).
Proof. apply bind_not_Panic; [apply read_not_Panic|intros s _; apply or_err_not_Panic]. Qed.

(** Relative names without dot segments, joined to a base. *)
Lemma resolve_join f p s (names : list string) :
  is_absolute s = false → components s = Normal <$> names →
  resolve f (join p s) = resolve f p ++ names.
Proof.
  intros Ha Hc. unfold join, resolve. rewrite Ha, Hc, foldl_app.
  assert (filter (λ c, c ≠ CurDir) (Normal <$> names) = Normal <$> names) as ->.
  { clear. induction names as [|n names IH]; [done|]. csimpl.
    rewrite filter_cons_True by done. by rewrite IH. }
  generalize (foldl step_key (cwd f) p) as k. clear Hc.
  induction names as [|n names IH]; intros k; simpl; [by rewrite app_nil_r|].
  rewrite IH. by rewrite <-(assoc_L (++)).
Qed.

End fs_facts.

(** * Witnesses *)

Definition empty_fs : FS := {| nodes := ∅; cwd := []; fault := λ _, None |}.
Definition toy_dir : Path := [RootDir; Normal "data"].
Definition toy_disk_error : FS :=
  {| nodes := nodes empty_fs; cwd := [];
     fault := λ k, if decide (k = ["data"; "anzen.json"]) then Some AtDirSync else None |}.

