(* ===== verification/FsProgress.v ===== *)
(** When calls on the file system succeed: on a file system that is a tree and
    has no fault, what each call makes of every name. *)

From S2P Require Import Prelude FileSystem.

Implicit Types (f : FS) (k : Key) (p : Path).

(** ** Trees *)

(** What has a name is in a directory. *)
Definition tree f : Prop := ∀ k x nd, node_at f (k ++ [x]) = Some nd → node_at f k = Some Dir.
Definition no_fault f : Prop := ∀ k, fault f k = None.
(** No file is on the way to [k]. *)
Definition clear f k : Prop := ∀ k', k' `prefix_of` k → is_file f k' = false.

Lemma no_fault_reads f : no_fault f → no_read_fault f.
Proof. intros Hn k. by rewrite Hn. Qed.
Lemma no_fault_env f f' : same_env f f' → no_fault f → no_fault f'.
Proof. intros [_ He] Hn k. by rewrite He. Qed.

Lemma elem_prefixes k k' : k' ∈ prefixes k ↔ k' ≠ [] ∧ k' `prefix_of` k.
Proof.
  unfold prefixes. rewrite list_elem_of_fmap. split.
  - intros (n & -> & Hn%elem_of_seq). split; [|apply prefix_take].
    destruct k; [simpl in Hn; lia|done].
  - intros [Hne [l ->]]. exists (pred (length k')). split.
    + destruct k' as [|x k']; [done|]. cbn [length pred]. symmetry. exact (take_app_length (x :: k') l).
    + apply elem_of_seq. rewrite length_app. destruct k'; [done|simpl; lia].
Qed.

Lemma prefix_snoc k k' (x : string) : k' `prefix_of` k ++ [x] → k' = k ++ [x] ∨ k' `prefix_of` k.
Proof.
  intros [l Hl]. destruct (decide (l = [])) as [->|Hne]; [left; by rewrite app_nil_r in Hl|right].
  destruct l as [|y l _] using rev_ind; [done|]. rewrite app_assoc in Hl.
  apply app_inj_tail in Hl as [-> _]. by eexists.
Qed.

Lemma app_self k l : k = k ++ l → l = [].
Proof. intros H%(f_equal length). rewrite length_app in H. destruct l; [done|simpl in H; lia]. Qed.

Lemma tree_above f k k' nd :
  tree f → node_at f k = Some nd → k' `prefix_of` k → k' ≠ k → node_at f k' = Some Dir.
Proof.
  intros Ht Hk [l ->]. revert nd Hk. induction l as [|x l IH] using rev_ind; intros nd Hk Hne.
  { by rewrite app_nil_r in Hne. }
  rewrite app_assoc in Hk. apply Ht in Hk.
  destruct (decide (l = [])) as [->|Hl]; [by rewrite app_nil_r in Hk|].
  eapply IH; [exact Hk|]. by intros ->%app_self.
Qed.

Lemma tree_clear f k : tree f → node_at f k = Some Dir → clear f k.
Proof.
  intros Ht Hk k' Hp. unfold is_file. destruct (decide (k' = k)) as [->|Hne]; [by rewrite Hk|].
  by rewrite (tree_above f k k' Dir).
Qed.

Lemma tree_parent_clear f k x nd : tree f → node_at f (k ++ [x]) = Some nd → clear f k.
Proof. intros Ht Hk. apply tree_clear; [done|]. by eapply Ht. Qed.

(** ** Making directories *)

Lemma create_key_ok k f :
  no_fault f → tree f → clear f k →
  ∃ f', create_key k f = (Ok tt, f') ∧ same_env f f' ∧ tree f' ∧
    ∀ k', node_at f' k' = if decide (k' `prefix_of` k) then Some Dir else node_at f k'.
Proof.
  intros Hn Ht Hc. unfold create_key, get, put, pure, mbind, M_bind. simpl.
  assert (existsb (is_file f) (prefixes k) = false) as ->.
  { apply not_true_iff_false. rewrite existsb_exists. intros (k' & Hk'%list_elem_of_In & Hf).
    apply elem_prefixes in Hk' as [_ Hp]. by rewrite Hc in Hf. }
  rewrite bool_decide_eq_false_2 by (by rewrite Hn). simpl. eexists. split; [done|]. split; [done|].
  assert (∀ k', node_at (set_nodes (foldl add_dir (nodes f) (prefixes k)) f) k' =
                if decide (k' `prefix_of` k) then Some Dir else node_at f k') as Hnodes.
  { intros [|x k'].
    - rewrite decide_True by apply prefix_nil. done.
    - unfold node_at. simpl. rewrite add_dirs_lookup. destruct (nodes f !! (x :: k')) as [nd|] eqn:Hx.
      + case_decide as Hp; [|done]. specialize (Hc _ Hp). unfold is_file, node_at in Hc.
        rewrite Hx in Hc. by destruct nd.
      + destruct (decide (x :: k' ∈ prefixes k)) as [Hi|Hi]; rewrite elem_prefixes in Hi;
          case_decide; naive_solver. }
  split; [|done]. intros k' x nd. rewrite !Hnodes. destruct (decide (k' ++ [x] `prefix_of` k)) as [Hp|Hp].
  - intros _. rewrite decide_True; [done|]. etrans; [|exact Hp]. by eexists.
  - intros Hk'%Ht. case_decide; [done|exact Hk'].
Qed.

(** ** Writing a file *)

Lemma write_private_ok p bytes f k x :
  resolve f p = k ++ [x] → resolve f (parent p) = k →
  no_fault f → tree f → clear f k → node_at f (k ++ [x]) ≠ Some Dir →
  ∃ f', write_private p bytes f = (Ok tt, f') ∧ same_env f f' ∧ tree f' ∧
    ∀ k', node_at f' k' = if decide (k' = k ++ [x]) then Some (File bytes)
                          else if decide (k' `prefix_of` k) then Some Dir else node_at f k'.
Proof.
  intros Hp Hpar Hn Ht Hc Hd. destruct (create_key_ok k f Hn Ht Hc) as (f1 & Hf1 & He1 & Ht1 & Hk1).
  assert (¬ k ++ [x] `prefix_of` k) as Hnp.
  { intros [l Hl]. rewrite <-app_assoc in Hl. apply app_self in Hl. done. }
  assert (node_at f1 (k ++ [x]) = node_at f (k ++ [x])) as Hkx by (by rewrite Hk1, decide_False).
  unfold write_private, create_dir_all, get, put, pure, mbind, M_bind. rewrite Hpar, Hf1, Hp.
  cbn beta iota zeta. rewrite bool_decide_eq_false_2 by (by rewrite Hn). simpl.
  rewrite Hkx. assert (match node_at f (k ++ [x]) with Some Dir => true | _ => false end = false) as ->
    by (destruct (node_at f (k ++ [x])) as [[]|]; done).
  rewrite bool_decide_eq_false_2 by (by rewrite (no_fault_env _ _ He1 Hn)). simpl.
  eexists. split; [done|]. split; [by destruct He1|].
  assert (∀ k', node_at (set_nodes (<[k ++ [x]:=File bytes]> (nodes f1)) f1) k' =
    if decide (k' = k ++ [x]) then Some (File bytes)
    else if decide (k' `prefix_of` k) then Some Dir else node_at f k') as Hnodes.
  { intros k'. rewrite <-Hk1. destruct k' as [|y k'].
    - rewrite decide_False by (by destruct k). done.
    - unfold node_at. simpl. case_decide as Heq.
      + by rewrite Heq, lookup_insert_eq.
      + by rewrite lookup_insert_ne. }
  split; [|done]. intros k' y nd. rewrite !Hnodes. intros Hk'.
  destruct (decide (k' = k ++ [x])) as [->|Hne].
  { exfalso. rewrite decide_False in Hk' by (by intros Heq%eq_sym%app_self).
    rewrite decide_False in Hk'.
    - apply Ht in Hk'. done.
    - intros [l Hl]. rewrite <-!app_assoc in Hl. apply app_self in Hl. done. }
  destruct (decide (k' ++ [y] = k ++ [x])) as [[-> _]%app_inj_tail|Hne'].
  { by rewrite decide_True. }
  case_decide as Hpy.
  - rewrite decide_True; [done|]. etrans; [|exact Hpy]. by eexists.
  - apply Ht in Hk'. case_decide; [done|exact Hk'].
Qed.

(** Overwriting a file keeps every other name as it is. *)
Lemma overwrite_ok p bytes f k x s :
  resolve f p = k ++ [x] → resolve f (parent p) = k →
  no_fault f → tree f → file_at f (k ++ [x]) = Some s →
  ∃ f', write_private p bytes f = (Ok tt, f') ∧ same_env f f' ∧ tree f' ∧
    ∀ k', node_at f' k' = if decide (k' = k ++ [x]) then Some (File bytes) else node_at f k'.
Proof.
  intros Hp Hpar Hn Ht Hf. unfold file_at in Hf.
  destruct (node_at f (k ++ [x])) as [[c|]|] eqn:Hk; [|done..].
  destruct (write_private_ok p bytes f k x) as (f' & Hw & He & Ht' & Hnodes); try done.
  { by eapply tree_parent_clear. }
  { by rewrite Hk. }
  exists f'. split_and!; [done..|]. intros k'. rewrite Hnodes. case_decide; [done|].
  case_decide as Hpre; [|done]. symmetry. pose proof (Ht _ _ _ Hk) as Hkd.
  destruct (decide (k' = k)) as [->|Hne]; [done|]. by eapply tree_above.
Qed.

(** ** Removing a directory *)

Lemma remove_dir_all_ok p f :
  resolve f p ≠ [] → no_fault f → tree f → node_at f (resolve f p) = Some Dir →
  ∃ f', remove_dir_all p f = (Ok tt, f') ∧ same_env f f' ∧ tree f' ∧
    ∀ k', node_at f' k' = if decide (resolve f p `prefix_of` k') then None else node_at f k'.
Proof.
  intros Hne Hn Ht Hd. unfold remove_dir_all, get, put, pure, mbind, M_bind. simpl.
  rewrite bool_decide_eq_true_2 by done. rewrite bool_decide_eq_false_2 by (by rewrite Hn). simpl.
  eexists. split; [done|]. split; [done|]. set (K := resolve f p) in *.
  assert (∀ k', node_at (set_nodes (filter (λ e, take (length K) e.1 ≠ K) (nodes f)) f) k' =
    if decide (K `prefix_of` k') then None else node_at f k') as Hnodes.
  { intros [|y k'].
    - rewrite decide_False; [done|]. intros ->%prefix_nil_inv. done.
    - unfold node_at. simpl. rewrite map_lookup_filter.
      destruct (nodes f !! (y :: k')) as [nd|]; simpl; [|by case_decide].
      case_decide as Hp.
      + rewrite option_guard_False; [done|]. simpl. destruct Hp as [l ->].
        intros Hx. apply Hx, take_app_length.
      + rewrite option_guard_True; [done|]. simpl. intros Hx. apply Hp. rewrite <-Hx. apply prefix_take. }
  split; [|done]. intros k' x nd. rewrite !Hnodes. case_decide as Hp; [done|]. intros Hk'%Ht.
  rewrite decide_False; [done|]. intros Hp'. apply Hp. etrans; [exact Hp'|]. by eexists.
Qed.

(** ** Names below a directory *)

Lemma parent_join f p s (names : list string) x :
  is_absolute s = false → components s = Normal <$> names ++ [x] →
  resolve f (parent (join p s)) = resolve f p ++ names.
Proof.
  intros Ha Hc.
  assert (parent (join p s) = p ++ (Normal <$> names)) as ->.
  { unfold join. rewrite Ha, Hc.
    assert (filter (λ c, c ≠ CurDir) (Normal <$> names ++ [x]) = Normal <$> names ++ [x]) as ->.
    { clear. generalize (names ++ [x]) as l. intros l. induction l as [|n l IH]; [done|]. csimpl.
      rewrite filter_cons_True by done. by rewrite IH. }
    unfold parent. rewrite fmap_app, app_assoc. csimpl. rewrite last_snoc. by rewrite removelast_last. }
  unfold resolve. rewrite foldl_app. generalize (foldl step_key (cwd f) p) as k. clear.
  induction names as [|n names IH]; intros k; simpl; [by rewrite app_nil_r|].
  rewrite IH. by rewrite <-(assoc_L (++)).
Qed.

Lemma snoc_names (names : list string) : names ≠ [] → ∃ l x, names = l ++ [x].
Proof. destruct names as [|y l _] using rev_ind; [done|]. by exists l, y. Qed.

(** ** Deciding what a file system is *)

Definition tree_b f : bool :=
  forallb (λ e, bool_decide (node_at f (removelast e.1) = Some Dir)) (map_to_list (nodes f)).
Definition clear_b f k : bool := negb (is_file f [] || existsb (is_file f) (prefixes k)).

Lemma tree_of_b f : tree_b f = true → tree f.
Proof.
  unfold tree_b. rewrite forallb_forall. intros Hall k x nd Hk.
  destruct (k ++ [x]) as [|y l] eqn:Heq; [by destruct k|]. unfold node_at in Hk.
  assert (In (y :: l, nd) (map_to_list (nodes f))) as Hin%Hall%bool_decide_eq_true
    by by apply list_elem_of_In, elem_of_map_to_list.
  cbn [fst] in Hin. by rewrite <-Heq, removelast_last in Hin.
Qed.

Lemma clear_of_b f k : clear_b f k = true → clear f k.
Proof.
  unfold clear_b. rewrite negb_true_iff, orb_false_iff. intros [H0 Hall] k' Hp.
  destruct (is_file f k') eqn:Hf; [|done]. destruct (decide (k' = [])) as [->|Hne]; [congruence|].
  apply not_true_iff_false in Hall. exfalso. apply Hall, existsb_exists. exists k'.
  split; [|done]. by apply list_elem_of_In, elem_prefixes.
Qed.
