(* ===== verification/Storage.v ===== *)
(** The vault's configuration and device files ([core/storage.rs]). *)

From S2P Require Import Prelude Bitcoin Toy Types Keys Policy FileSystem.

Definition CONFIG_FILE : string := "anzen.json".
Definition LEGACY_CONFIG_FILE : string := "vault.json".
Definition PHONE_DEVICE_FILE : string := "phone/device.json".
Definition HWW_DEVICE_FILE : string := "hww/device.json".
Definition HWW_PUBLIC_FILE : string := "hww/public.json".
Definition PHONE_BACKUP_FILE : string := "cloud/phone-seed-backup.json".

Record VaultConfig := {
  config_version : N;
  config_network : string;
  phone_vault_pubkey : string;
  hww_vault_pubkey : string;
  phone_hot_external_descriptor : string;
  phone_hot_internal_descriptor : string;
  vault_descriptor : string;
  vault_address : string;
  phone_recovery_blocks : N;
  hww_recovery_blocks : N;
  config_monthly_limit_sats : N;
  config_emergency_access_limit_sats : N;
}.

Record DeviceFile := {
  device_kind : string;
  device_network : string;
  device_mnemonic : string;
  device_vault_key_index : N;
}.

Record PublicDeviceFile := {
  public_version : N;
  public_kind : string;
  public_network : string;
  public_vault_pubkey : string;
}.

Record InitializedDevice := {
  initialized_mnemonic : string;
  initialized_vault_pubkey : string;
  initialized_vault_key_index : N;
}.

Definition network_name (network : Network) : string :=
  match network with
  | Bitcoin => "mainnet"
  | Regtest => "regtest"
  | _ => "unsupported"
  end.

Definition parse_network_name (name : string) : result Network :=
  if bool_decide (name = "mainnet") || bool_decide (name = "bitcoin") then Ok Bitcoin
  else if bool_decide (name = "regtest") then Ok Regtest
  else Err "unsupported vault network".

Definition validate_supported_network (network : Network) : result unit :=
  match network with
  | Bitcoin | Regtest => Ok tt
  | _ => Err "unsupported vault network"
  end.

Definition default_network_name : string := "regtest".

Definition bitcoin_network (c : VaultConfig) : result Network :=
  parse_network_name (config_network c).
Definition device_bitcoin_network (d : DeviceFile) : result Network :=
  parse_network_name (device_network d).
Definition public_bitcoin_network (d : PublicDeviceFile) : result Network :=
  parse_network_name (public_network d).

Definition config_path (f : FS) (data_dir : Path) : Path :=
  let current := join data_dir CONFIG_FILE in
  if exists_ f current then current else
  let legacy := join data_dir LEGACY_CONFIG_FILE in
  if exists_ f legacy then legacy else current.

Definition config_exists (f : FS) (data_dir : Path) : bool :=
  exists_ f (join data_dir CONFIG_FILE) || exists_ f (join data_dir LEGACY_CONFIG_FILE).

Definition hot_db_path (data_dir : Path) : Path := join data_dir "phone/hot-wallet.sqlite".

Definition set_limits (monthly_limit_sats emergency_access_limit_sats : N) (c : VaultConfig)
    : VaultConfig :=
  {| config_version := config_version c; config_network := config_network c;
     phone_vault_pubkey := phone_vault_pubkey c; hww_vault_pubkey := hww_vault_pubkey c;
     phone_hot_external_descriptor := phone_hot_external_descriptor c;
     phone_hot_internal_descriptor := phone_hot_internal_descriptor c;
     vault_descriptor := vault_descriptor c; vault_address := vault_address c;
     phone_recovery_blocks := phone_recovery_blocks c;
     hww_recovery_blocks := hww_recovery_blocks c;
     config_monthly_limit_sats := monthly_limit_sats;
     config_emergency_access_limit_sats := emergency_access_limit_sats |}.

Section storage.
Context `{BitcoinLib, !KeyLib, Json VaultConfig, Json DeviceFile, Json PublicDeviceFile}.

Definition parsed_vault_pubkey (d : PublicDeviceFile) : result XOnlyPublicKey :=
  or_err (key_from_str (public_vault_pubkey d)) "invalid public device vault key".

Definition load_config (f : FS) (data_dir : Path) : result VaultConfig :=
  read_json f (config_path f data_dir).

Definition load_device (f : FS) (data_dir : Path) (relative_path : string) : result DeviceFile :=
  read_json f (join data_dir relative_path).

Definition load_public_device (f : FS) (data_dir : Path) (relative_path : string)
    : result PublicDeviceFile :=
  read_json f (join data_dir relative_path).

Definition load_device_keys (f : FS) (data_dir : Path) (relative_path : string)
    : result DeviceKeys :=
  file ← load_device f data_dir relative_path;
  network ← device_bitcoin_network file;
  parse_for_network_at_index (device_mnemonic file) network (device_vault_key_index file).

Definition set_policy_limits (data_dir : Path) (monthly_limit_sats emergency_access_limit_sats : N)
    : M FS VaultConfig :=
  f ← get;
  config ← pure (load_config f data_dir);
  let config := set_limits monthly_limit_sats emergency_access_limit_sats config in
  _ ← write_json (config_path f data_dir) config;
  mret config.

Definition set_monthly_limit (data_dir : Path) (monthly_limit_sats : N) : M FS VaultConfig :=
  f ← get;
  config ← pure (load_config f data_dir);
  set_policy_limits data_dir monthly_limit_sats (config_emergency_access_limit_sats config).

(** The public metadata of the HWW, where it exists, must be of its key. *)
Definition check_public_device (f : FS) (data_dir : Path) (network : Network)
    (hww : XOnlyPublicKey) : result unit :=
  if exists_ f (join data_dir HWW_PUBLIC_FILE) then
    public_hww ← load_public_device f data_dir HWW_PUBLIC_FILE;
    bail_when ((n ← public_bitcoin_network public_hww; !!= (n = network)) ||?
               (k ← parsed_vault_pubkey public_hww;
                !!= (k = hww)))
      "HWW public metadata does not match the initialized HWW key"
  else Ok tt.

Definition vault_config (network : Network) (phone hww : DeviceKeys) (policy : VaultPolicy)
    (hot_external hot_internal : string) : VaultConfig :=
  {| config_version := 1; config_network := network_name network;
     phone_vault_pubkey := key_to_string (vault_pubkey phone);
     hww_vault_pubkey := key_to_string (vault_pubkey hww);
     phone_hot_external_descriptor := hot_external;
     phone_hot_internal_descriptor := hot_internal;
     vault_descriptor := vault_descriptor_string policy;
     vault_address := address_to_string (vault_address_of policy);
     phone_recovery_blocks := PHONE_RECOVERY_BLOCKS;
     hww_recovery_blocks := HWW_RECOVERY_BLOCKS;
     config_monthly_limit_sats := 0; config_emergency_access_limit_sats := 0 |}.

Definition initialize_vault_for_network (data_dir : Path) (network : Network)
    : M FS VaultConfig :=
  _ ← pure (validate_supported_network network);
  f ← get;
  _ ← pure (bail_if (exists_ f (join data_dir CONFIG_FILE)
                     || exists_ f (join data_dir LEGACY_CONFIG_FILE))
              "vault already initialized");
  phone_file ← pure (with_context (load_device f data_dir PHONE_DEVICE_FILE)
                       "initialize the phone before the vault");
  hww_file ← pure (with_context (load_device f data_dir HWW_DEVICE_FILE)
                     "initialize the HWW before the vault");
  _ ← pure (bail_when ((n ← device_bitcoin_network phone_file; !!= (n = network)) ||?
                       (n ← device_bitcoin_network hww_file; !!= (n = network)))
              "phone, HWW, and vault must be initialized for the same network");
  phone ← pure (parse_for_network_at_index (device_mnemonic phone_file) network
                  (device_vault_key_index phone_file));
  hww ← pure (parse_for_network_at_index (device_mnemonic hww_file) network
                (device_vault_key_index hww_file));
  _ ← pure (check_public_device f data_dir network (vault_pubkey hww));
  policy ← pure (vault_new_for_network (vault_pubkey phone) (vault_pubkey hww) network);
  hot ← pure (hot_descriptors phone);
  let config := vault_config network phone hww policy hot.1 hot.2 in
  _ ← write_json (join data_dir CONFIG_FILE) config;
  mret config.

Definition initialize_vault (data_dir : Path) : M FS VaultConfig :=
  initialize_vault_for_network data_dir Regtest.
End storage.

(** * The configuration file *)

Section config_file.
Context `{BitcoinLib, !KeyLib, JsonLaws VaultConfig, Json DeviceFile, Json PublicDeviceFile}.
Implicit Types (f : FS) (d : Path).

Lemma parse_network_name_of n : validate_supported_network n = Ok tt →
  parse_network_name (network_name n) = Ok n.
Proof. by destruct n. Qed.

Lemma resolve_current f d : resolve f (join d CONFIG_FILE) = resolve f d ++ ["anzen.json"].
Proof. by apply resolve_join. Qed.
Lemma resolve_legacy f d : resolve f (join d LEGACY_CONFIG_FILE) = resolve f d ++ ["vault.json"].
Proof. by apply resolve_join. Qed.

Lemma prefixes_length k k' : k' ∈ prefixes k → length k' ≤ length k.
Proof. unfold prefixes. intros (n & -> & Hn)%list_elem_of_fmap. rewrite length_take. lia. Qed.

Lemma parent_snoc d s : parent (d ++ [Normal s]) = d.
Proof. unfold parent. rewrite last_snoc. apply removelast_last. Qed.

Lemma parent_config f d x : x ∈ [CONFIG_FILE; LEGACY_CONFIG_FILE] → parent (join d x) = d.
Proof.
  rewrite !elem_of_cons, elem_of_nil.
  intros [->|[->|[]]]; [apply (parent_snoc d "anzen.json")|apply (parent_snoc d "vault.json")].
Qed.

Lemma exists_kept f f' dirs p :
  same_env f f' → node_kept f f' dirs (resolve f p) → exists_ f p = true → exists_ f' p = true.
Proof.
  intros He Hk. unfold exists_. rewrite (resolve_env _ _ _ He).
  destruct Hk as [->|(-> & -> & _)]; done.
Qed.

Lemma exists_not_made f f' d p :
  same_env f f' → length (resolve f d) < length (resolve f p) →
  node_kept f f' (prefixes (resolve f d)) (resolve f p) →
  exists_ f p = false → exists_ f' p = false.
Proof.
  intros He Hl Hk. unfold exists_. rewrite (resolve_env _ _ _ He).
  destruct Hk as [->|(-> & -> & Hin%prefixes_length)]; [done|lia].
Qed.

Lemma written_exists f p s : node_at f (resolve f p) = Some (File s) → exists_ f p = true.
Proof. unfold exists_. by intros ->. Qed.

(** Writing the configuration that is in use leaves it the one in use. *)
Lemma config_path_stable f f' d s :
  config_exists f d = true →
  write_private (config_path f d) s f = (Ok tt, f') → config_path f' d = config_path f d.
Proof.
  unfold config_exists, config_path. intros Hex Hw.
  apply write_private_run in Hw as (He & _ & Hk & [Hn|[? _]]); [|done].
  destruct (exists_ f (join d CONFIG_FILE)) eqn:Hc.
  - rewrite (written_exists f' (join d CONFIG_FILE) s); [done|]. by rewrite (resolve_env _ _ _ He).
  - simpl in Hex. rewrite Hex in Hn, Hk |- *.
    rewrite (exists_not_made f f' d (join d CONFIG_FILE)); [|done| | |done].
    + rewrite (written_exists f' (join d LEGACY_CONFIG_FILE) s); [done|].
      by rewrite (resolve_env _ _ _ He).
    + rewrite resolve_current, length_app. simpl. lia.
    + rewrite (parent_config f d LEGACY_CONFIG_FILE) in Hk by set_solver. apply Hk.
      rewrite resolve_current, resolve_legacy. by intros [_ [=]]%app_inj_2.
Qed.

Lemma load_config_exists f d c : load_config f d = Ok c → config_exists f d = true.
Proof.
  unfold load_config, read_json, config_exists. intros (b & [_ Hf]%read_Ok & _)%bind_Ok.
  unfold config_path in Hf. destruct (exists_ f (join d CONFIG_FILE)) eqn:Hc; [done|].
  destruct (exists_ f (join d LEGACY_CONFIG_FILE)) eqn:Hl'; [done|].
  unfold file_at in Hf. unfold exists_ in Hc. by destruct (node_at f _).
Qed.

Lemma load_written f f' d c s :
  no_read_fault f → config_exists f d = true → to_vec_pretty c = Some s →
  write_private (config_path f d) s f = (Ok tt, f') → load_config f' d = Ok c.
Proof.
  intros Hn Hex Hs Hw. pose proof (config_path_stable _ _ _ _ Hex Hw) as Hp.
  apply write_private_run in Hw as (He & _ & _ & [Hf|[? _]]); [|done].
  apply (read_json_of _ _ _ s); [|done|].
  - destruct He as [_ Hfa]. intros k. rewrite Hfa. apply Hn.
  - rewrite Hp, (resolve_env _ _ _ He). unfold file_at. by rewrite Hf.
Qed.

Lemma write_json_inv {A} `{Json A} p (a : A) f f' :
  write_json p a f = (Ok tt, f') ↔
  ∃ s, to_vec_pretty a = Some s ∧ write_private p s f = (Ok tt, f').
Proof.
  unfold write_json. rewrite M_bind_Ok. setoid_rewrite pure_Ok. setoid_rewrite or_err_Ok.
  naive_solver.
Qed.

Lemma set_policy_limits_Ok f f' d m e c :
  set_policy_limits d m e f = (Ok c, f') →
  ∃ c0 s, load_config f d = Ok c0 ∧ c = set_limits m e c0 ∧ to_vec_pretty c = Some s ∧
    write_private (config_path f d) s f = (Ok tt, f').
Proof.
  intros Hs. unfold set_policy_limits in Hs.
  apply M_bind_Ok in Hs as (? & ? & [= <- <-] & Hs).
  apply M_bind_Ok in Hs as (c0 & ? & [Hl ->]%pure_Ok & Hs).
  apply M_bind_Ok in Hs as ([] & f1 & (s & Hj & Hw)%write_json_inv & [= <- <-]). by exists c0, s.
Qed.

(** Setting the two limits changes these two fields of the
    configuration that is in use, the current or the legacy file, and nothing
    else: the next load returns the returned configuration, and no other file
    changes. *)
Theorem set_policy_limits_reload f f' d m e c :
  no_read_fault f →
  set_policy_limits d m e f = (Ok c, f') →
  (∃ c0, load_config f d = Ok c0 ∧ c = set_limits m e c0) ∧
  load_config f' d = Ok c ∧
  ∀ k, k ≠ resolve f (config_path f d) → file_at f' k = file_at f k.
Proof.
  intros Hn (c0 & s & Hl & -> & Hj & Hw)%set_policy_limits_Ok.
  pose proof (load_config_exists _ _ _ Hl) as Hex. split_and!; [eauto| |].
  - by eapply load_written.
  - by apply write_private_files in Hw as (_ & _ & Hk & _).
Qed.
End config_file.

Section initialization.
Context `{BitcoinLib, !KeyLib, JsonLaws VaultConfig, Json DeviceFile, Json PublicDeviceFile}.
Implicit Types (f : FS) (d : Path).

Lemma config_exists_path f d : config_exists f d = false → config_path f d = join d CONFIG_FILE.
Proof. unfold config_exists, config_path. by intros [-> ->]%orb_false_iff. Qed.

(** The first configuration, read back. *)
Lemma load_first f f' d (c : VaultConfig) s :
  no_read_fault f → to_vec_pretty c = Some s →
  write_private (join d CONFIG_FILE) s f = (Ok tt, f') →
  config_exists f' d = true ∧ load_config f' d = Ok c.
Proof.
  intros Hn Hs Hw. apply write_private_run in Hw as (He & _ & _ & [Hf|[? _]]); [|done].
  rewrite <-(resolve_env _ _ _ He) in Hf.
  pose proof (written_exists _ _ _ Hf) as Hx. split; [unfold config_exists; by rewrite Hx|].
  unfold load_config, config_path. rewrite Hx.
  apply (read_json_of _ _ _ s); [|done|unfold file_at; by rewrite Hf].
  destruct He as [_ Hfa]. intros k. rewrite Hfa. apply Hn.
Qed.

Lemma load_device_keys_of f d x file n k :
  load_device f d x = Ok file → device_bitcoin_network file = Ok n →
  parse_for_network_at_index (device_mnemonic file) n (device_vault_key_index file) = Ok k →
  load_device_keys f d x = Ok k.
Proof. unfold load_device_keys. intros -> Hn Hk. simpl. by rewrite Hn. Qed.

Lemma network_check (r : result Network) n : (m ← r; !!= (m = n)) = Ok false ↔ r = Ok n.
Proof.
  rewrite bind_Ok. split; [|intros ->; exists n; by rewrite neg_decide_false].
  by intros (m & -> & ->%neg_decide_false).
Qed.

(** Initialising a vault succeeds only on a supported network, with no
    configuration present and both devices initialised for that network.  The
    configuration is the policy of the two device keys with both limits zero;
    it is what the next load returns, for that network, and a second
    initialisation fails without changing anything. *)
Theorem initialize_vault_once f f' d n c :
  no_read_fault f →
  initialize_vault_for_network d n f = (Ok c, f') →
  config_exists f d = false ∧ bitcoin_network c = Ok n ∧
  (∃ phone hww policy hot_external hot_internal,
     load_device_keys f d PHONE_DEVICE_FILE = Ok phone ∧
     load_device_keys f d HWW_DEVICE_FILE = Ok hww ∧
     vault_new_for_network (vault_pubkey phone) (vault_pubkey hww) n = Ok policy ∧
     c = vault_config n phone hww policy hot_external hot_internal) ∧
  load_config f' d = Ok c ∧
  ∀ n', ∃ e, initialize_vault_for_network d n' f' = (Err e, f').
Proof.
  intros Hf Hi. unfold initialize_vault_for_network in Hi.
  apply M_bind_Ok in Hi as ([] & ? & [Hnet ->]%pure_Ok & Hi).
  apply M_bind_Ok in Hi as (? & ? & [= <- <-] & Hi).
  apply M_bind_Ok in Hi as ([] & ? & [Hnew%bail_if_Ok ->]%pure_Ok & Hi).
  apply M_bind_Ok in Hi as (pf & ? & [Hpf%with_context_Ok ->]%pure_Ok & Hi).
  apply M_bind_Ok in Hi as (hf & ? & [Hhf%with_context_Ok ->]%pure_Ok & Hi).
  apply M_bind_Ok in Hi as ([] & ? & [Hnn%bail_when_Ok ->]%pure_Ok & Hi).
  apply orb_seq_false in Hnn as [Hpn%network_check Hhn%network_check].
  apply M_bind_Ok in Hi as (phone & ? & [Hp ->]%pure_Ok & Hi).
  apply M_bind_Ok in Hi as (hww & ? & [Hh ->]%pure_Ok & Hi).
  apply M_bind_Ok in Hi as ([] & ? & [_ ->]%pure_Ok & Hi).
  apply M_bind_Ok in Hi as (policy & ? & [Hpol ->]%pure_Ok & Hi).
  apply M_bind_Ok in Hi as (hot & ? & [_ ->]%pure_Ok & Hi).
  apply M_bind_Ok in Hi as ([] & f1 & (s & Hj & Hw)%write_json_inv & [= <- <-]).
  destruct (load_first f f1 d _ s Hf Hj Hw) as [Hex Hl].
  split; [done|]. split; [by apply parse_network_name_of|]. split.
  { exists phone, hww, policy, hot.1, hot.2.
    split_and!; [by eapply load_device_keys_of..|done|done]. }
  split; [done|]. intros n'. unfold initialize_vault_for_network, pure, get, mbind, M_bind.
  unfold config_exists in Hex. rewrite Hex.
  destruct n'; simpl; by eexists.
Qed.
End initialization.

(** * Witnesses *)

Definition config_fields : Type :=
  N * string * string * string * string * string * string * string * N * N * N * N.
#[export] Instance ser_VaultConfig : Toy.Ser VaultConfig.
Proof.
  refine (Toy.ser_inj (B:=config_fields)
    (λ c, (config_version c, config_network c, phone_vault_pubkey c, hww_vault_pubkey c,
           phone_hot_external_descriptor c, phone_hot_internal_descriptor c, vault_descriptor c,
           vault_address c, phone_recovery_blocks c, hww_recovery_blocks c,
           config_monthly_limit_sats c, config_emergency_access_limit_sats c))
    (λ '(a, b, c, d, e, f, g, h, i, j, k, l), Build_VaultConfig a b c d e f g h i j k l) _).
  by intros [].
Defined.
#[export] Instance ser_DeviceFile : Toy.Ser DeviceFile.
Proof.
  refine (Toy.ser_inj (B:=string * string * string * N)
    (λ d, (device_kind d, device_network d, device_mnemonic d, device_vault_key_index d))
    (λ '(a, b, c, d), Build_DeviceFile a b c d) _).
  by intros [].
Defined.
#[export] Instance ser_PublicDeviceFile : Toy.Ser PublicDeviceFile.
Proof.
  refine (Toy.ser_inj (B:=N * string * string * string)
    (λ d, (public_version d, public_kind d, public_network d, public_vault_pubkey d))
    (λ '(a, b, c, d), Build_PublicDeviceFile a b c d) _).
  by intros [].
Defined.

(** Any type with a bit encoding has a JSON codec. *)
#[export] Instance toy_json {A} `{Toy.Ser A} : Json A :=
  {| to_vec_pretty a := Some (Toy.to_text a); from_slice := Toy.of_text |}.
#[export] Instance toy_json_laws {A} `{Toy.Ser A} : JsonLaws A.
Proof. constructor. intros a s [= <-]. apply Toy.of_to_text. Qed.

Definition toy_device (kind words : string) : DeviceFile :=
  {| device_kind := kind; device_network := "regtest"; device_mnemonic := words;
     device_vault_key_index := 0 |}.
Definition toy_devices : FS :=
  {| nodes := {[ ["data"] := Dir; ["data"; "phone"] := Dir; ["data"; "hww"] := Dir;
       ["data"; "phone"; "device.json"] := File (Toy.to_text (toy_device "phone" "p"));
       ["data"; "hww"; "device.json"] := File (Toy.to_text (toy_device "hww" "h")) ]};
     cwd := []; fault := λ _, None |}.

Definition get_value {A} (x : result A) (default : A) : A :=
  match x with Ok a => a | _ => default end.
Definition toy_init_run : result VaultConfig * FS := Eval vm_compute in
  initialize_vault_for_network toy_dir Regtest toy_devices.
Definition toy_initialized : FS := toy_init_run.2.
Definition toy_empty_config : VaultConfig :=
  Build_VaultConfig 0 "" "" "" "" "" "" "" 0 0 0 0.
Definition toy_config : VaultConfig := Eval vm_compute in get_value toy_init_run.1 toy_empty_config.

Lemma initialize_vault_once_witness :
  initialize_vault_for_network toy_dir Regtest toy_devices = (Ok toy_config, toy_initialized) ∧
  load_config toy_initialized toy_dir = Ok toy_config ∧ bitcoin_network toy_config = Ok Regtest.
Proof.
  assert (initialize_vault_for_network toy_dir Regtest toy_devices
          = (Ok toy_config, toy_initialized)) as Hi by (vm_compute; reflexivity).
  split; [exact Hi|].
  destruct (initialize_vault_once toy_devices toy_initialized toy_dir Regtest toy_config
    (λ _, ltac:(discriminate)) Hi) as (_ & Hn & _ & Hl & _).
  split; [exact Hl|exact Hn].
Defined.

Definition toy_limits_run : result VaultConfig * FS := Eval vm_compute in
  set_policy_limits toy_dir 1000000 500000 toy_initialized.

Lemma set_policy_limits_reload_witness :
  toy_limits_run = (Ok (set_limits 1000000 500000 toy_config), toy_limits_run.2) ∧
  load_config toy_limits_run.2 toy_dir = Ok (set_limits 1000000 500000 toy_config).
Proof.
  split; [reflexivity|].
  apply (set_policy_limits_reload toy_initialized toy_limits_run.2 toy_dir 1000000 500000
    (set_limits 1000000 500000 toy_config) (λ _, ltac:(discriminate))).
  vm_compute. reflexivity.
Defined.
