(* ===== verification/Crypto.v ===== *)
(** Purpose-bound encryption ([core/crypto.rs]). *)

From S2P Require Import Prelude Bitcoin Toy FileSystem.

(** Bytes that are not text. *)
Abbreviation Bytes := (list N).

(** The parts of the rand, hkdf and chacha20poly1305 crates that the vault
    calls.  [OsRng] and [thread_rng] are one source of bytes, whose state the
    callers pass on. *)
Class CryptoLib := {
  Rng : Type;
  fill_bytes : nat → Rng → Bytes * Rng;
  (* Extraction with the salt, expansion to so many bytes. *)
  hkdf_sha256 : Bytes → Bytes → Bytes → nat → option Bytes;
  (* XChaCha20-Poly1305 under a key and a nonce. *)
  aead_encrypt : Bytes → Bytes → Bytes → option Bytes;
  aead_decrypt : Bytes → Bytes → Bytes → option Bytes;
}.

Class CryptoLaws `{CryptoLib} : Prop := {
  fill_bytes_length n r : length (fill_bytes n r).1 = n;
  (* RFC 5869: the output is at most 255 hashes long. *)
  hkdf_length salt ikm info n : n ≤ 255 * 32 →
    ∃ k, hkdf_sha256 salt ikm info n = Some k ∧ length k = n;
  aead_correct k n p c : aead_encrypt k n p = Some c → aead_decrypt k n c = Some p;
}.

Definition FORMAT_VERSION : N := 1.
Definition HKDF_SALT : Bytes := bytes_of "renewable-bitcoin-vault/mvp/v1".

Record EncryptedBlob := {
  blob_version : N;
  blob_purpose : string;
  nonce : Bytes;
  ciphertext : Bytes;
}.
#[export] Instance EncryptedBlob_eq_dec : EqDecision EncryptedBlob.
Proof. solve_decision. Defined.

Section crypto.
Context `{CryptoLib}.

(** A draw from the random source. *)
Definition draw (n : nat) : M Rng Bytes := λ r, let '(b, r') := fill_bytes n r in (Ok b, r').

Definition random_key : M Rng Bytes := draw 32.

Definition derive_key (seed : Bytes) (purpose : string) : result Bytes :=
  or_err (hkdf_sha256 HKDF_SALT seed (bytes_of purpose) 32) "invalid HKDF output length".

Definition encrypt (seed : Bytes) (purpose : string) (plaintext : Bytes)
    : M Rng EncryptedBlob :=
  key ← pure (derive_key seed purpose);
  nonce ← draw 24;
  ciphertext ← pure (or_err (aead_encrypt key nonce plaintext) "encryption failed");
  mret {| blob_version := FORMAT_VERSION; blob_purpose := purpose; nonce := nonce;
          ciphertext := ciphertext |}.

Definition decrypt (seed : Bytes) (expected_purpose : string) (blob : EncryptedBlob)
    : result Bytes :=
  _ ← bail_if (negb (bool_decide (blob_version blob = FORMAT_VERSION)))
        "unsupported encrypted blob version";
  _ ← bail_if (negb (bool_decide (blob_purpose blob = expected_purpose)))
        "encrypted blob purpose mismatch";
  key ← derive_key seed expected_purpose;
  or_err (aead_decrypt key (nonce blob) (ciphertext blob)) "unable to decrypt encrypted blob".
End crypto.

(** * Facts *)

Section facts.
Context `{CryptoLaws}.

Lemma draw_Ok n r b r' : draw n r = (Ok b, r') → length b = n ∧ fill_bytes n r = (b, r').
Proof.
  unfold draw. pose proof (fill_bytes_length n r) as Hl.
  destruct (fill_bytes n r) as [x y]. intros [= <- <-]. done.
Qed.

Lemma derive_key_total s p : ∃ k, derive_key s p = Ok k ∧ length k = 32.
Proof.
  destruct (hkdf_length HKDF_SALT s (bytes_of p) 32) as (k & Hk & Hl); [lia|].
  exists k. unfold derive_key. by rewrite Hk.
Qed.

Lemma encrypt_Ok s p m r b r' :
  encrypt s p m r = (Ok b, r') →
  decrypt s p b = Ok m ∧ blob_version b = FORMAT_VERSION ∧ blob_purpose b = p ∧
  length (nonce b) = 24.
Proof.
  unfold encrypt. intros (k & ? & [Hk ->]%pure_Ok & He)%M_bind_Ok.
  apply M_bind_Ok in He as (n & r1 & [Hn _]%draw_Ok & He).
  apply M_bind_Ok in He as (c & ? & [Hc%or_err_Ok ->]%pure_Ok & [<- _]%mret_Ok).
  split; [|done]. unfold decrypt. simpl. rewrite !bool_decide_eq_true_2 by done. simpl.
  rewrite Hk. simpl. by rewrite (aead_correct _ _ _ _ Hc).
Qed.

Lemma decrypt_Ok_fields s p b m :
  decrypt s p b = Ok m → blob_version b = FORMAT_VERSION ∧ blob_purpose b = p.
Proof.
  unfold decrypt.
  intros ([] & Hv%bail_if_Ok%negb_false_iff%bool_decide_eq_true & He)%bind_Ok.
  by apply bind_Ok in He as ([] & Hp%bail_if_Ok%negb_false_iff%bool_decide_eq_true & _).
Qed.

Lemma decrypt_not_Panic s p b : decrypt s p b ≠ Panic.
Proof.
  unfold decrypt, derive_key.
  do 2 (apply bind_not_Panic; [apply bail_if_not_Panic|intros ? _]).
  apply bind_not_Panic; [apply or_err_not_Panic|intros k _]. apply or_err_not_Panic.
Qed.

(** What is encrypted for a purpose decrypts with the same seed and
    purpose to the same bytes, whatever the random source gives; the blob
    names its purpose and version, and decrypting it for any other purpose, or
    under another format version, is an error. *)
Theorem blob_round_trip s p m r b r' :
  encrypt s p m r = (Ok b, r') →
  decrypt s p b = Ok m ∧
  (∀ s' p', p' ≠ p → ∃ e, decrypt s' p' b = Err e) ∧
  (∀ s' p' v, v ≠ FORMAT_VERSION →
     ∃ e, decrypt s' p' {| blob_version := v; blob_purpose := p; nonce := nonce b;
                           ciphertext := ciphertext b |} = Err e).
Proof.
  intros (Hd & _ & Hp & _)%encrypt_Ok. split; [done|]. split.
  - intros s' p' Hne. destruct (decrypt s' p' b) as [x|e|] eqn:Hx; [|eauto|].
    + apply decrypt_Ok_fields in Hx as [_ Hx]. congruence.
    + by apply decrypt_not_Panic in Hx.
  - intros s' p' v Hv. unfold decrypt. simpl. rewrite (bool_decide_eq_false_2 (v = FORMAT_VERSION)) by done. by eexists.
Qed.
End facts.

(** * A concrete instance for the witnesses

    The source counts, the key is the padded seed and purpose, and the cipher
    prefixes the key and the nonce. *)
#[export] Instance toy_crypto : CryptoLib := {|
  Rng := N;
  fill_bytes n r := (replicate n r, (r + 1)%N);
  hkdf_sha256 salt ikm info n := Some (Toy.pad n (ikm ++ info));
  aead_encrypt k n p := Some (k ++ n ++ p);
  aead_decrypt k n c := if bool_decide (take (length (k ++ n)) c = k ++ n)
                        then Some (drop (length (k ++ n)) c) else None;
|}.
#[export] Instance toy_crypto_laws : CryptoLaws.
Proof.
  split.
  - intros n r. apply length_replicate.
  - intros salt ikm info n _. eexists. split; [reflexivity|]. unfold Toy.pad.
    rewrite length_take, length_app, length_replicate. lia.
  - intros k n p c [= <-]. simpl. rewrite (assoc_L (++)).
    rewrite take_app_length, drop_app_length. by rewrite bool_decide_eq_true_2.
Qed.

#[export] Instance ser_EncryptedBlob : Toy.Ser EncryptedBlob.
Proof.
  refine (Toy.ser_inj (B:=N * string * list N * list N)
    (λ b, (blob_version b, blob_purpose b, nonce b, ciphertext b))
    (λ '(a, b, c, d), Build_EncryptedBlob a b c d) _).
  by intros [].
Defined.

Definition toy_blob : EncryptedBlob := Eval vm_compute in
  match (encrypt [1; 2; 3]%N "greeting" [104; 105]%N 5%N).1 with
  | Ok b => b
  | _ => Build_EncryptedBlob 0 "" [] []
  end.

Lemma blob_round_trip_witness :
  encrypt [1; 2; 3]%N "greeting" [104; 105]%N 5%N = (Ok toy_blob, 6%N) ∧
  decrypt [1; 2; 3]%N "greeting" toy_blob = Ok [104; 105]%N ∧
  ∃ e, decrypt [1; 2; 3]%N "farewell" toy_blob = Err e.
Proof.
  assert (encrypt [1; 2; 3]%N "greeting" [104; 105]%N 5%N = (Ok toy_blob, 6%N)) as Hb
    by (vm_compute; reflexivity).
  destruct (blob_round_trip _ _ _ _ _ _ Hb) as (Hd & Hp & _).
  split; [exact Hb|]. split; [exact Hd|]. apply Hp. done.
Defined.
