(* ===== verification/Social.v ===== *)
(** Cloud recovery envelopes and the wrapping of their key for OpenPGP friends
    ([core/social.rs]). *)

From S2P Require Import Prelude Bitcoin Toy Types Keys Policy FileSystem Storage Crypto.
From stdpp Require Import sorting.

Definition PAYLOAD_PURPOSE : string := "cloud/vault-recovery-payload/v1".
Definition HWW_KEY_PURPOSE : string := "cloud/vault-recovery-key/hww/v1".
Definition FRIEND_MANIFEST_PURPOSE : string := "cloud/vault-recovery-friends/v1".

Record RecoveryPayload := {
  payload_version : N;
  payload_kind : string;
  payload_network : string;
  payload_phone_mnemonic : string;
  payload_phone_vault_key_index : N;
  payload_phone_vault_pubkey : string;
  payload_vault_descriptor : string;
  payload_vault_address : string;
}.

Record FriendKeyWrapper := {
  friend_key_fingerprint : string;
  friend_key_armored : string;
  encrypted_symmetric_key : string;
}.
#[export] Instance FriendKeyWrapper_eq_dec : EqDecision FriendKeyWrapper.
Proof. solve_decision. Defined.

Record CloudRecoveryBackup := {
  backup_version : N;
  backup_kind : string;
  encrypted_payload : EncryptedBlob;
  hww_encrypted_symmetric_key : EncryptedBlob;
  friends : list FriendKeyWrapper;
  encrypted_friend_manifest : EncryptedBlob;
}.

Record GeneratedFriendKey := {
  generated_fingerprint : string;
  generated_public_key_armored : string;
  generated_private_key_armored : string;
}.

(** [serde_json::to_vec]. *)
Class JsonVec (A : Type) := { to_vec : A → option string }.
Class JsonVecLaws (A : Type) `{Json A, JsonVec A} : Prop := {
  json_vec_round_trip a s : to_vec a = Some s → from_slice s = Some a;
}.

(** Key parameters, as the pgp crate's builders take them. *)
Inductive KeyType := Ed25519Legacy | EcdhCurve25519.
Record SubkeyParams := {
  subkey_type : KeyType;
  subkey_can_sign : bool;
  subkey_can_encrypt : bool;
  subkey_can_authenticate : bool;
}.
Record KeyParams := {
  params_type : KeyType;
  params_can_certify : bool;
  params_can_sign : bool;
  params_can_encrypt : bool;
  params_user_id : string;
  params_subkeys : list SubkeyParams;
}.

(** The parts of the pgp and base64 crates that the module calls. *)
Class PgpLib `{CryptoLib} := {
  SignedPublicKey : Type;
  SignedSecretKey : Type;
  PublicSubkey : Type;
  MessageBuilder : Type;
  PgpMessage : Type;
  public_from_reader : Bytes → option SignedPublicKey;
  public_verify : SignedPublicKey → bool;
  public_subkeys : SignedPublicKey → list PublicSubkey;
  is_encryption_key : PublicSubkey → bool;
  public_fingerprint : SignedPublicKey → string;
  public_to_armored : SignedPublicKey → option string;
  secret_from_reader : Bytes → option SignedSecretKey;
  secret_verify : SignedSecretKey → bool;
  secret_fingerprint : SignedSecretKey → string;
  secret_to_armored : SignedSecretKey → option string;
  public_of_secret : SignedSecretKey → SignedPublicKey;
  generate_and_sign : KeyParams → Rng → option SignedSecretKey * Rng;
  (* A builder for a named literal, encrypted with AES-256 in a version 1
     integrity-protected packet, then for a recipient, then written. *)
  literal_builder : string → Bytes → Rng → MessageBuilder * Rng;
  encrypt_to_key : PublicSubkey → MessageBuilder → Rng → option MessageBuilder * Rng;
  builder_to_vec : MessageBuilder → Rng → option Bytes * Rng;
  message_from_bytes : Bytes → option PgpMessage;
  message_decrypt : PgpMessage → SignedSecretKey → option PgpMessage;
  is_compressed : PgpMessage → bool;
  decompress : PgpMessage → option PgpMessage;
  as_data_vec : PgpMessage → option Bytes;
  base64_encode : Bytes → string;
  base64_decode : string → option Bytes;
}.

(** A secret key names the key it is the secret of, and reads what is
    encrypted to a subkey of that key. *)
Class PgpLaws `{PgpLib} : Prop := {
  base64_round_trip b : base64_decode (base64_encode b) = Some b;
  secret_fingerprint_spec s : secret_fingerprint s = public_fingerprint (public_of_secret s);
  message_correct s k name data b1 r1 b2 r2 r3 r4 bytes r5 :
    k ∈ public_subkeys (public_of_secret s) → is_encryption_key k = true →
    literal_builder name data r1 = (b1, r2) →
    encrypt_to_key k b1 r2 = (Some b2, r3) → builder_to_vec b2 r4 = (Some bytes, r5) →
    ∃ m m', message_from_bytes bytes = Some m ∧ message_decrypt m s = Some m' ∧
      is_compressed m' = false ∧ as_data_vec m' = Some data;
}.

Section social.
Context `{BitcoinLib, !KeyLib, Pgp : PgpLib, Json RecoveryPayload, JsonVec RecoveryPayload,
          JsonVec (list FriendKeyWrapper)}.

(** ** The payload *)

Definition payload_new (config : VaultConfig) (phone : DeviceKeys) : result RecoveryPayload :=
  _ ← bail_if (negb (bool_decide (key_to_string (vault_pubkey phone) = phone_vault_pubkey config)))
        "phone key does not match the configured vault policy";
  mret {| payload_version := 1; payload_kind := "vault-recovery-payload";
          payload_network := config_network config;
          payload_phone_mnemonic := mnemonic_to_string (mnemonic phone);
          payload_phone_vault_key_index := vault_key_index phone;
          payload_phone_vault_pubkey := key_to_string (vault_pubkey phone);
          payload_vault_descriptor := vault_descriptor config;
          payload_vault_address := vault_address config |}.

Definition payload_mismatch (p : RecoveryPayload) (config : VaultConfig) : bool :=
  negb (bool_decide (payload_version p = 1%N)) ||
  negb (bool_decide (payload_kind p = "vault-recovery-payload")) ||
  negb (bool_decide (payload_network p = config_network config)) ||
  negb (bool_decide (payload_phone_vault_pubkey p = phone_vault_pubkey config)) ||
  negb (bool_decide (payload_vault_descriptor p = vault_descriptor config)) ||
  negb (bool_decide (payload_vault_address p = vault_address config)).

Definition validate_against (p : RecoveryPayload) (config : VaultConfig) : result unit :=
  _ ← bail_if (payload_mismatch p config) "recovery payload does not match the configured vault";
  network ← bitcoin_network config;
  phone ← parse_for_network_at_index (payload_phone_mnemonic p) network
            (payload_phone_vault_key_index p);
  bail_if (negb (bool_decide (key_to_string (vault_pubkey phone) = payload_phone_vault_pubkey p)))
    "recovery payload mnemonic does not match its phone public key".

(** ** Checks of an envelope *)

Definition validate_backup (b : CloudRecoveryBackup) : result unit :=
  bail_if (negb (bool_decide (backup_version b = 1%N)) ||
           negb (bool_decide (backup_kind b = "vault-cloud-recovery")))
    "unsupported cloud recovery backup".

Definition validate_friend_manifest (b : CloudRecoveryBackup) (symmetric_key : Bytes)
    : result unit :=
  authenticated ← decrypt symmetric_key FRIEND_MANIFEST_PURPOSE (encrypted_friend_manifest b);
  expected ← or_err (to_vec (friends b)) "failed to serialize";
  bail_if (negb (bool_decide (authenticated = bytes_of expected)))
    "cloud recovery friend list failed authentication".

Definition encrypt_friend_manifest (symmetric_key : Bytes) (l : list FriendKeyWrapper)
    : M Rng EncryptedBlob :=
  bytes ← pure (or_err (to_vec l) "failed to serialize");
  encrypt symmetric_key FRIEND_MANIFEST_PURPOSE (bytes_of bytes).

Definition decrypt_payload (b : CloudRecoveryBackup) (symmetric_key : Bytes)
    : result RecoveryPayload :=
  plaintext ← decrypt symmetric_key PAYLOAD_PURPOSE (encrypted_payload b);
  or_err (from_slice (string_of plaintext)) "decrypted cloud recovery payload is invalid".

(** ** Friends *)

(** A fallible call that draws from the random source. *)
Definition try_draw {A} (f : Rng → option A * Rng) (msg : string) : M Rng A :=
  λ r, let '(a, r') := f r in (or_err a msg, r').

Definition wrap_for_friend (public_key symmetric_key : Bytes) : M Rng FriendKeyWrapper :=
  public ← pure (or_err (public_from_reader public_key) "failed to parse public key");
  _ ← pure (bail_if (negb (public_verify public)) "public key failed validation");
  encryption_subkey ← pure (or_err (List.find is_encryption_key (public_subkeys public))
                              "public key has no encryption-capable subkey");
  builder ← (λ r, let '(b, r') := literal_builder "vault-recovery-key" symmetric_key r in
                  (Ok b, r'));
  builder ← try_draw (encrypt_to_key encryption_subkey builder) "failed to wrap recovery key";
  encrypted ← try_draw (builder_to_vec builder) "failed to serialize friend recovery key wrapper";
  armored ← pure (or_err (public_to_armored public) "failed to armor");
  mret {| friend_key_fingerprint := public_fingerprint public;
          friend_key_armored := armored;
          encrypted_symmetric_key := base64_encode encrypted |}.

Fixpoint wrap_all (keys : list string) (symmetric_key : Bytes) : M Rng (list FriendKeyWrapper) :=
  match keys with
  | [] => mret []
  | k :: keys =>
      w ← wrap_for_friend (bytes_of k) symmetric_key;
      ws ← wrap_all keys symmetric_key;
      mret (w :: ws)
  end.

Definition fingerprint_le (a b : FriendKeyWrapper) : Prop :=
  String.leb (friend_key_fingerprint a) (friend_key_fingerprint b) = true.
#[export] Instance fingerprint_le_dec : RelDecision fingerprint_le.
Proof. intros a b. unfold fingerprint_le. apply _. Defined.

Definition sort_friends (l : list FriendKeyWrapper) : list FriendKeyWrapper :=
  merge_sort fingerprint_le l.

(** [Vec::dedup_by] with equal fingerprints: of a run, the first stays. *)
Fixpoint dedup_from (x : FriendKeyWrapper) (l : list FriendKeyWrapper) : list FriendKeyWrapper :=
  match l with
  | [] => [x]
  | y :: l => if bool_decide (friend_key_fingerprint y = friend_key_fingerprint x)
              then dedup_from x l else x :: dedup_from y l
  end.
Definition dedup_friends (l : list FriendKeyWrapper) : list FriendKeyWrapper :=
  match l with [] => [] | x :: l => dedup_from x l end.

Definition create_backup (payload : RecoveryPayload) (hww_seed : Bytes)
    (friend_public_keys : list string) : M Rng CloudRecoveryBackup :=
  symmetric_key ← random_key;
  payload_bytes ← pure (or_err (to_vec payload) "failed to serialize");
  encrypted_payload ← encrypt symmetric_key PAYLOAD_PURPOSE (bytes_of payload_bytes);
  hww_encrypted_symmetric_key ← encrypt hww_seed HWW_KEY_PURPOSE symmetric_key;
  wrapped ← wrap_all friend_public_keys symmetric_key;
  let friends := dedup_friends (sort_friends wrapped) in
  encrypted_friend_manifest ← encrypt_friend_manifest symmetric_key friends;
  mret {| backup_version := 1; backup_kind := "vault-cloud-recovery";
          encrypted_payload := encrypted_payload;
          hww_encrypted_symmetric_key := hww_encrypted_symmetric_key;
          friends := friends; encrypted_friend_manifest := encrypted_friend_manifest |}.

(** Assignments to the two fields that [add_friend] changes. *)
Definition set_friends (l : list FriendKeyWrapper) (b : CloudRecoveryBackup)
    : CloudRecoveryBackup :=
  {| backup_version := backup_version b; backup_kind := backup_kind b;
     encrypted_payload := encrypted_payload b;
     hww_encrypted_symmetric_key := hww_encrypted_symmetric_key b;
     friends := l; encrypted_friend_manifest := encrypted_friend_manifest b |}.
Definition set_friend_manifest (e : EncryptedBlob) (b : CloudRecoveryBackup)
    : CloudRecoveryBackup :=
  {| backup_version := backup_version b; backup_kind := backup_kind b;
     encrypted_payload := encrypted_payload b;
     hww_encrypted_symmetric_key := hww_encrypted_symmetric_key b;
     friends := friends b; encrypted_friend_manifest := e |}.

(** The state is the caller's envelope and the random source: the list is
    extended in place before its authentication is renewed. *)
Definition on_rng {S A} (m : M Rng A) : M (S * Rng) A :=
  λ s, let '(a, r) := m s.2 in (a, (s.1, r)).

Definition add_friend (hww_seed public_key : Bytes) : M (CloudRecoveryBackup * Rng) string :=
  s ← get;
  let backup := s.1 in
  _ ← pure (validate_backup backup);
  symmetric_key ← pure (decrypt hww_seed HWW_KEY_PURPOSE (hww_encrypted_symmetric_key backup));
  _ ← pure (bail_if (negb (bool_decide (length symmetric_key = 32)))
              "cloud backup contains an invalid symmetric key");
  _ ← pure (validate_friend_manifest backup symmetric_key);
  wrapper ← on_rng (wrap_for_friend public_key symmetric_key);
  _ ← pure (bail_if (existsb (λ f, bool_decide (friend_key_fingerprint f
                                                = friend_key_fingerprint wrapper))
                             (friends backup))
              "recovery friend is already configured");
  s ← get;
  let backup := set_friends (sort_friends (friends backup ++ [wrapper])) backup in
  _ ← put (backup, s.2);
  manifest ← on_rng (encrypt_friend_manifest symmetric_key (friends backup));
  s ← get;
  _ ← put (set_friend_manifest manifest backup, s.2);
  mret (friend_key_fingerprint wrapper).

(** ** Opening an envelope *)

Definition decrypt_with_hww (b : CloudRecoveryBackup) (hww_seed : Bytes)
    : result RecoveryPayload :=
  _ ← validate_backup b;
  symmetric_key ← decrypt hww_seed HWW_KEY_PURPOSE (hww_encrypted_symmetric_key b);
  _ ← validate_friend_manifest b symmetric_key;
  decrypt_payload b symmetric_key.

(** The key in a friend's wrapper. *)
Definition unwrap_symmetric_key (wrapper : FriendKeyWrapper) (secret : SignedSecretKey)
    : result Bytes :=
  encrypted_key ← or_err (base64_decode (encrypted_symmetric_key wrapper))
                    "friend key wrapper is not valid base64";
  message ← or_err (message_from_bytes encrypted_key)
              "friend key wrapper is not a valid OpenPGP message";
  message ← or_err (message_decrypt message secret)
              "friend OpenPGP key could not decrypt the recovery key";
  message ← (if is_compressed message then
               or_err (decompress message) "failed to decompress friend recovery key message"
             else Ok message);
  or_err (as_data_vec message) "friend recovery key message contained no data".

Definition decrypt_with_friend (b : CloudRecoveryBackup) (private_key : Bytes)
    : result RecoveryPayload :=
  _ ← validate_backup b;
  secret ← or_err (secret_from_reader private_key) "failed to parse private key";
  _ ← bail_if (negb (secret_verify secret)) "private key failed validation";
  wrapper ← or_err (List.find (λ f, bool_decide (friend_key_fingerprint f
                                                 = secret_fingerprint secret)) (friends b))
              "cloud backup has no wrapper for friend";
  symmetric_key ← unwrap_symmetric_key wrapper secret;
  _ ← bail_if (negb (bool_decide (length symmetric_key = 32)))
        "friend recovery wrapper contains an invalid symmetric key";
  _ ← validate_friend_manifest b symmetric_key;
  decrypt_payload b symmetric_key.

Definition friend_public_keys (b : CloudRecoveryBackup) : list string :=
  friend_key_armored <$> friends b.

Definition friend_fingerprint (public_key : Bytes) : result string :=
  public ← or_err (public_from_reader public_key) "failed to parse public key";
  _ ← bail_if (negb (public_verify public)) "public key failed validation";
  _ ← bail_if (negb (existsb is_encryption_key (public_subkeys public)))
        "public key has no encryption-capable subkey";
  mret (public_fingerprint public).

Definition friend_key_params (user_id : string) : KeyParams :=
  {| params_type := Ed25519Legacy; params_can_certify := true; params_can_sign := false;
     params_can_encrypt := false; params_user_id := user_id;
     params_subkeys := [{| subkey_type := EcdhCurve25519; subkey_can_sign := false;
                           subkey_can_encrypt := true; subkey_can_authenticate := false |}] |}.

Definition generate_friend_key (name : string) : M Rng GeneratedFriendKey :=
  _ ← pure (bail_if (bool_decide (trim name = EmptyString))
              "recovery friend name must not be empty");
  secret ← try_draw (generate_and_sign (friend_key_params (trim name))) "key generation failed";
  let public := public_of_secret secret in
  public_armored ← pure (or_err (public_to_armored public) "failed to armor");
  private_armored ← pure (or_err (secret_to_armored secret) "failed to armor");
  mret {| generated_fingerprint := secret_fingerprint secret;
          generated_public_key_armored := public_armored;
          generated_private_key_armored := private_armored |}.
End social.
