(* ===== verification/SocialFacts.v ===== *)
(** What a cloud recovery envelope guarantees: the invariant of the envelopes
    the vault makes, and who can open them. *)

From stdpp Require Import sorting.
From S2P Require Import Prelude Bitcoin Toy Types Keys Policy FileSystem Storage Crypto Social.

(** * Ordering by fingerprint *)

Lemma leb_trans s t u :
  String.leb s t = true → String.leb t u = true → String.leb s u = true.
Proof.
  unfold String.leb. revert t u. induction s as [|a s IH]; intros [|b t] [|c u]; simpl; try done.
  unfold Ascii.compare. specialize (IH t u).
  destruct (N.compare_spec (Ascii.N_of_ascii a) (Ascii.N_of_ascii b)) as [Hab|Hab|Hab];
    destruct (N.compare_spec (Ascii.N_of_ascii b) (Ascii.N_of_ascii c)) as [Hbc|Hbc|Hbc];
    destruct (N.compare_spec (Ascii.N_of_ascii a) (Ascii.N_of_ascii c)); done || lia.
Qed.

#[export] Instance fingerprint_le_total : Total fingerprint_le.
Proof. intros a b. apply String.leb_total. Qed.
#[export] Instance fingerprint_le_trans : Transitive fingerprint_le.
Proof. intros a b c. apply leb_trans. Qed.

Section lists.
Implicit Types (l : list FriendKeyWrapper).

Lemma sort_friends_perm l : sort_friends l ≡ₚ l.
Proof. apply merge_sort_Permutation. Qed.

Lemma sort_friends_sorted l : StronglySorted fingerprint_le (sort_friends l).
Proof. apply (StronglySorted_merge_sort fingerprint_le). Qed.

Lemma dedup_from_in x l w : w ∈ dedup_from x l → w = x ∨ w ∈ l.
Proof.
  revert x. induction l as [|y l IH]; intros x; simpl; [set_solver|].
  case_bool_decide; [set_solver|]. intros [->|Hw%IH]%elem_of_cons; set_solver.
Qed.

Lemma dedup_friends_in l w : w ∈ dedup_friends l → w ∈ l.
Proof. destruct l as [|x l]; [done|]. simpl. intros [->|?]%dedup_from_in; set_solver. Qed.

Lemma dedup_from_fingerprints x l :
  friend_key_fingerprint <$> x :: l ⊆ friend_key_fingerprint <$> dedup_from x l.
Proof.
  revert x. induction l as [|y l IH]; intros x; [done|]. csimpl. pose proof (IH x) as IHx.
  pose proof (IH y) as IHy. csimpl in *.
  case_bool_decide as Heq; [rewrite Heq in *|csimpl]; set_solver.
Qed.

Lemma dedup_friends_fingerprints l :
  friend_key_fingerprint <$> l ⊆ friend_key_fingerprint <$> dedup_friends l.
Proof. destruct l as [|x l]; [done|]. apply dedup_from_fingerprints. Qed.

(** Removing the equal neighbours of a sorted list removes all equals. *)
Lemma dedup_from_NoDup x l :
  StronglySorted fingerprint_le (x :: l) → NoDup (friend_key_fingerprint <$> dedup_from x l).
Proof.
  revert x. induction l as [|y l IH]; intros x Hs; csimpl; [repeat constructor; set_solver|].
  apply StronglySorted_inv in Hs as [Hyl Hx].
  apply Forall_cons_iff in Hx as [Hxy Hxl]. pose proof Hyl as [Hl Hy]%StronglySorted_inv.
  case_bool_decide as Heq; [apply IH; by constructor|]. csimpl. constructor; [|by apply IH].
  intros (w & Hw & Hin)%list_elem_of_fmap. apply dedup_from_in in Hin as [->|Hin]; [congruence|].
  rewrite Forall_forall in Hy. specialize (Hy w Hin). unfold fingerprint_le in *.
  rewrite Hw in Hxy, Heq. by apply Heq, String.leb_antisym.
Qed.

Lemma dedup_friends_NoDup l :
  StronglySorted fingerprint_le l → NoDup (friend_key_fingerprint <$> dedup_friends l).
Proof. destruct l as [|x l]; [constructor|]. apply dedup_from_NoDup. Qed.
End lists.

(** * Envelopes *)

Section envelopes.
Context `{BitcoinLib, !KeyLib, CLaws : !CryptoLaws, Pgp : !PgpLib, PLaws : !PgpLaws,
          Json RecoveryPayload, JsonVec RecoveryPayload, !JsonVecLaws RecoveryPayload,
          Json (list FriendKeyWrapper), JsonVec (list FriendKeyWrapper),
          !JsonVecLaws (list FriendKeyWrapper)}.
Implicit Types (b : CloudRecoveryBackup) (w : FriendKeyWrapper) (key : Bytes).

(** The wrapper was made from a friend's public key. *)
Definition wraps key w (public : SignedPublicKey) : Prop :=
  ∃ armored r r', public_from_reader armored = Some public ∧
    wrap_for_friend armored key r = (Ok w, r').

Record envelope b (hww_seed : Bytes) (payload : RecoveryPayload)
    (publics : list SignedPublicKey) : Prop := {
  env_shape : validate_backup b = Ok tt;
  env_key : ∃ key,
    decrypt hww_seed HWW_KEY_PURPOSE (hww_encrypted_symmetric_key b) = Ok key ∧
    length key = 32 ∧ decrypt_payload b key = Ok payload ∧
    validate_friend_manifest b key = Ok tt ∧
    Forall (λ w, ∃ public, public ∈ publics ∧ wraps key w public) (friends b);
  env_distinct : NoDup (friend_key_fingerprint <$> friends b);
  env_all : Forall (λ public, public_fingerprint public
                              ∈ friend_key_fingerprint <$> friends b) publics;
}.

Lemma try_draw_Ok {A} (f : Rng → option A * Rng) msg r a r' :
  try_draw f msg r = (Ok a, r') ↔ f r = (Some a, r').
Proof. unfold try_draw. destruct (f r) as [[]]; naive_solver. Qed.

Lemma wrap_Ok pk key r w r' :
  wrap_for_friend pk key r = (Ok w, r') →
  ∃ public subkey m1 r1 m2 r2 bytes, public_from_reader pk = Some public ∧
    subkey ∈ public_subkeys public ∧ is_encryption_key subkey = true ∧
    literal_builder "vault-recovery-key" key r = (m1, r1) ∧
    encrypt_to_key subkey m1 r1 = (Some m2, r2) ∧ builder_to_vec m2 r2 = (Some bytes, r') ∧
    friend_key_fingerprint w = public_fingerprint public ∧
    encrypted_symmetric_key w = base64_encode bytes.
Proof.
  unfold wrap_for_friend. intros Hw.
  apply M_bind_Ok in Hw as (public & ? & [Hp%or_err_Ok ->]%pure_Ok & Hw).
  apply M_bind_Ok in Hw as ([] & ? & [_ ->]%pure_Ok & Hw).
  apply M_bind_Ok in Hw as (k & ? & [[Hin Hk]%or_err_Ok%find_some ->]%pure_Ok & Hw).
  apply M_bind_Ok in Hw as (m1 & r1 & Hm1 & Hw).
  destruct (literal_builder "vault-recovery-key" key r) as [x y] eqn:Hl. injection Hm1 as -> ->.
  apply M_bind_Ok in Hw as (m2 & r2 & Hm2%try_draw_Ok & Hw).
  apply M_bind_Ok in Hw as (bytes & r3 & Hm3%try_draw_Ok & Hw).
  apply M_bind_Ok in Hw as (armored & ? & [_ ->]%pure_Ok & [<- ->]%mret_Ok).
  exists public, k, m1, r1, m2, r2, bytes. split_and!; try done. by apply list_elem_of_In.
Qed.

(** The owner of the public key unwraps the symmetric key. *)
Lemma wraps_unwraps key w s :
  wraps key w (public_of_secret s) → unwrap_symmetric_key w s = Ok key.
Proof.
  intros (pk & r & r' & Hp & (p & k & m1 & r1 & m2 & r2 & bytes & Hp' & Hin & Hk & E1 & E2 & E3
    & _ & He)%wrap_Ok). simplify_eq.
  destruct (message_correct s k _ _ _ _ _ _ _ _ _ _ Hin Hk E1 E2 E3) as (m & m' & Hm & Hd & Hc & Ha).
  unfold unwrap_symmetric_key. rewrite He, base64_round_trip. simpl.
  rewrite Hm. simpl. rewrite Hd. simpl. rewrite Hc. simpl. by rewrite Ha.
Qed.

Lemma wraps_fingerprint key w public :
  wraps key w public → friend_key_fingerprint w = public_fingerprint public.
Proof.
  intros (pk & r & r' & Hp & (p & k & m1 & r1 & m2 & r2 & bytes & Hp' & _ & _ & _ & _ & _
    & Hf & _)%wrap_Ok). congruence.
Qed.

Lemma wrap_all_Ok keys key r ws r' :
  wrap_all keys key r = (Ok ws, r') →
  Forall2 (λ k w, ∃ r1 r2, wrap_for_friend (bytes_of k) key r1 = (Ok w, r2)) keys ws.
Proof.
  revert r ws. induction keys as [|k keys IH]; intros r ws Hw; simpl in Hw.
  - apply mret_Ok in Hw as [<- _]. constructor.
  - apply M_bind_Ok in Hw as (w & r1 & Hw1 & Hw).
    apply M_bind_Ok in Hw as (l & r2 & Hl & [<- ->]%mret_Ok). constructor; [eauto|by eapply IH].
Qed.

(** A renewed authentication of the list is accepted. *)
Lemma friend_manifest_renewed b key r e r' :
  encrypt_friend_manifest key (friends b) r = (Ok e, r') → encrypted_friend_manifest b = e →
  validate_friend_manifest b key = Ok tt.
Proof.
  unfold encrypt_friend_manifest. intros (s & ? & [Hs%or_err_Ok ->]%pure_Ok & He)%M_bind_Ok Hb.
  apply encrypt_Ok in He as [Hd _]. unfold validate_friend_manifest. rewrite Hb, Hd. simpl.
  rewrite Hs. simpl. by rewrite bool_decide_eq_true_2.
Qed.

Lemma envelope_reads b seed p publics : envelope b seed p publics → decrypt_with_hww b seed = Ok p.
Proof.
  intros [Hs (key & Hk & _ & Hp & Hm & _) _ _]. unfold decrypt_with_hww.
  rewrite Hs. simpl. rewrite Hk. simpl. by rewrite Hm.
Qed.

(** A friend finds its wrapper. *)
Lemma friend_found l f :
  f ∈ friend_key_fingerprint <$> l →
  ∃ w, List.find (λ x, bool_decide (friend_key_fingerprint x = f)) l = Some w ∧
    w ∈ l ∧ friend_key_fingerprint w = f.
Proof.
  intros (w & -> & Hw)%list_elem_of_fmap.
  destruct (List.find (λ x, bool_decide (friend_key_fingerprint x = friend_key_fingerprint w)) l)
    as [v|] eqn:Hf.
  - exists v. apply find_some in Hf as [Hin Hv%bool_decide_eq_true].
    split_and!; [done|by apply list_elem_of_In|done].
  - apply list_elem_of_In in Hw. pose proof (find_none _ _ Hf w Hw) as Hn.
    simpl in Hn. by rewrite bool_decide_eq_true_2 in Hn.
Qed.

Lemma decrypt_payload_of payload s key r e r' b :
  to_vec payload = Some s → encrypt key PAYLOAD_PURPOSE (bytes_of s) r = (Ok e, r') →
  encrypted_payload b = e → decrypt_payload b key = Ok payload.
Proof.
  intros Hs [Hd _]%encrypt_Ok Hb. unfold decrypt_payload. rewrite Hb, Hd. simpl.
  by rewrite string_of_bytes, (json_vec_round_trip _ _ Hs).
Qed.

(** A backup that the vault creates is an envelope of the payload for
    the HWW seed and every given friend: its friends are in the order of their
    fingerprints, each once, and each was given the envelope's own key. *)
Lemma create_backup_envelope payload seed keys r b r' :
  create_backup payload seed keys r = (Ok b, r') →
  ∃ publics, Forall2 (λ k p, public_from_reader (bytes_of k) = Some p) keys publics ∧
    envelope b seed payload publics.
Proof.
  unfold create_backup. intros Hc.
  apply M_bind_Ok in Hc as (key & r1 & [Hlen _]%draw_Ok & Hc).
  apply M_bind_Ok in Hc as (s & ? & [Hs%or_err_Ok ->]%pure_Ok & Hc).
  apply M_bind_Ok in Hc as (ep & r2 & Hep & Hc).
  apply M_bind_Ok in Hc as (ek & r3 & [Hek _]%encrypt_Ok & Hc).
  apply M_bind_Ok in Hc as (ws & r4 & Hws%wrap_all_Ok & Hc).
  apply M_bind_Ok in Hc as (em & r5 & Hem & [<- ->]%mret_Ok).
  assert (∃ publics, Forall2 (λ k p, public_from_reader (bytes_of k) = Some p) keys publics ∧
                     Forall2 (wraps key) ws publics) as (publics & Hpk & Hwp).
  { clear Hem. induction Hws as [|k w keys ws (x & y & Hw) _ (publics & Hpk & Hwp)]; [by exists []|].
    destruct (wrap_Ok _ _ _ _ _ Hw) as (p & ? & ? & ? & ? & ? & ? & Hp & _).
    exists (p :: publics). split; constructor; try done. by exists (bytes_of k), x, y. }
  exists publics. split; [done|]. split; [done| | |]; simpl.
  - exists key. split_and!; [done|done|by eapply decrypt_payload_of| |].
    + by eapply friend_manifest_renewed.
    + apply Forall_forall. intros w Hw%dedup_friends_in. rewrite sort_friends_perm in Hw.
      apply list_elem_of_lookup in Hw as [i Hw].
      destruct (Forall2_lookup_l _ _ _ _ _ Hwp Hw) as (p & Hp & Hwr).
      exists p. split; [by eapply list_elem_of_lookup_2|done].
  - apply dedup_friends_NoDup, sort_friends_sorted.
  - apply Forall_forall. intros p Hp. apply dedup_friends_fingerprints. rewrite sort_friends_perm.
    apply list_elem_of_lookup in Hp as [i Hp].
    destruct (Forall2_lookup_r _ _ _ _ _ Hwp Hp) as (w & Hw & Hwr).
    apply list_elem_of_fmap. exists w. split; [symmetry; by eapply wraps_fingerprint|].
    by eapply list_elem_of_lookup_2.
Qed.


(** C36: Nobody extends or shortens the list of friends without the key: an
    envelope whose list alone is changed is refused by the HWW, both when it
    is opened and when a friend is added, and the refusal leaves it as it is. *)
Theorem friend_list_authenticated b seed payload l :
  decrypt_with_hww b seed = Ok payload → l ≠ friends b →
  (∃ e, decrypt_with_hww (set_friends l b) seed = Err e) ∧
  ∀ pk r, ∃ e, add_friend seed pk (set_friends l b, r) = (Err e, (set_friends l b, r)).
Proof.
  unfold decrypt_with_hww at 1. intros ([] & Hs & Ho)%bind_Ok Hl.
  apply bind_Ok in Ho as (key & Hk & Ho). apply bind_Ok in Ho as ([] & Hm & _).
  assert (∃ e, validate_friend_manifest (set_friends l b) key = Err e) as [e He].
  { unfold validate_friend_manifest in *. simpl.
    apply bind_Ok in Hm as (auth & Ha & Hm). apply bind_Ok in Hm as (s & Hse%or_err_Ok & Hm).
    apply bail_if_Ok, negb_false_iff, bool_decide_eq_true in Hm as ->. rewrite Ha. simpl.
    destruct (to_vec l) as [t|] eqn:Ht; simpl; [|eauto]. rewrite bool_decide_eq_false_2; [by eexists|].
    intros Heq%(f_equal string_of). rewrite !string_of_bytes in Heq. subst t.
    apply json_vec_round_trip in Ht, Hse. congruence. }
  unfold validate_backup in Hs. split.
  - exists e. unfold decrypt_with_hww, validate_backup. simpl. rewrite Hs. simpl. rewrite Hk.
    simpl. by rewrite He.
  - intros pk r. unfold add_friend, pure, get, mbind, M_bind, validate_backup. simpl.
    rewrite Hs, Hk. destruct (bool_decide (length key = 32)); simpl; [rewrite He|]; by eexists.
Qed.

Lemma not_existing (l : list FriendKeyWrapper) fp :
  existsb (λ f, bool_decide (friend_key_fingerprint f = fp)) l = false →
  fp ∉ friend_key_fingerprint <$> l.
Proof.
  intros Hx (w & -> & Hw)%list_elem_of_fmap. apply list_elem_of_In in Hw.
  enough (true = false) by done. rewrite <-Hx. symmetry. apply existsb_exists.
  exists w. by rewrite bool_decide_eq_true_2.
Qed.

Lemma on_rng_Ok {S A} (m : M Rng A) (s s' : S * Rng) a :
  on_rng m s = (Ok a, s') ↔ ∃ r', m s.2 = (Ok a, r') ∧ s' = (s.1, r').
Proof. unfold on_rng. destruct s as [x r]. simpl. destruct (m r). naive_solver. Qed.

(** Adding a friend to an envelope gives an envelope of the same
    payload and seed, with that friend's key and all the earlier ones; a friend
    already present is refused. *)
Theorem add_friend_envelope b seed payload publics pk fp r b' r' :
  envelope b seed payload publics →
  add_friend seed pk (b, r) = (Ok fp, (b', r')) →
  ∃ public, public_from_reader pk = Some public ∧ public_fingerprint public = fp ∧
    (fp ∉ friend_key_fingerprint <$> friends b) ∧
    envelope b' seed payload (public :: publics).
Proof.
  intros [Hsh (key & Hk & Hlen & Hp & Hm & Hw) Hnd Hall] Ha. unfold add_friend in Ha.
  apply M_bind_Ok in Ha as (? & ? & [= <- <-] & Ha). simpl in Ha.
  apply M_bind_Ok in Ha as ([] & ? & [_ ->]%pure_Ok & Ha).
  apply M_bind_Ok in Ha as (key' & ? & [Hk' ->]%pure_Ok & Ha).
  rewrite Hk in Hk'. injection Hk' as <-.
  apply M_bind_Ok in Ha as ([] & ? & [_ ->]%pure_Ok & Ha).
  apply M_bind_Ok in Ha as ([] & ? & [_ ->]%pure_Ok & Ha).
  apply M_bind_Ok in Ha as (w & ? & (r1 & Hwr & ->)%on_rng_Ok & Ha). simpl in Ha, Hwr.
  apply M_bind_Ok in Ha as ([] & ? & [Hnew%bail_if_Ok%not_existing ->]%pure_Ok & Ha).
  apply M_bind_Ok in Ha as (? & ? & [= <- <-] & Ha).
  apply M_bind_Ok in Ha as ([] & ? & [= <-] & Ha). simpl in Ha.
  apply M_bind_Ok in Ha as (em & ? & (r2 & Hem & ->)%on_rng_Ok & Ha). simpl in Ha, Hem.
  apply M_bind_Ok in Ha as (? & ? & [= <- <-] & Ha).
  apply M_bind_Ok in Ha as ([] & ? & [= <-] & [<- [= -> ->]]%mret_Ok).
  destruct (wrap_Ok _ _ _ _ _ Hwr) as (p & ? & ? & ? & ? & ? & ? & Hpp & _ & _ & _ & _ & _ & Hfp & _).
  exists p. split_and!; [done|done|done|].
  assert (sort_friends (friends b ++ [w]) ≡ₚ w :: friends b) as Hperm.
  { rewrite sort_friends_perm. by rewrite (comm (++)). }
  remember (sort_friends (friends b ++ [w])) as l eqn:Hl. clear Hl. split; simpl.
  - done.
  - exists key. split_and!; [done|done|done| |].
    + by eapply friend_manifest_renewed.
    + apply Forall_forall. intros v Hv. rewrite Hperm in Hv. apply elem_of_cons in Hv as [->|Hv].
      * exists p. split; [set_solver|by eexists _, _, _].
      * rewrite Forall_forall in Hw. destruct (Hw v Hv) as (q & Hq & Hqv).
        exists q. split; [set_solver|done].
  - rewrite Hperm. csimpl. by constructor.
  - apply Forall_forall. intros q Hq. rewrite Hperm. csimpl.
    apply elem_of_cons in Hq as [->|Hq]; [rewrite Hfp; set_solver|].
    rewrite Forall_forall in Hall. specialize (Hall q Hq). set_solver.
Qed.
End envelopes.

(** * Payloads *)

Section payloads.
Context `{BitcoinLib, !KeyLib, KLaws : !KeyLaws}.

(** The payload made from a configuration and its phone carries what
    restores the phone: its mnemonic and index parse to the same keys, and the
    payload validates against the configuration.  Any payload that validates
    restores keys with the configured phone's public key. *)
Lemma payload_restores_phone config phone p :
  keys_of phone → bitcoin_network config = Ok (keys_network phone) →
  payload_new config phone = Ok p →
  validate_against p config = Ok tt ∧
  parse_for_network_at_index (payload_phone_mnemonic p) (keys_network phone)
    (payload_phone_vault_key_index p) = Ok phone ∧
  ∀ q, validate_against q config = Ok tt →
    ∃ k, parse_for_network_at_index (payload_phone_mnemonic q) (keys_network phone)
           (payload_phone_vault_key_index q) = Ok k ∧
         key_to_string (vault_pubkey k) = phone_vault_pubkey config.
Proof.
  intros Hk Hn Hp. unfold payload_new in Hp.
  apply bind_Ok in Hp as ([] & Hpk%bail_if_Ok%negb_false_iff%bool_decide_eq_true & [= <-]).
  assert (parse_for_network_at_index (mnemonic_to_string (mnemonic phone)) (keys_network phone)
            (vault_key_index phone) = Ok phone) as Hparse.
  { unfold parse_for_network_at_index. rewrite mnemonic_round_trip. exact Hk. }
  split_and!; [|exact Hparse|].
  - unfold validate_against, payload_mismatch. simpl.
    rewrite Hpk, !bool_decide_eq_true_2 by done. simpl. rewrite Hn. simpl.
    rewrite Hparse. simpl. by rewrite Hpk, bool_decide_eq_true_2.
  - intros q Hq. unfold validate_against in Hq.
    apply bind_Ok in Hq as ([] & Hm%bail_if_Ok & Hq). rewrite Hn in Hq. simpl in Hq.
    apply bind_Ok in Hq as (k & Hkq & Hq%bail_if_Ok%negb_false_iff%bool_decide_eq_true).
    exists k. split; [done|]. rewrite Hq. unfold payload_mismatch in Hm.
    repeat (apply orb_false_iff in Hm as [Hm ?%negb_false_iff%bool_decide_eq_true]). done.
Qed.
End payloads.

(** * A concrete instance for the witnesses

    A key is a name after a letter, a message the recipient with the data. *)

Definition keyed (letter : string) (b : Bytes) : option string :=
  match string_of b with
  | String c s => if bool_decide (String c EmptyString = letter) then Some s else None
  | EmptyString => None
  end.

#[export] Instance toy_pgp : PgpLib := {|
  SignedPublicKey := string; SignedSecretKey := string; PublicSubkey := string;
  MessageBuilder := Bytes * string; PgpMessage := string * Bytes;
  public_from_reader := keyed "P"; public_verify _ := true;
  public_subkeys k := [k]; is_encryption_key _ := true;
  public_fingerprint k := k; public_to_armored k := Some ("P" +:+ k);
  secret_from_reader := keyed "S"; secret_verify _ := true;
  secret_fingerprint k := k; secret_to_armored k := Some ("S" +:+ k);
  public_of_secret k := k;
  generate_and_sign p r := (Some (params_user_id p), r);
  literal_builder _ data r := ((data, EmptyString), r);
  encrypt_to_key k b r := (Some (b.1, k), r);
  builder_to_vec b r := (Some (Toy.ser (b.2, b.1)), r);
  message_from_bytes b := match Toy.de b with Some (m, []) => Some m | _ => None end;
  message_decrypt m s := if bool_decide (m.1 = s) then Some m else None;
  is_compressed _ := false; decompress _ := None; as_data_vec m := Some m.2;
  base64_encode := Toy.to_text; base64_decode := Toy.of_text;
|}.
#[export] Instance toy_pgp_laws : PgpLaws.
Proof.
  split; [intros b; apply Toy.of_to_text|done|].
  simpl. intros s k name data [d1 n1] r1 [d2 n2] r2 r3 r4 bytes r5 Hin _ [= <- <- <-] [= <- <- <-] [= <- <-].
  apply list_elem_of_singleton in Hin as ->. exists (s, data), (s, data).
  assert (Toy.de (Toy.ser (s, data)) = Some ((s, data), [])) as Hd
    by (rewrite <-(app_nil_r (Toy.ser (s, data))); apply Toy.de_ser).
  split; [|by rewrite bool_decide_eq_true_2].
  exact (f_equal (λ o, match o with Some (m, []) => Some m | _ => None end) Hd).
Qed.

#[export] Instance ser_RecoveryPayload : Toy.Ser RecoveryPayload.
Proof.
  refine (Toy.ser_inj (B:=N * string * string * string * N * string * string * string)
    (λ p, (payload_version p, payload_kind p, payload_network p, payload_phone_mnemonic p,
           payload_phone_vault_key_index p, payload_phone_vault_pubkey p,
           payload_vault_descriptor p, payload_vault_address p))
    (λ '(a, b, c, d, e, f, g, h), Build_RecoveryPayload a b c d e f g h) _).
  by intros [].
Defined.
#[export] Instance ser_FriendKeyWrapper : Toy.Ser FriendKeyWrapper.
Proof.
  refine (Toy.ser_inj (B:=string * string * string)
    (λ w, (friend_key_fingerprint w, friend_key_armored w, encrypted_symmetric_key w))
    (λ '(a, b, c), Build_FriendKeyWrapper a b c) _).
  by intros [].
Defined.
#[export] Instance ser_CloudRecoveryBackup : Toy.Ser CloudRecoveryBackup.
Proof.
  refine (Toy.ser_inj (B:=N * string * EncryptedBlob * EncryptedBlob * list FriendKeyWrapper
                          * EncryptedBlob)
    (λ b, (backup_version b, backup_kind b, encrypted_payload b, hww_encrypted_symmetric_key b,
           friends b, encrypted_friend_manifest b))
    (λ '(a, b, c, d, e, f), Build_CloudRecoveryBackup a b c d e f) _).
  by intros [].
Defined.

#[export] Instance toy_json_vec {A} `{Toy.Ser A} : JsonVec A := {| to_vec a := Some (Toy.to_text a) |}.
#[export] Instance toy_json_vec_laws {A} `{Toy.Ser A} : JsonVecLaws A.
Proof. constructor. intros a s [= <-]. apply Toy.of_to_text. Qed.

Definition toy_phone_device : DeviceKeys := toy_keys "p" Regtest.
Definition toy_payload : RecoveryPayload := Eval vm_compute in
  get_value (payload_new toy_config toy_phone_device) (Build_RecoveryPayload 0 "" "" "" 0 "" "" "").
Definition toy_hww_seed : Bytes := [104%N].
Definition toy_no_blob : EncryptedBlob := Build_EncryptedBlob 0 "" [] [].
Definition toy_no_backup : CloudRecoveryBackup :=
  Build_CloudRecoveryBackup 0 "" toy_no_blob toy_no_blob [] toy_no_blob.
Definition toy_backup_run : result CloudRecoveryBackup * N := Eval vm_compute in
  create_backup toy_payload toy_hww_seed ["Pzoe"; "Pann"] 1%N.
Definition toy_backup : CloudRecoveryBackup := Eval vm_compute in
  get_value toy_backup_run.1 toy_no_backup.
Definition toy_added_run : result string * (CloudRecoveryBackup * N) := Eval vm_compute in
  add_friend toy_hww_seed (bytes_of "Pmax") (toy_backup, 20%N).
Definition toy_added : CloudRecoveryBackup := Eval vm_compute in toy_added_run.2.1.


Lemma toy_backup_created : create_backup toy_payload toy_hww_seed ["Pzoe"; "Pann"] 1%N
                           = (Ok toy_backup, toy_backup_run.2).
Proof. vm_compute. reflexivity. Qed.


(** A toy friend's wrapper, for the key that the toy source gives first. *)
Lemma toy_wraps name w r r' :
  wrap_for_friend (bytes_of ("P" +:+ name)) (replicate 32 1%N) r = (Ok w, r') →
  wraps (replicate 32 1%N) w name.
Proof.
  intros Hr. eexists _, _, _. split; [|exact Hr].
  unfold public_from_reader, toy_pgp, keyed. by rewrite string_of_bytes.
Qed.

Lemma toy_envelope : envelope toy_backup toy_hww_seed toy_payload ["zoe"; "ann"].
Proof.
  split; [reflexivity| | |].
  - exists (replicate 32 1%N). split_and!; [vm_compute; reflexivity..|].
    constructor; [exists "ann"; split; [set_solver|]|constructor; [exists "zoe"; split; [set_solver|]|constructor]].
    all: apply (toy_wraps _ _ (0%N : toy_crypto.(Rng)) (0%N : toy_crypto.(Rng))); vm_compute; reflexivity.
  - change (NoDup ["ann"; "zoe"]). repeat constructor; set_solver.
  - change (Forall (λ p, p ∈ ["ann"; "zoe"]) ["zoe"; "ann"]). repeat constructor; set_solver.
Qed.


Lemma friend_list_authenticated_witness :
  decrypt_with_hww toy_backup toy_hww_seed = Ok toy_payload ∧
  ∃ e, decrypt_with_hww (set_friends [] toy_backup) toy_hww_seed = Err e.
Proof.
  assert (decrypt_with_hww toy_backup toy_hww_seed = Ok toy_payload) as Hd
    by (vm_compute; reflexivity).
  split; [exact Hd|].
  exact (proj1 (friend_list_authenticated _ _ _ [] Hd ltac:(discriminate))).
Defined.

Lemma add_friend_envelope_witness :
  add_friend toy_hww_seed (bytes_of "Pmax") (toy_backup, 20%N) = (Ok "max", (toy_added, 21%N)) ∧
  ∃ public, envelope toy_added toy_hww_seed toy_payload (public :: ["zoe"; "ann"]).
Proof.
  assert (add_friend toy_hww_seed (bytes_of "Pmax") (toy_backup, 20%N)
          = (Ok "max", (toy_added, 21%N))) as Ha by (vm_compute; reflexivity).
  split; [exact Ha|].
  destruct (add_friend_envelope _ _ _ _ _ _ _ _ _ toy_envelope Ha) as (p & _ & _ & _ & He).
  exists p. exact He.
Defined.
