(* ===== verification/Ceremony.v ===== *)
(** The yearly ceremony, phone side ([core/ceremony.rs]): its data, the
    transaction templates and fees, and the proposal that the phone builds. *)

From S2P Require Import Prelude Bitcoin Toy Types Keys Policy Transactions FileSystem Storage.

Definition DEFAULT_BATCH_DIR : string := "ceremony/active".
Definition SCHEDULE_FILE : string := "phone/schedule.json".
Definition POLICY_PACKAGE_KIND : string := "vault-policy".

(** * Data *)

Record PolicyLimits := {
  limits_monthly_limit_sats : N;
  limits_emergency_access_limit_sats : N;
}.

Record BatchTransaction := {
  psbt_file : string;
  unsigned_txid : string;
  fee_sats : N;
  vault_input_indexes : list N;
  controller_input_indexes : list N;
}.
#[export] Instance BatchTransaction_eq_dec : EqDecision BatchTransaction.
Proof. solve_decision. Defined.

Section data.
Context `{BitcoinTypes}.

Record ConnectorState := {
  connector_outpoint : OutPoint;
  value_sats : N;
}.

Record AllowanceStep := {
  step : N;
  step_delay_seconds : N;
  step_delay_sequence : N;
  chain_value_sats : N;
  step_hot_address : string;
  connector : ConnectorState;
  next_connector : option ConnectorState;
  authorization : BatchTransaction;
}.

Record EmergencyAccessPolicy := {
  amount_sats : N;
  emergency_delay_seconds : N;
  emergency_delay_sequence_of : N;
  emergency_hot_address : string;
  staging_vout : N;
  staging_value_sats : N;
  vault_change_vout : N;
  vault_change_value_sats : N;
  trigger_connector : ConnectorState;
  withdrawal_connector : ConnectorState;
  trigger : BatchTransaction;
  withdrawal : BatchTransaction;
}.

Record BatchManifest := {
  manifest_version : N;
  created_at : Z;
  manifest_network : string;
  manifest_vault_descriptor : string;
  manifest_vault_address : string;
  controller_descriptor : string;
  controller_address : string;
  connector_value_sats : N;
  monthly_limit_sats : N;
  emergency_access_limit_sats : N;
  fee_rate_sat_vb : N;
  total_input_sats : N;
  vault_input_sats : N;
  controller_input_sats : N;
  allowance_count : nat;
  rollover : BatchTransaction;
  allowance_vout : option N;
  allowance_value_sats : N;
  remainder_vout : N;
  remainder_value_sats : N;
  monthly_connector_vout : option N;
  emergency_connector_vout : option N;
  allowances : list AllowanceStep;
  emergency_access : option EmergencyAccessPolicy;
  phone_approved : bool;
  hww_approved : bool;
}.

Record PolicyPackage := {
  package_version : N;
  package_kind : string;
  package_manifest : BatchManifest;
  psbts : gmap string string;
}.
End data.

#[export] Instance ConnectorState_eq_dec `{BitcoinTypes} : EqDecision ConnectorState.
Proof. solve_decision. Defined.

(** The phone's source of receive addresses. *)
Class HotAddressProvider `{BitcoinTypes} (H : Type) := {
  next_receive_address : M H Address;
}.

(** * Templates *)

Section templates.
Context `{BitcoinLib}.

Definition vault_input (outpoint : OutPoint) (sequence : N) : TxIn :=
  {| previous_output := outpoint; script_sig := []; sequence := sequence; witness := [] |}.

(** An output of the fixed connector value. *)
Definition connector_output (controller_script : ScriptBuf) : TxOut :=
  {| value := CONNECTOR_VALUE_SATS; script_pubkey := controller_script |}.

Definition rollover_template (inputs : list TxIn) (allowance_value : option N)
    (remainder_value : N) (vault_script controller_script : ScriptBuf)
    (monthly_connector emergency_connector : bool) : Transaction :=
  {| version := VERSION_TWO; lock_time := LOCK_TIME_ZERO; input := inputs;
     output :=
       match allowance_value with
       | Some value => [{| value := value; script_pubkey := vault_script |}]
       | None => []
       end
       ++ [{| value := remainder_value; script_pubkey := vault_script |}]
       ++ replicate (bool_to_nat monthly_connector + bool_to_nat emergency_connector)
            (connector_output controller_script) |}.

Definition authorization_template (vault_outpoint connector_outpoint : OutPoint)
    (monthly_limit delay_sequence : N) (hot_script : ScriptBuf)
    (next_chain : option (N * ScriptBuf)) (controller_script : ScriptBuf) : Transaction :=
  {| version := VERSION_TWO; lock_time := LOCK_TIME_ZERO;
     input := [vault_input vault_outpoint delay_sequence;
               vault_input connector_outpoint ENABLE_RBF_NO_LOCKTIME];
     output :=
       [{| value := monthly_limit; script_pubkey := hot_script |}]
       ++ match next_chain with
          | Some (next_value, next_script) =>
              [{| value := next_value; script_pubkey := next_script |};
               connector_output controller_script]
          | None => []
          end |}.

Definition emergency_trigger_template (vault_outpoint connector_outpoint : OutPoint)
    (staging_value vault_change_value : N) (vault_script controller_script : ScriptBuf)
    : Transaction :=
  {| version := VERSION_TWO; lock_time := LOCK_TIME_ZERO;
     input := [vault_input vault_outpoint SEQUENCE_MAX;
               vault_input connector_outpoint ENABLE_RBF_NO_LOCKTIME];
     output := [{| value := staging_value; script_pubkey := vault_script |};
                {| value := vault_change_value; script_pubkey := vault_script |};
                connector_output controller_script] |}.

Definition emergency_withdrawal_template (vault_outpoint connector_outpoint : OutPoint)
    (amount delay_sequence : N) (hot_script : ScriptBuf) : Transaction :=
  {| version := VERSION_TWO; lock_time := LOCK_TIME_ZERO;
     input := [vault_input vault_outpoint delay_sequence;
               vault_input connector_outpoint ENABLE_RBF_NO_LOCKTIME];
     output := [{| value := amount; script_pubkey := hot_script |}] |}.

Definition emergency_delay_sequence : result N :=
  or_err (from_seconds_ceil EMERGENCY_ACCESS_DELAY_SECONDS)
    "emergency access delay cannot be represented by BIP68".

Definition monthly_delay_sequence : result N :=
  or_err (from_seconds_ceil MONTHLY_ALLOWANCE_DELAY_SECONDS)
    "monthly allowance delay cannot be represented by BIP68".

(** ** Fees *)

(** The estimate that every check and every fee of a cooperative transaction
    with a phone-signed connector uses, at the fixed rate. *)
Definition cooperative_fee (tx : Transaction) (policy : VaultPolicy) (vault_indexes : list nat)
    (controller : ControllerPolicy) (controller_indexes : list nat) : result N :=
  size ← estimate_policy_vsize tx policy Cooperative vault_indexes controller PhonePath
           controller_indexes;
  mul_u64 size DEFAULT_FEE_RATE_SAT_VB.

Definition authorization_fee (policy : VaultPolicy) (controller : ControllerPolicy)
    (outpoint : OutPoint) (monthly_limit delay_sequence : N) (hot_script : ScriptBuf)
    (has_next : bool) : result N :=
  let template := authorization_template outpoint null_outpoint monthly_limit delay_sequence
    hot_script (then_some has_next (1%N, address_script_pubkey (vault_address_of policy)))
    (address_script_pubkey (controller_address_of controller)) in
  cooperative_fee template policy [0] controller [1].

Definition emergency_trigger_fee (policy : VaultPolicy) (controller : ControllerPolicy)
    (outpoint : OutPoint) (staging_value vault_change_value : N) (vault_script : ScriptBuf)
    : result N :=
  let template := emergency_trigger_template outpoint null_outpoint staging_value
    vault_change_value vault_script (address_script_pubkey (controller_address_of controller)) in
  cooperative_fee template policy [0] controller [1].

Definition emergency_withdrawal_fee (policy : VaultPolicy) (controller : ControllerPolicy)
    (outpoint : OutPoint) (amount delay_sequence : N) (hot_script : ScriptBuf) : result N :=
  let template := emergency_withdrawal_template outpoint null_outpoint amount delay_sequence
    hot_script in
  cooperative_fee template policy [0] controller [1].

(** ** Amounts *)

Definition allowance_chain_value (count : nat) (monthly_limit continuing_fee final_fee : N)
    : result N :=
  if bool_decide (count = 0) then Ok 0%N else
  allowances ← or_err (checked_mul monthly_limit (N.of_nat count))
                 "allowance chain value overflowed";
  continuing_fees ← or_err (checked_mul continuing_fee (N.of_nat (count - 1)))
                      "allowance chain fees overflowed";
  or_err (v ← checked_add allowances continuing_fees;
          v ← checked_add v final_fee;
          checked_sub v CONNECTOR_VALUE_SATS)
    "allowance chain value overflowed".

Definition checked_input_sum (utxos : list VaultUtxo) : result N :=
  try_fold (sum_step (λ u, value (utxo_txout u)) "vault input total overflowed") 0%N utxos.

Definition output_sum (tx : Transaction) : result N :=
  try_fold (sum_step value "transaction output sum overflowed") 0%N (output tx).

(** ** Files *)

Definition default_batch_path (data_dir : Path) : Path := join data_dir DEFAULT_BATCH_DIR.

Definition write_psbt (p : Path) (psbt : Psbt) : M FS unit :=
  write_private p (psbt_to_string psbt +:+ NEWLINE).

Definition read_psbt (f : FS) (p : Path) : result Psbt :=
  text ← with_context (read_to_string f p) "failed to read PSBT";
  or_err (psbt_from_str (trim text)) "invalid PSBT".

Definition manifest_transactions (m : BatchManifest) : list BatchTransaction :=
  rollover m :: (authorization <$> allowances m) ++
  match emergency_access m with
  | Some e => [trigger e; withdrawal e]
  | None => []
  end.

(** [indexes.iter().map(|index| *index as u32)]. *)
Definition to_u32s (l : list nat) : list N := as_u32 <$> l.

(** [usize::try_from] a [u32] succeeds where [usize] has at least 32 bits. *)
Definition transaction_indexes (l : list N) : result (list nat) := Ok (N.to_nat <$> l).

Definition controller_policy (config : VaultConfig) : result ControllerPolicy :=
  phone ← or_err (key_from_str (phone_vault_pubkey config)) "invalid configured phone vault key";
  hww ← or_err (key_from_str (hww_vault_pubkey config)) "invalid configured HWW vault key";
  network ← bitcoin_network config;
  controller_new_for_network phone hww network.
End templates.

(** * The proposal

    [build_policy_proposal_with_connectors], one definition per phase.  The
    local variables that the phases share are the fields of [Proposal]. *)

(** The outcome of the selection: months, chain value, fee and remainder. *)
Abbreviation Selection := (nat * N * N * N)%type.

Section proposal.
Context `{BitcoinLib, !KeyLib, !Json (BatchManifest)}.

Record Proposal := {
  p_policy : VaultPolicy;
  p_controller : ControllerPolicy;
  p_phone : DeviceKeys;
  p_batch_dir : Path;
  p_monthly : N;
  p_emergency : N;
}.

Definition p_vault_script (p : Proposal) : ScriptBuf :=
  address_script_pubkey (vault_address_of (p_policy p)).
Definition p_controller_script (p : Proposal) : ScriptBuf :=
  address_script_pubkey (controller_address_of (p_controller p)).
Definition p_has_emergency (p : Proposal) : bool := (0 <? p_emergency p)%N.

(** The inputs: every vault output, then every connector, in this order. *)
Definition input_template (vault_utxos controller_utxos : list VaultUtxo) : list TxIn :=
  ((λ u, vault_input (utxo_outpoint u) SEQUENCE_MAX) <$> vault_utxos) ++
  ((λ u, vault_input (utxo_outpoint u) ENABLE_RBF_NO_LOCKTIME) <$> controller_utxos).

Definition vault_positions (vault_utxos : list VaultUtxo) : list nat :=
  seq 0 (length vault_utxos).
Definition controller_positions (vault_utxos controller_utxos : list VaultUtxo) : list nat :=
  seq (length vault_utxos) (length controller_utxos).

(** The policies, checked against the phone's key and the given outputs. *)
Definition open_proposal (config : VaultConfig) (vault_utxos controller_utxos : list VaultUtxo)
    (limits : PolicyLimits) (batch_dir : Path) (phone : DeviceKeys) : result Proposal :=
  _ ← bail_if (negb (bool_decide (key_to_string (vault_pubkey phone) = phone_vault_pubkey config)))
        "phone key does not match the configured vault policy";
  network ← bitcoin_network config;
  policy ← from_descriptor_for_network (vault_descriptor config) network;
  controller ← controller_policy config;
  let p := {| p_policy := policy; p_controller := controller; p_phone := phone;
              p_batch_dir := batch_dir;
              p_monthly := limits_monthly_limit_sats limits;
              p_emergency := limits_emergency_access_limit_sats limits |} in
  _ ← bail_if (existsb (λ u, negb (bool_decide (script_pubkey (utxo_txout u) = p_vault_script p)))
                       vault_utxos)
        "policy proposal contains an input outside the configured vault script";
  _ ← bail_if (existsb (λ u, negb (bool_decide
                  (script_pubkey (utxo_txout u) = p_controller_script p))) controller_utxos)
        "policy proposal contains an input outside the fixed controller script";
  mret p.

(** The value of the emergency staging output. *)
Definition staging_value (p : Proposal) (delay : N) (hot : option Address) : result N :=
  match hot with
  | Some address =>
      _ ← bail_if (p_emergency p <? minimal_non_dust (address_script_pubkey address))%N
            "emergency access amount would create a dust hot-wallet output";
      withdrawal_fee ← emergency_withdrawal_fee (p_policy p) (p_controller p) null_outpoint
                         (p_emergency p) delay (address_script_pubkey address);
      or_err (v ← checked_add (p_emergency p) withdrawal_fee; checked_sub v CONNECTOR_VALUE_SATS)
        "emergency access amount plus withdrawal fee overflowed"
  | None => Ok 0%N
  end.

(** The least cold remainder that leaves the emergency path funded. *)
Definition minimum_remainder (p : Proposal) (staging : N) : result N :=
  if bool_decide (p_emergency p = 0%N) then Ok (minimal_non_dust (p_vault_script p))
  else
    let minimum_vault_change := minimal_non_dust (p_vault_script p) in
    trigger_fee ← emergency_trigger_fee (p_policy p) (p_controller p) null_outpoint staging
                    minimum_vault_change (p_vault_script p);
    or_err (v ← checked_add staging trigger_fee; checked_add v minimum_vault_change)
      "emergency access reserve overflowed".

Definition authorization_fees (p : Proposal) (delay : N) : result (N * N) :=
  if bool_decide (p_monthly p = 0%N) then Ok (0, 0)%N
  else
    _ ← bail_if (p_monthly p <? minimal_non_dust (p_vault_script p))%N
          "monthly limit would create a dust hot-wallet output";
    continuing ← authorization_fee (p_policy p) (p_controller p) null_outpoint (p_monthly p) delay
                   (p_vault_script p) true;
    final ← authorization_fee (p_policy p) (p_controller p) null_outpoint (p_monthly p) delay
              (p_vault_script p) false;
    mret (continuing, final).

(** The loop from twelve months down: the first count that the inputs pay. *)
Fixpoint select_rollover (p : Proposal) (inputs : list TxIn) (vault_indexes controller_indexes : list nat)
    (total minimum_remainder continuing_fee final_fee : N) (count : nat)
    : result (option Selection) :=
  match count with
  | 0 => Ok None
  | S fewer =>
      allowance_value ← allowance_chain_value count (p_monthly p) continuing_fee final_fee;
      let template := rollover_template inputs (Some allowance_value) 1 (p_vault_script p)
        (p_controller_script p) true (p_has_emergency p) in
      fee ← cooperative_fee template (p_policy p) vault_indexes (p_controller p)
              controller_indexes;
      connectors ← mul_u64 CONNECTOR_VALUE_SATS (N.of_nat (1 + bool_to_nat (p_has_emergency p)));
      required ← or_err (v ← checked_add fee allowance_value;
                         v ← checked_add v minimum_remainder;
                         checked_add v connectors)
                   "allowance rollover requirement overflowed";
      if (required <=? total)%N then
        remainder ← sub_u64 total fee;
        remainder ← sub_u64 remainder allowance_value;
        remainder ← sub_u64 remainder connectors;
        mret (Some (count, allowance_value, fee, remainder))
      else select_rollover p inputs vault_indexes controller_indexes total minimum_remainder
             continuing_fee final_fee fewer
  end.

(** Without a month that fits: everything is cold remainder. *)
Definition plain_rollover (p : Proposal) (inputs : list TxIn)
    (vault_indexes controller_indexes : list nat) (total : N) : result Selection :=
  let template := rollover_template inputs None 1 (p_vault_script p) (p_controller_script p)
    false (p_has_emergency p) in
  fee ← cooperative_fee template (p_policy p) vault_indexes (p_controller p) controller_indexes;
  connectors ← mul_u64 CONNECTOR_VALUE_SATS (N.of_nat (bool_to_nat (p_has_emergency p)));
  remainder ← or_err (v ← checked_sub total fee; checked_sub v connectors)
                "vault balance cannot pay the rollover fee";
  mret (0, 0%N, fee, remainder).

Definition choose_rollover (p : Proposal) (inputs : list TxIn)
    (vault_indexes controller_indexes : list nat)
    (total minimum_remainder continuing_fee final_fee : N) : result Selection :=
  selected ← (if (0 <? p_monthly p)%N
              then select_rollover p inputs vault_indexes controller_indexes total
                     minimum_remainder continuing_fee final_fee MONTHS_PER_ROLLOVER
              else Ok None);
  selection ← match selected with
              | Some s => Ok s
              | None => plain_rollover p inputs vault_indexes controller_indexes total
              end;
  _ ← bail_if (selection.2 <? minimum_remainder)%N
        (if p_has_emergency p
         then "vault balance cannot fund the configured emergency access amount and fees"
         else "vault balance cannot create a non-dust rollover remainder");
  mret selection.

Definition sign_vault (p : Proposal) (psbt : Psbt) (indexes : list nat) : result Psbt :=
  match sign_vault_psbt_inputs (p_policy p) Cooperative (vault_keypair (p_phone p)) indexes psbt with
  | (Ok _, psbt) => Ok psbt
  | (Err e, _) => Err e
  | (Panic, _) => Panic
  end.
Definition sign_controller (p : Proposal) (psbt : Psbt) (indexes : list nat) : result Psbt :=
  match sign_controller_psbt_inputs (p_controller p) PhonePath (vault_keypair (p_phone p))
          indexes psbt with
  | (Ok _, psbt) => Ok psbt
  | (Err e, _) => Err e
  | (Panic, _) => Panic
  end.

(** The rollover's PSBT, with both kinds of inputs signed by the phone. *)
Definition build_rollover (p : Proposal) (rollover_tx : Transaction)
    (vault_utxos controller_utxos : list VaultUtxo) : M FS unit :=
  let vault_indexes := vault_positions vault_utxos in
  let controller_indexes := controller_positions vault_utxos controller_utxos in
  psbt ← pure (create_policy_psbt rollover_tx
                 ((utxo_txout <$> vault_utxos) ++ (utxo_txout <$> controller_utxos))
                 vault_indexes controller_indexes (p_policy p) (p_controller p));
  psbt ← pure (sign_vault p psbt vault_indexes);
  psbt ← pure (sign_controller p psbt controller_indexes);
  write_psbt (join (p_batch_dir p) "rollover.psbt") psbt.
End proposal.

(** Steps on the file system or on the hot wallet of the phone. *)
Definition on_fs {S A} (m : M FS A) : M (FS * S) A := λ w, let '(r, f) := m w.1 in (r, (f, w.2)).
Definition on_hot {S A} (m : M S A) : M (FS * S) A := λ w, let '(r, h) := m w.2 in (r, (w.1, h)).

(** [format!("{step:02}")]. *)
Definition two_digits (n : N) : string :=
  if (n <? 10)%N then "0" +:+ pretty n else pretty n.

Section chain.
Context `{BitcoinLib, !KeyLib}.

(** The output that the next authorization spends, with its connector. *)
Record Chain := {
  chain_outpoint : option OutPoint;
  chain_txout : option TxOut;
  chain_connector : option ConnectorState;
}.

Definition connector_at (t : Txid) (vout : N) : ConnectorState :=
  {| connector_outpoint := new_outpoint t vout; value_sats := CONNECTOR_VALUE_SATS |}.

Definition initial_chain (rollover_tx : Transaction) (has_allowances : bool)
    (monthly_connector_vout : option N) : result Chain :=
  if has_allowances then
    txout ← index (output rollover_tx) 0;
    mret {| chain_outpoint := Some (new_outpoint (compute_txid rollover_tx) 0);
            chain_txout := Some txout;
            chain_connector := connector_at (compute_txid rollover_tx) <$> monthly_connector_vout |}
  else
    Ok {| chain_outpoint := None; chain_txout := None;
          chain_connector := connector_at (compute_txid rollover_tx) <$> monthly_connector_vout |}.

(** The file of a step's authorization. *)
Definition authorization_file (step : N) : string :=
  "allowances/" +:+ two_digits step +:+ "/authorization.psbt".

(** A transaction of a vault output and its connector, the vault input signed
    by the phone and the connector left unsigned. *)
Definition signed_child (p : Proposal) (tx : Transaction) (source : TxOut) : result Psbt :=
  psbt ← create_policy_psbt tx [source; connector_output (p_controller_script p)] [0] [1]
           (p_policy p) (p_controller p);
  sign_vault p psbt [0].

(** One monthly authorization: the part of the step that needs no store. *)
Definition authorization_of (p : Proposal) (delay : N) (hot_address : Address) (has_next : bool)
    (source_outpoint : OutPoint) (source_txout : TxOut) (source_connector : ConnectorState)
    : result (Transaction * N * Psbt) :=
  fee ← authorization_fee (p_policy p) (p_controller p) source_outpoint (p_monthly p) delay
          (address_script_pubkey hot_address) has_next;
  next_chain_value ← or_err (v ← checked_add (value source_txout) CONNECTOR_VALUE_SATS;
                             v ← (if has_next then checked_sub v CONNECTOR_VALUE_SATS else Some v);
                             v ← checked_sub v (p_monthly p);
                             checked_sub v fee)
                       "allowance chain cannot fund its authorization";
  _ ← bail_if (has_next && (next_chain_value <? minimal_non_dust (p_vault_script p))%N)
        "allowance authorization would create a dust chain output";
  _ ← bail_if (negb has_next && negb (bool_decide (next_chain_value = 0%N)))
        "final allowance does not exhaust its chain output";
  let tx := authorization_template source_outpoint (connector_outpoint source_connector)
    (p_monthly p) delay (address_script_pubkey hot_address)
    (then_some has_next (next_chain_value, p_vault_script p)) (p_controller_script p) in
  psbt ← signed_child p tx source_txout;
  mret (tx, fee, psbt).

Definition allowance_of (step delay : N) (hot_address : Address) (has_next : bool)
    (source_txout : TxOut) (source_connector : ConnectorState) (tx : Transaction) (fee : N)
    : AllowanceStep :=
  {| step := step; step_delay_seconds := MONTHLY_ALLOWANCE_DELAY_SECONDS;
     step_delay_sequence := delay; chain_value_sats := value source_txout;
     step_hot_address := address_to_string hot_address;
     connector := source_connector;
     next_connector := then_some has_next (connector_at (compute_txid tx) 2);
     authorization :=
       {| psbt_file := authorization_file step;
          unsigned_txid := txid_to_string (compute_txid tx); fee_sats := fee;
          vault_input_indexes := [0%N]; controller_input_indexes := [1%N] |} |}.

Definition next_chain (has_next : bool) (tx : Transaction) : result Chain :=
  if has_next then
    txout ← index (output tx) 1;
    mret {| chain_outpoint := Some (new_outpoint (compute_txid tx) 1);
            chain_txout := Some txout;
            chain_connector := Some (connector_at (compute_txid tx) 2) |}
  else Ok {| chain_outpoint := None; chain_txout := None; chain_connector := None |}.

Context {Hot : Type} `{!HotAddressProvider Hot}.

Definition build_allowance (p : Proposal) (delay : N) (count i : nat) (c : Chain)
    : M (FS * Hot) (AllowanceStep * Chain) :=
  step ← pure (or_err (then_some (bool_decide (i + 1 ≤ 255)) (N.of_nat (i + 1)))
                 "allowance step exceeds u8");
  let has_next := bool_decide (i + 1 < count) in
  hot_address ← on_hot next_receive_address;
  source_outpoint ← pure (or_err (chain_outpoint c) "allowance chain source is missing");
  source_txout ← pure (or_err (chain_txout c) "allowance chain output is missing");
  source_connector ← pure (or_err (chain_connector c) "allowance connector is missing");
  built ← pure (authorization_of p delay hot_address has_next source_outpoint source_txout
                  source_connector);
  let '(tx, fee, psbt) := built in
  _ ← on_fs (write_psbt (join (p_batch_dir p) (authorization_file step)) psbt);
  next ← pure (next_chain has_next tx);
  mret (allowance_of step delay hot_address has_next source_txout source_connector tx fee, next).

Fixpoint build_allowances (p : Proposal) (delay : N) (count : nat) (positions : list nat)
    (c : Chain) : M (FS * Hot) (list AllowanceStep) :=
  match positions with
  | [] => mret []
  | i :: positions' =>
      '(allowance, c) ← build_allowance p delay count i c;
      rest ← build_allowances p delay count positions' c;
      mret (allowance :: rest)
  end.
End chain.

Section emergency.
Context `{BitcoinLib, !KeyLib}.

(** The two transactions of the emergency path and their amounts, as
    [build_emergency_access] computes and signs them. *)
Definition emergency_amounts (p : Proposal) (source_outpoint : OutPoint) (source_txout : TxOut)
    (delay : N) (hot_address : Address) : result (N * N * N * N) :=
  withdrawal_fee ← emergency_withdrawal_fee (p_policy p) (p_controller p) null_outpoint
                     (p_emergency p) delay (address_script_pubkey hot_address);
  staging_value_sats ← or_err (v ← checked_add (p_emergency p) withdrawal_fee;
                               checked_sub v CONNECTOR_VALUE_SATS)
    "emergency access amount and fee cannot be funded with the connector";
  _ ← bail_if (staging_value_sats <? minimal_non_dust (p_vault_script p))%N
        "emergency staging output would be dust";
  trigger_fee ← emergency_trigger_fee (p_policy p) (p_controller p) source_outpoint
                  staging_value_sats (minimal_non_dust (p_vault_script p)) (p_vault_script p);
  vault_change ← or_err (v ← checked_sub (value source_txout) staging_value_sats;
                         checked_sub v trigger_fee)
    "vault remainder cannot fund the configured emergency access amount and fees";
  _ ← bail_if (vault_change <? minimal_non_dust (p_vault_script p))%N
        "emergency access trigger would create dust vault change";
  mret (withdrawal_fee, staging_value_sats, trigger_fee, vault_change).

Definition child_transaction (file : string) (tx : Transaction) (fee : N) : BatchTransaction :=
  {| psbt_file := file; unsigned_txid := txid_to_string (compute_txid tx); fee_sats := fee;
     vault_input_indexes := [0%N]; controller_input_indexes := [1%N] |}.

Definition build_emergency_access (p : Proposal) (source_outpoint : OutPoint)
    (source_txout : TxOut) (trigger_connector : ConnectorState) (delay : N)
    (hot_address : Address) : M FS EmergencyAccessPolicy :=
  amounts ← pure (emergency_amounts p source_outpoint source_txout delay hot_address);
  let '(withdrawal_fee, staging_value_sats, trigger_fee, vault_change) := amounts in
  let trigger_tx := emergency_trigger_template source_outpoint
    (connector_outpoint trigger_connector) staging_value_sats vault_change (p_vault_script p)
    (p_controller_script p) in
  trigger_psbt ← pure (signed_child p trigger_tx source_txout);
  let staging_outpoint := new_outpoint (compute_txid trigger_tx) 0 in
  staging_txout ← pure (index (output trigger_tx) 0);
  let withdrawal_connector := connector_at (compute_txid trigger_tx) 2 in
  let withdrawal_tx := emergency_withdrawal_template staging_outpoint
    (connector_outpoint withdrawal_connector) (p_emergency p) delay
    (address_script_pubkey hot_address) in
  withdrawal_psbt ← pure (signed_child p withdrawal_tx staging_txout);
  _ ← write_psbt (join (p_batch_dir p) "emergency/trigger.psbt") trigger_psbt;
  _ ← write_psbt (join (p_batch_dir p) "emergency/withdrawal.psbt") withdrawal_psbt;
  mret {| amount_sats := p_emergency p;
          emergency_delay_seconds := EMERGENCY_ACCESS_DELAY_SECONDS;
          emergency_delay_sequence_of := delay;
          emergency_hot_address := address_to_string hot_address;
          staging_vout := 0; staging_value_sats := staging_value_sats;
          vault_change_vout := 1; vault_change_value_sats := vault_change;
          trigger_connector := trigger_connector;
          withdrawal_connector := withdrawal_connector;
          trigger := child_transaction "emergency/trigger.psbt" trigger_tx trigger_fee;
          withdrawal := child_transaction "emergency/withdrawal.psbt" withdrawal_tx
                          withdrawal_fee |}.

(** The rollover's output positions. *)
Definition remainder_vout_of (has_allowances : bool) : N := bool_to_N has_allowances.
Definition monthly_connector_vout_of (has_allowances : bool) : option N :=
  then_some has_allowances (remainder_vout_of has_allowances + 1)%N.
Definition emergency_connector_vout_of (has_allowances has_emergency : bool) : option N :=
  then_some has_emergency (remainder_vout_of has_allowances + 1 + bool_to_N has_allowances)%N.

Definition proposal_manifest (config : VaultConfig) (p : Proposal) (now : Z)
    (vault_utxos controller_utxos : list VaultUtxo) (vault_sum controller_sum total : N)
    (selection : Selection) (rollover_tx : Transaction) (allowances : list AllowanceStep)
    (emergency : option EmergencyAccessPolicy) : BatchManifest :=
  let '(count, allowance_value, fee, remainder) := selection in
  let has_allowances := bool_decide (0 < count) in
  {| manifest_version := 5; created_at := now;
     manifest_network := config_network config;
     manifest_vault_descriptor := vault_descriptor config;
     manifest_vault_address := vault_address config;
     controller_descriptor := controller_descriptor_string (p_controller p);
     controller_address := address_to_string (controller_address_of (p_controller p));
     connector_value_sats := CONNECTOR_VALUE_SATS;
     monthly_limit_sats := p_monthly p;
     emergency_access_limit_sats := p_emergency p;
     fee_rate_sat_vb := DEFAULT_FEE_RATE_SAT_VB;
     total_input_sats := total; vault_input_sats := vault_sum;
     controller_input_sats := controller_sum;
     allowance_count := count;
     rollover := {| psbt_file := "rollover.psbt";
                    unsigned_txid := txid_to_string (compute_txid rollover_tx);
                    fee_sats := fee;
                    vault_input_indexes := to_u32s (vault_positions vault_utxos);
                    controller_input_indexes :=
                      to_u32s (controller_positions vault_utxos controller_utxos) |};
     allowance_vout := then_some has_allowances 0%N;
     allowance_value_sats := allowance_value;
     remainder_vout := remainder_vout_of has_allowances;
     remainder_value_sats := remainder;
     monthly_connector_vout := monthly_connector_vout_of has_allowances;
     emergency_connector_vout := emergency_connector_vout_of has_allowances (p_has_emergency p);
     allowances := allowances; emergency_access := emergency;
     phone_approved := true; hww_approved := false |}.
End emergency.

Section build.
Context `{BitcoinLib, !KeyLib, !Json BatchManifest} {Hot : Type} `{!HotAddressProvider Hot}.

(** The ceremony directory must not hold anything, and is then created. *)
Definition empty_batch_dir (batch_dir : Path) (msg : string) : M FS unit :=
  f ← get;
  if exists_ f batch_dir then pure (bail_when (has_entry f batch_dir) msg) else mret ().

(** The emergency path, when a hot address was taken for it. *)
Definition build_emergency (p : Proposal) (rollover_tx : Transaction) (has_allowances : bool)
    (delay : N) (hot : option Address) : M FS (option EmergencyAccessPolicy) :=
  match hot with
  | Some hot_address =>
      let txid := compute_txid rollover_tx in
      source_txout ← pure (index (output rollover_tx)
                             (N.to_nat (remainder_vout_of has_allowances)));
      vout ← pure (or_err (emergency_connector_vout_of has_allowances (p_has_emergency p))
                     "emergency connector vout is missing");
      e ← build_emergency_access p (new_outpoint txid (remainder_vout_of has_allowances))
            source_txout (connector_at txid vout) delay hot_address;
      mret (Some e)
  | None => mret None
  end.

(** The amounts of a proposal: sums, selection, and the rollover itself. *)
Definition plan_rollover (p : Proposal) (vault_utxos controller_utxos : list VaultUtxo)
    (total staging : N) (monthly_delay : N) : result (Selection * Transaction) :=
  minimum ← minimum_remainder p staging;
  fees ← authorization_fees p monthly_delay;
  let inputs := input_template vault_utxos controller_utxos in
  selection ← choose_rollover p inputs (vault_positions vault_utxos)
                (controller_positions vault_utxos controller_utxos) total minimum fees.1 fees.2;
  let '(count, allowance_value, fee, remainder) := selection in
  let has_allowances := bool_decide (0 < count) in
  mret (selection, rollover_template inputs (then_some has_allowances allowance_value) remainder
                     (p_vault_script p) (p_controller_script p) has_allowances
                     (p_has_emergency p)).

Definition build_policy_proposal_with_connectors (config : VaultConfig)
    (vault_utxos controller_utxos : list VaultUtxo) (now : Z) (limits : PolicyLimits)
    (batch_dir : Path) (phone : DeviceKeys) : M (FS * Hot) BatchManifest :=
  _ ← pure (bail_if (bool_decide (vault_utxos = [])) "vault has no confirmed UTXOs to roll over");
  _ ← on_fs (empty_batch_dir batch_dir "ceremony directory is not empty");
  _ ← on_fs (create_dir_all batch_dir);
  p ← pure (open_proposal config vault_utxos controller_utxos limits batch_dir phone);
  vault_sum ← pure (checked_input_sum vault_utxos);
  controller_sum ← pure (checked_input_sum controller_utxos);
  total ← pure (or_err (checked_add vault_sum controller_sum) "policy input total overflowed");
  hot ← (if p_has_emergency p
         then a ← on_hot next_receive_address; mret (Some a)
         else mret None);
  emergency_delay ← pure emergency_delay_sequence;
  staging ← pure (staging_value p emergency_delay hot);
  monthly_delay ← pure monthly_delay_sequence;
  plan ← pure (plan_rollover p vault_utxos controller_utxos total staging monthly_delay);
  let '(selection, rollover_tx) := plan in
  let count := selection.1.1.1 in
  let has_allowances := bool_decide (0 < count) in
  _ ← on_fs (build_rollover p rollover_tx vault_utxos controller_utxos);
  chain ← pure (initial_chain rollover_tx has_allowances
                  (monthly_connector_vout_of has_allowances));
  allowances ← build_allowances p monthly_delay count (seq 0 count) chain;
  emergency ← on_fs (build_emergency p rollover_tx has_allowances emergency_delay hot);
  let manifest := proposal_manifest config p now vault_utxos controller_utxos vault_sum
    controller_sum total selection rollover_tx allowances emergency in
  _ ← on_fs (write_json (join batch_dir "manifest.json") manifest);
  mret manifest.

Definition build_policy_proposal (config : VaultConfig) (utxos : list VaultUtxo) (now : Z)
    (limits : PolicyLimits) (batch_dir : Path) (phone : DeviceKeys) : M (FS * Hot) BatchManifest :=
  build_policy_proposal_with_connectors config utxos [] now limits batch_dir phone.

Definition load_manifest (f : FS) (batch_dir : Path) : result BatchManifest :=
  read_json f (join batch_dir "manifest.json").
End build.
