(* ===== verification/CeremonyValidate.v ===== *)
(** Validation of a ceremony, and the policy package that carries it between
    the devices ([core/ceremony.rs]). *)

From stdpp Require Import sorting.
From S2P Require Import Prelude Bitcoin Toy Types Keys Policy Transactions FileSystem Storage Ceremony.

Section checks.
Context `{BitcoinLib}.

Definition validate_connector_output (output : TxOut) (controller_script : ScriptBuf)
    : result unit :=
  bail_if (negb (bool_decide (script_pubkey output = controller_script)) ||
           negb (bool_decide (value output = CONNECTOR_VALUE_SATS)))
    "connector output violates the fixed controller script or value".

Definition validate_input_partition (input_count : nat)
    (vault_indexes controller_indexes : list nat) : result unit :=
  bail_if (not_exact_partition input_count vault_indexes controller_indexes)
    "policy input roles do not form an exact input partition".

Definition role_input_step (psbt : Psbt) (expected_script : ScriptBuf) (sum : N) (i : nat)
    : result N :=
  x ← index (inputs psbt) i;
  prevout ← or_err (witness_utxo x) "input lacks witness UTXO";
  _ ← bail_if (negb (bool_decide (script_pubkey prevout = expected_script)))
        "input uses an unexpected script";
  or_err (checked_add sum (value prevout)) "input sum overflowed".

Definition psbt_role_input_sum (psbt : Psbt) (indexes : list nat) (expected_script : ScriptBuf)
    : result N :=
  try_fold (role_input_step psbt expected_script) 0%N indexes.

Definition validate_connector_child (psbt : Psbt) (vault_prevout : TxOut)
    (vault_outpoint connector_outpoint : OutPoint) (controller_script : ScriptBuf)
    (manifest_tx : BatchTransaction) : result unit :=
  let tx := unsigned_tx psbt in
  _ ← bail_when
        (!!= (vault_input_indexes manifest_tx = [0%N])
         ||? !!= (controller_input_indexes manifest_tx = [1%N])
         ||? !!= (txid_to_string (compute_txid tx) = unsigned_txid manifest_tx)
         ||? !!= (length (input tx) = 2)
         ||? !!= (length (inputs psbt) = 2)
         ||? (i ← index (input tx) 0; !!= (previous_output i = vault_outpoint))
         ||? (x ← index (inputs psbt) 0; !!= (witness_utxo x = Some vault_prevout))
         ||? (i ← index (input tx) 1; !!= (previous_output i = connector_outpoint))
         ||? (x ← index (inputs psbt) 1; !!= (tap_script_sigs x = ∅)))
        "policy PSBT does not spend its assigned vault and unsigned connector outputs";
  x ← index (inputs psbt) 1;
  connector_prevout ← or_err (witness_utxo x) "policy connector input lacks witness UTXO";
  _ ← bail_if (negb (bool_decide (script_pubkey connector_prevout = controller_script)) ||
               negb (bool_decide (value connector_prevout = CONNECTOR_VALUE_SATS)))
        "policy PSBT connector input violates the fixed controller policy";
  input_value ← or_err (checked_add (value vault_prevout) CONNECTOR_VALUE_SATS)
                  "policy transaction input sum overflowed";
  outputs ← output_sum tx;
  fee ← or_err (checked_sub input_value outputs) "policy transaction outputs exceed inputs";
  bail_if (negb (bool_decide (fee = fee_sats manifest_tx)))
    "policy transaction fee does not match its manifest".

(** [Address::from_str(text)?.require_network(network)?.script_pubkey()]. *)
Definition hot_script_of (config : VaultConfig) (text : string) : result ScriptBuf :=
  unchecked ← or_err (address_from_str text) "invalid address";
  network ← bitcoin_network config;
  address ← or_err (require_network unchecked network) "address is for another network";
  mret (address_script_pubkey address).

(** ** Allowances *)

(** What the loop carries from one step to the next. *)
Record Expected := {
  vault_outpoint : option OutPoint;
  vault_prevout : option TxOut;
  expected_connector : option ConnectorState;
}.

(** The conditions on an authorization's own fields. *)
Definition authorization_shape (m : BatchManifest) (tx : Transaction) (delay : N)
    (hot_script : ScriptBuf) (has_next : bool) : result bool :=
  !!= (version tx = VERSION_TWO)
  ||? !!= (lock_time tx = LOCK_TIME_ZERO)
  ||? (i ← index (input tx) 0; !!= (sequence i = delay))
  ||? (i ← index (input tx) 1; !!= (sequence i = ENABLE_RBF_NO_LOCKTIME))
  ||? !!= (length (output tx) = if has_next then 3 else 1)
  ||? (o ← index (output tx) 0; !!= (script_pubkey o = hot_script))
  ||? (o ← index (output tx) 0; !!= (value o = monthly_limit_sats m)).

(** The next hop of a step that is not the last, and what the next step must
    spend. *)
Definition validate_next_hop (m : BatchManifest) (vault_script controller_script : ScriptBuf)
    (source_prevout : TxOut) (tx : Transaction) (a : AllowanceStep) : result Expected :=
  next_value ← or_err (v ← checked_sub (value source_prevout) (monthly_limit_sats m);
                       checked_sub v (fee_sats (authorization a)))
                 "allowance authorization exceeds its vault input";
  _ ← bail_when
        ((o ← index (output tx) 1; !!= (script_pubkey o = vault_script))
         ||? (o ← index (output tx) 1; !!= (value o = next_value))
         ||? Ok (next_value <? minimal_non_dust vault_script)%N)
        "allowance step does not create the approved next vault hop";
  connector_txout ← index (output tx) 2;
  _ ← validate_connector_output connector_txout controller_script;
  let expected_next := connector_at (compute_txid tx) 2 in
  _ ← bail_if (negb (bool_decide (next_connector a = Some expected_next)))
        "allowance step connector metadata is discontinuous";
  hop ← index (output tx) 1;
  mret {| vault_outpoint := Some (new_outpoint (compute_txid tx) 1);
          vault_prevout := Some hop; expected_connector := Some expected_next |}.

Definition validate_last_hop (m : BatchManifest) (source_outpoint : OutPoint)
    (source_prevout : TxOut) (a : AllowanceStep) : result Expected :=
  _ ← bail_if (negb (bool_decide (checked_add (value source_prevout) CONNECTOR_VALUE_SATS =
                                  checked_add (monthly_limit_sats m) (fee_sats (authorization a))))
               || bool_decide (is_Some (next_connector a)))
        "final allowance does not consume its connector without creating another";
  mret {| vault_outpoint := Some source_outpoint; vault_prevout := None;
          expected_connector := None |}.

Definition validate_allowance (config : VaultConfig) (m : BatchManifest) (f : FS)
    (batch_dir : Path) (policy : VaultPolicy) (controller : ControllerPolicy)
    (expected_delay : N) (i : nat) (a : AllowanceStep) (e : Expected) : result Expected :=
  let vault_script := address_script_pubkey (vault_address_of policy) in
  let controller_script := address_script_pubkey (controller_address_of controller) in
  step_number ← or_err (then_some (bool_decide (i + 1 ≤ 255)) (N.of_nat (i + 1)))
                  "allowance step exceeds u8";
  let has_next := bool_decide (i + 1 < allowance_count m) in
  source_outpoint ← or_err (vault_outpoint e) "allowance vault outpoint is missing";
  source_prevout ← or_err (vault_prevout e) "allowance vault output is missing";
  source_connector ← or_err (expected_connector e) "allowance connector is missing";
  _ ← bail_if (negb (bool_decide (step a = step_number)) ||
               negb (bool_decide (step_delay_seconds a = MONTHLY_ALLOWANCE_DELAY_SECONDS)) ||
               negb (bool_decide (step_delay_sequence a = expected_delay)) ||
               negb (bool_decide (chain_value_sats a = value source_prevout)) ||
               negb (bool_decide (connector a = source_connector)))
        "allowance step metadata violates the approved policy";
  hot_script ← hot_script_of config (step_hot_address a);
  psbt ← read_psbt f (join batch_dir (psbt_file (authorization a)));
  _ ← validate_connector_child psbt source_prevout source_outpoint
        (connector_outpoint source_connector) controller_script (authorization a);
  let tx := unsigned_tx psbt in
  _ ← bail_when (authorization_shape m tx expected_delay hot_script has_next)
        "allowance authorization step violates the approved policy";
  next ← (if has_next then validate_next_hop m vault_script controller_script source_prevout tx a
          else validate_last_hop m source_outpoint source_prevout a);
  expected_fee ← cooperative_fee tx policy [0] controller [1];
  _ ← bail_if (negb (bool_decide (fee_sats (authorization a) = expected_fee)))
        "allowance transaction does not pay the approved fixed fee rate";
  mret next.

Fixpoint validate_allowance_list (config : VaultConfig) (m : BatchManifest) (f : FS)
    (batch_dir : Path) (policy : VaultPolicy) (controller : ControllerPolicy)
    (expected_delay : N) (i : nat) (l : list AllowanceStep) (e : Expected) : result unit :=
  match l with
  | [] => Ok tt
  | a :: l' =>
      e ← validate_allowance config m f batch_dir policy controller expected_delay i a e;
      validate_allowance_list config m f batch_dir policy controller expected_delay (S i) l' e
  end.

(** The first step spends the rollover. *)
Definition first_expected (m : BatchManifest) (rollover_tx : Transaction) : result Expected :=
  let txid := compute_txid rollover_tx in
  let connector := connector_at txid <$> monthly_connector_vout m in
  if bool_decide (0 < allowance_count m) then
    vout ← unwrap (allowance_vout m);
    txout ← index (output rollover_tx) 0;
    mret {| vault_outpoint := Some (new_outpoint txid vout); vault_prevout := Some txout;
            expected_connector := connector |}
  else Ok {| vault_outpoint := None; vault_prevout := None; expected_connector := connector |}.

Definition validate_allowances (config : VaultConfig) (m : BatchManifest) (f : FS)
    (batch_dir : Path) (policy : VaultPolicy) (controller : ControllerPolicy)
    (rollover : Psbt) : result unit :=
  e ← first_expected m (unsigned_tx rollover);
  expected_delay ← monthly_delay_sequence;
  validate_allowance_list config m f batch_dir policy controller expected_delay 0
    (allowances m) e.
End checks.

(** ** Emergency access *)

Section emergency_checks.
Context `{BitcoinLib}.

Definition emergency_metadata_wrong (m : BatchManifest) (e : EmergencyAccessPolicy) (delay : N)
    : bool :=
  negb (bool_decide (amount_sats e = emergency_access_limit_sats m)) ||
  negb (bool_decide (emergency_delay_seconds e = EMERGENCY_ACCESS_DELAY_SECONDS)) ||
  negb (bool_decide (emergency_delay_sequence_of e = delay)) ||
  negb (bool_decide (staging_vout e = 0%N)) ||
  negb (bool_decide (vault_change_vout e = 1%N)).

Definition trigger_shape (e : EmergencyAccessPolicy) (tx : Transaction) (vault_script : ScriptBuf)
    : result bool :=
  !!= (version tx = VERSION_TWO)
  ||? !!= (lock_time tx = LOCK_TIME_ZERO)
  ||? (i ← index (input tx) 0; !!= (sequence i = SEQUENCE_MAX))
  ||? (i ← index (input tx) 1; !!= (sequence i = ENABLE_RBF_NO_LOCKTIME))
  ||? !!= (length (output tx) = 3)
  ||? (o ← index (output tx) 0; !!= (script_pubkey o = vault_script))
  ||? (o ← index (output tx) 0; !!= (value o = staging_value_sats e))
  ||? (o ← index (output tx) 1; !!= (script_pubkey o = vault_script))
  ||? (o ← index (output tx) 1; !!= (value o = vault_change_value_sats e))
  ||? Ok (vault_change_value_sats e <? minimal_non_dust vault_script)%N.

Definition withdrawal_shape (m : BatchManifest) (e : EmergencyAccessPolicy) (tx : Transaction)
    (delay : N) (hot_script : ScriptBuf) : result bool :=
  !!= (version tx = VERSION_TWO)
  ||? !!= (lock_time tx = LOCK_TIME_ZERO)
  ||? (i ← index (input tx) 0; !!= (sequence i = delay))
  ||? (i ← index (input tx) 1; !!= (sequence i = ENABLE_RBF_NO_LOCKTIME))
  ||? !!= (length (output tx) = 1)
  ||? (o ← index (output tx) 0; !!= (script_pubkey o = hot_script))
  ||? (o ← index (output tx) 0; !!= (value o = emergency_access_limit_sats m))
  ||? !!= (checked_add (staging_value_sats e) CONNECTOR_VALUE_SATS =
           checked_add (emergency_access_limit_sats m) (fee_sats (withdrawal e))).

Definition validate_trigger (m : BatchManifest) (e : EmergencyAccessPolicy) (f : FS)
    (batch_dir : Path) (policy : VaultPolicy) (controller : ControllerPolicy)
    (rollover_tx : Transaction) : result Transaction :=
  let vault_script := address_script_pubkey (vault_address_of policy) in
  let controller_script := address_script_pubkey (controller_address_of controller) in
  let rollover_txid := compute_txid rollover_tx in
  let source_outpoint := new_outpoint rollover_txid (remainder_vout m) in
  source_prevout ← index (output rollover_tx) (N.to_nat (remainder_vout m));
  vout ← or_err (emergency_connector_vout m) "emergency connector output is missing";
  let expected := connector_at rollover_txid vout in
  _ ← bail_if (negb (bool_decide (trigger_connector e = expected)))
        "emergency trigger connector metadata violates the approved policy";
  psbt ← read_psbt f (join batch_dir (psbt_file (trigger e)));
  _ ← validate_connector_child psbt source_prevout source_outpoint
        (connector_outpoint expected) controller_script (trigger e);
  let tx := unsigned_tx psbt in
  _ ← bail_when (trigger_shape e tx vault_script)
        "emergency access trigger violates the approved policy";
  connector_txout ← index (output tx) 2;
  _ ← validate_connector_output connector_txout controller_script;
  _ ← bail_if (negb (bool_decide (withdrawal_connector e = connector_at (compute_txid tx) 2)))
        "emergency withdrawal connector metadata violates the approved policy";
  fee ← cooperative_fee tx policy [0] controller [1];
  _ ← bail_if (negb (bool_decide (fee_sats (trigger e) = fee)))
        "emergency trigger does not pay the approved fixed fee rate";
  mret tx.

Definition validate_withdrawal (m : BatchManifest) (e : EmergencyAccessPolicy) (f : FS)
    (batch_dir : Path) (policy : VaultPolicy) (controller : ControllerPolicy)
    (delay : N) (hot_script : ScriptBuf) (trigger_tx : Transaction) : result unit :=
  let controller_script := address_script_pubkey (controller_address_of controller) in
  let trigger_txid := compute_txid trigger_tx in
  let staging_outpoint := new_outpoint trigger_txid (staging_vout e) in
  staging_prevout ← index (output trigger_tx) (N.to_nat (staging_vout e));
  psbt ← read_psbt f (join batch_dir (psbt_file (withdrawal e)));
  _ ← validate_connector_child psbt staging_prevout staging_outpoint
        (connector_outpoint (connector_at trigger_txid 2)) controller_script (withdrawal e);
  let tx := unsigned_tx psbt in
  _ ← bail_when (withdrawal_shape m e tx delay hot_script)
        "emergency access withdrawal violates the approved policy";
  fee ← cooperative_fee tx policy [0] controller [1];
  bail_if (negb (bool_decide (fee_sats (withdrawal e) = fee)))
    "emergency withdrawal does not pay the approved fixed fee rate".

Definition validate_connector_emergency (config : VaultConfig) (m : BatchManifest) (f : FS)
    (batch_dir : Path) (policy : VaultPolicy) (controller : ControllerPolicy)
    (rollover : Psbt) : result unit :=
  match bool_decide (emergency_access_limit_sats m = 0%N), emergency_access m with
  | true, None => Ok tt
  | true, Some _ => Err "disabled emergency access contains presigned transactions"
  | false, None => Err "configured emergency access is missing its presigned transactions"
  | false, Some e =>
      delay ← emergency_delay_sequence;
      _ ← bail_if (emergency_metadata_wrong m e delay)
            "emergency access metadata violates the approved policy";
      hot_script ← hot_script_of config (emergency_hot_address e);
      trigger_tx ← validate_trigger m e f batch_dir policy controller (unsigned_tx rollover);
      validate_withdrawal m e f batch_dir policy controller delay hot_script trigger_tx
  end.
End emergency_checks.

(** ** The whole batch *)

Section batch_checks.
Context `{BitcoinLib}.

Definition rollover_shape (m : BatchManifest) (psbt : Psbt)
    (vault_indexes controller_indexes : list nat) : result bool :=
  let tx := unsigned_tx psbt in
  let has_allowances := bool_decide (0 < allowance_count m) in
  let expected_output_count := bool_to_nat has_allowances + 1 + bool_to_nat has_allowances
    + bool_to_nat (0 <? emergency_access_limit_sats m)%N in
  !!= (txid_to_string (compute_txid tx) = unsigned_txid (rollover m))
  ||? !!= (version tx = VERSION_TWO)
  ||? !!= (lock_time tx = LOCK_TIME_ZERO)
  ||? Ok (bool_decide (input tx = []))
  ||? !!= (length (input tx) = length (inputs psbt))
  ||? !!= (length (output tx) = expected_output_count)
  ||? any_r (λ i, x ← index (input tx) i; !!= (sequence x = SEQUENCE_MAX)) vault_indexes
  ||? any_r (λ i, x ← index (input tx) i; !!= (sequence x = ENABLE_RBF_NO_LOCKTIME))
        controller_indexes.

Definition validate_rollover_amounts (m : BatchManifest) (psbt : Psbt) (policy : VaultPolicy)
    (controller : ControllerPolicy) (vault_indexes controller_indexes : list nat) : result unit :=
  vault_sum ← psbt_role_input_sum psbt vault_indexes
                (address_script_pubkey (vault_address_of policy));
  controller_sum ← psbt_role_input_sum psbt controller_indexes
                     (address_script_pubkey (controller_address_of controller));
  total ← or_err (checked_add vault_sum controller_sum) "rollover input total overflowed";
  outputs ← output_sum (unsigned_tx psbt);
  fee ← or_err (checked_sub total outputs) "rollover outputs exceed inputs";
  _ ← bail_if (negb (bool_decide (vault_sum = vault_input_sats m)) ||
               negb (bool_decide (controller_sum = controller_input_sats m)) ||
               negb (bool_decide (total = total_input_sats m)) ||
               negb (bool_decide (fee = fee_sats (rollover m))))
        "rollover amount or fee does not match its manifest";
  expected_fee ← cooperative_fee (unsigned_tx psbt) policy vault_indexes controller
                   controller_indexes;
  bail_if (negb (bool_decide (fee_sats (rollover m) = expected_fee)))
    "rollover does not pay the approved fixed fee rate".

(** The manifest's output positions are the ones its counts determine. *)
Definition output_indexes_wrong (m : BatchManifest) : bool :=
  let has_allowances := bool_decide (0 < allowance_count m) in
  negb (bool_decide (allowance_vout m = then_some has_allowances 0%N)) ||
  negb (bool_decide (remainder_vout m = remainder_vout_of has_allowances)) ||
  negb (bool_decide (monthly_connector_vout m = monthly_connector_vout_of has_allowances)) ||
  negb (bool_decide (emergency_connector_vout m =
    emergency_connector_vout_of has_allowances (0 <? emergency_access_limit_sats m)%N)) ||
  (negb has_allowances && negb (bool_decide (allowance_value_sats m = 0%N))).

Definition option_list {A} (o : option A) : list A := match o with Some a => [a] | None => [] end.

Definition validate_rollover_outputs (m : BatchManifest) (tx : Transaction)
    (vault_script controller_script : ScriptBuf) : result unit :=
  _ ← bail_if (output_indexes_wrong m)
        "rollover output indexes do not match the approved policy";
  _ ← bail_when
        (if bool_decide (0 < allowance_count m) then
           (o ← index (output tx) 0; !!= (script_pubkey o = vault_script))
           ||? (o ← index (output tx) 0; !!= (value o = allowance_value_sats m))
         else Ok false)
        "rollover allowance-chain output does not match its manifest";
  remainder ← index (output tx) (N.to_nat (remainder_vout m));
  _ ← bail_if (negb (bool_decide (script_pubkey remainder = vault_script)) ||
               negb (bool_decide (value remainder = remainder_value_sats m)) ||
               (value remainder <? minimal_non_dust vault_script)%N)
        "rollover remainder does not match its manifest";
  for_each (λ vout,
      o ← or_err (output tx !! N.to_nat vout) "rollover connector vout is out of range";
      validate_connector_output o controller_script)
    (option_list (monthly_connector_vout m) ++ option_list (emergency_connector_vout m)).

Definition validate_batch (config : VaultConfig) (m : BatchManifest) (f : FS) (batch_dir : Path)
    : result VaultPolicy :=
  _ ← bail_if (negb (bool_decide (manifest_version m = 5%N)) ||
               negb (bool_decide (manifest_network m = config_network config)))
        "unsupported ceremony manifest or network mismatch";
  _ ← for_each (λ t, psbt ← read_psbt f (join batch_dir (psbt_file t));
                     validate_default_sighashes psbt) (manifest_transactions m);
  _ ← bail_if (negb (bool_decide (manifest_vault_descriptor m = vault_descriptor config)) ||
               negb (bool_decide (manifest_vault_address m = vault_address config)))
        "ceremony policy does not match configured vault policy";
  _ ← bail_if (negb (bool_decide (fee_rate_sat_vb m = DEFAULT_FEE_RATE_SAT_VB)))
        "MVP ceremony must use the fixed 1 sat/vB fee rate";
  _ ← bail_if ((bool_decide (monthly_limit_sats m = 0%N) &&
                negb (bool_decide (allowance_count m = 0))) ||
               bool_decide (MONTHS_PER_ROLLOVER < allowance_count m) ||
               negb (bool_decide (length (allowances m) = allowance_count m)))
        "invalid ceremony allowance count";
  network ← bitcoin_network config;
  policy ← from_descriptor_for_network (vault_descriptor config) network;
  controller ← controller_policy config;
  _ ← bail_if (negb (bool_decide (controller_descriptor m =
                                  controller_descriptor_string controller)) ||
               negb (bool_decide (controller_address m =
                                  address_to_string (controller_address_of controller))) ||
               negb (bool_decide (connector_value_sats m = CONNECTOR_VALUE_SATS)))
        "ceremony controller does not match the fixed vault-key controller policy";
  psbt ← read_psbt f (join batch_dir (psbt_file (rollover m)));
  vault_indexes ← transaction_indexes (vault_input_indexes (rollover m));
  controller_indexes ← transaction_indexes (controller_input_indexes (rollover m));
  _ ← validate_input_partition (length (input (unsigned_tx psbt))) vault_indexes
        controller_indexes;
  _ ← bail_when (rollover_shape m psbt vault_indexes controller_indexes)
        "rollover PSBT does not match its manifest";
  _ ← validate_rollover_amounts m psbt policy controller vault_indexes controller_indexes;
  _ ← validate_rollover_outputs m (unsigned_tx psbt)
        (address_script_pubkey (vault_address_of policy))
        (address_script_pubkey (controller_address_of controller));
  _ ← validate_allowances config m f batch_dir policy controller psbt;
  _ ← validate_connector_emergency config m f batch_dir policy controller psbt;
  mret policy.

(** ** Both approvals *)

(** The temporary copy that the finalisation works on. *)
Definition finalize_inputs (psbt : Psbt) (indexes : list nat) (msg : string) : result Psbt :=
  try_fold (λ psbt i, or_err (finalize_inp_mut psbt i) msg) psbt indexes.

Definition validate_approved_transaction (m : BatchManifest) (f : FS) (batch_dir : Path)
    (policy : VaultPolicy) (phone_pubkey hww_pubkey : XOnlyPublicKey) (t : BatchTransaction)
    : result unit :=
  psbt ← read_psbt f (join batch_dir (psbt_file t));
  indexes ← transaction_indexes (vault_input_indexes t);
  _ ← for_each (λ pubkey,
        with_context (verify_vault_psbt_signatures psbt policy Cooperative pubkey indexes)
          "invalid vault signatures") [phone_pubkey; hww_pubkey];
  psbt ← finalize_inputs psbt indexes "vault input cannot finalize";
  if bool_decide (psbt_file t = psbt_file (rollover m)) then
    controller_indexes ← transaction_indexes (controller_input_indexes t);
    _ ← finalize_inputs psbt controller_indexes "rollover controller input cannot finalize";
    mret ()
  else Ok tt.

Definition validate_approved_batch (config : VaultConfig) (m : BatchManifest) (f : FS)
    (batch_dir : Path) : result VaultPolicy :=
  _ ← bail_if (negb (phone_approved m) || negb (hww_approved m))
        "both phone and HWW approval are required before finalization";
  policy ← validate_batch config m f batch_dir;
  phone_pubkey ← or_err (key_from_str (phone_vault_pubkey config)) "malformed public key";
  hww_pubkey ← or_err (key_from_str (hww_vault_pubkey config)) "malformed public key";
  _ ← for_each (validate_approved_transaction m f batch_dir policy phone_pubkey hww_pubkey)
        (manifest_transactions m);
  mret policy.
End batch_checks.

(** * The policy package *)

Section package.
Context `{BitcoinLib, !Json BatchManifest}.

(** [BTreeMap::insert] of one packaged PSBT after the other. *)
Definition package_step (f : FS) (batch_dir : Path) (psbts : gmap string string)
    (t : BatchTransaction) : result (gmap string string) :=
  text ← with_context (read_to_string f (join batch_dir (psbt_file t)))
           "failed to read packaged PSBT";
  mret (<[psbt_file t := trim text]> psbts).

Definition package_from_batch (f : FS) (batch_dir : Path) : result PolicyPackage :=
  manifest ← load_manifest f batch_dir;
  psbts ← try_fold (package_step f batch_dir) ∅ (manifest_transactions manifest);
  mret {| package_version := 5; package_kind := POLICY_PACKAGE_KIND;
          package_manifest := manifest; psbts := psbts |}.

Definition is_supported_policy_package (p : PolicyPackage) : bool :=
  bool_decide (package_version p = 5%N) && bool_decide (package_kind p = POLICY_PACKAGE_KIND).

(** [BTreeMap]'s iteration is by key. *)
Definition key_le (a b : string * string) : Prop := String.leb a.1 b.1 = true.
#[export] Instance key_le_dec : RelDecision key_le.
Proof. intros a b. unfold key_le. apply _. Defined.
Definition entries (m : gmap string string) : list (string * string) :=
  merge_sort key_le (map_to_list m).

Definition is_normal (c : Component) : bool :=
  match c with Normal _ => true | _ => false end.

Definition write_package_psbt (batch_dir : Path) (entry : string * string) : M FS unit :=
  let '(relative, psbt) := entry in
  _ ← pure (bail_if (is_absolute relative || negb (forallb is_normal (components relative)))
              "policy package contains an unsafe PSBT path");
  write_private (join batch_dir relative) (psbt +:+ NEWLINE).

Definition materialize_policy_package (p : PolicyPackage) (batch_dir : Path) : M FS unit :=
  _ ← pure (bail_if (negb (is_supported_policy_package p)) "unsupported policy package");
  _ ← empty_batch_dir batch_dir "policy workspace is not empty";
  let expected : gset string :=
    list_to_set (psbt_file <$> manifest_transactions (package_manifest p)) in
  _ ← pure (bail_if (negb (bool_decide (dom (psbts p) = expected)))
              "policy package PSBT set does not match its manifest");
  _ ← create_dir_all batch_dir;
  _ ← write_json (join batch_dir "manifest.json") (package_manifest p);
  for_eachM (write_package_psbt batch_dir) (entries (psbts p)).
End package.
