(* ===== verification/CeremonySound.v ===== *)
(** What an accepted ceremony is: every transaction of a batch that
    [validate_batch] accepts is the template of its step, and the amounts add
    up. *)

From S2P Require Import Prelude Bitcoin Toy Types Keys Policy Transactions FileSystem Storage Ceremony CeremonyValidate.

(** * Reading the checks *)

Lemma index_check {A} (l : list A) n (P : A → Prop) `{!∀ x, Decision (P x)} :
  (x ← index l n; !!= (P x)) = Ok false ↔ ∃ x, l !! n = Some x ∧ P x.
Proof.
  rewrite bind_Ok. split; intros (x & Hx & HP); exists x.
  - apply index_Ok in Hx. by apply neg_decide_false in HP.
  - by rewrite index_Ok, neg_decide_false.
Qed.

Lemma bail_neg (P : Prop) `{!Decision P} msg u : bail_if (negb (bool_decide P)) msg = Ok u ↔ P.
Proof. by rewrite bail_if_Ok, negb_false_iff, bool_decide_eq_true. Qed.

Lemma negb_decide_false (P : Prop) `{!Decision P} : negb (bool_decide P) = false ↔ P.
Proof. by rewrite negb_false_iff, bool_decide_eq_true. Qed.

Lemma list_of_two {A} (l : list A) x y :
  length l = 2 → l !! 0 = Some x → l !! 1 = Some y → l = [x; y].
Proof. destruct l as [|? [|? []]]; naive_solver. Qed.

Lemma list_of_one {A} (l : list A) x : length l = 1 → l !! 0 = Some x → l = [x].
Proof. destruct l as [|? []]; naive_solver. Qed.

Lemma list_of_three {A} (l : list A) x y z :
  length l = 3 → l !! 0 = Some x → l !! 1 = Some y → l !! 2 = Some z → l = [x; y; z].
Proof. destruct l as [|? [|? [|? []]]]; naive_solver. Qed.

(** [crack H] turns an accepted chain of conditions into facts. *)
Ltac crack H :=
  repeat rewrite orb_seq_false in H; repeat rewrite index_check in H;
  repeat rewrite neg_decide_false in H; repeat rewrite Ok_bool_false in H.

Section sound.
Context `{Laws : BitcoinLaws}.
Implicit Types (m : BatchManifest) (p : Psbt) (tx : Transaction).

Lemma read_psbt_wf f path p : read_psbt f path = Ok p → psbt_wf p.
Proof.
  unfold read_psbt. intros (t & _ & Hp%or_err_Ok)%bind_Ok. by eapply psbt_from_str_wf.
Qed.

Lemma unsigned_input p i x :
  psbt_wf p → input (unsigned_tx p) !! i = Some x →
  x = vault_input (previous_output x) (sequence x).
Proof.
  intros [_ Hf] Hx. rewrite Forall_lookup in Hf. destruct (Hf i x Hx) as [Hs Hw].
  destruct x as [o s q w]. unfold vault_input. simpl in *. by subst.
Qed.

Lemma output_sum_Ok tx s : output_sum tx = Ok s → s = sumN (value <$> output tx).
Proof. unfold output_sum. by intros ->%try_fold_sum_Ok. Qed.

Lemma output_sum_fits tx :
  (sumN (value <$> output tx) ≤ U64_MAX)%N → output_sum tx = Ok (sumN (value <$> output tx)).
Proof. unfold output_sum. intros Hs. by rewrite try_fold_sum_fits. Qed.

Lemma cooperative_fee_Ok tx policy vs controller cs fee :
  cooperative_fee tx policy vs controller cs = Ok fee ↔
  estimate_policy_vsize tx policy Cooperative vs controller PhonePath cs = Ok fee ∧
  (fee ≤ U64_MAX)%N.
Proof.
  unfold cooperative_fee, mul_u64. rewrite bind_Ok. setoid_rewrite unwrap_Ok.
  setoid_rewrite checked_mul_Some. unfold DEFAULT_FEE_RATE_SAT_VB. split.
  - intros (s & Hs & -> & Hb). rewrite N.mul_1_r in *. done.
  - intros [Hs Hb]. exists fee. rewrite N.mul_1_r. done.
Qed.

Lemma connector_output_Ok o cs u :
  validate_connector_output o cs = Ok u ↔ o = connector_output cs.
Proof.
  unfold validate_connector_output, connector_output.
  rewrite bail_if_Ok, orb_false_iff, !negb_decide_false. destruct o; simpl.
  split; [by intros [-> ->]|by intros [= -> ->]].
Qed.

(** What a child of the rollover spends: the vault output and the connector
    assigned to it, the connector input without a signature. *)
Record child_of (p : Psbt) (prevout : TxOut) (o c : OutPoint) (cs : ScriptBuf)
    (t : BatchTransaction) : Prop := {
  child_indexes : vault_input_indexes t = [0%N] ∧ controller_input_indexes t = [1%N];
  child_txid : txid_to_string (compute_txid (unsigned_tx p)) = unsigned_txid t;
  child_inputs : ∃ s0 s1, input (unsigned_tx p) = [vault_input o s0; vault_input c s1];
  child_maps : ∃ x0 x1, inputs p = [x0; x1] ∧ witness_utxo x0 = Some prevout ∧
    witness_utxo x1 = Some (connector_output cs) ∧ tap_script_sigs x1 = ∅;
  child_conserves : (value prevout + CONNECTOR_VALUE_SATS =
    sumN (value <$> output (unsigned_tx p)) + fee_sats t)%N;
  child_fits : (value prevout + CONNECTOR_VALUE_SATS ≤ U64_MAX)%N;
}.

Lemma validate_connector_child_sound p prevout o c cs t u :
  psbt_wf p → validate_connector_child p prevout o c cs t = Ok u → child_of p prevout o c cs t.
Proof.
  intros Hwf. unfold validate_connector_child. rewrite bind_Ok. intros ([] & Hk%bail_when_Ok & Hv).
  crack Hk.
  destruct Hk as [[[[[[[[Hvi Hci] Ht] Hl] Hli] (i0 & Hi0 & Ho)] (x0 & Hx0 & Hw0)]
    (i1 & Hi1 & Hc)] (x1 & Hx1 & Hs1)].
  apply bind_Ok in Hv as (y & Hy%index_Ok & Hv). assert (y = x1) as -> by congruence.
  apply bind_Ok in Hv as (co & Hco%or_err_Ok & Hv).
  apply bind_Ok in Hv as ([] & [Hcs%negb_decide_false Hcv%negb_decide_false]%bail_if_Ok%orb_false_iff & Hv).
  apply bind_Ok in Hv as (iv & [-> Hfit]%or_err_Ok%checked_add_Some & Hv).
  apply bind_Ok in Hv as (os & ->%output_sum_Ok & Hv).
  apply bind_Ok in Hv as (fee & [Hfee Hle]%or_err_Ok%checked_sub_Some & Hv%bail_neg).
  split; [done|done| | |lia|done].
  - exists (sequence i0), (sequence i1). subst o c.
    rewrite <-(unsigned_input p 0 i0), <-(unsigned_input p 1 i1) by done. by apply list_of_two.
  - exists x0, x1. split; [by apply list_of_two|]. split; [done|]. split; [|done]. rewrite Hco.
    destruct co as [v s]. unfold connector_output. simpl in *. by subst.
Qed.

Lemma validate_connector_child_complete p prevout o c cs t :
  child_of p prevout o c cs t → validate_connector_child p prevout o c cs t = Ok tt.
Proof.
  intros [[Hvi Hci] Ht (s0 & s1 & Hin) (x0 & x1 & Hx & Hw0 & Hw1 & Hs) Hc Hf].
  unfold validate_connector_child. apply bind_Ok. exists (). split.
  { apply bail_when_Ok. rewrite !orb_seq_false, !index_check, !neg_decide_false.
    rewrite Hin, Hx. naive_solver. }
  rewrite Hx. simpl. rewrite Hw1. simpl. rewrite !bool_decide_eq_true_2 by done. simpl.
  rewrite (proj2 (checked_add_Some _ _ _)) by eauto. simpl.
  rewrite output_sum_fits by lia. simpl. rewrite (proj2 (checked_sub_Some _ _ _)) by (split; [done|lia]).
  simpl. rewrite bool_decide_eq_true_2 by lia. done.
Qed.

(** * Allowance steps *)

Definition vault_script_of (policy : VaultPolicy) : ScriptBuf :=
  address_script_pubkey (vault_address_of policy).
Definition controller_script_of (controller : ControllerPolicy) : ScriptBuf :=
  address_script_pubkey (controller_address_of controller).

(** Is there a step after step [i] (counted from zero)? *)
Definition has_next m (i : nat) : bool := bool_decide (i + 1 < allowance_count m).

(** What remains in the vault after a step. *)
Definition hop_value m (prevout : TxOut) (a : AllowanceStep) : N :=
  (value prevout - monthly_limit_sats m - fee_sats (authorization a))%N.

(** An accepted authorization: the transaction is exactly the template that
    releases one monthly limit to an address of the hot wallet after the
    monthly delay, and the rest goes on in the chain. *)
Record accepted_step (config : VaultConfig) m (f : FS) (batch_dir : Path)
    (policy : VaultPolicy) (controller : ControllerPolicy) (delay : N) (i : nat)
    (a : AllowanceStep) (o : OutPoint) (prevout : TxOut) (c : ConnectorState) (p : Psbt)
    : Prop := {
  st_number : step a = N.of_nat (i + 1) ∧ i + 1 ≤ 255;
  st_delay : step_delay_seconds a = MONTHLY_ALLOWANCE_DELAY_SECONDS ∧
             step_delay_sequence a = delay;
  st_source : chain_value_sats a = value prevout ∧ connector a = c;
  st_read : read_psbt f (join batch_dir (psbt_file (authorization a))) = Ok p;
  st_child : child_of p prevout o (connector_outpoint c) (controller_script_of controller)
               (authorization a);
  st_template : ∃ hot, hot_script_of config (step_hot_address a) = Ok hot ∧
    unsigned_tx p = authorization_template o (connector_outpoint c) (monthly_limit_sats m) delay
      hot (then_some (has_next m i) (hop_value m prevout a, vault_script_of policy))
      (controller_script_of controller);
  st_amount :
    if has_next m i
    then (value prevout = hop_value m prevout a + monthly_limit_sats m +
                          fee_sats (authorization a))%N ∧
         (minimal_non_dust (vault_script_of policy) ≤ hop_value m prevout a)%N
    else (value prevout + CONNECTOR_VALUE_SATS =
          monthly_limit_sats m + fee_sats (authorization a))%N;
  st_next : next_connector a =
    then_some (has_next m i) (connector_at (compute_txid (unsigned_tx p)) 2);
  st_fee : cooperative_fee (unsigned_tx p) policy [0] controller [1] =
    Ok (fee_sats (authorization a));
}.

Definition next_expected m (policy : VaultPolicy) (i : nat) (a : AllowanceStep) (o : OutPoint)
    (prevout : TxOut) (p : Psbt) : Expected :=
  let txid := compute_txid (unsigned_tx p) in
  if has_next m i then
    {| vault_outpoint := Some (new_outpoint txid 1);
       vault_prevout := Some {| value := hop_value m prevout a;
                                script_pubkey := vault_script_of policy |};
       expected_connector := Some (connector_at txid 2) |}
  else {| vault_outpoint := Some o; vault_prevout := None; expected_connector := None |}.

(** The template of a transaction with the inputs and outputs of one. *)
Lemma authorization_template_intro tx o c limit delay hot next cs s0 s1 :
  version tx = VERSION_TWO → lock_time tx = LOCK_TIME_ZERO →
  input tx = [vault_input o s0; vault_input c s1] →
  s0 = delay → s1 = ENABLE_RBF_NO_LOCKTIME →
  output tx = output (authorization_template o c limit delay hot next cs) →
  tx = authorization_template o c limit delay hot next cs.
Proof. destruct tx. simpl. intros -> -> -> -> -> ->. done. Qed.

Lemma authorization_shape_Ok m tx delay hot nx :
  authorization_shape m tx delay hot nx = Ok false ↔
  version tx = VERSION_TWO ∧ lock_time tx = LOCK_TIME_ZERO ∧
  (∃ x, input tx !! 0 = Some x ∧ sequence x = delay) ∧
  (∃ x, input tx !! 1 = Some x ∧ sequence x = ENABLE_RBF_NO_LOCKTIME) ∧
  length (output tx) = (if nx then 3 else 1) ∧
  output tx !! 0 = Some {| value := monthly_limit_sats m; script_pubkey := hot |}.
Proof.
  unfold authorization_shape. rewrite !orb_seq_false, !index_check, !neg_decide_false. split.
  - intros [[[[[[? ?] ?] ?] ?] (o & Ho & Hs)] (o' & Ho' & Hv)]. split_and!; [done..|].
    assert (o' = o) as -> by congruence. rewrite Ho. destruct o. simpl in *. by subst.
  - intros (? & ? & ? & ? & ? & ->). split_and!; [done..| |]; by eexists.
Qed.

Lemma validate_next_hop_Ok m vs cs prevout tx a e :
  length (output tx) = 3 →
  validate_next_hop m vs cs prevout tx a = Ok e ↔
  (value prevout = hop_value m prevout a + monthly_limit_sats m + fee_sats (authorization a))%N ∧
  (minimal_non_dust vs ≤ hop_value m prevout a)%N ∧
  output tx !! 1 = Some {| value := hop_value m prevout a; script_pubkey := vs |} ∧
  output tx !! 2 = Some (connector_output cs) ∧
  next_connector a = Some (connector_at (compute_txid tx) 2) ∧
  e = {| vault_outpoint := Some (new_outpoint (compute_txid tx) 1);
         vault_prevout := Some {| value := hop_value m prevout a; script_pubkey := vs |};
         expected_connector := Some (connector_at (compute_txid tx) 2) |}.
Proof.
  intros Hlen. unfold validate_next_hop, hop_value. split.
  - intros (nv & Hnv%or_err_Ok & Hr)%bind_Ok.
    apply bind_Some in Hnv as (v & [-> Hv]%checked_sub_Some & [-> Hf]%checked_sub_Some).
    apply bind_Ok in Hr as ([] & Hk%bail_when_Ok & Hr). crack Hk.
    destruct Hk as [[(y & Hy & Hs) (y' & Hy' & Hval)] Hd%N.ltb_ge].
    assert (y' = y) as -> by congruence.
    apply bind_Ok in Hr as (z & Hz%index_Ok & Hr).
    apply bind_Ok in Hr as ([] & ->%connector_output_Ok & Hr).
    apply bind_Ok in Hr as ([] & Hn%bail_neg & Hr).
    apply bind_Ok in Hr as (y' & Hy''%index_Ok & [= <-]).
    assert (y' = {| value := value prevout - monthly_limit_sats m - fee_sats (authorization a);
                    script_pubkey := vs |})%N as ->.
    { assert (y' = y) as -> by congruence. destruct y. simpl in *. by subst. }
    split_and!; [lia|done|done|done|done|done].
  - intros (Hv & Hd & Hy & Hz & Hn & ->).
    rewrite (proj2 (checked_sub_Some (value prevout) (monthly_limit_sats m) _)) by (split; [done|lia]).
    simpl. rewrite (proj2 (checked_sub_Some _ _ _)) by (split; [done|lia]). simpl.
    apply bind_Ok. exists (). split.
    { apply bail_when_Ok. rewrite !orb_seq_false, !index_check, Ok_bool_false, N.ltb_ge. 
      split_and!; [by eexists..|done]. }
    unfold index. rewrite Hz, Hy. simpl.
    rewrite (proj2 (connector_output_Ok _ _ tt)) by done. simpl.
    by rewrite (proj2 (bail_neg _ _ tt)).
Qed.

Lemma validate_last_hop_Ok m o prevout a e :
  (value prevout + CONNECTOR_VALUE_SATS ≤ U64_MAX)%N →
  validate_last_hop m o prevout a = Ok e ↔
  (value prevout + CONNECTOR_VALUE_SATS = monthly_limit_sats m + fee_sats (authorization a))%N ∧
  next_connector a = None ∧
  e = {| vault_outpoint := Some o; vault_prevout := None; expected_connector := None |}.
Proof.
  intros Hfit. unfold validate_last_hop. rewrite bind_Ok.
  rewrite (proj2 (checked_add_Some (value prevout) _ _)) by (split; [done|lia]).
  setoid_rewrite bail_if_Ok. setoid_rewrite orb_false_iff. setoid_rewrite negb_decide_false.
  setoid_rewrite bool_decide_eq_false. split.
  - intros ([] & [Ha Hn] & [= <-]). symmetry in Ha. apply checked_add_Some in Ha as [Ha _].
    split_and!; [done|by apply eq_None_not_Some|done].
  - intros (Ha & Hn & ->). exists (). rewrite Hn, <-not_eq_None_Some. split; [|done].
    split; [|by intros []]. symmetry. apply checked_add_Some. lia.
Qed.

Lemma hop_output_template m i o c delay hot vs cs (prevout : TxOut) (a : AllowanceStep) :
  output (authorization_template o c (monthly_limit_sats m) delay hot
            (then_some (has_next m i) (hop_value m prevout a, vs)) cs) =
  {| value := monthly_limit_sats m; script_pubkey := hot |} ::
  (if has_next m i then [{| value := hop_value m prevout a; script_pubkey := vs |};
                         connector_output cs] else []).
Proof. simpl. by destruct (has_next m i). Qed.

(** [validate_allowance] accepts a step exactly when it is an accepted step
    of what the chain expects next. *)
Lemma validate_allowance_Ok config m f dir policy controller delay i a e e' :
  validate_allowance config m f dir policy controller delay i a e = Ok e' ↔
  ∃ o prevout c p, e = {| vault_outpoint := Some o; vault_prevout := Some prevout;
                          expected_connector := Some c |} ∧
    accepted_step config m f dir policy controller delay i a o prevout c p ∧
    e' = next_expected m policy i a o prevout p.
Proof.
  unfold validate_allowance. split.
  - intros (n & Hn%or_err_Ok & Hv)%bind_Ok. unfold then_some in Hn.
    destruct (bool_decide (i + 1 ≤ 255)) eqn:H255; [injection Hn as <-|done].
    apply bool_decide_eq_true in H255.
    apply bind_Ok in Hv as (o & Ho%or_err_Ok & Hv). apply bind_Ok in Hv as (v & Hp%or_err_Ok & Hv).
    apply bind_Ok in Hv as (c & Hc%or_err_Ok & Hv).
    apply bind_Ok in Hv as ([] & Hm%bail_if_Ok & Hv).
    rewrite !orb_false_iff, !negb_decide_false in Hm. destruct Hm as [[[[Hst Hds] Hdq] Hcv] Hco].
    apply bind_Ok in Hv as (hot & Hhot & Hv). apply bind_Ok in Hv as (p & Hr & Hv).
    pose proof (read_psbt_wf _ _ _ Hr) as Hwf.
    apply bind_Ok in Hv as ([] & Hch%validate_connector_child_sound & Hv); [|done].
    apply bind_Ok in Hv as ([] & Hsh%bail_when_Ok%authorization_shape_Ok & Hv).
    destruct Hsh as (Hver & Hlock & (x0 & Hx0 & Hq0) & (x1 & Hx1 & Hq1) & Hlen & Hout).
    apply bind_Ok in Hv as (e1 & He1 & Hv). apply bind_Ok in Hv as (fee & Hfee & Hv).
    apply bind_Ok in Hv as ([] & Heq%bail_neg & [= <-]). fold (has_next m i) in *.
    pose proof (child_inputs _ _ _ _ _ _ Hch) as (s0 & s1 & Hin). rewrite Hin in Hx0, Hx1.
    injection Hx0 as <-. injection Hx1 as <-. simpl in Hq0, Hq1.
    exists o, v, c, p. split; [by destruct e; simpl in *; subst|].
    assert (output (unsigned_tx p) =
      {| value := monthly_limit_sats m; script_pubkey := hot |} ::
      (if has_next m i then [{| value := hop_value m v a; script_pubkey := vault_script_of policy |};
         connector_output (controller_script_of controller)] else []) ∧
      (if has_next m i then (value v = hop_value m v a + monthly_limit_sats m +
                             fee_sats (authorization a))%N ∧
         (minimal_non_dust (vault_script_of policy) ≤ hop_value m v a)%N
       else (value v + CONNECTOR_VALUE_SATS = monthly_limit_sats m + fee_sats (authorization a))%N) ∧
      next_connector a = then_some (has_next m i) (connector_at (compute_txid (unsigned_tx p)) 2) ∧
      e1 = next_expected m policy i a o v p) as (Hos & Ham & Hnx & ->).
    { unfold next_expected. destruct (has_next m i).
      - apply validate_next_hop_Ok in He1 as (Hval & Hd & H1 & H2 & Hn & ->); [|done].
        split_and!; [|done..]. by apply list_of_three.
      - apply validate_last_hop_Ok in He1 as (Hval & Hn & ->); [|apply (child_fits _ _ _ _ _ _ Hch)].
        split_and!; [|done..]. by apply list_of_one. }
    split; [|done]. split; [done..| | | |by rewrite Heq].
    + exists hot. split; [done|]. eapply authorization_template_intro; try done.
      by rewrite hop_output_template.
    + exact Ham.
    + exact Hnx.
  - intros (o & v & c & p & -> & [[Hst H255] [Hds Hdq] [Hcv Hco] Hr Hch (hot & Hhot & Htx) Ham Hnx Hfee] & ->).
    ok_step (by apply or_err_Ok; unfold then_some; rewrite (bool_decide_eq_true_2 (i + 1 ≤ 255))).
    do 3 ok_step (by apply or_err_Ok).
    ok_step (by apply (proj2 (bail_if_Ok _ _ ())); rewrite !orb_false_iff, !negb_decide_false).
    ok_step (exact Hhot). ok_step (exact Hr).
    ok_step (by apply validate_connector_child_complete).
    fold (has_next m i). pose proof (hop_output_template m i o (connector_outpoint c) delay hot
      (vault_script_of policy) (controller_script_of controller) v a) as Hos.
    rewrite <-Htx in Hos. apply bind_Ok. exists (). split.
    { apply bail_when_Ok, authorization_shape_Ok. rewrite Hos. rewrite Htx.
      split_and!; [done|done|by eexists|by eexists| |done]. by destruct (has_next m i). }
    apply bind_Ok. exists (next_expected m policy i a o v p). split.
    { unfold next_expected. destruct (has_next m i).
      - apply validate_next_hop_Ok; rewrite Hos; [done|]. destruct Ham. by split_and!.
      - apply validate_last_hop_Ok; [apply (child_fits _ _ _ _ _ _ Hch)|]. by split_and!. }
    ok_step (exact Hfee). by ok_step (by apply (proj2 (bail_neg _ _ ()))).
Qed.

(** The steps from step [i] on, each spending what the one before leaves. *)
Fixpoint accepted_chain (config : VaultConfig) m (f : FS) (dir : Path) (policy : VaultPolicy)
    (controller : ControllerPolicy) (delay : N) (i : nat) (l : list AllowanceStep) (e : Expected)
    : Prop :=
  match l with
  | [] => True
  | a :: l' => ∃ o prevout c p,
      e = {| vault_outpoint := Some o; vault_prevout := Some prevout;
             expected_connector := Some c |} ∧
      accepted_step config m f dir policy controller delay i a o prevout c p ∧
      accepted_chain config m f dir policy controller delay (S i) l'
        (next_expected m policy i a o prevout p)
  end.

Lemma validate_allowance_list_Ok config m f dir policy controller delay i l e :
  validate_allowance_list config m f dir policy controller delay i l e = Ok tt ↔
  accepted_chain config m f dir policy controller delay i l e.
Proof.
  revert i e. induction l as [|a l IH]; intros i e; [done|]. simpl. rewrite bind_Ok.
  setoid_rewrite validate_allowance_Ok. split.
  - intros (e' & (o & v & c & p & -> & Hs & ->) & Hl%IH). by exists o, v, c, p.
  - intros (o & v & c & p & -> & Hs & Hl%IH). by eauto 12.
Qed.

(** * Emergency access *)

(** The accepted trigger: the cold remainder, split into staging and change,
    with a connector for the withdrawal. *)
Record accepted_trigger m (e : EmergencyAccessPolicy) (f : FS) (dir : Path)
    (policy : VaultPolicy) (controller : ControllerPolicy) (rollover_tx : Transaction)
    (source : TxOut) (vout : N) (p : Psbt) : Prop := {
  tr_source : output rollover_tx !! N.to_nat (remainder_vout m) = Some source;
  tr_vout : emergency_connector_vout m = Some vout;
  tr_connector : trigger_connector e = connector_at (compute_txid rollover_tx) vout;
  tr_read : read_psbt f (join dir (psbt_file (trigger e))) = Ok p;
  tr_child : child_of p source (new_outpoint (compute_txid rollover_tx) (remainder_vout m))
    (new_outpoint (compute_txid rollover_tx) vout) (controller_script_of controller) (trigger e);
  tr_template : unsigned_tx p = emergency_trigger_template
    (new_outpoint (compute_txid rollover_tx) (remainder_vout m))
    (new_outpoint (compute_txid rollover_tx) vout) (staging_value_sats e)
    (vault_change_value_sats e) (vault_script_of policy) (controller_script_of controller);
  tr_dust : (minimal_non_dust (vault_script_of policy) ≤ vault_change_value_sats e)%N;
  tr_next : withdrawal_connector e = connector_at (compute_txid (unsigned_tx p)) 2;
  tr_fee : cooperative_fee (unsigned_tx p) policy [0] controller [1] = Ok (fee_sats (trigger e));
}.

Lemma trigger_shape_Ok e tx vs :
  trigger_shape e tx vs = Ok false ↔
  version tx = VERSION_TWO ∧ lock_time tx = LOCK_TIME_ZERO ∧
  (∃ x, input tx !! 0 = Some x ∧ sequence x = SEQUENCE_MAX) ∧
  (∃ x, input tx !! 1 = Some x ∧ sequence x = ENABLE_RBF_NO_LOCKTIME) ∧
  length (output tx) = 3 ∧
  output tx !! 0 = Some {| value := staging_value_sats e; script_pubkey := vs |} ∧
  output tx !! 1 = Some {| value := vault_change_value_sats e; script_pubkey := vs |} ∧
  (minimal_non_dust vs ≤ vault_change_value_sats e)%N.
Proof.
  unfold trigger_shape. rewrite !orb_seq_false, !index_check, !neg_decide_false, Ok_bool_false,
    N.ltb_ge. split.
  - intros [[[[[[[[[? ?] ?] ?] ?] (o & Ho & Hs)] (o' & Ho' & Hv)] (w & Hw & Hws)] (w' & Hw' & Hwv)] ?].
    split_and!; [done..| | |done].
    + assert (o' = o) as -> by congruence. rewrite Ho. destruct o. simpl in *. by subst.
    + assert (w' = w) as -> by congruence. rewrite Hw. destruct w. simpl in *. by subst.
  - intros (? & ? & ? & ? & ? & -> & -> & ?). split_and!; try done; by eexists.
Qed.

Lemma template_intro tx tx' o c s0 s1 s0' s1' :
  version tx = version tx' → lock_time tx = lock_time tx' →
  input tx = [vault_input o s0; vault_input c s1] →
  input tx' = [vault_input o s0'; vault_input c s1'] → s0 = s0' → s1 = s1' →
  output tx = output tx' → tx = tx'.
Proof. destruct tx, tx'. simpl. intros -> -> -> -> -> -> ->. done. Qed.

Lemma validate_trigger_Ok m e f dir policy controller rtx tx :
  validate_trigger m e f dir policy controller rtx = Ok tx ↔
  ∃ source vout p, accepted_trigger m e f dir policy controller rtx source vout p ∧
    tx = unsigned_tx p.
Proof.
  unfold validate_trigger. split.
  - intros (src & Hsrc%index_Ok & Hv)%bind_Ok.
    apply bind_Ok in Hv as (vout & Hvout%or_err_Ok & Hv).
    apply bind_Ok in Hv as ([] & Hc%bail_neg & Hv). apply bind_Ok in Hv as (p & Hr & Hv).
    pose proof (read_psbt_wf _ _ _ Hr) as Hwf.
    apply bind_Ok in Hv as ([] & Hch%validate_connector_child_sound & Hv); [|done].
    apply bind_Ok in Hv as ([] & Hsh%bail_when_Ok%trigger_shape_Ok & Hv).
    destruct Hsh as (Hver & Hlock & (x0 & Hx0 & Hq0) & (x1 & Hx1 & Hq1) & Hlen & Ho0 & Ho1 & Hd).
    apply bind_Ok in Hv as (co & Hco%index_Ok & Hv).
    apply bind_Ok in Hv as ([] & ->%connector_output_Ok & Hv).
    apply bind_Ok in Hv as ([] & Hn%bail_neg & Hv). apply bind_Ok in Hv as (fee & Hfee & Hv).
    apply bind_Ok in Hv as ([] & Heq%bail_neg & [= <-]).
    exists src, vout, p. split; [|done].
    pose proof (child_inputs _ _ _ _ _ _ Hch) as (s0 & s1 & Hin). rewrite Hin in Hx0, Hx1.
    injection Hx0 as <-. injection Hx1 as <-.
    split; try done; [|by rewrite Heq].
    eapply template_intro; [done|done|exact Hin|done|done|done|]. by apply list_of_three.
  - intros (src & vout & p & [Hs Hvo Htc Hr Hch Htx Hd Hn Hfee] & ->).
    ok_step (by apply index_Ok). ok_step (by apply or_err_Ok). 
    ok_step (by apply (proj2 (bail_neg _ _ ()))). ok_step (exact Hr).
    ok_step (by apply validate_connector_child_complete).
    apply bind_Ok. exists (). split.
    { apply bail_when_Ok, trigger_shape_Ok. rewrite Htx. split_and!; try done; by eexists. }
    ok_step (rewrite Htx; by apply index_Ok).
    ok_step (by apply (proj2 (connector_output_Ok _ _ ()))).
    ok_step (by apply (proj2 (bail_neg _ _ ()))). ok_step (exact Hfee).
    by ok_step (by apply (proj2 (bail_neg _ _ ()))).
Qed.

(** The accepted withdrawal: the staged amount to the hot wallet, after the
    emergency delay. *)
Record accepted_withdrawal m (e : EmergencyAccessPolicy) (f : FS) (dir : Path)
    (policy : VaultPolicy) (controller : ControllerPolicy) (delay : N) (hot : ScriptBuf)
    (trigger_tx : Transaction) (source : TxOut) (p : Psbt) : Prop := {
  wd_source : output trigger_tx !! N.to_nat (staging_vout e) = Some source;
  wd_read : read_psbt f (join dir (psbt_file (withdrawal e))) = Ok p;
  wd_child : child_of p source (new_outpoint (compute_txid trigger_tx) (staging_vout e))
    (new_outpoint (compute_txid trigger_tx) 2) (controller_script_of controller) (withdrawal e);
  wd_template : unsigned_tx p = emergency_withdrawal_template
    (new_outpoint (compute_txid trigger_tx) (staging_vout e))
    (new_outpoint (compute_txid trigger_tx) 2) (emergency_access_limit_sats m) delay hot;
  wd_amount : checked_add (staging_value_sats e) CONNECTOR_VALUE_SATS =
    checked_add (emergency_access_limit_sats m) (fee_sats (withdrawal e));
  wd_fee : cooperative_fee (unsigned_tx p) policy [0] controller [1] =
    Ok (fee_sats (withdrawal e));
}.

Lemma withdrawal_shape_Ok m e tx delay hot :
  withdrawal_shape m e tx delay hot = Ok false ↔
  version tx = VERSION_TWO ∧ lock_time tx = LOCK_TIME_ZERO ∧
  (∃ x, input tx !! 0 = Some x ∧ sequence x = delay) ∧
  (∃ x, input tx !! 1 = Some x ∧ sequence x = ENABLE_RBF_NO_LOCKTIME) ∧
  length (output tx) = 1 ∧
  output tx !! 0 = Some {| value := emergency_access_limit_sats m; script_pubkey := hot |} ∧
  checked_add (staging_value_sats e) CONNECTOR_VALUE_SATS =
    checked_add (emergency_access_limit_sats m) (fee_sats (withdrawal e)).
Proof.
  unfold withdrawal_shape. rewrite !orb_seq_false, !index_check, !neg_decide_false. split.
  - intros [[[[[[[? ?] ?] ?] ?] (o & Ho & Hs)] (o' & Ho' & Hv)] ?]. split_and!; [done..| |done].
    assert (o' = o) as -> by congruence. rewrite Ho. destruct o. simpl in *. by subst.
  - intros (? & ? & ? & ? & ? & -> & ?). split_and!; try done; by eexists.
Qed.

Lemma validate_withdrawal_Ok m e f dir policy controller delay hot ttx u :
  validate_withdrawal m e f dir policy controller delay hot ttx = Ok u ↔
  ∃ source p, accepted_withdrawal m e f dir policy controller delay hot ttx source p.
Proof.
  destruct u. unfold validate_withdrawal. split.
  - intros (src & Hsrc%index_Ok & Hv)%bind_Ok. apply bind_Ok in Hv as (p & Hr & Hv).
    pose proof (read_psbt_wf _ _ _ Hr) as Hwf.
    apply bind_Ok in Hv as ([] & Hch%validate_connector_child_sound & Hv); [|done].
    apply bind_Ok in Hv as ([] & Hsh%bail_when_Ok%withdrawal_shape_Ok & Hv).
    destruct Hsh as (Hver & Hlock & (x0 & Hx0 & Hq0) & (x1 & Hx1 & Hq1) & Hlen & Ho0 & Ha).
    apply bind_Ok in Hv as (fee & Hfee & Heq%bail_neg).
    pose proof (child_inputs _ _ _ _ _ _ Hch) as (s0 & s1 & Hin). rewrite Hin in Hx0, Hx1.
    injection Hx0 as <-. injection Hx1 as <-.
    exists src, p. split; try done; [|by rewrite Heq].
    eapply template_intro; [done|done|exact Hin|done|done|done|]. by apply list_of_one.
  - intros (src & p & [Hs Hr Hch Htx Ha Hfee]).
    ok_step (by apply index_Ok). ok_step (exact Hr).
    ok_step (by apply validate_connector_child_complete).
    apply bind_Ok. exists (). split.
    { apply bail_when_Ok, withdrawal_shape_Ok. rewrite Htx. split_and!; try done; by eexists. }
    ok_step (exact Hfee). by apply (proj2 (bail_neg _ _ ())).
Qed.

(** The whole emergency path of a rollover. *)
Record accepted_emergency (config : VaultConfig) m (e : EmergencyAccessPolicy) (f : FS)
    (dir : Path) (policy : VaultPolicy) (controller : ControllerPolicy)
    (rollover_tx : Transaction) (delay : N) (hot : ScriptBuf) (source staged : TxOut) (vout : N)
    (pt pw : Psbt) : Prop := {
  em_delay : emergency_delay_sequence = Ok delay;
  em_metadata : amount_sats e = emergency_access_limit_sats m ∧
    emergency_delay_seconds e = EMERGENCY_ACCESS_DELAY_SECONDS ∧
    emergency_delay_sequence_of e = delay ∧ staging_vout e = 0%N ∧ vault_change_vout e = 1%N;
  em_hot : hot_script_of config (emergency_hot_address e) = Ok hot;
  em_trigger : accepted_trigger m e f dir policy controller rollover_tx source vout pt;
  em_withdrawal : accepted_withdrawal m e f dir policy controller delay hot (unsigned_tx pt)
    staged pw;
}.

Definition emergency_accepted (config : VaultConfig) m (f : FS) (dir : Path)
    (policy : VaultPolicy) (controller : ControllerPolicy) (rollover_tx : Transaction) : Prop :=
  (emergency_access_limit_sats m = 0%N ∧ emergency_access m = None) ∨
  (emergency_access_limit_sats m ≠ 0%N ∧
   ∃ e delay hot source staged vout pt pw, emergency_access m = Some e ∧
     accepted_emergency config m e f dir policy controller rollover_tx delay hot source staged
       vout pt pw).

Lemma validate_connector_emergency_Ok config m f dir policy controller rollover u :
  validate_connector_emergency config m f dir policy controller rollover = Ok u ↔
  emergency_accepted config m f dir policy controller (unsigned_tx rollover).
Proof.
  destruct u. unfold validate_connector_emergency, emergency_accepted.
  case_bool_decide as Hz; destruct (emergency_access m) as [e|]; [naive_solver..| |naive_solver].
  split.
  - intros (d & Hd & Hv)%bind_Ok. apply bind_Ok in Hv as ([] & Hm%bail_if_Ok & Hv).
    unfold emergency_metadata_wrong in Hm. rewrite !orb_false_iff, !negb_decide_false in Hm.
    apply bind_Ok in Hv as (hot & Hh & Hv).
    apply bind_Ok in Hv as (tx & (src & vout & p & Ht & ->)%validate_trigger_Ok & Hv).
    apply validate_withdrawal_Ok in Hv as (staged & pw & Hw). right. split; [done|].
    exists e, d, hot, src, staged, vout, p, pw. split; [done|]. split; try done.
    by destruct Hm as [[[[? ?] ?] ?] ?].
  - intros [[? _]|(_ & e' & d & hot & src & staged & vout & p & pw & [= <-] & [Hd Hm Hh Ht Hw])];
      [done|].
    ok_step (exact Hd). apply bind_Ok. exists (). split.
    { apply bail_if_Ok. unfold emergency_metadata_wrong.
      rewrite !orb_false_iff, !negb_decide_false. naive_solver. }
    ok_step (exact Hh). ok_step (apply validate_trigger_Ok; by eauto). apply validate_withdrawal_Ok.
    eauto.
Qed.

(** * The rollover *)

Definition m_has_allowances m : bool := bool_decide (0 < allowance_count m).
Definition m_has_emergency m : bool := (0 <? emergency_access_limit_sats m)%N.

(** The previous outputs of some inputs, all of one script. *)
Definition role_outputs p (ids : list nat) (script : ScriptBuf) (outs : list TxOut) : Prop :=
  Forall2 (λ i o, ∃ x, inputs p !! i = Some x ∧ witness_utxo x = Some o ∧
                       script_pubkey o = script) ids outs.

Lemma role_sum_go p script ids s0 s :
  try_fold (role_input_step p script) s0 ids = Ok s ↔
  ∃ outs, role_outputs p ids script outs ∧ s = (s0 + sumN (value <$> outs))%N ∧
    (ids = [] ∨ (s ≤ U64_MAX)%N).
Proof.
  revert s0. induction ids as [|i ids IH]; intros s0.
  - simpl. split.
    + intros [= <-]. exists []. split; [constructor|]. split; [simpl; lia|by left].
    + intros (outs & ->%Forall2_nil_inv_l & -> & _). simpl. f_equal. lia.
  - simpl. rewrite bind_Ok. split.
    + intros (s1 & Hs1 & (outs & Ho & -> & Hb)%IH). unfold role_input_step in Hs1.
      apply bind_Ok in Hs1 as (x & Hx%index_Ok & Hs1).
      apply bind_Ok in Hs1 as (o & Hw%or_err_Ok & Hs1).
      apply bind_Ok in Hs1 as ([] & Hsc%bail_neg & [-> Hle]%or_err_Ok%checked_add_Some).
      exists (o :: outs). split; [constructor; [by exists x|done]|]. rewrite sumN_fmap_cons.
      split; [lia|]. right. destruct Hb as [->|?]; [|lia].
      apply Forall2_nil_inv_l in Ho as ->. simpl. lia.
    + intros (outs & Ho & -> & Hb). apply Forall2_cons_inv_l in Ho
        as (o & outs' & (x & Hx & Hw & Hsc) & Ho & ->). rewrite sumN_fmap_cons in Hb |- *.
      exists (s0 + value o)%N. destruct Hb as [?|Hb]; [done|]. split.
      * unfold role_input_step. ok_step (by apply index_Ok). ok_step (by apply or_err_Ok).
        ok_step (by apply (proj2 (bail_neg _ _ ()))). apply or_err_Ok, checked_add_Some. lia.
      * apply IH. exists outs'. rewrite sumN_fmap_cons. split; [done|]. split; [lia|]. right. lia.
Qed.

Lemma psbt_role_input_sum_Ok p ids script s :
  psbt_role_input_sum p ids script = Ok s ↔
  ∃ outs, role_outputs p ids script outs ∧ s = sumN (value <$> outs) ∧ (s ≤ U64_MAX)%N.
Proof.
  unfold psbt_role_input_sum. rewrite role_sum_go. setoid_rewrite N.add_0_l.
  split; intros (outs & Ho & -> & Hb); exists outs; [|by auto].
  split_and!; [done|done|]. destruct Hb as [->|?]; [|done]. by apply Forall2_nil_inv_l in Ho as ->.
Qed.

(** The positions of the rollover's outputs. *)
Record positions_ok m : Prop := {
  po_allowance : allowance_vout m = then_some (m_has_allowances m) 0%N;
  po_remainder : remainder_vout m = remainder_vout_of (m_has_allowances m);
  po_monthly : monthly_connector_vout m = monthly_connector_vout_of (m_has_allowances m);
  po_emergency : emergency_connector_vout m =
    emergency_connector_vout_of (m_has_allowances m) (m_has_emergency m);
  po_none : m_has_allowances m = false → allowance_value_sats m = 0%N;
}.

Lemma output_indexes_Ok m : output_indexes_wrong m = false ↔ positions_ok m.
Proof.
  unfold output_indexes_wrong. fold (m_has_allowances m) (m_has_emergency m).
  rewrite !orb_false_iff, andb_false_iff, !negb_decide_false, negb_false_iff. split.
  - intros [[[[? ?] ?] ?] Hn]. split; try done. intros Hf. rewrite Hf in Hn. by destruct Hn.
  - intros [? ? ? ? Hn]. split_and!; try done.
    destruct (m_has_allowances m); [by left|right; by apply Hn].
Qed.

Definition rollover_outputs m (vs cs : ScriptBuf) : list TxOut :=
  output (rollover_template [] (then_some (m_has_allowances m) (allowance_value_sats m))
    (remainder_value_sats m) vs cs (m_has_allowances m) (m_has_emergency m)).

Lemma rollover_outputs_length m vs cs :
  length (rollover_outputs m vs cs) =
  bool_to_nat (m_has_allowances m) + 1 + bool_to_nat (m_has_allowances m)
    + bool_to_nat (m_has_emergency m).
Proof.
  unfold rollover_outputs. destruct (m_has_allowances m), (m_has_emergency m); done.
Qed.

Lemma txout_intro o v s : value o = v → script_pubkey o = s →
  o = {| value := v; script_pubkey := s |}.
Proof. destruct o. simpl. by intros -> ->. Qed.

(** Each checked output, at its position. *)
Definition outputs_at m (l : list TxOut) (vs cs : ScriptBuf) : Prop :=
  (m_has_allowances m = true →
     l !! 0 = Some {| value := allowance_value_sats m; script_pubkey := vs |}) ∧
  l !! N.to_nat (remainder_vout_of (m_has_allowances m)) =
    Some {| value := remainder_value_sats m; script_pubkey := vs |} ∧
  Forall (λ vout, l !! N.to_nat vout = Some (connector_output cs))
    (option_list (monthly_connector_vout_of (m_has_allowances m)) ++
     option_list (emergency_connector_vout_of (m_has_allowances m) (m_has_emergency m))).

(** Positions and number together pin every output. *)
Lemma outputs_at_all m l vs cs :
  length l = length (rollover_outputs m vs cs) →
  outputs_at m l vs cs ↔ l = rollover_outputs m vs cs.
Proof.
  rewrite rollover_outputs_length. unfold outputs_at, rollover_outputs.
  destruct (m_has_allowances m), (m_has_emergency m); simpl; intros Hlen;
    destruct l as [|o0 [|o1 [|o2 [|o3 [|]]]]]; try done; simpl;
    rewrite ?Forall_cons_iff, ?Forall_nil; naive_solver.
Qed.

Lemma checked_connector (l : list TxOut) cs vout :
  (o ← or_err (l !! N.to_nat vout) "rollover connector vout is out of range";
   validate_connector_output o cs) = Ok tt ↔ l !! N.to_nat vout = Some (connector_output cs).
Proof.
  rewrite bind_Ok. setoid_rewrite or_err_Ok. setoid_rewrite connector_output_Ok. naive_solver.
Qed.

Lemma checked_txout (l : list TxOut) n v s :
  (∃ o, l !! n = Some o ∧ script_pubkey o = s) ∧ (∃ o, l !! n = Some o ∧ value o = v) ↔
  l !! n = Some {| value := v; script_pubkey := s |}.
Proof.
  split; [|intros ->; split; by eexists].
  intros [(o & Ho & Hs) (o' & Ho' & Hv)]. rewrite Ho. f_equal.
  apply txout_intro; congruence.
Qed.

Lemma validate_rollover_outputs_Ok m tx vs cs u :
  length (output tx) = length (rollover_outputs m vs cs) →
  validate_rollover_outputs m tx vs cs = Ok u ↔
  positions_ok m ∧ output tx = rollover_outputs m vs cs ∧
  (minimal_non_dust vs ≤ remainder_value_sats m)%N.
Proof.
  destruct u. intros Hlen. rewrite <-outputs_at_all by done. unfold validate_rollover_outputs.
  fold (m_has_allowances m). split.
  - intros ([] & Hpos%bail_if_Ok%output_indexes_Ok & Hv)%bind_Ok.
    apply bind_Ok in Hv as ([] & Ha%bail_when_Ok & Hv). pose proof Hpos as [_ Hr Hmo Hem _].
    rewrite Hr, Hmo, Hem in Hv. apply bind_Ok in Hv as (rem & Hrem%index_Ok & Hv).
    apply bind_Ok in Hv as ([] & Hc%bail_if_Ok & Hv%for_each_Ok).
    rewrite !orb_false_iff, !negb_decide_false, N.ltb_ge in Hc. destruct Hc as [[Hrs Hrv] Hd].
    pose proof (txout_intro _ _ _ Hrv Hrs) as ->.
    split; [done|]. split; [|done]. split; [|split; [done|]].
    + intros Hh. rewrite Hh in Ha. crack Ha. by apply checked_txout.
    + eapply Forall_impl; [exact Hv|]. intros vout. apply checked_connector.
  - intros (Hpos & (Ha & Hrem & Hv) & Hd). pose proof Hpos as [_ Hr Hmo Hem _].
    ok_step (by apply (proj2 (bail_if_Ok _ _ ())), output_indexes_Ok).
    apply bind_Ok. exists (). split.
    { apply bail_when_Ok. destruct (m_has_allowances m); [|done].
      rewrite orb_seq_false, !index_check. apply checked_txout. auto. }
    rewrite Hr, Hmo, Hem. ok_step (by apply index_Ok).
    ok_step (by apply (proj2 (bail_if_Ok _ _ ()));
      rewrite !orb_false_iff, !negb_decide_false, N.ltb_ge).
    apply for_each_Ok. eapply Forall_impl; [exact Hv|]. intros vout. apply checked_connector.
Qed.

(** The shape of the rollover's own fields. *)
Record rollover_fields m p (vis cis : list nat) : Prop := {
  rf_txid : txid_to_string (compute_txid (unsigned_tx p)) = unsigned_txid (rollover m);
  rf_version : version (unsigned_tx p) = VERSION_TWO;
  rf_lock_time : lock_time (unsigned_tx p) = LOCK_TIME_ZERO;
  rf_inputs : input (unsigned_tx p) ≠ [] ∧
    length (input (unsigned_tx p)) = length (inputs p);
  rf_outputs : length (output (unsigned_tx p)) =
    bool_to_nat (m_has_allowances m) + 1 + bool_to_nat (m_has_allowances m)
      + bool_to_nat (m_has_emergency m);
  rf_vault : Forall (λ i, ∃ x, input (unsigned_tx p) !! i = Some x ∧
                              sequence x = SEQUENCE_MAX) vis;
  rf_controller : Forall (λ i, ∃ x, input (unsigned_tx p) !! i = Some x ∧
                              sequence x = ENABLE_RBF_NO_LOCKTIME) cis;
}.

Lemma any_index_check {A} (l : list A) (P : A → Prop) `{!∀ x, Decision (P x)} (ids : list nat) :
  any_r (λ i, x ← index l i; !!= (P x)) ids = Ok false ↔
  Forall (λ i, ∃ x, l !! i = Some x ∧ P x) ids.
Proof.
  rewrite any_r_false. split; intros Hf; (eapply Forall_impl; [exact Hf|]); intros i; apply index_check.
Qed.

Lemma rollover_shape_Ok m p vis cis :
  rollover_shape m p vis cis = Ok false ↔ rollover_fields m p vis cis.
Proof.
  unfold rollover_shape. fold (m_has_allowances m) (m_has_emergency m).
  rewrite !orb_seq_false, !any_index_check, !neg_decide_false, Ok_bool_false, bool_decide_eq_false.
  split; [intros [[[[[[[? ?] ?] ?] ?] ?] ?] ?]|intros [? ? ? [? ?] ? ? ?]]; by repeat split.
Qed.

(** The amounts of an accepted rollover: what goes in is what comes out plus
    the fee, and the fee is one satoshi per estimated virtual byte. *)
Record rollover_amounts m p (policy : VaultPolicy) (controller : ControllerPolicy)
    (vis cis : list nat) (vouts couts : list TxOut) : Prop := {
  ra_vault : role_outputs p vis (vault_script_of policy) vouts;
  ra_controller : role_outputs p cis (controller_script_of controller) couts;
  ra_sums : vault_input_sats m = sumN (value <$> vouts) ∧
    controller_input_sats m = sumN (value <$> couts) ∧
    total_input_sats m = (vault_input_sats m + controller_input_sats m)%N ∧
    (total_input_sats m ≤ U64_MAX)%N;
  ra_conserves : total_input_sats m =
    (sumN (value <$> output (unsigned_tx p)) + fee_sats (rollover m))%N;
  ra_fee : cooperative_fee (unsigned_tx p) policy vis controller cis =
    Ok (fee_sats (rollover m));
}.

Lemma validate_rollover_amounts_Ok m p policy controller vis cis u :
  validate_rollover_amounts m p policy controller vis cis = Ok u ↔
  ∃ vouts couts, rollover_amounts m p policy controller vis cis vouts couts.
Proof.
  destruct u. unfold validate_rollover_amounts. split.
  - intros (vs & (vouts & Hv & -> & Hvb)%psbt_role_input_sum_Ok & Hr)%bind_Ok.
    apply bind_Ok in Hr as (cs & (couts & Hc & -> & Hcb)%psbt_role_input_sum_Ok & Hr).
    apply bind_Ok in Hr as (tot & [-> Hb]%or_err_Ok%checked_add_Some & Hr).
    apply bind_Ok in Hr as (os & ->%output_sum_Ok & Hr).
    apply bind_Ok in Hr as (fee & [-> Hle]%or_err_Ok%checked_sub_Some & Hr).
    apply bind_Ok in Hr as ([] & Hk%bail_if_Ok & Hr).
    rewrite !orb_false_iff, !negb_decide_false in Hk. destruct Hk as [[[H1 H2] H3] H4].
    apply bind_Ok in Hr as (ef & Hef & Heq%bail_neg).
    exists vouts, couts. split; [done|done|split_and!; lia|lia|by rewrite Heq].
  - intros (vouts & couts & [Hv Hc (H1 & H2 & H3 & H4) Hcons Hfee]).
    ok_step (by apply psbt_role_input_sum_Ok; exists vouts; split_and!; [|reflexivity|lia]).
    ok_step (by apply psbt_role_input_sum_Ok; exists couts; split_and!; [|reflexivity|lia]).
    ok_step (by apply or_err_Ok, checked_add_Some; split; [reflexivity|lia]).
    ok_step (by apply output_sum_fits; lia).
    ok_step (by apply or_err_Ok, checked_sub_Some; split; [reflexivity|lia]).
    apply bind_Ok. exists (). split.
    { apply bail_if_Ok. rewrite !orb_false_iff, !negb_decide_false. lia. }
    ok_step (exact Hfee). by apply (proj2 (bail_neg _ _ ())).
Qed.

Definition rollover_vault_indexes m : list nat := N.to_nat <$> vault_input_indexes (rollover m).
Definition rollover_controller_indexes m : list nat :=
  N.to_nat <$> controller_input_indexes (rollover m).

(** The accepted rollover: every input in one of the two roles, and exactly
    the template's outputs. *)
Record accepted_rollover m p (policy : VaultPolicy) (controller : ControllerPolicy)
    (vouts couts : list TxOut) : Prop := {
  ro_partition : rollover_vault_indexes m ++ rollover_controller_indexes m
    ≡ₚ seq 0 (length (input (unsigned_tx p)));
  ro_fields : rollover_fields m p (rollover_vault_indexes m) (rollover_controller_indexes m);
  ro_amounts : rollover_amounts m p policy controller (rollover_vault_indexes m)
    (rollover_controller_indexes m) vouts couts;
  ro_positions : positions_ok m;
  ro_outputs : output (unsigned_tx p) =
    rollover_outputs m (vault_script_of policy) (controller_script_of controller);
  ro_dust : (minimal_non_dust (vault_script_of policy) ≤ remainder_value_sats m)%N;
}.

(** What the first allowance spends. *)
Definition chain_start m (rollover_tx : Transaction) (policy : VaultPolicy) : Expected :=
  let txid := compute_txid rollover_tx in
  if m_has_allowances m then
    {| vault_outpoint := Some (new_outpoint txid 0);
       vault_prevout := Some {| value := allowance_value_sats m;
                                script_pubkey := vault_script_of policy |};
       expected_connector := Some (connector_at txid 2) |}
  else {| vault_outpoint := None; vault_prevout := None; expected_connector := None |}.

Lemma first_expected_Ok m p policy controller vouts couts :
  accepted_rollover m p policy controller vouts couts →
  first_expected m (unsigned_tx p) = Ok (chain_start m (unsigned_tx p) policy).
Proof.
  intros [_ _ _ [Ha _ Hm _ _] Ho _]. unfold first_expected, chain_start.
  fold (m_has_allowances m). rewrite Hm, Ha, Ho. unfold rollover_outputs.
  destruct (m_has_allowances m); done.
Qed.

(** The manifest's own fields. *)
Record manifest_fields (config : VaultConfig) m (controller : ControllerPolicy) : Prop := {
  mf_version : manifest_version m = 5%N ∧ manifest_network m = config_network config;
  mf_vault : manifest_vault_descriptor m = vault_descriptor config ∧
    manifest_vault_address m = vault_address config;
  mf_rate : fee_rate_sat_vb m = DEFAULT_FEE_RATE_SAT_VB;
  mf_count : (monthly_limit_sats m = 0%N → allowance_count m = 0) ∧
    allowance_count m ≤ MONTHS_PER_ROLLOVER ∧ length (allowances m) = allowance_count m;
  mf_controller : controller_descriptor m = controller_descriptor_string controller ∧
    controller_address m = address_to_string (controller_address_of controller) ∧
    connector_value_sats m = CONNECTOR_VALUE_SATS;
}.

(** A ceremony that validation accepts. *)
Record accepted_batch (config : VaultConfig) m (f : FS) (dir : Path) (policy : VaultPolicy)
    (controller : ControllerPolicy) (p : Psbt) (vouts couts : list TxOut) (delay : N) : Prop := {
  ab_manifest : manifest_fields config m controller;
  ab_policy : (n ← bitcoin_network config; from_descriptor_for_network (vault_descriptor config) n)
    = Ok policy;
  ab_controller : controller_policy config = Ok controller;
  ab_sighashes : Forall (λ t, ∃ q, read_psbt f (join dir (psbt_file t)) = Ok q ∧
    validate_default_sighashes q = Ok tt) (manifest_transactions m);
  ab_read : read_psbt f (join dir (psbt_file (rollover m))) = Ok p;
  ab_rollover : accepted_rollover m p policy controller vouts couts;
  ab_delay : monthly_delay_sequence = Ok delay;
  ab_chain : accepted_chain config m f dir policy controller delay 0 (allowances m)
    (chain_start m (unsigned_tx p) policy);
  ab_emergency : emergency_accepted config m f dir policy controller (unsigned_tx p);
}.

Lemma manifest_count_Ok m :
  (bool_decide (monthly_limit_sats m = 0%N) && negb (bool_decide (allowance_count m = 0))) ||
  bool_decide (MONTHS_PER_ROLLOVER < allowance_count m) ||
  negb (bool_decide (length (allowances m) = allowance_count m)) = false ↔
  (monthly_limit_sats m = 0%N → allowance_count m = 0) ∧
  allowance_count m ≤ MONTHS_PER_ROLLOVER ∧ length (allowances m) = allowance_count m.
Proof.
  rewrite !orb_false_iff, andb_false_iff, !negb_decide_false, !bool_decide_eq_false.
  destruct (decide (monthly_limit_sats m = 0%N)); naive_solver lia.
Qed.

Lemma sighashes_Ok f dir l u :
  for_each (λ t, p ← read_psbt f (join dir (psbt_file t)); validate_default_sighashes p) l = Ok u ↔
  Forall (λ t, ∃ q, read_psbt f (join dir (psbt_file t)) = Ok q ∧
    validate_default_sighashes q = Ok tt) l.
Proof.
  rewrite for_each_Ok. split; intros Hf; (eapply Forall_impl; [exact Hf|]); intros t; apply bind_Ok.
Qed.

(** [validate_batch] accepts exactly the accepted batches. *)
Lemma validate_batch_Ok config m f dir policy :
  validate_batch config m f dir = Ok policy ↔
  ∃ controller p vouts couts delay,
    accepted_batch config m f dir policy controller p vouts couts delay.
Proof.
  unfold validate_batch. split.
  - intros ([] & H1%bail_if_Ok & Hv)%bind_Ok. apply bind_Ok in Hv as ([] & Hsig%sighashes_Ok & Hv).
    apply bind_Ok in Hv as ([] & H2%bail_if_Ok & Hv). apply bind_Ok in Hv as ([] & H3%bail_neg & Hv).
    apply bind_Ok in Hv as ([] & H4%bail_if_Ok%manifest_count_Ok & Hv).
    apply bind_Ok in Hv as (n & Hn & Hv). apply bind_Ok in Hv as (pol & Hpol & Hv).
    apply bind_Ok in Hv as (con & Hcon & Hv). apply bind_Ok in Hv as ([] & H5%bail_if_Ok & Hv).
    rewrite !orb_false_iff, !negb_decide_false in H1.
    rewrite !orb_false_iff, !negb_decide_false in H2.
    rewrite !orb_false_iff, !negb_decide_false in H5.
    apply bind_Ok in Hv as (p & Hr & Hv).
    apply bind_Ok in Hv as (vis & [= <-] & Hv). apply bind_Ok in Hv as (cis & [= <-] & Hv).
    fold (rollover_vault_indexes m) (rollover_controller_indexes m) in Hv.
    apply bind_Ok in Hv as ([] & Hpart%bail_if_Ok%not_exact_partition_false & Hv).
    apply bind_Ok in Hv as ([] & Hsh%bail_when_Ok%rollover_shape_Ok & Hv).
    apply bind_Ok in Hv as ([] & (vouts & couts & Ham)%validate_rollover_amounts_Ok & Hv).
    apply bind_Ok in Hv as ([] & Hout%validate_rollover_outputs_Ok & Hv);
      [|by rewrite (rf_outputs _ _ _ _ Hsh), rollover_outputs_length].
    destruct Hout as (Hpos & Hout & Hd).
    assert (accepted_rollover m p pol con vouts couts) as Hro by done.
    apply bind_Ok in Hv as ([] & Hal & Hv). unfold validate_allowances in Hal.
    rewrite (first_expected_Ok _ _ _ _ _ _ Hro) in Hal.
    apply bind_Ok in Hal as (? & [= <-] & Hal).
    apply bind_Ok in Hal as (delay & Hdel & Hal%validate_allowance_list_Ok).
    apply bind_Ok in Hv as ([] & Hem%validate_connector_emergency_Ok & [= <-]).
    exists con, p, vouts, couts, delay. destruct H5 as [[? ?] ?]. split; try done.
    by ok_step (exact Hn).
  - intros (con & p & vouts & couts & delay & [[H1 H2 H3 H4 H5] Hpol Hcon Hsig Hr Hro Hdel Hch Hem]).
    apply bind_Ok in Hpol as (n & Hn & Hpol). pose proof Hro as [Hpart Hsh Ham Hpos Hout Hd].
    ok_step (by apply (proj2 (bail_if_Ok _ _ ())); rewrite !orb_false_iff, !negb_decide_false).
    ok_step (by apply (proj2 (sighashes_Ok _ _ _ ()))).
    ok_step (by apply (proj2 (bail_if_Ok _ _ ())); rewrite !orb_false_iff, !negb_decide_false).
    ok_step (by apply (proj2 (bail_neg _ _ ()))).
    ok_step (by apply (proj2 (bail_if_Ok _ _ ())), manifest_count_Ok).
    ok_step (exact Hn). ok_step (exact Hpol). ok_step (exact Hcon).
    apply bind_Ok. exists (). split.
    { apply bail_if_Ok. rewrite !orb_false_iff, !negb_decide_false. naive_solver. }
    ok_step (exact Hr). ok_step (reflexivity). ok_step (reflexivity).
    fold (rollover_vault_indexes m) (rollover_controller_indexes m).
    ok_step (by apply (proj2 (bail_if_Ok _ _ ())), not_exact_partition_false).
    ok_step (by apply (proj2 (bail_when_Ok _ _ ())), rollover_shape_Ok).
    ok_step (apply (proj2 (validate_rollover_amounts_Ok _ _ _ _ _ _ ())); eauto).
    apply bind_Ok. exists (). split.
    { apply validate_rollover_outputs_Ok; [|done].
      by rewrite (rf_outputs _ _ _ _ Hsh), rollover_outputs_length. }
    apply bind_Ok. exists (). split.
    { unfold validate_allowances. rewrite (first_expected_Ok _ _ _ _ _ _ Hro).
      ok_step (reflexivity). ok_step (exact Hdel). by apply validate_allowance_list_Ok. }
    by ok_step (by apply (proj2 (validate_connector_emergency_Ok _ _ _ _ _ _ _ ()))).
Qed.
End sound.
