(* ===== verification/CeremonyBuild.v ===== *)
(** Every proposal that the phone builds is a ceremony that validation
    accepts: the proposal's transactions, signed and written, are read back as
    the templates of their steps. *)

From S2P Require Import Prelude Bitcoin Toy Types Keys Policy Transactions Signable FileSystem Storage Ceremony CeremonyValidate CeremonySound.

(** * PSBTs on disk *)

Section psbt_files.
Context `{Laws : BitcoinLaws}.
Implicit Types (f F : FS) (k : Key).

Lemma visible_plain s : visible_ascii s = true → Forall plain (bytes_of s).
Proof.
  unfold bytes_of. induction s as [|c s IH]; [constructor|]. simpl.
  unfold is_visible. rewrite !andb_true_iff, !N.leb_le. intros [[? ?] ?].
  constructor; [done|]. by apply IH.
Qed.

(** The file of a name holds a PSBT as [write_psbt] leaves it. *)
Definition holds_psbt f k (p : Psbt) : Prop := file_at f k = Some (psbt_to_string p +:+ NEWLINE).

Lemma read_held f path p :
  no_read_fault f → psbt_wf p → holds_psbt f (resolve f path) p → read_psbt f path = Ok p.
Proof.
  intros Hn Hwf Hh. pose proof (visible_plain _ (psbt_text p)) as Hp. unfold read_psbt.
  rewrite (read_line f path (psbt_to_string p)) by done. simpl.
  by rewrite trim_line, psbt_round_trip.
Qed.

Lemma write_psbt_run path p f f' :
  write_psbt path p f = (Ok tt, f') →
  same_env f f' ∧ holds_psbt f' (resolve f path) p ∧
  ∀ k, k ≠ resolve f path → file_at f' k = file_at f k.
Proof.
  intros (He & _ & Ho & [Hf|[? _]])%write_private_files; [|done]. done.
Qed.

Lemma same_env_trans f1 f2 f3 : same_env f1 f2 → same_env f2 f3 → same_env f1 f3.
Proof. intros [? ?] [? ?]. split; congruence. Qed.

Lemma same_env_faults f f' : same_env f f' → no_read_fault f → no_read_fault f'.
Proof. intros [_ He] Hn k. rewrite He. apply Hn. Qed.

(** Lifted steps of the larger state. *)
Lemma on_fs_Ok {S A} (m : M FS A) (w w' : FS * S) a :
  on_fs m w = (Ok a, w') ↔ ∃ f', m w.1 = (Ok a, f') ∧ w' = (f', w.2).
Proof. unfold on_fs. destruct (m w.1) as [r f']. naive_solver. Qed.
Lemma on_hot_Ok {S A} (m : M S A) (w w' : FS * S) a :
  on_hot m w = (Ok a, w') ↔ ∃ h', m w.2 = (Ok a, h') ∧ w' = (w.1, h').
Proof. unfold on_hot. destruct (m w.2) as [r h']. naive_solver. Qed.
End psbt_files.

(** * Signed children *)

Section children.
Context `{Laws : BitcoinLaws, !KeyLib}.
Implicit Types (P : Proposal) (p : Psbt).

Lemma sign_vault_Ok P p ids p' :
  sign_vault P p ids = Ok p' ↔
  sign_vault_psbt_inputs (p_policy P) Cooperative (vault_keypair (p_phone P)) ids p = (Ok tt, p').
Proof.
  unfold sign_vault. destruct (sign_vault_psbt_inputs _ _ _ _ _) as [[[]| |] q]; naive_solver.
Qed.

Lemma sign_controller_Ok P p ids p' :
  sign_controller P p ids = Ok p' ↔
  sign_controller_psbt_inputs (p_controller P) PhonePath (vault_keypair (p_phone P)) ids p
    = (Ok tt, p').
Proof.
  unfold sign_controller. destruct (sign_controller_psbt_inputs _ _ _ _ _) as [[[]| |] q];
    naive_solver.
Qed.

(** A PSBT ready to be read back: the transaction, its previous outputs, the
    default sighash types. *)
Record ready p (tx : Transaction) (prevouts : list TxOut) : Prop := {
  rd_tx : unsigned_tx p = tx;
  rd_wf : psbt_wf p;
  rd_prevouts : Forall2 (λ x o, witness_utxo x = Some o) (inputs p) prevouts;
  rd_default : validate_default_sighashes p = Ok tt;
}.

Lemma prepared_ready p tx prevouts : prepared p tx prevouts → ready p tx prevouts.
Proof.
  intros Hp. pose proof (prepared_default _ _ _ Hp). destruct Hp as (? & ? & Hf). split; try done.
  eapply Forall2_impl; [exact Hf|]. by intros x o (? & _).
Qed.

Lemma ready_same p q tx prevouts : same_but_sigs p q → ready p tx prevouts → ready q tx prevouts.
Proof.
  intros Hs [Htx Hwf Hf Hd]. split.
  - destruct Hs as (<- & _). done.
  - by eapply psbt_wf_same.
  - destruct Hs as (_ & _ & Heq). revert Heq Hf. generalize (inputs q) as l. clear.
    generalize (inputs p) as k. intros k l Heq Hf. revert l Heq.
    induction Hf as [|x o k outs Hx Hf IH]; intros [|y l] Heq; try done. 
    injection Heq as Hw _ _ _ Hl. constructor; [congruence|by apply IH].
  - by rewrite <-(validate_default_same p q).
Qed.

Lemma signed_other_inputs lh kp ids p p' i x x' :
  signed lh kp ids p p' → i ∉ ids → inputs p !! i = Some x → inputs p' !! i = Some x' →
  tap_script_sigs x' = tap_script_sigs x.
Proof. intros (_ & _ & Hsig) Hi Hx Hx'. rewrite (Hsig i x x') by done. by rewrite decide_False. Qed.

(** The vault inputs, described by the vault's descriptor, carry the phone's
    signature; the controller inputs are described by the controller's. *)
Record sealed P p (vs cs : list nat) : Prop := {
  se_phone : ∃ leaf, vault_leaf (p_policy P) Cooperative = Ok leaf ∧
    Forall (has_sig (leaf_hash leaf) (x_only_public_key (vault_keypair (p_phone P))) p) vs;
  se_described : ∃ d, vault_definite_descriptor (p_policy P) = Ok d ∧ Forall (described d p) vs;
  se_connectors : ∃ d, controller_definite_descriptor (p_controller P) = Ok d ∧
    Forall (described d p) cs;
}.

Lemma sealed_signed P tx prevouts vs cs p0 p :
  create_policy_psbt tx prevouts vs cs (p_policy P) (p_controller P) = Ok p0 →
  (∀ i, i ∈ vs → i < length prevouts) → (∀ i, i ∈ cs → i ∉ vs ∧ i < length prevouts) →
  sign_vault P p0 vs = Ok p → sealed P p vs cs.
Proof.
  intros Hc Hlt Hlt' Hs%sign_vault_Ok.
  destruct (create_policy_psbt_described _ _ _ _ _ _ _ Hc Hlt) as (d & Hd & Hdesc).
  destruct (create_policy_psbt_described_controller _ _ _ _ _ _ _ Hc Hlt') as (cd & Hcd & Hcdesc).
  apply sign_vault_psbt_inputs_Ok in Hs as (_ & leaf & Hleaf & Hsd). split.
  - exists leaf. split; [done|]. apply Forall_forall. intros i Hi. by eapply signed_has_sig.
  - exists d. split; [done|]. eapply Forall_impl; [exact Hdesc|]. intros i.
    apply described_same, Hsd.
  - exists cd. split; [done|]. eapply Forall_impl; [exact Hcdesc|]. intros i.
    apply described_same, Hsd.
Qed.

Lemma sealed_kept P lh kp ids vs cs p q :
  signed lh kp ids p q → sealed P p vs cs → sealed P q vs cs.
Proof.
  intros Hsd [(leaf & Hl & Hsig) (d & Hd & Hdesc) (cd & Hcd & Hcdesc)]. split.
  - exists leaf. split; [done|]. eapply Forall_impl; [exact Hsig|]. intros i. by eapply signed_keeps_sig.
  - exists d. split; [done|]. eapply Forall_impl; [exact Hdesc|]. intros i. apply described_same, Hsd.
  - exists cd. split; [done|]. eapply Forall_impl; [exact Hcdesc|]. intros i. apply described_same, Hsd.
Qed.

(** A child of the rollover as the phone leaves it: only its vault input is
    signed. *)
Lemma signed_child_Ok P tx source p :
  signed_child P tx source = Ok p →
  ready p tx [source; connector_output (p_controller_script P)] ∧
  (∃ x0 x1, inputs p = [x0; x1] ∧ tap_script_sigs x1 = ∅) ∧ sealed P p [0] [1].
Proof.
  unfold signed_child. intros (p0 & Hp0 & Hs)%bind_Ok.
  assert (sealed P p [0] [1]) as Hseal.
  { eapply sealed_signed; [exact Hp0| | |exact Hs]; intros i ->%list_elem_of_singleton; cbn; [lia|].
    split; [set_solver|lia]. }
  apply create_policy_psbt_prepared in Hp0. apply sign_vault_Ok in Hs.
  apply sign_vault_psbt_inputs_Ok in Hs as (_ & leaf & _ & Hsd). pose proof Hsd as (Hsame & _ & _).
  pose proof (ready_same _ _ _ _ Hsame (prepared_ready _ _ _ Hp0)) as Hr. split; [done|].
  destruct Hp0 as (_ & _ & Hf). pose proof (Forall2_length _ _ _ Hf) as Hl0. simpl in Hl0.
  destruct Hr as [_ _ Hf' _]. pose proof (Forall2_length _ _ _ Hf') as Hl. simpl in Hl.
  destruct (inputs p) as [|x0 [|x1 [|]]] eqn:Hx; try done.
  destruct (inputs p0) as [|y0 [|y1 [|]]] eqn:Hy; try done. split; [|exact Hseal].
  exists x0, x1. split; [done|].
  rewrite (signed_other_inputs _ _ _ _ _ 1 y1 x1 Hsd); [|set_solver|by rewrite Hy|by rewrite Hx].
  apply Forall2_cons_1 in Hf as [_ Hf]. by apply Forall2_cons_1 in Hf as [(_ & _ & ?) _].
Qed.

(** ... and it is a child in the sense of the validator. *)
Lemma ready_child p tx v o c s0 s1 cs t :
  ready p tx [v; connector_output cs] →
  (∃ x0 x1, inputs p = [x0; x1] ∧ tap_script_sigs x1 = ∅) →
  vault_input_indexes t = [0%N] → controller_input_indexes t = [1%N] →
  txid_to_string (compute_txid tx) = unsigned_txid t →
  input tx = [vault_input o s0; vault_input c s1] →
  (value v + CONNECTOR_VALUE_SATS = sumN (value <$> output tx) + fee_sats t)%N →
  (value v + CONNECTOR_VALUE_SATS ≤ U64_MAX)%N → child_of p v o c cs t.
Proof.
  intros [<- _ Hf _] (x0 & x1 & Hx & Hs) Hv Hc Ht Hin Hcons Hfit. rewrite Hx in Hf.
  apply Forall2_cons_1 in Hf as [Hw0 Hf]. apply Forall2_cons_1 in Hf as [Hw1 _].
  split; try done; [by exists s0, s1|by exists x0, x1].
Qed.

Lemma cooperative_fee_shape t1 t2 policy vs controller cs :
  unsigned_shape t1 = unsigned_shape t2 →
  cooperative_fee t1 policy vs controller cs = cooperative_fee t2 policy vs controller cs.
Proof. intros Hs. unfold cooperative_fee. by rewrite (estimate_policy_vsize_shape t1 t2). Qed.
End children.

(** * File names *)

Section names.

Definition authorization_names (j : nat) : list string :=
  ["allowances"; two_digits (N.of_nat (j + 1)); "authorization.psbt"].

Lemma authorization_file_names j :
  j < MONTHS_PER_ROLLOVER →
  is_absolute (authorization_file (N.of_nat (j + 1))) = false ∧
  components (authorization_file (N.of_nat (j + 1))) = Normal <$> authorization_names j.
Proof.
  unfold MONTHS_PER_ROLLOVER. intros Hj.
  do 12 (destruct j as [|j]; [by split|]). lia.
Qed.

Lemma authorization_names_inj i j :
  i < MONTHS_PER_ROLLOVER → j < MONTHS_PER_ROLLOVER →
  authorization_names i = authorization_names j → i = j.
Proof.
  unfold MONTHS_PER_ROLLOVER. intros Hi Hj Heq.
  assert (two_digits (N.of_nat (i + 1)) = two_digits (N.of_nat (j + 1))) as He
    by (unfold authorization_names in Heq; congruence).
  clear Heq. do 12 (destruct i as [|i]; [do 12 (destruct j as [|j]; [done|]); lia|]). lia.
Qed.
End names.

(** * The allowance chain *)

Section chain_build.
Context `{Laws : BitcoinLaws, !KeyLib} {Hot : Type} `{!HotAddressProvider Hot}.
Implicit Types (P : Proposal) (p : Psbt) (f F : FS).

Lemma authorization_of_Ok P delay addr nx o v c tx fee p :
  authorization_of P delay addr nx o v c = Ok (tx, fee, p) →
  let next := (value v - p_monthly P - fee)%N in
  tx = authorization_template o (connector_outpoint c) (p_monthly P) delay
         (address_script_pubkey addr) (then_some nx (next, p_vault_script P))
         (p_controller_script P) ∧
  (if nx then (value v = next + p_monthly P + fee)%N ∧
              (minimal_non_dust (p_vault_script P) ≤ next)%N
   else (value v + CONNECTOR_VALUE_SATS = p_monthly P + fee)%N) ∧
  (value v + CONNECTOR_VALUE_SATS ≤ U64_MAX)%N ∧
  cooperative_fee tx (p_policy P) [0] (p_controller P) [1] = Ok fee ∧
  ready p tx [v; connector_output (p_controller_script P)] ∧
  (∃ x0 x1, inputs p = [x0; x1] ∧ tap_script_sigs x1 = ∅) ∧ sealed P p [0] [1].
Proof.
  unfold authorization_of. intros (fe & Hfee & Hr)%bind_Ok.
  apply bind_Ok in Hr as (nv & Hnv%or_err_Ok & Hr).
  apply bind_Ok in Hr as ([] & Hdust%bail_if_Ok & Hr).
  apply bind_Ok in Hr as ([] & Hex%bail_if_Ok & Hr).
  apply bind_Ok in Hr as (q & Hch & [= <- <- <-]).
  apply bind_Some in Hnv as (v1 & [-> Hf1]%checked_add_Some & Hnv).
  apply bind_Some in Hnv as (v2 & Hv2 & Hnv).
  apply bind_Some in Hnv as (v3 & [-> Hf3]%checked_sub_Some & [-> Hf4]%checked_sub_Some).
  assert (then_some nx (v2 - p_monthly P - fe, p_vault_script P)%N =
          then_some nx (value v - p_monthly P - fe, p_vault_script P)%N) as Hth.
  { destruct nx; [|done]. apply checked_sub_Some in Hv2 as [-> _]. simpl. do 2 f_equal. lia. }
  rewrite Hth in *. cbv zeta. split; [done|]. apply signed_child_Ok in Hch as (Hrd & Hx & Hseal).
  split_and!; [|done| |done|done|done].
  - destruct nx; simpl in Hdust, Hex.
    + apply checked_sub_Some in Hv2 as [-> _]. apply N.ltb_ge in Hdust. lia.
    + injection Hv2 as <-. apply negb_decide_false in Hex. lia.
  - rewrite <-Hfee. unfold authorization_fee. apply cooperative_fee_shape. by destruct nx.
Qed.

(** What the next step must find, in the validator's terms. *)
Definition expected_of (c : Chain) : Expected :=
  {| vault_outpoint := chain_outpoint c; vault_prevout := chain_txout c;
     expected_connector := chain_connector c |}.

Lemma sum_outputs_authorization (o c : OutPoint) limit delay hot nx next vs cs :
  sumN (value <$> output (authorization_template o c limit delay hot (then_some nx (next, vs)) cs)) =
  (limit + if nx then next + CONNECTOR_VALUE_SATS else 0)%N.
Proof. destruct nx; cbn -[N.add CONNECTOR_VALUE_SATS]; lia. Qed.

(** The agreement of a manifest and its proposal on which the steps depend. *)
Record agrees (config : VaultConfig) (m : BatchManifest) P (count : nat) : Prop := {
  ag_monthly : monthly_limit_sats m = p_monthly P;
  ag_count : allowance_count m = count;
  ag_months : count ≤ MONTHS_PER_ROLLOVER;
  ag_hot : ∀ h a h', next_receive_address h = (Ok a, h') →
    hot_script_of config (address_to_string a) = Ok (address_script_pubkey a);
}.

Definition authorization_key (P : Proposal) f (j : nat) : Key :=
  resolve f (p_batch_dir P) ++ authorization_names j.

(** A built step is an accepted one where its file is found. *)
Lemma built_step_accepted config m P count delay i addr o v c tx fee p F :
  agrees config m P count → i < count → no_read_fault F →
  authorization_of P delay addr (has_next m i) o v c = Ok (tx, fee, p) →
  (∃ h h', next_receive_address h = (Ok addr, h')) →
  holds_psbt F (authorization_key P F i) p →
  let a := allowance_of (N.of_nat (i + 1)) delay addr (has_next m i) v c tx fee in
  accepted_step config m F (p_batch_dir P) (p_policy P) (p_controller P) delay i a o v c p.
Proof.
  intros [Hm Hc H12 Hhot] Hi Hn (Htx & Ham & Hfit & Hfee & Hrd & Hx & _)%authorization_of_Ok
    (h & h' & Hnext) Hh a.
  assert (unsigned_tx p = tx) as Hu by apply (rd_tx _ _ _ Hrd).
  pose proof (sum_outputs_authorization o (connector_outpoint c) (p_monthly P) delay
    (address_script_pubkey addr) (has_next m i) (value v - p_monthly P - fee)
    (p_vault_script P) (p_controller_script P)) as Hsum. rewrite <-Htx in Hsum.
  pose proof (authorization_file_names i ltac:(lia)) as [Habs Hcomp].
  split.
  - split; [done|]. unfold MONTHS_PER_ROLLOVER in H12. lia.
  - done.
  - done.
  - apply read_held; [done|apply Hrd|]. unfold a. simpl. rewrite (resolve_join _ _ _ _ Habs Hcomp).
    exact Hh.
  - eapply ready_child; [exact Hrd|exact Hx|done|done|done|by rewrite Htx| |done].
    rewrite Hsum. unfold a. simpl. destruct (has_next m i); lia.
  - exists (address_script_pubkey addr). split; [by eapply Hhot|]. rewrite Hu, Htx, Hm.
    unfold hop_value, a. simpl. by rewrite Hm.
  - unfold hop_value, a. rewrite Hm. exact Ham.
  - unfold a. simpl. by rewrite Hu.
  - unfold a. simpl. by rewrite Hu.
Qed.

Lemma build_allowance_run P delay count i c f h a c' f' h' :
  build_allowance P delay count i c (f, h) = (Ok (a, c'), (f', h')) →
  ∃ addr o v cs tx fee p,
    expected_of c = {| vault_outpoint := Some o; vault_prevout := Some v;
                       expected_connector := Some cs |} ∧
    next_receive_address h = (Ok addr, h') ∧
    authorization_of P delay addr (bool_decide (i + 1 < count)) o v cs = Ok (tx, fee, p) ∧
    write_psbt (join (p_batch_dir P) (authorization_file (N.of_nat (i + 1)))) p f = (Ok tt, f') ∧
    next_chain (bool_decide (i + 1 < count)) tx = Ok c' ∧
    a = allowance_of (N.of_nat (i + 1)) delay addr (bool_decide (i + 1 < count)) v cs tx fee.
Proof.
  unfold build_allowance. intros (n & w & [Hn%or_err_Ok ->]%pure_Ok & Hr)%M_bind_Ok.
  unfold then_some in Hn. destruct (bool_decide (i + 1 ≤ 255)); [injection Hn as <-|done].
  apply M_bind_Ok in Hr as (addr & w & (h1 & Hh & ->)%on_hot_Ok & Hr). simpl in Hh.
  apply M_bind_Ok in Hr as (o & w & [Ho%or_err_Ok ->]%pure_Ok & Hr).
  apply M_bind_Ok in Hr as (v & w & [Hv%or_err_Ok ->]%pure_Ok & Hr).
  apply M_bind_Ok in Hr as (cs & w & [Hcs%or_err_Ok ->]%pure_Ok & Hr).
  apply M_bind_Ok in Hr as ([[tx fee] p] & w & [Ha ->]%pure_Ok & Hr).
  apply M_bind_Ok in Hr as ([] & w & (f1 & Hw & ->)%on_fs_Ok & Hr). simpl in Hw.
  apply M_bind_Ok in Hr as (c1 & w & [Hc ->]%pure_Ok & [= <- <- <- <-]).
  exists addr, o, v, cs, tx, fee, p. unfold expected_of. by rewrite Ho, Hv, Hcs.
Qed.

Lemma next_chain_expected m policy i (a : AllowanceStep) o v p tx c delay hot vs cs next oc :
  has_next m i = true → next_chain true tx = Ok c → unsigned_tx p = tx →
  tx = authorization_template o oc (monthly_limit_sats m) delay hot (Some (next, vs)) cs →
  next = hop_value m v a → vs = vault_script_of policy →
  expected_of c = next_expected m policy i a o v p.
Proof.
  intros Hnx Hc Hu Htx -> ->. unfold next_expected. rewrite Hnx, Hu.
  unfold next_chain in Hc. apply bind_Ok in Hc as (out & Hout%index_Ok & [= <-]).
  rewrite Htx in Hout. injection Hout as <-. done.
Qed.

Lemma authorization_key_env P f F j : same_env f F → authorization_key P F j = authorization_key P f j.
Proof. intros He. unfold authorization_key. by rewrite (resolve_env _ _ _ He). Qed.

Lemma authorization_key_inj P f i j :
  i < MONTHS_PER_ROLLOVER → j < MONTHS_PER_ROLLOVER →
  authorization_key P f i = authorization_key P f j → i = j.
Proof. intros Hi Hj [_ Heq]%app_inj_1; [|done]. by apply authorization_names_inj. Qed.

Lemma resolve_authorization P f j :
  j < MONTHS_PER_ROLLOVER →
  resolve f (join (p_batch_dir P) (authorization_file (N.of_nat (j + 1)))) = authorization_key P f j.
Proof. intros Hj. destruct (authorization_file_names j Hj). by apply resolve_join. Qed.

(** A transaction's PSBT as the phone has left it in the batch. *)
Definition written P F (t : BatchTransaction) : Prop :=
  ∃ p, read_psbt F (join (p_batch_dir P) (psbt_file t)) = Ok p ∧
    validate_default_sighashes p = Ok tt ∧ sealed P p (N.to_nat <$> vault_input_indexes t)
      (N.to_nat <$> controller_input_indexes t).

(** All steps from step [i] on: accepted wherever their files are found. *)
Lemma build_allowances_accepted config m P count delay n i c f h l f' h' :
  agrees config m P count → no_read_fault f → i + n = count →
  build_allowances P delay count (seq i n) c (f, h) = (Ok l, (f', h')) →
  same_env f f' ∧ length l = n ∧
  (∀ k, (∀ j, i ≤ j < count → k ≠ authorization_key P f j) → file_at f' k = file_at f k) ∧
  ∀ F, same_env f F →
    (∀ j, i ≤ j < count → file_at F (authorization_key P f j) = file_at f' (authorization_key P f j)) →
    accepted_chain config m F (p_batch_dir P) (p_policy P) (p_controller P) delay i l
      (expected_of c) ∧
    Forall (λ a, written P F (authorization a)) l.
Proof.
  intros Hag Hn. revert i c f h l f' h' Hn. induction n as [|n IH]; intros i c f h l f' h' Hn Hin Hb.
  { injection Hb as <- <- <-. by repeat split. }
  simpl in Hb. apply M_bind_Ok in Hb as ([a c1] & [f1 h1] & Ha & Hb).
  apply M_bind_Ok in Hb as (l1 & [f2 h2] & Hl & [= <- <- <-]).
  apply build_allowance_run in Ha
    as (addr & o & v & cs & tx & fee & p & Hc & Hh & Hau & Hw & Hnc & Heqa).
  pose proof (ag_months _ _ _ _ Hag) as H12.
  apply write_psbt_run in Hw as (He1 & Hholds & Ho1).
  rewrite (resolve_authorization P f i) in Hholds, Ho1 by lia.
  destruct (IH (S i) c1 f1 h1 l1 f2 h2) as (He2 & Hlen & Ho2 & Hacc); [|lia|done|].
  { by apply (same_env_faults _ _ He1). }
  pose proof (λ j, authorization_key_env P f f1 j He1) as Hke.
  setoid_rewrite Hke in Ho2. setoid_rewrite Hke in Hacc.
  split; [by eapply same_env_trans|]. split; [simpl; lia|]. split.
  { intros k Hk. rewrite Ho2, Ho1 by (intros; apply Hk; lia). done. }
  intros F HeF HF.
  assert (has_next m i = bool_decide (i + 1 < count)) as Hnx
    by (unfold has_next; by rewrite (ag_count _ _ _ _ Hag)).
  assert (holds_psbt F (authorization_key P F i) p) as HhF.
  { rewrite (authorization_key_env P f F) by done. unfold holds_psbt. rewrite HF by lia. rewrite Ho2; [done|].
    intros j Hj Heq%authorization_key_inj; lia. }
  rewrite <-Hnx in *.
  assert (no_read_fault F) as HnF by by apply (same_env_faults _ _ HeF).
  pose proof (built_step_accepted config m P count delay i addr o v cs tx fee p F Hag
    ltac:(lia) HnF Hau ltac:(by exists h, h1) HhF) as Hst. cbv zeta in Hst. rewrite <-Heqa in Hst.
  apply authorization_of_Ok in Hau as (Htx & _ & _ & _ & Hrd & _ & Hseal).
  assert (same_env f1 F) as He1F by (destruct He1, HeF; split; congruence).
  destruct (Hacc F He1F) as [Hch Hf]; [intros j Hj; apply HF; lia|].
  split; [|constructor; [|done]].
  - simpl. exists o, v, cs, p. split; [done|]. split; [done|].
    destruct l1 as [|a1 l1]; [done|]. simpl in Hlen.
    assert (has_next m i = true) as Hnt by (rewrite Hnx; apply bool_decide_eq_true; lia).
    rewrite Hnt in *. erewrite <-(next_chain_expected m (p_policy P) i a o v p tx c1); [exact Hch|..];
      [exact Hnt|exact Hnc|apply (rd_tx _ _ _ Hrd)| |reflexivity|reflexivity].
    rewrite Htx, (ag_monthly _ _ _ _ Hag), Heqa. unfold hop_value. simpl.
    by rewrite (ag_monthly _ _ _ _ Hag).
  - exists p. split; [apply Hst|]. split; [apply Hrd|]. rewrite Heqa. exact Hseal.
Qed.
End chain_build.

(** * The emergency path *)

Section emergency_build.
Context `{Laws : BitcoinLaws, !KeyLib}.
Implicit Types (P : Proposal) (p : Psbt) (f F : FS).

Lemma emergency_amounts_Ok P o v delay addr wf st tf ch :
  emergency_amounts P o v delay addr = Ok (wf, st, tf, ch) →
  emergency_withdrawal_fee (p_policy P) (p_controller P) null_outpoint (p_emergency P) delay
    (address_script_pubkey addr) = Ok wf ∧
  emergency_trigger_fee (p_policy P) (p_controller P) o st (minimal_non_dust (p_vault_script P))
    (p_vault_script P) = Ok tf ∧
  (st + CONNECTOR_VALUE_SATS = p_emergency P + wf)%N ∧ (p_emergency P + wf ≤ U64_MAX)%N ∧
  (value v = st + tf + ch)%N ∧ (minimal_non_dust (p_vault_script P) ≤ ch)%N.
Proof.
  unfold emergency_amounts. intros (w & Hw & Hr)%bind_Ok.
  apply bind_Ok in Hr as (s & Hs%or_err_Ok & Hr). apply bind_Ok in Hr as ([] & _ & Hr).
  apply bind_Ok in Hr as (t & Ht & Hr). apply bind_Ok in Hr as (c & Hc%or_err_Ok & Hr).
  apply bind_Ok in Hr as ([] & Hd%bail_if_Ok%N.ltb_ge & [= <- <- <- <-]).
  apply bind_Some in Hs as (x & [-> Hx]%checked_add_Some & [-> Hs]%checked_sub_Some).
  apply bind_Some in Hc as (y & [-> Hy]%checked_sub_Some & [-> Hc]%checked_sub_Some).
  split_and!; [done|done|lia|lia|lia|done].
Qed.

Definition trigger_key (P : Proposal) f : Key :=
  resolve f (p_batch_dir P) ++ ["emergency"; "trigger.psbt"].
Definition withdrawal_key (P : Proposal) f : Key :=
  resolve f (p_batch_dir P) ++ ["emergency"; "withdrawal.psbt"].

Lemma resolve_trigger P f :
  resolve f (join (p_batch_dir P) "emergency/trigger.psbt") = trigger_key P f.
Proof. by apply resolve_join. Qed.
Lemma resolve_withdrawal P f :
  resolve f (join (p_batch_dir P) "emergency/withdrawal.psbt") = withdrawal_key P f.
Proof. by apply resolve_join. Qed.

(** What the proposal and its manifest share. *)
Record emergency_setup (config : VaultConfig) (m : BatchManifest) P (rtx : Transaction)
    (delay : N) (addr : Address) (v : TxOut) (vout : N) : Prop := {
  es_limit : emergency_access_limit_sats m = p_emergency P;
  es_source : output rtx !! N.to_nat (remainder_vout m) = Some v;
  es_vout : emergency_connector_vout m = Some vout;
  es_fits : (value v + CONNECTOR_VALUE_SATS ≤ U64_MAX)%N;
  es_delay : emergency_delay_sequence = Ok delay;
  es_hot : hot_script_of config (address_to_string addr) = Ok (address_script_pubkey addr);
}.

Lemma build_emergency_run P o v c delay addr f e f' :
  build_emergency_access P o v c delay addr f = (Ok e, f') →
  ∃ wf st tf ch pt pw f1,
    let ttx := emergency_trigger_template o (connector_outpoint c) st ch (p_vault_script P)
      (p_controller_script P) in
    let wtx := emergency_withdrawal_template (new_outpoint (compute_txid ttx) 0)
      (new_outpoint (compute_txid ttx) 2) (p_emergency P) delay (address_script_pubkey addr) in
    emergency_amounts P o v delay addr = Ok (wf, st, tf, ch) ∧
    signed_child P ttx v = Ok pt ∧
    signed_child P wtx {| value := st; script_pubkey := p_vault_script P |} = Ok pw ∧
    write_psbt (join (p_batch_dir P) "emergency/trigger.psbt") pt f = (Ok tt, f1) ∧
    write_psbt (join (p_batch_dir P) "emergency/withdrawal.psbt") pw f1 = (Ok tt, f') ∧
    e = {| amount_sats := p_emergency P; emergency_delay_seconds := EMERGENCY_ACCESS_DELAY_SECONDS;
           emergency_delay_sequence_of := delay; emergency_hot_address := address_to_string addr;
           staging_vout := 0; staging_value_sats := st; vault_change_vout := 1;
           vault_change_value_sats := ch; trigger_connector := c;
           withdrawal_connector := connector_at (compute_txid ttx) 2;
           trigger := child_transaction "emergency/trigger.psbt" ttx tf;
           withdrawal := child_transaction "emergency/withdrawal.psbt" wtx wf |}.
Proof.
  unfold build_emergency_access.
  intros ([[[wf st] tf] ch] & w & [Ha ->]%pure_Ok & Hr)%M_bind_Ok.
  apply M_bind_Ok in Hr as (pt & w & [Ht ->]%pure_Ok & Hr).
  apply M_bind_Ok in Hr as (so & w & [[= <-]%index_Ok ->]%pure_Ok & Hr).
  apply M_bind_Ok in Hr as (pw & w & [Hw ->]%pure_Ok & Hr).
  apply M_bind_Ok in Hr as ([] & f1 & Hw1 & Hr). apply M_bind_Ok in Hr as ([] & f2 & Hw2 & [= <- <-]).
  by exists wf, st, tf, ch, pt, pw, f1.
Qed.

Lemma built_trigger_accepted config m P rtx delay addr v vout st ch tf e pt F :
  emergency_setup config m P rtx delay addr v vout → no_read_fault F →
  let rv := new_outpoint (compute_txid rtx) (remainder_vout m) in
  let ttx := emergency_trigger_template rv (new_outpoint (compute_txid rtx) vout) st ch
    (p_vault_script P) (p_controller_script P) in
  emergency_trigger_fee (p_policy P) (p_controller P) rv st (minimal_non_dust (p_vault_script P))
    (p_vault_script P) = Ok tf →
  (value v = st + tf + ch)%N → (minimal_non_dust (p_vault_script P) ≤ ch)%N →
  signed_child P ttx v = Ok pt → holds_psbt F (trigger_key P F) pt →
  trigger_connector e = connector_at (compute_txid rtx) vout →
  withdrawal_connector e = connector_at (compute_txid ttx) 2 →
  staging_value_sats e = st → vault_change_value_sats e = ch →
  trigger e = child_transaction "emergency/trigger.psbt" ttx tf →
  accepted_trigger m e F (p_batch_dir P) (p_policy P) (p_controller P) rtx v vout pt.
Proof.
  intros [_ Hsrc Hvout Hfit _ _] Hn rv ttx Hfee Hv Hd (Hrd & Hx & _)%signed_child_Ok Hh Htc Hwc Hst Hch Htr.
  assert (unsigned_tx pt = ttx) as Hu by apply (rd_tx _ _ _ Hrd).
  split; try done.
  - rewrite Htr. simpl. apply read_held; [done|apply Hrd|]. by rewrite resolve_trigger.
  - rewrite Htr. eapply ready_child; [exact Hrd|exact Hx|done|done|done|done| |done].
    cbn -[N.add CONNECTOR_VALUE_SATS]. lia.
  - rewrite Hu, Hst, Hch. done.
  - rewrite Hch. done.
  - by rewrite Hu.
  - rewrite Hu, Htr. change (fee_sats (child_transaction _ ttx tf)) with tf. rewrite <-Hfee.
    unfold emergency_trigger_fee. by apply cooperative_fee_shape.
Qed.

Lemma built_withdrawal_accepted m P delay addr st wf e ttx pw F :
  emergency_access_limit_sats m = p_emergency P → no_read_fault F →
  output ttx !! 0 = Some {| value := st; script_pubkey := p_vault_script P |} →
  let wtx := emergency_withdrawal_template (new_outpoint (compute_txid ttx) 0)
    (new_outpoint (compute_txid ttx) 2) (p_emergency P) delay (address_script_pubkey addr) in
  emergency_withdrawal_fee (p_policy P) (p_controller P) null_outpoint (p_emergency P) delay
    (address_script_pubkey addr) = Ok wf →
  (st + CONNECTOR_VALUE_SATS = p_emergency P + wf)%N → (p_emergency P + wf ≤ U64_MAX)%N →
  signed_child P wtx {| value := st; script_pubkey := p_vault_script P |} = Ok pw →
  holds_psbt F (withdrawal_key P F) pw →
  staging_vout e = 0%N → staging_value_sats e = st →
  withdrawal e = child_transaction "emergency/withdrawal.psbt" wtx wf →
  accepted_withdrawal m e F (p_batch_dir P) (p_policy P) (p_controller P) delay
    (address_script_pubkey addr) ttx {| value := st; script_pubkey := p_vault_script P |} pw.
Proof.
  intros Hl Hn Hsrc wtx Hfee Hv Hfit (Hrd & Hx & _)%signed_child_Ok Hh Hsv Hst Htr.
  assert (unsigned_tx pw = wtx) as Hu by apply (rd_tx _ _ _ Hrd).
  split; rewrite ?Hsv, ?Hst; try done.
  - rewrite Htr. simpl. apply read_held; [done|apply Hrd|]. by rewrite resolve_withdrawal.
  - rewrite Htr. eapply ready_child; [exact Hrd|exact Hx|done|done|done|done| |].
    + cbn -[N.add CONNECTOR_VALUE_SATS]. lia.
    + cbn -[N.add CONNECTOR_VALUE_SATS]. lia.
  - by rewrite Hu, Hl.
  - rewrite Htr, Hl. unfold checked_add. change (fee_sats (child_transaction _ wtx wf)) with wf.
    by rewrite Hv.
  - rewrite Hu, Htr. change (fee_sats (child_transaction _ wtx wf)) with wf. rewrite <-Hfee.
    unfold emergency_withdrawal_fee. by apply cooperative_fee_shape.
Qed.

Lemma build_emergency_accepted config m P rtx delay addr v vout f e f' :
  emergency_setup config m P rtx delay addr v vout → no_read_fault f →
  build_emergency_access P (new_outpoint (compute_txid rtx) (remainder_vout m)) v
    (connector_at (compute_txid rtx) vout) delay addr f = (Ok e, f') →
  same_env f f' ∧
  (∀ k, k ≠ trigger_key P f → k ≠ withdrawal_key P f → file_at f' k = file_at f k) ∧
  ∀ F, same_env f F → file_at F (trigger_key P f) = file_at f' (trigger_key P f) →
    file_at F (withdrawal_key P f) = file_at f' (withdrawal_key P f) →
    ∃ staged pt pw, accepted_emergency config m e F (p_batch_dir P) (p_policy P) (p_controller P)
        rtx delay (address_script_pubkey addr) v staged vout pt pw ∧
      written P F (trigger e) ∧ written P F (withdrawal e).
Proof.
  intros Hes Hn (wf & st & tf & ch & pt & pw & f1 & Ha & Ht & Hw & Hw1 & Hw2 & He)%build_emergency_run.
  apply emergency_amounts_Ok in Ha as (Hwf & Htf & Hst & Hfit & Hv & Hd).
  apply write_psbt_run in Hw1 as (He1 & Hh1 & Ho1). apply write_psbt_run in Hw2 as (He2 & Hh2 & Ho2).
  rewrite resolve_trigger in *. rewrite resolve_withdrawal in *. simpl connector_outpoint in *.
  assert (withdrawal_key P f1 = withdrawal_key P f) as Hk
    by (unfold withdrawal_key; by rewrite (resolve_env _ _ _ He1)). rewrite Hk in *.
  split; [by eapply same_env_trans|]. split.
  { intros k Hk1 Hk2. by rewrite Ho2, Ho1. }
  intros F HeF Hf1 Hf2. pose proof (same_env_faults _ _ HeF Hn) as HnF.
  assert (trigger_key P F = trigger_key P f ∧ withdrawal_key P F = withdrawal_key P f) as [Hk1 Hk2]
    by (unfold trigger_key, withdrawal_key; by rewrite (resolve_env _ _ _ HeF)).
  assert (holds_psbt F (trigger_key P F) pt) as Hht.
  { unfold holds_psbt. rewrite Hk1, Hf1, Ho2; [done|]. by intros [_ [=]]%app_inj_1. }
  assert (holds_psbt F (withdrawal_key P F) pw) as Hhw.
  { unfold holds_psbt. by rewrite Hk2, Hf2. }
  exists {| value := st; script_pubkey := p_vault_script P |}, pt, pw.
  pose proof (signed_child_Ok _ _ _ _ Ht) as (Hrt & _ & Hst1).
  pose proof (signed_child_Ok _ _ _ _ Hw) as (Hrw & _ & Hst2).
  split; [|split; [exists pt|exists pw]; (split; [|split; [first [apply Hrt|apply Hrw]|by rewrite He]]);
           rewrite He; (apply read_held; [done|first [apply Hrt|apply Hrw]|]); simpl;
           by rewrite ?resolve_trigger, ?resolve_withdrawal].
  split.
  - apply Hes.
  - rewrite He. split_and!; try done. simpl. by rewrite (es_limit _ _ _ _ _ _ _ _ Hes).
  - rewrite He. apply Hes.
  - eapply built_trigger_accepted; try done; rewrite He; done.
  - rewrite (rd_tx _ _ _ Hrt). eapply built_withdrawal_accepted; try done; [apply Hes|..]; by rewrite He.
Qed.
End emergency_build.

(** * The rollover *)

Section rollover_build.
Context `{Laws : BitcoinLaws, !KeyLib}.
Implicit Types (P : Proposal) (p : Psbt) (f F : FS).

Lemma sub_u64_Ok a b c : sub_u64 a b = Ok c ↔ c = (a - b)%N ∧ (b ≤ a)%N.
Proof. unfold sub_u64. rewrite unwrap_Ok. apply checked_sub_Some. Qed.
Lemma mul_u64_Ok a b c : mul_u64 a b = Ok c ↔ c = (a * b)%N ∧ (a * b ≤ U64_MAX)%N.
Proof. unfold mul_u64. rewrite unwrap_Ok. apply checked_mul_Some. Qed.

(** The rollover of a selection. *)
Definition rollover_of P (inputs : list TxIn) (s : Selection) : Transaction :=
  let '(count, allowance_value, fee, remainder) := s in
  let has := bool_decide (0 < count) in
  rollover_template inputs (then_some has allowance_value) remainder (p_vault_script P)
    (p_controller_script P) has (p_has_emergency P).

(** What a selection promises of its rollover. *)
Record selection_ok P (inputs : list TxIn) (vis cis : list nat)
    (total minimum cont final : N) (s : Selection) : Prop := {
  so_count : s.1.1.1 ≤ MONTHS_PER_ROLLOVER ∧ (p_monthly P = 0%N → s.1.1.1 = 0);
  so_value : if bool_decide (0 < s.1.1.1)
    then allowance_chain_value s.1.1.1 (p_monthly P) cont final = Ok s.1.1.2
    else s.1.1.2 = 0%N;
  so_fee : cooperative_fee (rollover_of P inputs s) (p_policy P) vis (p_controller P) cis
    = Ok s.1.2;
  so_amounts : total = (s.1.1.2 + s.2 + s.1.2 + CONNECTOR_VALUE_SATS *
    N.of_nat (bool_to_nat (bool_decide (0 < s.1.1.1)%nat) + bool_to_nat (p_has_emergency P)))%N;
  so_remainder : (minimum ≤ s.2)%N;
}.

Lemma sum_rollover_outputs (inputs : list TxIn) av rem vs cs mc ec :
  sumN (value <$> output (rollover_template inputs av rem vs cs mc ec)) =
  (default 0 av + rem + CONNECTOR_VALUE_SATS * N.of_nat (bool_to_nat mc + bool_to_nat ec))%N.
Proof. destruct av, mc, ec; cbn -[N.add N.mul CONNECTOR_VALUE_SATS N.of_nat]; lia. Qed.

Lemma select_rollover_Ok P inputs vis cis total minimum cont final n s :
  select_rollover P inputs vis cis total minimum cont final n = Ok (Some s) →
  p_monthly P ≠ 0%N → n ≤ MONTHS_PER_ROLLOVER →
  selection_ok P inputs vis cis total minimum cont final s ∧ 0 < s.1.1.1 ≤ n.
Proof.
  intros Hs Hm. induction n as [|n IH]; intros Hn; [done|]. simpl in Hs.
  apply bind_Ok in Hs as (av & Hav & Hs). apply bind_Ok in Hs as (fee & Hfee & Hs).
  apply bind_Ok in Hs as (co & [-> _]%mul_u64_Ok & Hs).
  apply bind_Ok in Hs as (req & Hreq%or_err_Ok & Hs).
  destruct (N.leb_spec req total) as [Hle|Hlt]; [clear IH|destruct IH as [? ?]; [done|lia|split; [done|lia]]].
  apply bind_Some in Hreq as (x & [-> Hx]%checked_add_Some & Hreq).
  apply bind_Some in Hreq as (y & [-> Hy]%checked_add_Some & [-> Hz]%checked_add_Some).
  apply bind_Ok in Hs as (r1 & [-> H1]%sub_u64_Ok & Hs).
  apply bind_Ok in Hs as (r2 & [-> H2]%sub_u64_Ok & Hs).
  apply bind_Ok in Hs as (r3 & [-> H3]%sub_u64_Ok & [= <-]). simpl.
  split; [|lia]. split; unfold rollover_of; simpl; rewrite ?(bool_decide_eq_true_2 (0 < S n)) by lia.
  - split; [done|]. by intros ?.
  - done.
  - rewrite <-Hfee. by apply cooperative_fee_shape.
  - simpl (bool_to_nat true). lia.
  - lia.
Qed.

Lemma plain_rollover_Ok P inputs vis cis total minimum cont final s :
  plain_rollover P inputs vis cis total = Ok s → (minimum ≤ s.2)%N →
  selection_ok P inputs vis cis total minimum cont final s.
Proof.
  unfold plain_rollover. intros (fee & Hfee & Hs)%bind_Ok Hmin.
  apply bind_Ok in Hs as (co & [-> _]%mul_u64_Ok & Hs).
  apply bind_Ok in Hs as (r & Hr%or_err_Ok & [= <-]).
  apply bind_Some in Hr as (x & [-> Hx]%checked_sub_Some & [-> Hy]%checked_sub_Some).
  split; unfold rollover_of; simpl in *.
  - split; [unfold MONTHS_PER_ROLLOVER; lia|done].
  - done.
  - rewrite <-Hfee. by apply cooperative_fee_shape.
  - lia.
  - done.
Qed.

Lemma choose_rollover_Ok P inputs vis cis total minimum cont final s :
  choose_rollover P inputs vis cis total minimum cont final = Ok s →
  selection_ok P inputs vis cis total minimum cont final s.
Proof.
  unfold choose_rollover. intros (sel & Hsel & Hs)%bind_Ok.
  apply bind_Ok in Hs as (s' & Hs' & Hs). apply bind_Ok in Hs as ([] & Hmin%bail_if_Ok%N.ltb_ge & [= <-]).
  destruct sel as [s0|].
  - injection Hs' as ->. destruct (0 <? p_monthly P)%N eqn:Hm; [|done]. apply N.ltb_lt in Hm.
    apply select_rollover_Ok in Hsel as [Hok _]; [exact Hok|intros Hz; rewrite Hz in Hm; by apply N.lt_irrefl in Hm|done].
  - by apply plain_rollover_Ok.
Qed.

Lemma selection_conserves P inputs vis cis total minimum cont final s :
  selection_ok P inputs vis cis total minimum cont final s →
  total = (sumN (value <$> output (rollover_of P inputs s)) + s.1.2)%N.
Proof.
  intros [_ Hv _ Ha _]. destruct s as [[[count av] fee] rem]. unfold rollover_of.
  rewrite sum_rollover_outputs. cbn [fst snd] in *.
  destruct (bool_decide (0 < count)); cbn [then_some default id]; lia. 
Qed.

Lemma Forall2_seq {A} (Q : nat → A → Prop) k (l : list A) :
  (∀ i o, l !! i = Some o → Q (k + i) o) → Forall2 Q (seq k (length l)) l.
Proof.
  revert k. induction l as [|x l IH]; intros k HQ; [constructor|]. simpl. constructor.
  - rewrite <-(Nat.add_0_r k). by apply HQ.
  - apply IH. intros i o Hi. rewrite Nat.add_succ_comm. by apply HQ.
Qed.

Lemma to_u32s_small l : Forall (λ i, (N.of_nat i < 4294967296)%N) l → N.to_nat <$> to_u32s l = l.
Proof.
  induction 1 as [|i l Hi Hl IH]; [done|]. csimpl. f_equal; [|exact IH].
  unfold as_u32. by rewrite N.mod_small, Nat2N.id.
Qed.

(** The two roles of a proposal's inputs. *)
Lemma proposal_roles p (tx : Transaction) (us cs : list VaultUtxo) vscript cscript :
  ready p tx ((utxo_txout <$> us) ++ (utxo_txout <$> cs)) →
  Forall (λ u, script_pubkey (utxo_txout u) = vscript) us →
  Forall (λ u, script_pubkey (utxo_txout u) = cscript) cs →
  role_outputs p (vault_positions us) vscript (utxo_txout <$> us) ∧
  role_outputs p (controller_positions us cs) cscript (utxo_txout <$> cs).
Proof.
  intros [_ _ Hf _] Hus Hcs. unfold role_outputs, vault_positions, controller_positions.
  rewrite <-(length_fmap utxo_txout cs).
  split; [rewrite <-(length_fmap utxo_txout us)|]; apply Forall2_seq; intros i o Ho.
  - assert (((utxo_txout <$> us) ++ (utxo_txout <$> cs)) !! i = Some o) as Hi
      by by apply lookup_app_l_Some.
    destruct (Forall2_lookup_r _ _ _ _ _ Hf Hi) as (x & Hx & Hw). exists x. split; [done|].
    split; [done|]. apply list_lookup_fmap_Some in Ho as (u & -> & Hu).
    by eapply (Forall_lookup_1 _ _ _ _ Hus).
  - assert (((utxo_txout <$> us) ++ (utxo_txout <$> cs)) !! (length us + i) = Some o) as Hi.
    { rewrite lookup_app_r by (rewrite length_fmap; lia). rewrite length_fmap.
      by replace (length us + i - length us) with i by lia. }
    destruct (Forall2_lookup_r _ _ _ _ _ Hf Hi) as (x & Hx & Hw).
    exists x. split; [done|]. split; [done|].
    apply list_lookup_fmap_Some in Ho as (u & -> & Hu).
    by eapply (Forall_lookup_1 _ _ _ _ Hcs).
Qed.
End rollover_build.

(** * The whole proposal *)

Section proposal_build.
Context `{Laws : BitcoinLaws, !KeyLib} `{!Json BatchManifest} {Hot : Type} `{!HotAddressProvider Hot}.
Implicit Types (P : Proposal) (p : Psbt) (f F : FS).

Definition rollover_key P f : Key := resolve f (p_batch_dir P) ++ ["rollover.psbt"].
Lemma resolve_rollover P f : resolve f (join (p_batch_dir P) "rollover.psbt") = rollover_key P f.
Proof. by apply resolve_join. Qed.

(** The phone's signature on the controllers that a rollover renews. *)
Definition connector_signed P p (ids : list nat) : Prop :=
  (∃ leaf, controller_leaf (p_controller P) PhonePath = Ok leaf ∧
    Forall (has_sig (cleaf_hash leaf) (x_only_public_key (vault_keypair (p_phone P))) p) ids) ∧
  ∃ d, controller_definite_descriptor (p_controller P) = Ok d ∧ Forall (described d p) ids.

(** The phone's rollover PSBT. *)
Lemma build_rollover_run P tx us cs f f' :
  build_rollover P tx us cs f = (Ok tt, f') →
  ∃ p, ready p tx ((utxo_txout <$> us) ++ (utxo_txout <$> cs)) ∧
    sealed P p (vault_positions us) (controller_positions us cs) ∧ connector_signed P p (controller_positions us cs) ∧
    same_env f f' ∧ holds_psbt f' (rollover_key P f) p ∧
    ∀ k, k ≠ rollover_key P f → file_at f' k = file_at f k.
Proof.
  unfold build_rollover.
  intros (p0 & w & [Hp0 ->]%pure_Ok & Hr)%M_bind_Ok.
  apply M_bind_Ok in Hr as (p1 & w & [Hp1 ->]%pure_Ok & Hr).
  apply M_bind_Ok in Hr as (p2 & w & [Hp2%sign_controller_Ok ->]%pure_Ok & Hr).
  assert (sealed P p1 (vault_positions us) (controller_positions us cs)) as Hseal.
  { eapply sealed_signed; [exact Hp0| | |exact Hp1]; intros i Hi%elem_of_seq;
      rewrite length_app, !length_fmap; [lia|]. split; [|lia]. intros Hv%elem_of_seq. lia. }
  pose proof (se_connectors _ _ _ _ Hseal) as (d & Hd & Hdesc).
  apply create_policy_psbt_prepared, prepared_ready in Hp0. apply sign_vault_Ok in Hp1.
  apply sign_vault_psbt_inputs_Ok in Hp1 as (_ & l1 & _ & Hs1 & _).
  apply sign_controller_psbt_inputs_Ok in Hp2 as (_ & l2 & Hl2 & Hs2).
  apply write_psbt_run in Hr as (He & Hh & Ho). rewrite resolve_rollover in *.
  exists p2. split; [eapply ready_same, ready_same; [apply Hs2|exact Hs1|done]|].
  split; [by eapply sealed_kept|]. split; [|done]. split.
  - exists l2. split; [done|]. apply Forall_forall. intros i Hi. by eapply signed_has_sig.
  - exists d. split; [done|]. eapply Forall_impl; [exact Hdesc|]. intros i.
    apply described_same, Hs2.
Qed.

(** What an opened proposal has checked. *)
Record opened (config : VaultConfig) (us cs : list VaultUtxo) (limits : PolicyLimits)
    (dir : Path) (phone : DeviceKeys) P : Prop := {
  op_policy : (n ← bitcoin_network config; from_descriptor_for_network (vault_descriptor config) n)
    = Ok (p_policy P);
  op_controller : controller_policy config = Ok (p_controller P);
  op_dir : p_batch_dir P = dir;
  op_phone : p_phone P = phone ∧ key_to_string (vault_pubkey phone) = phone_vault_pubkey config;
  op_limits : p_monthly P = limits_monthly_limit_sats limits ∧
    p_emergency P = limits_emergency_access_limit_sats limits;
  op_vault : Forall (λ u, script_pubkey (utxo_txout u) = p_vault_script P) us;
  op_connectors : Forall (λ u, script_pubkey (utxo_txout u) = p_controller_script P) cs;
}.

Lemma existsb_neg_false {A} (Q : A → Prop) `{!∀ x, Decision (Q x)} (l : list A) :
  existsb (λ x, negb (bool_decide (Q x))) l = false ↔ Forall Q l.
Proof.
  induction l as [|x l IH]; simpl; [by split; [constructor|]|].
  rewrite orb_false_iff, negb_decide_false, IH, Forall_cons_iff. done.
Qed.

Lemma open_proposal_Ok config us cs limits dir phone P :
  open_proposal config us cs limits dir phone = Ok P → opened config us cs limits dir phone P.
Proof.
  unfold open_proposal. intros ([] & Hpk%bail_neg & Hr)%bind_Ok.
  apply bind_Ok in Hr as (n & Hn & Hr). apply bind_Ok in Hr as (pol & Hpol & Hr).
  apply bind_Ok in Hr as (con & Hcon & Hr).
  apply bind_Ok in Hr as ([] & Hv%bail_if_Ok%existsb_neg_false & Hr).
  apply bind_Ok in Hr as ([] & Hc%bail_if_Ok%existsb_neg_false & [= <-]).
  split; try done. by ok_step (exact Hn).
Qed.

Lemma checked_input_sum_Ok us s :
  checked_input_sum us = Ok s → s = sumN (value <$> (utxo_txout <$> us)).
Proof.
  unfold checked_input_sum. intros ->%try_fold_sum_Ok. rewrite N.add_0_l. f_equal.
  by rewrite <-list_fmap_compose.
Qed.

Lemma minimum_remainder_dust P staging minimum :
  minimum_remainder P staging = Ok minimum → (minimal_non_dust (p_vault_script P) ≤ minimum)%N.
Proof.
  unfold minimum_remainder. case_bool_decide; [by intros [= <-]|].
  intros (fee & _ & Hm%or_err_Ok)%bind_Ok.
  apply bind_Some in Hm as (x & _ & [-> _]%checked_add_Some). lia.
Qed.

Lemma plan_rollover_Ok P us cs total staging delay s tx :
  plan_rollover P us cs total staging delay = Ok (s, tx) →
  tx = rollover_of P (input_template us cs) s ∧
  ∃ minimum cont final,
    (minimal_non_dust (p_vault_script P) ≤ minimum)%N ∧
    authorization_fees P delay = Ok (cont, final) ∧
    minimum_remainder P staging = Ok minimum ∧
    choose_rollover P (input_template us cs) (vault_positions us) (controller_positions us cs)
      total minimum cont final = Ok s.
Proof.
  unfold plan_rollover. intros (minimum & Hm & Hr)%bind_Ok.
  apply bind_Ok in Hr as ([cont final] & Hf & Hr). apply bind_Ok in Hr as (s' & Hs & Hr).
  destruct s' as [[[count av] fee] rem]. injection Hr as <- <-. split; [done|].
  exists minimum, cont, final. split_and!; [by eapply minimum_remainder_dust|done|done|done].
Qed.

(** A successful build, step by step. *)
Record built (config : VaultConfig) (us cs : list VaultUtxo) (now : Z) (limits : PolicyLimits)
    (dir : Path) (phone : DeviceKeys) P (hot : option Address) (s : Selection)
    (tx : Transaction) (vsum csum staging ed md : N) (chain : Chain) (l : list AllowanceStep)
    (e : option EmergencyAccessPolicy) (f1 f2 f3 f4 f5 : FS) (h h1 h2 : Hot)
    (m : BatchManifest) : Prop := {
  bu_opened : opened config us cs limits dir phone P;
  bu_nonempty : us ≠ [];
  bu_sums : checked_input_sum us = Ok vsum ∧ checked_input_sum cs = Ok csum ∧
    (vsum + csum ≤ U64_MAX)%N;
  bu_hot : if p_has_emergency P then ∃ a, hot = Some a ∧ next_receive_address h = (Ok a, h1)
           else hot = None ∧ h1 = h;
  bu_delays : emergency_delay_sequence = Ok ed ∧ monthly_delay_sequence = Ok md;
  bu_staging : staging_value P ed hot = Ok staging;
  bu_plan : plan_rollover P us cs (vsum + csum) staging md = Ok (s, tx);
  bu_rollover : build_rollover P tx us cs f1 = (Ok tt, f2);
  bu_chain : initial_chain tx (bool_decide (0 < s.1.1.1))
    (monthly_connector_vout_of (bool_decide (0 < s.1.1.1))) = Ok chain;
  bu_allowances : build_allowances P md s.1.1.1 (seq 0 s.1.1.1) chain (f2, h1) = (Ok l, (f3, h2));
  bu_emergency : build_emergency P tx (bool_decide (0 < s.1.1.1)) ed hot f3 = (Ok e, f4);
  bu_manifest : m = proposal_manifest config P now us cs vsum csum (vsum + csum) s tx l e;
  bu_written : write_json (join dir "manifest.json") m f4 = (Ok tt, f5);
}.

Lemma empty_batch_dir_same dir msg f f' u : empty_batch_dir dir msg f = (Ok u, f') → f' = f.
Proof.
  unfold empty_batch_dir. intros (f0 & f1 & [= <- <-] & Hr)%M_bind_Ok.
  destruct (exists_ f dir); [by apply pure_Ok in Hr as [_ ->]|by injection Hr].
Qed.

Lemma build_proposal_run config us cs now limits dir phone f h m F h' :
  build_policy_proposal_with_connectors config us cs now limits dir phone (f, h) = (Ok m, (F, h')) →
  ∃ P hot s tx vsum csum staging ed md chain l e f1 f2 f3 f4 h1,
    create_dir_all dir f = (Ok tt, f1) ∧
    built config us cs now limits dir phone P hot s tx vsum csum staging ed md chain l e
      f1 f2 f3 f4 F h h1 h' m.
Proof.
  unfold build_policy_proposal_with_connectors.
  intros ([] & w & [Hne%bail_if_Ok%bool_decide_eq_false ->]%pure_Ok & Hr)%M_bind_Ok.
  apply M_bind_Ok in Hr as (u & w & (f0 & Hd & ->)%on_fs_Ok & Hr). simpl in Hd.
  apply empty_batch_dir_same in Hd as ->.
  apply M_bind_Ok in Hr as ([] & w & (f1 & Hf1 & ->)%on_fs_Ok & Hr). simpl in Hf1.
  apply M_bind_Ok in Hr as (P & w & [HP ->]%pure_Ok & Hr). apply open_proposal_Ok in HP.
  apply M_bind_Ok in Hr as (vsum & w & [Hvs ->]%pure_Ok & Hr).
  apply M_bind_Ok in Hr as (csum & w & [Hcs ->]%pure_Ok & Hr).
  apply M_bind_Ok in Hr as (total & w & [[-> Htot]%or_err_Ok%checked_add_Some ->]%pure_Ok & Hr).
  apply M_bind_Ok in Hr as (hot & [fh h1] & Hhot & Hr).
  assert (fh = f1 ∧ if p_has_emergency P
    then ∃ a, hot = Some a ∧ next_receive_address h = (Ok a, h1) else hot = None ∧ h1 = h)
    as [-> Hhot'].
  { destruct (p_has_emergency P); [|by injection Hhot as <- <- <-].
    apply M_bind_Ok in Hhot as (a & w & (hx & Ha & ->)%on_hot_Ok & [= <- <- <-]). eauto. }
  apply M_bind_Ok in Hr as (ed & w & [Hed ->]%pure_Ok & Hr).
  apply M_bind_Ok in Hr as (staging & w & [Hst ->]%pure_Ok & Hr).
  apply M_bind_Ok in Hr as (md & w & [Hmd ->]%pure_Ok & Hr).
  apply M_bind_Ok in Hr as ([s tx] & w & [Hplan ->]%pure_Ok & Hr).
  apply M_bind_Ok in Hr as ([] & w & (f2 & Hf2 & ->)%on_fs_Ok & Hr). simpl in Hf2.
  apply M_bind_Ok in Hr as (chain & w & [Hch ->]%pure_Ok & Hr).
  apply M_bind_Ok in Hr as (l & [f3 h2] & Hl & Hr). simpl in Hl.
  apply M_bind_Ok in Hr as (e & w & (f4 & He & ->)%on_fs_Ok & Hr). simpl in He.
  apply M_bind_Ok in Hr as ([] & w & (f5 & Hm & ->)%on_fs_Ok & Hr). simpl in Hm, Hr.
  injection Hr as <- <- <-.
  eexists P, hot, s, tx, vsum, csum, staging, ed, md, chain, l, e, f1, f2, f3, f4, h1.
  split; [done|]. split; try done.
Qed.

(** ** From the build to the accepted batch *)

Section assembly.
Context config us cs now limits dir phone P hot s tx vsum csum staging ed md chain l e
  f1 f2 f3 f4 F h h1 h2 m
  (Hb : built config us cs now limits dir phone P hot s tx vsum csum staging ed md chain l e
          f1 f2 f3 f4 F h h1 h2 m)
  (Hnf : no_read_fault f1)
  (Hhl : ∀ h a h', next_receive_address h = (Ok a, h') →
     hot_script_of config (address_to_string a) = Ok (address_script_pubkey a))
  (Hlen : (N.of_nat (length us + length cs) < 4294967296)%N).

Let count := s.1.1.1.

Lemma asm_selection : ∃ minimum cont final,
  (minimal_non_dust (p_vault_script P) ≤ minimum)%N ∧
  authorization_fees P md = Ok (cont, final) ∧
  selection_ok P (input_template us cs) (vault_positions us) (controller_positions us cs)
    (vsum + csum) minimum cont final s.
Proof.
  destruct Hb as [_ _ _ _ _ _ Hplan _ _ _ _ _ _].
  destruct (plan_rollover_Ok _ _ _ _ _ _ _ _ Hplan)
    as (_ & minimum & cont & final & Hmin & Hf & _ & Hs%choose_rollover_Ok).
  by exists minimum, cont, final.
Qed.

Lemma asm_tx : tx = rollover_of P (input_template us cs) s.
Proof. destruct Hb as [_ _ _ _ _ _ Hplan _ _ _ _ _ _]. by apply plan_rollover_Ok in Hplan as [-> _]. Qed.

Lemma asm_manifest : m = proposal_manifest config P now us cs vsum csum (vsum + csum) s tx l e.
Proof. by destruct Hb. Qed.

Lemma asm_m :
  monthly_limit_sats m = p_monthly P ∧ emergency_access_limit_sats m = p_emergency P ∧
  allowance_count m = count ∧ allowance_value_sats m = s.1.1.2 ∧ remainder_value_sats m = s.2 ∧
  allowances m = l ∧ emergency_access m = e ∧
  m_has_allowances m = bool_decide (0 < count) ∧ m_has_emergency m = p_has_emergency P ∧
  rollover_vault_indexes m = vault_positions us ∧
  rollover_controller_indexes m = controller_positions us cs.
Proof.
  rewrite asm_manifest. unfold count. destruct s as [[[c av] fee] rem]. split_and!; try done.
  - apply to_u32s_small, Forall_forall. intros i Hi%elem_of_seq. lia.
  - apply to_u32s_small, Forall_forall. intros i Hi%elem_of_seq. lia.
Qed.

Lemma rollover_of_fields : version tx = VERSION_TWO ∧ lock_time tx = LOCK_TIME_ZERO ∧
  input tx = input_template us cs.
Proof. rewrite asm_tx. by destruct s as [[[c av] fee] rem]. Qed.

Lemma input_template_sequences :
  Forall (λ i, ∃ x, input_template us cs !! i = Some x ∧ sequence x = SEQUENCE_MAX)
    (vault_positions us) ∧
  Forall (λ i, ∃ x, input_template us cs !! i = Some x ∧ sequence x = ENABLE_RBF_NO_LOCKTIME)
    (controller_positions us cs).
Proof.
  unfold input_template. split; apply Forall_forall; intros i Hi%elem_of_seq.
  - destruct (lookup_lt_is_Some_2 us i) as [u Hu]; [lia|].
    eexists. split; [apply lookup_app_l_Some; by rewrite list_lookup_fmap, Hu|done].
  - destruct (lookup_lt_is_Some_2 cs (i - length us)) as [u Hu]; [lia|].
    eexists. rewrite lookup_app_r by (rewrite length_fmap; lia).
    split; [by rewrite length_fmap, list_lookup_fmap, Hu|done].
Qed.

Lemma asm_outputs : output tx = rollover_outputs m (p_vault_script P) (p_controller_script P) ∧
  positions_ok m.
Proof.
  destruct asm_selection as (mi & co & fi & _ & _ & [_ Hv _ _ _]).
  destruct asm_m as (_ & _ & _ & Hav & Hrem & _ & _ & Hha & Hhe & _). split.
  - unfold rollover_outputs. rewrite asm_tx, Hav, Hrem, Hha, Hhe.
    unfold rollover_of, count. by destruct s as [[[c av] fee] rem].
  - split; rewrite ?Hha, ?Hhe; try (rewrite asm_manifest; unfold count; by destruct s as [[[c av] fee] rem]).
    rewrite Hav. unfold count. intros Hz. by rewrite Hz in Hv.
Qed.

Lemma asm_rollover p :
  ready p tx ((utxo_txout <$> us) ++ (utxo_txout <$> cs)) →
  accepted_rollover m p (p_policy P) (p_controller P) (utxo_txout <$> us) (utxo_txout <$> cs).
Proof.
  intros Hrd. pose proof (rd_tx _ _ _ Hrd) as Hu. destruct asm_outputs as [Hout Hpos].
  destruct asm_selection as (mi & co & fi & Hmi & _ & Hsel). 
  destruct asm_m as (_ & _ & _ & Hav & Hrem & _ & _ & Hha & Hhe & Hvi & Hci).
  destruct rollover_of_fields as (Hver & Hlock & Hin).
  destruct input_template_sequences as [Hsv Hsc].
  destruct Hb as [[_ _ _ _ _ Hus Hcs] Hne (Hvs & Hcsum & Hfit) _ _ _ _ _ _ _ _ _ _].
  apply checked_input_sum_Ok in Hvs. apply checked_input_sum_Ok in Hcsum.
  pose proof (proposal_roles p tx us cs _ _ Hrd Hus Hcs) as [Hrv Hrc].
  pose proof (selection_conserves _ _ _ _ _ _ _ _ _ Hsel) as Hcons. rewrite <-asm_tx in Hcons.
  split; rewrite ?Hvi, ?Hci.
  - rewrite Hu, Hin. unfold input_template, vault_positions, controller_positions.
    rewrite length_app, !length_fmap. by rewrite <-seq_app.
  - split; rewrite ?Hu, ?Hin; try done.
    + rewrite asm_manifest. by destruct s as [[[c av] fee] rem].
    + split; [|rewrite <-Hin, <-Hu; symmetry; apply Hrd]. unfold input_template.
      by destruct us.
    + by rewrite Hout, rollover_outputs_length.
  - destruct Hsel as [_ _ Hfee Hamt _].
    assert (fee_sats (rollover m) = s.1.2 ∧ vault_input_sats m = vsum ∧ controller_input_sats m = csum
      ∧ total_input_sats m = (vsum + csum)%N) as (Hfs & H1 & H2 & H3)
      by (rewrite asm_manifest; by destruct s as [[[c av] fee] rem]).
    split; rewrite ?Hu, ?Hfs, ?H1, ?H2, ?H3; try done.
    by rewrite <-Hfee, asm_tx.
  - done.
  - by rewrite Hu.
  - rewrite Hrem. unfold vault_script_of. fold (p_vault_script P).
    destruct Hsel as [_ _ _ _ Hr]. etransitivity; [exact Hmi|exact Hr].
Qed.

Lemma asm_chain_start p : unsigned_tx p = tx →
  count > 0 → expected_of chain = chain_start m (unsigned_tx p) (p_policy P).
Proof.
  intros Hu Hc. destruct asm_outputs as [Hout _].
  destruct asm_m as (_ & _ & _ & Hav & _ & _ & _ & Hha & _).
  destruct Hb as [_ _ _ _ _ _ _ _ Hch _ _ _ _]. fold count in Hch. unfold chain_start.
  rewrite Hha, (bool_decide_eq_true_2 (0 < count)) in * by lia. rewrite Hu.
  unfold initial_chain in Hch. apply bind_Ok in Hch as (o & Ho%index_Ok & [= <-]).
  rewrite Hout in Ho. unfold rollover_outputs in Ho.
  rewrite Hha in Ho. injection Ho as <-. done.
Qed.

Lemma asm_agrees : agrees config m P count.
Proof.
  destruct asm_selection as (mi & co & fi & _ & _ & [[Hc _] _ _ _ _]).
  destruct asm_m as (Hm & _ & Hcnt & _). by split.
Qed.

Lemma asm_emergency :
  no_read_fault f3 →
  same_env f3 f4 ∧
  (∀ k, k ≠ trigger_key P f3 → k ≠ withdrawal_key P f3 → file_at f4 k = file_at f3 k) ∧
  ∀ G, same_env f3 G →
    (∀ k, k = trigger_key P f3 ∨ k = withdrawal_key P f3 → file_at G k = file_at f4 k) →
    emergency_accepted config m G (p_batch_dir P) (p_policy P) (p_controller P) tx ∧
    Forall (written P G)
      match e with Some e => [trigger e; withdrawal e] | None => [] end.
Proof.
  intros Hnf3. destruct asm_outputs as [Hout Hpos].
  destruct asm_m as (_ & Hlim & _ & _ & Hrem & _ & Hem & Hha & Hhe & _).
  destruct asm_selection as (mi & co & fi & _ & _ & [_ _ _ Hamt _]).
  destruct Hb as [_ _ (_ & _ & Hfit) Hhot [Hed _] _ _ _ _ _ Hbe _ _]. fold count in Hbe.
  unfold build_emergency in Hbe. destruct (p_has_emergency P) eqn:Hpe.
  - destruct Hhot as (addr & -> & Haddr).
    apply M_bind_Ok in Hbe as (src & w & [Hsrc%index_Ok ->]%pure_Ok & Hbe).
    apply M_bind_Ok in Hbe as (vo & w & [Hvo%or_err_Ok ->]%pure_Ok & Hbe).
    apply M_bind_Ok in Hbe as (em & w & Hbe & [= <- <-]).
    assert (remainder_vout m = remainder_vout_of (bool_decide (0 < count)) ∧
      emergency_connector_vout m = Some vo) as [Hrv Hev].
    { destruct Hpos as [_ -> _ -> _]. rewrite Hha, Hhe. done. }
    assert (value src = s.2) as Hvsrc.
    { rewrite Hout in Hsrc. unfold rollover_outputs in Hsrc. rewrite Hha, Hrem in Hsrc.
      destruct (bool_decide (0 < count)); injection Hsrc as <-; done. }
    assert (emergency_setup config m P tx ed addr src vo) as Hes.
    { split; try done; [by rewrite Hrv|rewrite Hvsrc|by eapply Hhl].
      revert Hfit. rewrite Hamt. simpl bool_to_nat. rewrite Nat2N.inj_add.
      unfold CONNECTOR_VALUE_SATS. lia. }
    rewrite <-Hrv in Hbe.
    assert (p_emergency P ≠ 0%N) as Hnz by (unfold p_has_emergency in Hpe; by apply N.ltb_lt in Hpe; lia).
    destruct (build_emergency_accepted _ _ _ _ _ _ _ _ _ _ _ Hes Hnf3 Hbe) as (He & Ho & Hacc).
    split; [done|]. split; [done|]. intros G HeG HG.
    destruct (Hacc G HeG) as (staged & pt & pw & Ha & Hst & Hsw); [by auto..|].
    split; [right; split; [by rewrite Hlim|]; by eauto 12|].
    by repeat constructor.
  - destruct Hhot as [-> _]. injection Hbe as <- <-. split; [done|]. split; [done|].
    intros G HeG HG. split; [left|constructor]. rewrite Hlim, Hem. split; [|done].
    unfold p_has_emergency in Hpe. apply N.ltb_ge in Hpe. lia.
Qed.

Lemma keys_differ (g : FS) (x y : list string) :
  x ≠ y → resolve g (p_batch_dir P) ++ x ≠ resolve g (p_batch_dir P) ++ y.
Proof. intros Hne [_ ?]%app_inj_1; done. Qed.

(** The final file system satisfies the validator. *)
Lemma asm_accepted :
  ∃ p vouts couts, accepted_batch config m F dir (p_policy P) (p_controller P) p vouts couts md ∧
    no_read_fault F ∧ Forall (written P F) (manifest_transactions m) ∧
    connector_signed P p (rollover_controller_indexes m).
Proof.
  pose proof asm_emergency as Hemerg. pose proof asm_agrees as Hag.
  pose proof asm_rollover as Hroll. pose proof asm_chain_start as Hstart.
  destruct asm_m as (Hmon & _ & Hcnt & _ & _ & Hal & Hem & Hha & _ & Hvi & Hci).
  pose proof Hb as [[Hpol Hcon Hdir _ Hlim _ _] _ _ _ [_ Hmd] _ _ Hbr _ Hba _ _ Hw].
  apply write_json_run in Hw as (He5 & _ & Ho5 & _).
  rewrite <-Hdir in Ho5.
  assert (resolve f4 (join (p_batch_dir P) "manifest.json")
          = resolve f4 (p_batch_dir P) ++ ["manifest.json"]) as Hmk by by apply resolve_join.
  rewrite Hmk in Ho5.
  apply build_rollover_run in Hbr as (p & Hrd & Hseal & Hcsig & He2 & Hh2 & Ho2).
  pose proof (same_env_faults _ _ He2 Hnf) as Hn2.
  fold count in Hba.
  destruct (build_allowances_accepted config m P count md count 0 chain f2 h1 l f3 h2 Hag Hn2)
    as (He3 & Hll & Ho3 & Hacc); [done|exact Hba|].
  pose proof (same_env_faults _ _ He3 Hn2) as Hn3. destruct (Hemerg Hn3) as (He4 & Ho4 & Hacc4).
  pose proof (same_env_trans _ _ _ He2 (same_env_trans _ _ _ He3 (same_env_trans _ _ _ He4 He5))) as He.
  assert (resolve f2 (p_batch_dir P) = resolve f1 (p_batch_dir P) ∧
          resolve f3 (p_batch_dir P) = resolve f1 (p_batch_dir P) ∧
          resolve f4 (p_batch_dir P) = resolve f1 (p_batch_dir P) ∧
          resolve F (p_batch_dir P) = resolve f1 (p_batch_dir P)) as (R2 & R3 & R4 & RF).
  { rewrite (resolve_env _ _ _ He), (resolve_env _ _ _ He2).
    rewrite (resolve_env _ _ _ (same_env_trans _ _ _ He2 He3)).
    rewrite (resolve_env _ _ _ (same_env_trans _ _ _ He2 (same_env_trans _ _ _ He3 He4))). done. }
  unfold rollover_key, authorization_key, trigger_key, withdrawal_key in *.
  rewrite R2, ?R3, ?R4 in *.
  pose proof (same_env_faults _ _ He Hnf) as HnF.
  exists p, (utxo_txout <$> us), (utxo_txout <$> cs).
  assert (read_psbt F (join (p_batch_dir P) "rollover.psbt") = Ok p) as Hrp.
  { apply read_held; [done|apply Hrd|]. rewrite resolve_rollover. unfold rollover_key, holds_psbt.
    rewrite RF, Ho5, Ho4, Ho3; [exact Hh2|..]; intros; by apply keys_differ. }
  assert (psbt_file (rollover m) = "rollover.psbt") as Hrf
    by (rewrite asm_manifest; by destruct s as [[[c av] fee] rem]).
  destruct (Hacc F) as [Hchain Hcs];
    [exact (same_env_trans _ _ _ He3 (same_env_trans _ _ _ He4 He5))| |].
  { intros j Hj. rewrite Ho5, Ho4; [done|..]; by apply keys_differ. }
  destruct (Hacc4 F (same_env_trans _ _ _ He4 He5)) as [Hemf Hes].
  { intros k [->| ->]; apply Ho5; by apply keys_differ. }
  assert (Forall (written P F) (manifest_transactions m)) as Hwr.
  { unfold manifest_transactions. constructor; [|apply Forall_app; split].
    - exists p. rewrite Hrf. split; [done|]. split; [apply Hrd|]. by rewrite <-Hvi, <-Hci in Hseal.
    - rewrite Hal. by apply Forall_fmap.
    - by rewrite Hem. }
  split; [|by rewrite Hci].
  rewrite <-Hdir. split; try done.
  - rewrite asm_manifest. destruct asm_selection as (? & ? & ? & _ & _ & [[Hc12 Hc0] _ _ _ _]).
    unfold count in *. destruct s as [[[c av] fee] rem]. split; try done.
  - eapply Forall_impl; [exact Hwr|]. intros t (q & Hq & Hd & _). by exists q.
  - by rewrite Hrf.
  - by apply Hroll.
  - rewrite Hal. destruct l as [|a l']; [done|]. 
    rewrite <-Hstart; [done|apply Hrd|]. simpl in Hll. lia.
  - by rewrite (rd_tx _ _ _ Hrd).
Qed.
End assembly.
End proposal_build.
