(* ===== verification/ToyCeremony.v ===== *)
(** A concrete ceremony, on the instance of [Toy]: two months and an emergency
    path, built by the phone.  The witnesses of the ceremony's properties are
    evaluated on it. *)

From S2P Require Import Prelude Bitcoin Toy Types Keys Policy Transactions FileSystem Storage Ceremony CeremonyValidate CeremonySound CeremonyBuild.

(** * Encodings of the manifest *)

#[export] Instance ser_nat : Toy.Ser nat := Toy.ser_inj N.of_nat N.to_nat Nat2N.id.
Definition z_code (z : Z) : N * bool := (Z.to_N (Z.abs z), (z <? 0)%Z).
Definition of_z_code (c : N * bool) : Z := if c.2 then (- Z.of_N c.1)%Z else Z.of_N c.1.
Lemma of_z_code_code z : of_z_code (z_code z) = z.
Proof. unfold of_z_code, z_code. simpl. destruct (Z.ltb_spec z 0); lia. Qed.
#[export] Instance ser_Z : Toy.Ser Z := Toy.ser_inj z_code of_z_code of_z_code_code.

#[export] Instance ser_BatchTransaction : Toy.Ser BatchTransaction.
Proof.
  refine (Toy.ser_inj (B:=string * string * N * list N * list N)
    (λ t, (psbt_file t, unsigned_txid t, fee_sats t, vault_input_indexes t,
           controller_input_indexes t))
    (λ '(a, b, c, d, e), Build_BatchTransaction a b c d e) _).
  by intros [].
Defined.
#[export] Instance ser_ConnectorState : Toy.Ser ConnectorState.
Proof.
  refine (Toy.ser_inj (B:=OutPoint * N) (λ c, (connector_outpoint c, value_sats c))
    (λ '(a, b), {| connector_outpoint := a; value_sats := b |}) _).
  by intros [].
Defined.
#[export] Instance ser_AllowanceStep : Toy.Ser AllowanceStep.
Proof.
  refine (Toy.ser_inj (B:=N * N * N * N * string * ConnectorState * option ConnectorState
      * BatchTransaction)
    (λ a, (step a, step_delay_seconds a, step_delay_sequence a, chain_value_sats a,
           step_hot_address a, connector a, next_connector a, authorization a))
    (λ '(a, b, c, d, e, f, g, h), {| step := a; step_delay_seconds := b; step_delay_sequence := c;
       chain_value_sats := d; step_hot_address := e; connector := f; next_connector := g;
       authorization := h |}) _).
  by intros [].
Defined.
#[export] Instance ser_EmergencyAccessPolicy : Toy.Ser EmergencyAccessPolicy.
Proof.
  refine (Toy.ser_inj (B:=N * N * N * string * N * N * N * N * ConnectorState * ConnectorState
      * BatchTransaction * BatchTransaction)
    (λ e, (amount_sats e, emergency_delay_seconds e, emergency_delay_sequence_of e,
           emergency_hot_address e, staging_vout e, staging_value_sats e, vault_change_vout e,
           vault_change_value_sats e, trigger_connector e, withdrawal_connector e, trigger e,
           withdrawal e))
    (λ '(a, b, c, d, e, f, g, h, i, j, k, l), {| amount_sats := a; emergency_delay_seconds := b;
       emergency_delay_sequence_of := c; emergency_hot_address := d; staging_vout := e;
       staging_value_sats := f; vault_change_vout := g; vault_change_value_sats := h;
       trigger_connector := i; withdrawal_connector := j; trigger := k; withdrawal := l |}) _).
  by intros [].
Defined.
#[export] Instance ser_BatchManifest : Toy.Ser BatchManifest.
Proof.
  refine (Toy.ser_inj (B:=(N * Z * string * string * string * string * string * N) *
      (N * N * N * N * N * N * nat) * (BatchTransaction * option N * N * N * N * option N *
      option N) * (list AllowanceStep * option EmergencyAccessPolicy * bool * bool))
    (λ m, ((manifest_version m, created_at m, manifest_network m, manifest_vault_descriptor m,
            manifest_vault_address m, controller_descriptor m, controller_address m,
            connector_value_sats m),
           (monthly_limit_sats m, emergency_access_limit_sats m, fee_rate_sat_vb m,
            total_input_sats m, vault_input_sats m, controller_input_sats m, allowance_count m),
           (rollover m, allowance_vout m, allowance_value_sats m, remainder_vout m,
            remainder_value_sats m, monthly_connector_vout m, emergency_connector_vout m),
           (allowances m, emergency_access m, phone_approved m, hww_approved m)))
    (λ '((a, b, c, d, e, f, g, h), (i, j, k, l, n, o, p), (q, r, s, t, u, v, w), (x, y, z, z')),
      {| manifest_version := a; created_at := b; manifest_network := c;
         manifest_vault_descriptor := d; manifest_vault_address := e; controller_descriptor := f;
         controller_address := g; connector_value_sats := h; monthly_limit_sats := i;
         emergency_access_limit_sats := j; fee_rate_sat_vb := k; total_input_sats := l;
         vault_input_sats := n; controller_input_sats := o; allowance_count := p; rollover := q;
         allowance_vout := r; allowance_value_sats := s; remainder_vout := t;
         remainder_value_sats := u; monthly_connector_vout := v; emergency_connector_vout := w;
         allowances := x; emergency_access := y; phone_approved := z; hww_approved := z' |}) _).
  by intros [].
Defined.

(** * The ceremony *)

(** The hot wallet: numbered regtest addresses. *)
#[export] Instance toy_hot : HotAddressProvider N :=
  {| next_receive_address := λ n, (Ok ("r-hot-" +:+ pretty n : Address), (n + 1)%N) |}.

Definition toy_vault_config : VaultConfig :=
  {| config_version := 1; config_network := "regtest"; phone_vault_pubkey := "phone";
     hww_vault_pubkey := "hww"; phone_hot_external_descriptor := "";
     phone_hot_internal_descriptor := "";
     vault_descriptor := vault_descriptor_text toy_phone toy_hww;
     vault_address := address_to_string (vault_address_of toy_vault);
     phone_recovery_blocks := PHONE_RECOVERY_BLOCKS; hww_recovery_blocks := HWW_RECOVERY_BLOCKS;
     config_monthly_limit_sats := 0; config_emergency_access_limit_sats := 0 |}.

Definition toy_phone_keys : DeviceKeys :=
  {| keys_network := Regtest; mnemonic := "words" : Mnemonic; vault_key_index := 0; seed := [];
     master_xpriv := "" : Xpriv; vault_xpriv := "" : Xpriv; vault_keypair := toy_phone_keypair;
     vault_pubkey := toy_phone |}.

Definition toy_vault_utxo (n v : N) : VaultUtxo :=
  {| utxo_outpoint := toy_outpoint n; utxo_txout := {| value := v; script_pubkey := toy_vault_script |};
     confirmation_height := 1 |}.

Definition toy_limits : PolicyLimits :=
  {| limits_monthly_limit_sats := 20000; limits_emergency_access_limit_sats := 5000 |}.
Definition toy_batch_dir : Path := [RootDir; Normal "b"].

Definition toy_build : result BatchManifest * (FS * N) := Eval vm_compute in
  build_policy_proposal_with_connectors toy_vault_config [toy_vault_utxo 3 49000]
    [toy_connector 4] 1700000000 toy_limits toy_batch_dir toy_phone_keys (empty_fs, 0%N).
Definition toy_manifest : BatchManifest :=
  ltac:(let r := eval cbv delta [toy_build] in toy_build in
        match r with (Ok ?m, _) => exact m end).
Definition toy_batch : FS :=
  ltac:(let r := eval cbv delta [toy_build] in toy_build in
        match r with (_, (?f, _)) => exact f end).
