(* ===== verification/CeremonyTheorems.v ===== *)
(** The properties of a ceremony: what validation guarantees of a batch, and
    that the phone's own proposals pass it. *)

From S2P Require Import Prelude Bitcoin Toy Types Keys Policy Transactions FileSystem Storage Ceremony CeremonyValidate CeremonySound CeremonyBuild ToyCeremony.

Section guarantees.
Context `{Laws : BitcoinLaws}.
Implicit Types (m : BatchManifest) (p : Psbt) (f : FS) (dir : Path).

(** ** The chain of an accepted batch *)

(** Where step [i] takes its two inputs from: the rollover's first output and
    monthly connector, or the hop and connector of the step before. *)
Definition chain_source m f dir (rollover_tx : Transaction) (i : nat) (o c : OutPoint) : Prop :=
  match i with
  | 0 => o = new_outpoint (compute_txid rollover_tx) 0 ∧
         c = new_outpoint (compute_txid rollover_tx) 2
  | S j => ∃ a p, allowances m !! j = Some a ∧
         read_psbt f (join dir (psbt_file (authorization a))) = Ok p ∧
         o = new_outpoint (compute_txid (unsigned_tx p)) 1 ∧
         c = new_outpoint (compute_txid (unsigned_tx p)) 2
  end.

Definition expects m f dir (rollover_tx : Transaction) (i : nat) (e : Expected) : Prop :=
  ∀ o v c, e = {| vault_outpoint := Some o; vault_prevout := Some v; expected_connector := Some c |} →
    chain_source m f dir rollover_tx i o (connector_outpoint c).

Lemma accepted_chain_lookup config m f dir policy controller delay rtx i l e j a :
  drop i (allowances m) = l → expects m f dir rtx i e →
  accepted_chain config m f dir policy controller delay i l e → l !! j = Some a →
  ∃ o v c p, accepted_step config m f dir policy controller delay (i + j) a o v c p ∧
    chain_source m f dir rtx (i + j) o (connector_outpoint c).
Proof.
  revert i e j. induction l as [|b l IH]; intros i e j Hd He Hch Hj; [done|].
  simpl in Hch. destruct Hch as (o & v & c & p & -> & Hst & Hch).
  assert (allowances m !! i = Some b) as Hb
    by (rewrite <-(Nat.add_0_r i), <-lookup_drop; by rewrite Hd).
  destruct j as [|j].
  - injection Hj as ->. rewrite Nat.add_0_r. exists o, v, c, p. split; [done|]. by eapply He.
  - rewrite <-Nat.add_succ_comm. eapply IH; [| |exact Hch|exact Hj].
    + rewrite <-Nat.add_1_r, <-drop_drop, Hd. done.
    + intros o' v' c' Heq. unfold next_expected in Heq. destruct (has_next m i); [|done].
      injection Heq as <- <- <-. exists b, p. split; [done|]. split; [apply Hst|done].
Qed.

Lemma chain_start_expects m f dir rtx policy : expects m f dir rtx 0 (chain_start m rtx policy).
Proof.
  intros o v c. unfold chain_start. destruct (m_has_allowances m); [|done].
  by intros [= <- <- <-].
Qed.

(** The steps release the monthly limit each and use the chain up. *)
Lemma accepted_chain_sum config m f dir policy controller delay i l e :
  i + length l = allowance_count m →
  accepted_chain config m f dir policy controller delay i l e → l ≠ [] →
  ∃ o v c, e = {| vault_outpoint := Some o; vault_prevout := Some v; expected_connector := Some c |} ∧
  (value v + CONNECTOR_VALUE_SATS = N.of_nat (length l) * monthly_limit_sats m +
     sumN ((λ a, fee_sats (authorization a)) <$> l))%N.
Proof.
  revert i e. induction l as [|a l IH]; intros i e Hlen Hch Hne; [done|]. simpl in Hch.
  destruct Hch as (o & v & c & p & -> & Hst & Hch). exists o, v, c. split; [done|].
  pose proof (st_amount _ _ _ _ _ _ _ _ _ _ _ _ _ Hst) as Ham. rewrite sumN_fmap_cons.
  rewrite length_cons, Nat2N.inj_succ. destruct l as [|b l].
  - assert (has_next m i = false) as Hn by (apply bool_decide_eq_false; simpl in *; lia).
    rewrite Hn in Ham. simpl. lia.
  - assert (has_next m i = true) as Hn by (apply bool_decide_eq_true; simpl in *; lia).
    rewrite Hn in Ham. destruct (IH (S i) _ ltac:(simpl in *; lia) Hch) as (o' & v' & c' & Heq & Hs);
      [done|]. unfold next_expected in Heq. rewrite Hn in Heq. injection Heq as _ <- _.
    simpl value in Hs. lia.
Qed.

(** The remainder funds the emergency path. *)
Lemma emergency_amount_sum config m e f dir policy controller rtx delay hot src staged vout pt pw :
  positions_ok m → output rtx = rollover_outputs m (vault_script_of policy) (controller_script_of controller) →
  accepted_emergency config m e f dir policy controller rtx delay hot src staged vout pt pw →
  remainder_value_sats m = (emergency_access_limit_sats m + vault_change_value_sats e +
    fee_sats (trigger e) + fee_sats (withdrawal e) - CONNECTOR_VALUE_SATS)%N ∧
  (CONNECTOR_VALUE_SATS ≤ emergency_access_limit_sats m + fee_sats (withdrawal e))%N.
Proof.
  intros Hpos Hout [_ (_ & _ & _ & Hsv & _) _ [Hsrc _ _ _ Hc1 Ht1 _ _ _] [Hstaged _ Hc2 Ht2 _ _]].
  pose proof (child_conserves _ _ _ _ _ _ Hc1) as H1. pose proof (child_conserves _ _ _ _ _ _ Hc2) as H2.
  assert (value src = remainder_value_sats m) as Hv.
  { destruct Hpos as [_ Hr _ _ _]. rewrite Hout, Hr in Hsrc. unfold rollover_outputs in Hsrc.
    destruct (m_has_allowances m); injection Hsrc as <-; done. }
  rewrite Hsv, Ht1 in Hstaged. injection Hstaged as <-.
  rewrite Ht1, Hv in H1. rewrite Ht2 in H2. revert H1 H2.
  cbn -[N.add N.sub CONNECTOR_VALUE_SATS]. lia.
Qed.


(** C9: Nothing is lost in an accepted batch: the inputs of the rollover
    are the twelve-or-fewer monthly limits, the fees of every transaction of
    the batch, the emergency amount and the cold remainder, to the satoshi.
    Every connector is paid for by the amounts and returns to them. *)
Theorem accepted_batch_conserves config m f dir policy :
  validate_batch config m f dir = Ok policy →
  total_input_sats m =
    (N.of_nat (allowance_count m) * monthly_limit_sats m
     + sumN (fee_sats <$> manifest_transactions m)
     + match emergency_access m with
       | Some e => emergency_access_limit_sats m + vault_change_value_sats e
       | None => remainder_value_sats m
       end)%N.
Proof.
  intros (controller & p & vouts & couts & delay & [Hmf _ _ _ _ Hro _ Hch Hem])%validate_batch_Ok.
  destruct Hmf as [_ _ _ (_ & _ & Hlen) _].
  destruct Hro as [_ _ [_ _ _ Hcons _] Hpos Hout _].
  rewrite Hout in Hcons. unfold rollover_outputs in Hcons. rewrite sum_rollover_outputs in Hcons.
  unfold manifest_transactions. rewrite sumN_fmap_cons, fmap_app, sumN_app, <-list_fmap_compose.
  change (sumN (compose fee_sats authorization <$> allowances m))
    with (sumN ((λ a, fee_sats (authorization a)) <$> allowances m)).
  assert (default 0%N (then_some (m_has_allowances m) (allowance_value_sats m))
    + CONNECTOR_VALUE_SATS * N.of_nat (bool_to_nat (m_has_allowances m)) =
    N.of_nat (allowance_count m) * monthly_limit_sats m +
    sumN ((λ a, fee_sats (authorization a)) <$> allowances m))%N as Hal.
  { unfold m_has_allowances, chain_start in *. case_bool_decide as Hz.
    - destruct (accepted_chain_sum config m f dir policy controller delay 0 (allowances m) _ Hlen Hch)
        as (o & v & c & Heq & Hs).
      { destruct (allowances m); simpl in *; [lia|done]. }
      unfold m_has_allowances in Heq. rewrite bool_decide_eq_true_2 in Heq by done.
      injection Heq as _ <- _. rewrite Hlen in Hs. cbn [value] in Hs.
      cbn [then_some default id bool_to_nat]. lia.
    - destruct (allowances m); simpl in *; [|lia].
      replace (allowance_count m) with 0 by lia. done. }
  destruct Hem as [[Hz ->]|(Hnz & e & d & hot & src & staged & vout & pt & pw & -> & Hacc)].
  - unfold m_has_emergency in Hcons. rewrite Hz in Hcons. rewrite Nat2N.inj_add in Hcons.
    cbn [bool_to_nat N.ltb N.compare] in Hcons. cbn [fmap list_fmap sumN foldr]. lia.
  - destruct (emergency_amount_sum _ _ _ _ _ _ _ _ _ _ _ _ _ _ _ Hpos Hout Hacc) as [Hrem Hle].
    assert (m_has_emergency m = true) as Hhe by (apply N.ltb_lt; lia). rewrite Hhe in Hcons.
    rewrite Nat2N.inj_add in Hcons. cbn [bool_to_nat] in Hcons. cbn [fmap list_fmap sumN foldr]. lia.
Qed.
End guarantees.

(** * Proposals *)

Section proposals.
Context `{Laws : BitcoinLaws, !KeyLib} `{JsonLaws BatchManifest} {Hot : Type} `{!HotAddressProvider Hot}.

(** The hot wallet hands out addresses of the vault's network. *)
Definition hot_on_network (config : VaultConfig) : Prop :=
  ∀ h a h', next_receive_address h = (Ok a, h') →
    ∃ n, bitcoin_network config = Ok n ∧ on_network a n.

Lemma hot_script_on_network config (a : Address) n :
  bitcoin_network config = Ok n → on_network a n →
  hot_script_of config (address_to_string a) = Ok (address_script_pubkey a).
Proof.
  intros Hn Ha. unfold on_network in Ha. apply bind_Some in Ha as (u & Hu & Hr).
  unfold hot_script_of. ok_step (by apply or_err_Ok). ok_step (exact Hn).
  by ok_step (by apply or_err_Ok).
Qed.

(** C4: Whatever proposal the phone builds, from whatever vault outputs,
    connectors and limits, the files it leaves are a batch that the validator
    of both devices accepts, and the stored manifest is the returned one, with
    the phone's approval and without the HWW's. *)
Theorem proposal_validates config vault_utxos controller_utxos now limits dir phone f h m f' h' :
  no_read_fault f → hot_on_network config →
  (N.of_nat (length vault_utxos + length controller_utxos) < 4294967296)%N →
  build_policy_proposal_with_connectors config vault_utxos controller_utxos now limits dir phone
    (f, h) = (Ok m, (f', h')) →
  (∃ policy, validate_batch config m f' dir = Ok policy) ∧
  load_manifest f' dir = Ok m ∧ phone_approved m = true ∧ hww_approved m = false.
Proof.
  intros Hnf Hhot Hlen (P & hot & s & tx & vsum & csum & staging & ed & md & chain & l & e & f1 & f2
    & f3 & f4 & h1 & Hcr & Hb)%build_proposal_run.
  apply (create_key_run (resolve f dir)) in Hcr as (He1 & _).
  assert (∀ h a h', next_receive_address h = (Ok a, h') →
    hot_script_of config (address_to_string a) = Ok (address_script_pubkey a)) as Hhl.
  { intros h0 a h0' Ha. destruct (Hhot _ _ _ Ha) as (n & Hn & Hon). by eapply hot_script_on_network. }
  edestruct asm_accepted as (p & vouts & couts & Hacc & HnF & _);
    [exact Hb|exact (same_env_faults _ _ He1 Hnf)|exact Hhl|exact Hlen|].
  split; [|split].
  - exists (p_policy P). apply validate_batch_Ok. eauto 10.
  - destruct Hb as [_ _ _ _ _ _ _ _ _ _ _ _ Hw]. apply write_json_run in Hw as (He & _ & _ & Hs).
    destruct (Hs eq_refl) as (text & Ht & Hf). unfold load_manifest.
    eapply read_json_of; [done|exact Ht|]. by rewrite (resolve_env _ _ _ He).
  - destruct Hb as [_ _ _ _ _ _ _ _ _ _ _ -> _]. by destruct s as [[[c av] fee] rem].
Qed.

(** ** The number of months *)

(** What a rollover of [k] months needs. *)
Definition rollover_need (P : Proposal) (inputs : list TxIn) (vis cis : list nat)
    (minimum cont final : N) (k : nat) (need : N) : Prop :=
  ∃ av fee, allowance_chain_value k (p_monthly P) cont final = Ok av ∧
    cooperative_fee (rollover_template inputs (Some av) 1 (p_vault_script P)
      (p_controller_script P) true (p_has_emergency P)) (p_policy P) vis (p_controller P) cis
      = Ok fee ∧
    need = (fee + av + minimum + CONNECTOR_VALUE_SATS *
      N.of_nat (1 + bool_to_nat (p_has_emergency P)))%N.

Lemma select_rollover_max P inputs vis cis total minimum cont final n o :
  select_rollover P inputs vis cis total minimum cont final n = Ok o →
  (∀ s, o = Some s → s.1.1.1 ≤ n ∧
     ∃ need, rollover_need P inputs vis cis minimum cont final s.1.1.1 need ∧ (need ≤ total)%N) ∧
  ∀ k, match o with Some s => s.1.1.1 | None => 0 end < k ≤ n →
    ∃ need, rollover_need P inputs vis cis minimum cont final k need ∧ (total < need)%N.
Proof.
  revert o. induction n as [|n IH]; intros o Hs; [injection Hs as <-; split; [done|]; intros; lia|].
  simpl in Hs. apply bind_Ok in Hs as (av & Hav & Hs). apply bind_Ok in Hs as (fee & Hfee & Hs).
  apply bind_Ok in Hs as (co & [-> _]%mul_u64_Ok & Hs).
  apply bind_Ok in Hs as (req & Hreq%or_err_Ok & Hs).
  apply bind_Some in Hreq as (x & [-> Hx]%checked_add_Some & Hreq).
  apply bind_Some in Hreq as (y & [-> Hy]%checked_add_Some & [-> Hz]%checked_add_Some).
  assert (rollover_need P inputs vis cis minimum cont final (S n) (fee + av + minimum +
    CONNECTOR_VALUE_SATS * N.of_nat (1 + bool_to_nat (p_has_emergency P)))) as Hneed
    by (exists av, fee; done).
  destruct (N.leb_spec (fee + av + minimum + CONNECTOR_VALUE_SATS *
    N.of_nat (S (bool_to_nat (p_has_emergency P)))) total) as [Hle|Hlt].
  - apply bind_Ok in Hs as (r1 & [-> _]%sub_u64_Ok & Hs).
    apply bind_Ok in Hs as (r2 & [-> _]%sub_u64_Ok & Hs).
    apply bind_Ok in Hs as (r3 & [-> _]%sub_u64_Ok & [= <-]). simpl. split.
    + intros s [= <-]. simpl. split; [lia|]. by eexists.
    + intros k Hk. lia.
  - destruct (IH o Hs) as [Hsome Hmax]. split.
    + intros s ->. destruct (Hsome s eq_refl) as [? ?]. split; [lia|done].
    + intros k Hk. destruct (decide (k = S n)) as [->|]; [by eexists|]. apply Hmax. lia.
Qed.

(** C27: The phone puts as many months in the rollover as the inputs pay:
    the selected count is affordable, and every larger count up to twelve
    needs more than the inputs are worth.  The amounts of the selection add up
    to the inputs, and the cold remainder keeps its minimum. *)
Theorem rollover_months_maximal P inputs vis cis total minimum cont final count av fee remainder :
  (0 < p_monthly P)%N →
  choose_rollover P inputs vis cis total minimum cont final = Ok (count, av, fee, remainder) →
  count ≤ MONTHS_PER_ROLLOVER ∧ (minimum ≤ remainder)%N ∧
  total = (av + remainder + fee + CONNECTOR_VALUE_SATS *
    N.of_nat (bool_to_nat (bool_decide (0 < count)%nat) + bool_to_nat (p_has_emergency P)))%N ∧
  (0 < count → ∃ need,
     rollover_need P inputs vis cis minimum cont final count need ∧ (need ≤ total)%N) ∧
  ∀ k, count < k ≤ MONTHS_PER_ROLLOVER → ∃ need,
     rollover_need P inputs vis cis minimum cont final k need ∧ (total < need)%N.
Proof.
  intros Hm Hc. pose proof (choose_rollover_Ok _ _ _ _ _ _ _ _ _ Hc) as [[H12 _] _ _ Ham Hmin].
  simpl in *. split_and!; [done|done|done|..]; unfold choose_rollover in Hc;
    rewrite (proj2 (N.ltb_lt _ _) Hm) in Hc; apply bind_Ok in Hc as (o & Ho & Hc);
    apply bind_Ok in Hc as (s & Hs & Hc); apply bind_Ok in Hc as ([] & _ & [= ->]);
    destruct (select_rollover_max _ _ _ _ _ _ _ _ _ _ Ho) as [Hsome Hmax];
    (destruct o as [s|];
     [injection Hs as ->
     |unfold plain_rollover in Hs; apply bind_Ok in Hs as (? & _ & Hs);
      apply bind_Ok in Hs as (? & _ & Hs); apply bind_Ok in Hs as (? & _ & Hs);
      injection Hs as <- <- <- <-]).
  - intros _. by destruct (Hsome _ eq_refl).
  - lia.
  - exact Hmax.
  - exact Hmax.
Qed.
End proposals.

(** * Witnesses *)

Lemma toy_hot_on_network : hot_on_network toy_vault_config.
Proof. intros h a h' [= <- <-]. exists Regtest. split; reflexivity. Qed.

Lemma toy_batch_accepted :
  validate_batch toy_vault_config toy_manifest toy_batch toy_batch_dir = Ok toy_vault.
Proof. vm_compute. reflexivity. Qed.

Lemma proposal_validates_witness :
  (∃ policy, validate_batch toy_vault_config toy_manifest toy_batch toy_batch_dir = Ok policy) ∧
  load_manifest toy_batch toy_batch_dir = Ok toy_manifest.
Proof.
  destruct (proposal_validates toy_vault_config [toy_vault_utxo 3 49000] [toy_connector 4]
    1700000000 toy_limits toy_batch_dir toy_phone_keys empty_fs 0%N toy_manifest toy_batch
    toy_build.2.2 (λ _, ltac:(discriminate)) toy_hot_on_network) as (Hv & Hl & _ & _).
  - reflexivity.
  - vm_compute. reflexivity.
  - split; [exact Hv|exact Hl].
Defined.


Lemma accepted_batch_conserves_witness :
  validate_batch toy_vault_config toy_manifest toy_batch toy_batch_dir = Ok toy_vault ∧
  total_input_sats toy_manifest =
    (N.of_nat 2 * 20000 + sumN (fee_sats <$> manifest_transactions toy_manifest) + 5000 + 3474)%N.
Proof.
  split; [exact toy_batch_accepted|].
  rewrite (accepted_batch_conserves _ _ _ _ _ toy_batch_accepted). vm_compute. reflexivity.
Defined.

(** The choice of the toy ceremony: of twelve months, two are affordable. *)
Definition toy_proposal : Proposal :=
  {| p_policy := toy_vault; p_controller := toy_controller; p_phone := toy_phone_keys;
     p_batch_dir := toy_batch_dir; p_monthly := 20000; p_emergency := 5000 |}.
Definition toy_inputs : list TxIn := input_template [toy_vault_utxo 3 49000] [toy_connector 4].
Definition toy_selection : Selection := Eval vm_compute in
  get_value (choose_rollover toy_proposal toy_inputs [0] [1] 50000 4906 314 245) (0, 0%N, 0%N, 0%N).

Lemma rollover_months_maximal_witness :
  toy_selection.1.1.1 = 2 ∧
  ∃ need, rollover_need toy_proposal toy_inputs [0] [1] 4906 314 245 3 need ∧ (50000 < need)%N.
Proof.
  split; [reflexivity|].
  assert (toy_selection.1.1.1 < 3 ≤ MONTHS_PER_ROLLOVER) as H3
    by (unfold MONTHS_PER_ROLLOVER; simpl; lia).
  apply (rollover_months_maximal toy_proposal toy_inputs [0] [1] 50000 4906 314 245
    toy_selection.1.1.1 toy_selection.1.1.2 toy_selection.1.2 toy_selection.2); [reflexivity| |exact H3].
  vm_compute. reflexivity.
Defined.
