(* ===== verification/Recovery.v ===== *)
(** Sweeps of the vault and the rotation of its keys ([core/recovery.rs]). *)

From S2P Require Import Prelude Bitcoin Toy Types Keys Policy Transactions FileSystem Storage Crypto Social Ceremony CeremonyValidate.

Definition PENDING_PHONE_ROTATION_FILE : string := "phone/pending-rotation.json".

Inductive SweepPath := SweepCooperative | SweepPhoneRecovery | SweepHwwRecovery.
#[export] Instance SweepPath_eq_dec : EqDecision SweepPath.
Proof. solve_decision. Defined.

Definition policy_path (p : SweepPath) : SpendPath :=
  match p with
  | SweepCooperative => Cooperative
  | SweepPhoneRecovery => PhoneRecovery
  | SweepHwwRecovery => HwwRecovery
  end.

Definition sweep_sequence (p : SweepPath) : N :=
  match p with
  | SweepCooperative => SEQUENCE_MAX
  | SweepPhoneRecovery => PHONE_RECOVERY_BLOCKS
  | SweepHwwRecovery => HWW_RECOVERY_BLOCKS
  end.

Definition sweep_delay (p : SweepPath) : option N :=
  match p with
  | SweepCooperative => None
  | SweepPhoneRecovery => Some PHONE_RECOVERY_BLOCKS
  | SweepHwwRecovery => Some HWW_RECOVERY_BLOCKS
  end.

Record CooperativeSweepPackage := {
  sweep_version : N;
  sweep_kind : string;
  sweep_vault_descriptor : string;
  sweep_destination : string;
  sweep_psbt : string;
  sweep_input_count : nat;
  sweep_sent_sats : N;
  sweep_fee_sats : N;
  sweep_phone_approved : bool;
  sweep_hww_approved : bool;
}.

Record PhoneRecoveryPackage := {
  recovery_version : N;
  recovery_kind : string;
  recovery_phone_mnemonic : string;
  recovery_phone_vault_key_index : N;
  recovery_phone_vault_pubkey : string;
  recovery_vault_descriptor : string;
  recovery_vault_address : string;
}.

Section data.
Context `{BitcoinTypes}.

Record SweepResult := {
  result_txid : Txid;
  result_input_count : nat;
  result_sent_sats : N;
  result_fee_sats : N;
}.

Record SweepPlan := {
  plan_policy : VaultPolicy;
  plan_psbt : Psbt;
  plan_input_count : nat;
  plan_sent_sats : N;
  plan_fee_sats : N;
}.

Record PhoneRotationPackage := {
  rotation_version : N;
  rotation_kind : string;
  old_vault_descriptor : string;
  new_phone_vault_pubkey : string;
  new_vault_descriptor : string;
  new_vault_address : string;
  rotation_monthly_limit_sats : N;
  rotation_emergency_access_limit_sats : N;
  rotation_sweep : CooperativeSweepPackage;
  renewed_policy : option PolicyPackage;
  cloud_recovery_backup : option CloudRecoveryBackup;
}.
End data.

Section recovery.
Context `{BitcoinLib, !KeyLib, Json VaultConfig, Json DeviceFile}.

(** ** Building a sweep *)

(** A height is mature when its delay has passed in the next block. *)
Definition mature_utxos (utxos : list VaultUtxo) (path : SweepPath) (tip_height : N)
    : list VaultUtxo :=
  match sweep_delay path with
  | None => utxos
  | Some delay =>
      let next_height := saturating_add tip_height 1 in
      filter (λ u, (saturating_add (confirmation_height u) delay ≤ next_height)%N) utxos
  end.

Definition sweep_input (path : SweepPath) (u : VaultUtxo) : TxIn :=
  {| previous_output := utxo_outpoint u; script_sig := []; sequence := sweep_sequence path;
     witness := [] |}.

Definition sweep_tx (path : SweepPath) (utxos : list VaultUtxo) (destination : Address)
    (value : N) : Transaction :=
  {| version := VERSION_TWO; lock_time := LOCK_TIME_ZERO;
     input := sweep_input path <$> utxos;
     output := [{| value := value; script_pubkey := address_script_pubkey destination |}] |}.

Definition build_sweep_psbt (policy : VaultPolicy) (utxos : list VaultUtxo) (path : SweepPath)
    (destination : Address) : result (Psbt * N * N) :=
  input_sats ← try_fold (sum_step (λ u, value (utxo_txout u)) "vault input total overflowed")
                 0%N utxos;
  fee_sats ← estimate_vault_vsize (sweep_tx path utxos destination input_sats) policy
               (policy_path path);
  sent_sats ← or_err (checked_sub input_sats fee_sats)
                "vault balance cannot pay the recovery sweep fee";
  psbt ← create_vault_psbt (sweep_tx path utxos destination sent_sats) (utxo_txout <$> utxos)
           policy;
  mret (psbt, fee_sats, sent_sats).

Definition prepare_sweep (config : VaultConfig) (all_utxos : list VaultUtxo) (tip_height : N)
    (path : SweepPath) (destination : Address) : result SweepPlan :=
  network ← bitcoin_network config;
  policy ← from_descriptor_for_network (vault_descriptor config) network;
  let utxos := mature_utxos all_utxos path tip_height in
  _ ← bail_if (bool_decide (utxos = []))
        (match sweep_delay path, head all_utxos with
         | Some delay, Some _ => "no vault UTXOs are mature"
         | _, _ => "vault has no confirmed UTXOs to sweep"
         end);
  '(psbt, fee_sats, sent_sats) ← build_sweep_psbt policy utxos path destination;
  mret {| plan_policy := policy; plan_psbt := psbt; plan_input_count := length utxos;
          plan_sent_sats := sent_sats; plan_fee_sats := fee_sats |}.

Definition sign_recovery_sweep (plan : SweepPlan) (path : SweepPath) (signer : DeviceKeys)
    : result (Transaction * SweepResult) :=
  _ ← bail_if (bool_decide (path = SweepCooperative))
        "cooperative sweeps require both device signatures";
  psbt ← exec (sign_vault_psbt (plan_policy plan) (policy_path path) (vault_keypair signer))
           (plan_psbt plan);
  transaction ← finalize_vault_psbt psbt;
  mret (transaction,
        {| result_txid := compute_txid transaction;
           result_input_count := plan_input_count plan;
           result_sent_sats := plan_sent_sats plan;
           result_fee_sats := plan_fee_sats plan |}).

Definition create_cooperative_sweep (config : VaultConfig) (utxos : list VaultUtxo)
    (destination : Address) (phone : DeviceKeys) : result CooperativeSweepPackage :=
  network ← bitcoin_network config;
  policy ← from_descriptor_for_network (vault_descriptor config) network;
  _ ← bail_if (bool_decide (utxos = [])) "vault has no confirmed UTXOs to sweep";
  '(psbt, fee_sats, sent_sats) ← build_sweep_psbt policy utxos SweepCooperative destination;
  psbt ← exec (sign_vault_psbt policy Cooperative (vault_keypair phone)) psbt;
  mret {| sweep_version := 1; sweep_kind := "cooperative-sweep";
          sweep_vault_descriptor := vault_descriptor config;
          sweep_destination := address_to_string destination;
          sweep_psbt := psbt_to_string psbt; sweep_input_count := length utxos;
          sweep_sent_sats := sent_sats; sweep_fee_sats := fee_sats;
          sweep_phone_approved := true; sweep_hww_approved := false |}.

(** ** Checking a sweep *)

Definition sweep_package_wrong (p : CooperativeSweepPackage) : bool :=
  negb (bool_decide (sweep_version p = 1%N)) ||
  negb (bool_decide (sweep_kind p = "cooperative-sweep")) ||
  negb (sweep_phone_approved p).

(** The order of the [||]: the output is indexed only when there is one. *)
Definition sweep_tx_wrong (p : CooperativeSweepPackage) (psbt : Psbt) (destination : Address)
    : result bool :=
  let tx := unsigned_tx psbt in
  Ok (negb (bool_decide (length (input tx) = sweep_input_count p)))
  ||? Ok (negb (bool_decide (length (inputs psbt) = sweep_input_count p)))
  ||? Ok (bool_decide (input tx = []))
  ||? Ok (existsb (λ i, negb (bool_decide (sequence i = SEQUENCE_MAX))) (input tx))
  ||? Ok (negb (bool_decide (length (output tx) = 1)))
  ||? (o ← index (output tx) 0; !!= (script_pubkey o = address_script_pubkey destination))
  ||? (o ← index (output tx) 0; !!= (value o = sweep_sent_sats p)).

Definition sweep_input_step (vault_script : ScriptBuf) (total : N) (x : PsbtInput) : result N :=
  prevout ← or_err (witness_utxo x) "cooperative sweep input lacks witness UTXO";
  _ ← bail_if (negb (bool_decide (script_pubkey prevout = vault_script)))
        "cooperative sweep input is outside the vault policy";
  or_err (checked_add total (value prevout)) "cooperative sweep input sum overflowed".

Definition validate_cooperative_sweep (config : VaultConfig) (p : CooperativeSweepPackage)
    : result (VaultPolicy * Psbt) :=
  _ ← bail_if (sweep_package_wrong p) "unsupported or unsigned cooperative sweep package";
  _ ← bail_if (negb (bool_decide (sweep_vault_descriptor p = vault_descriptor config)))
        "cooperative sweep package does not match the configured vault policy";
  network ← bitcoin_network config;
  policy ← from_descriptor_for_network (vault_descriptor config) network;
  unchecked ← or_err (address_from_str (sweep_destination p)) "invalid address";
  destination ← or_err (require_network unchecked network) "address of another network";
  psbt ← or_err (psbt_from_str (sweep_psbt p)) "invalid cooperative sweep PSBT";
  _ ← bail_when (sweep_tx_wrong p psbt destination)
        "cooperative sweep transaction does not match its package";
  let vault_script := address_script_pubkey (vault_address_of policy) in
  input_sats ← try_fold (sweep_input_step vault_script) 0%N (inputs psbt);
  fee_sats ← or_err (checked_sub input_sats (sweep_sent_sats p))
               "cooperative sweep outputs exceed its inputs";
  vsize ← estimate_vault_vsize (unsigned_tx psbt) policy Cooperative;
  expected_fee ← mul_u64 vsize DEFAULT_FEE_RATE_SAT_VB;
  _ ← bail_if (negb (bool_decide (fee_sats = sweep_fee_sats p)) ||
               negb (bool_decide (fee_sats = expected_fee)))
        "cooperative sweep fee does not match its package";
  mret (policy, psbt).

Definition finalize_cooperative_sweep (config : VaultConfig) (p : CooperativeSweepPackage)
    : result (Transaction * SweepResult) :=
  _ ← bail_if (negb (sweep_phone_approved p) || negb (sweep_hww_approved p))
        "both phone and HWW approval are required for a cooperative sweep";
  '(policy, psbt) ← validate_cooperative_sweep config p;
  phone ← or_err (key_from_str (phone_vault_pubkey config)) "invalid key";
  _ ← verify_vault_psbt_signature psbt policy Cooperative phone;
  hww ← or_err (key_from_str (hww_vault_pubkey config)) "invalid key";
  _ ← verify_vault_psbt_signature psbt policy Cooperative hww;
  transaction ← finalize_vault_psbt psbt;
  mret (transaction,
        {| result_txid := compute_txid transaction; result_input_count := sweep_input_count p;
           result_sent_sats := sweep_sent_sats p; result_fee_sats := sweep_fee_sats p |}).

(** ** Rotation *)

Definition rotated_config (old_config : VaultConfig) (new_phone : DeviceKeys)
    (new_policy : VaultPolicy) : result VaultConfig :=
  '(hot_external, hot_internal) ← hot_descriptors new_phone;
  mret {| config_version := config_version old_config;
          config_network := config_network old_config;
          phone_vault_pubkey := key_to_string (vault_pubkey new_phone);
          hww_vault_pubkey := hww_vault_pubkey old_config;
          phone_hot_external_descriptor := hot_external;
          phone_hot_internal_descriptor := hot_internal;
          vault_descriptor := vault_descriptor_string new_policy;
          vault_address := address_to_string (vault_address_of new_policy);
          phone_recovery_blocks := phone_recovery_blocks old_config;
          hww_recovery_blocks := hww_recovery_blocks old_config;
          config_monthly_limit_sats := config_monthly_limit_sats old_config;
          config_emergency_access_limit_sats := config_emergency_access_limit_sats old_config |}.

Definition renewed_manifest_wrong (old_config new_config : VaultConfig) (renewed : PolicyPackage)
    : bool :=
  let m := package_manifest renewed in
  negb (is_supported_policy_package renewed) ||
  negb (phone_approved m) ||
  negb (bool_decide (manifest_vault_descriptor m = vault_descriptor new_config)) ||
  negb (bool_decide (manifest_vault_address m = vault_address new_config)) ||
  negb (bool_decide (monthly_limit_sats m = config_monthly_limit_sats old_config)) ||
  negb (bool_decide (emergency_access_limit_sats m
                     = config_emergency_access_limit_sats old_config)).

Definition rollover_unchained (rollover : Psbt) (sweep_tx : Transaction) (sweep_output : TxOut)
    : result bool :=
  Ok (negb (bool_decide (length (input (unsigned_tx rollover)) = 1)))
  ||? Ok (negb (bool_decide (length (inputs rollover) = 1)))
  ||? (i ← index (input (unsigned_tx rollover)) 0;
       !!= (previous_output i = new_outpoint (compute_txid sweep_tx) 0))
  ||? (x ← index (inputs rollover) 0; !!= (witness_utxo x = Some sweep_output)).

Definition validate_rotation_policy_binding (old_config new_config : VaultConfig)
    (sweep : CooperativeSweepPackage) (renewed : PolicyPackage) : result unit :=
  _ ← bail_if (renewed_manifest_wrong old_config new_config renewed)
        "renewed vault policy does not preserve the active policy";
  sweep_psbt ← or_err (psbt_from_str (sweep_psbt sweep)) "invalid rotation sweep PSBT";
  let sweep_tx := unsigned_tx sweep_psbt in
  sweep_output ← or_err (head (output sweep_tx)) "rotation sweep has no output";
  rollover_text ← or_err (psbts renewed !! psbt_file (Ceremony.rollover (package_manifest renewed)))
                    "renewed vault policy is missing its rollover PSBT";
  rollover ← or_err (psbt_from_str rollover_text) "invalid renewed policy rollover PSBT";
  bail_when (rollover_unchained rollover sweep_tx sweep_output)
    "renewed vault policy is not chained to the rotation sweep".

Definition rotation_package_wrong (p : PhoneRotationPackage) (old_config : VaultConfig) : bool :=
  negb (bool_decide (old_vault_descriptor p = vault_descriptor old_config)) ||
  negb (bool_decide (sweep_vault_descriptor (rotation_sweep p) = vault_descriptor old_config)) ||
  negb (bool_decide (sweep_destination (rotation_sweep p) = new_vault_address p)) ||
  negb (bool_decide (rotation_monthly_limit_sats p = config_monthly_limit_sats old_config)) ||
  negb (bool_decide (rotation_emergency_access_limit_sats p
                     = config_emergency_access_limit_sats old_config)).

Definition validate_phone_rotation (f : FS) (data_dir : Path) (p : PhoneRotationPackage)
    : result (VaultConfig * VaultConfig * DeviceKeys) :=
  _ ← bail_if (negb (bool_decide (rotation_version p = 1%N)) ||
               negb (bool_decide (rotation_kind p = "phone-key-rotation")))
        "unsupported phone rotation package";
  old_config ← load_config f data_dir;
  _ ← bail_if (rotation_package_wrong p old_config)
        "phone rotation package does not match the current vault";
  pending ← (read_json f (join data_dir PENDING_PHONE_ROTATION_FILE) : result DeviceFile);
  pending_network ← device_bitcoin_network pending;
  old_network ← bitcoin_network old_config;
  _ ← bail_if (negb (bool_decide (pending_network = old_network)))
        "pending phone key network does not match the current vault";
  new_phone ← parse_for_network_at_index (device_mnemonic pending) old_network
                (device_vault_key_index pending);
  _ ← bail_if (negb (bool_decide (key_to_string (vault_pubkey new_phone)
                                  = new_phone_vault_pubkey p)))
        "pending phone key does not match the rotation proposal";
  hww_pubkey ← or_err (key_from_str (hww_vault_pubkey old_config)) "invalid key";
  phone_pubkey ← or_err (key_from_str (new_phone_vault_pubkey p)) "invalid key";
  policy ← vault_new_for_network phone_pubkey hww_pubkey old_network;
  _ ← bail_if (negb (bool_decide (vault_descriptor_string policy = new_vault_descriptor p)) ||
               negb (bool_decide (address_to_string (vault_address_of policy)
                                  = new_vault_address p)))
        "phone rotation destination does not match the proposed new keys";
  _ ← validate_cooperative_sweep old_config (rotation_sweep p);
  new_config ← rotated_config old_config new_phone policy;
  let programmable_policy_enabled :=
    ((0 <? config_monthly_limit_sats old_config)
     || (0 <? config_emergency_access_limit_sats old_config))%N in
  _ ← match programmable_policy_enabled, renewed_policy p with
      | false, None => Ok tt
      | false, Some _ => Err "disabled vault policy must not create renewed transactions"
      | true, None => Err "phone rotation is missing the renewed vault policy"
      | true, Some renewed =>
          validate_rotation_policy_binding old_config new_config (rotation_sweep p) renewed
      end;
  mret (old_config, new_config, new_phone).
End recovery.
