(* ===== verification/RecoveryFacts.v ===== *)
(** Sweeps and rotations: what is built, what is accepted and what is sent. *)

From S2P Require Import Prelude Bitcoin Toy Types Keys Policy Transactions FileSystem Storage Crypto Social SocialFacts Ceremony CeremonyValidate CeremonySound CeremonyBuild ToyCeremony Recovery.

Lemma Forall2_and_r {A B} (P : A → B → Prop) (Q : B → Prop) l k :
  Forall2 P l k → Forall Q k → Forall2 (λ x y, P x y ∧ Q y) l k.
Proof. induction 1; intros Hk; constructor; apply Forall_cons_iff in Hk as [? ?]; auto. Qed.

Section sweeps.
Context `{Laws : BitcoinLaws, !KeyLib, !KeyLaws}.
Implicit Types (psbt : Psbt) (policy : VaultPolicy) (utxos : list VaultUtxo).

Definition utxo_values utxos : N := sumN ((λ u, value (utxo_txout u)) <$> utxos).

(** ** What a sweep is *)

(** The sweep of these outputs by this path, to the satoshi. *)
Record sweep_of policy utxos (path : SweepPath) (destination : Address) psbt (fee sent : N)
    : Prop := {
  so_ready : ready psbt (sweep_tx path utxos destination sent) (utxo_txout <$> utxos);
  so_conserves : utxo_values utxos = (sent + fee)%N;
  so_fits : (utxo_values utxos ≤ U64_MAX)%N ∨ utxos = [];
  so_fee : estimate_vault_vsize (unsigned_tx psbt) policy (policy_path path) = Ok fee;
}.

Lemma sum_step_fits {A} (f : A → N) msg s l t :
  try_fold (sum_step f msg) s l = Ok t → (t ≤ U64_MAX)%N ∨ l = [].
Proof.
  revert s. induction l as [|x l IH]; intros s; [by right|]. simpl.
  intros (s' & [-> Hs]%or_err_Ok%checked_add_Some & Hl)%bind_Ok. left.
  destruct (IH _ Hl) as [?| ->]; [done|]. injection Hl as <-. exact Hs.
Qed.

Lemma build_sweep_psbt_Ok policy utxos path destination psbt fee sent :
  build_sweep_psbt policy utxos path destination = Ok (psbt, fee, sent) →
  sweep_of policy utxos path destination psbt fee sent.
Proof.
  unfold build_sweep_psbt. intros (total & Ht & Hr)%bind_Ok.
  pose proof (sum_step_fits _ _ _ _ _ Ht) as Hfit. apply try_fold_sum_Ok in Ht as ->.
  apply bind_Ok in Hr as (f & Hf & Hr). apply bind_Ok in Hr as (s & [-> Hs]%or_err_Ok%checked_sub_Some & Hr).
  apply bind_Ok in Hr as (p & Hp%create_vault_psbt_prepared%prepared_ready & [= -> -> <-]).
  rewrite N.add_0_l in *. split.
  - exact Hp.
  - unfold utxo_values. lia.
  - exact Hfit.
  - destruct Hp as [-> _ _ _]. rewrite <-Hf. by apply estimate_vault_vsize_shape.
Qed.

Lemma sign_vault_psbt_Ok policy path kp psbt psbt' :
  exec (sign_vault_psbt policy path kp) psbt = Ok psbt' →
  same_but_sigs psbt psbt' ∧
  ∃ leaf, vault_leaf policy path = Ok leaf ∧
    signed (leaf_hash leaf) kp (seq 0 (length (inputs psbt))) psbt psbt'.
Proof.
  intros ([] & Hs)%exec_Ok. unfold sign_vault_psbt in Hs.
  apply M_bind_Ok in Hs as (? & ? & [= <- <-] & Hs).
  apply sign_vault_psbt_inputs_Ok in Hs as (_ & leaf & Hl & Hsd). pose proof Hsd as [Hsame _]. eauto.
Qed.

(** Signatures do not change what a sweep is. *)
Lemma sweep_of_same policy utxos path destination psbt psbt' fee sent :
  same_but_sigs psbt psbt' → sweep_of policy utxos path destination psbt fee sent →
  sweep_of policy utxos path destination psbt' fee sent.
Proof.
  intros Hs [Hr Hc Hf He]. split; [by eapply ready_same|done|done|]. by destruct Hs as (<- & _).
Qed.

Lemma finalize_vault_psbt_effect psbt tx :
  finalize_vault_psbt psbt = Ok tx → same_effect tx (unsigned_tx psbt).
Proof.
  unfold finalize_vault_psbt. intros ([] & _ & Hr)%bind_Ok.
  apply bind_Ok in Hr as (p & <-%or_err_Ok%finalize_mut_tx & Ht%or_err_Ok). by apply extract_spec.
Qed.

(** ** Accepted sweeps *)

Record accepted_sweep (config : VaultConfig) (p : CooperativeSweepPackage) policy psbt : Prop := {
  sw_package : sweep_version p = 1%N ∧ sweep_kind p = "cooperative-sweep" ∧
    sweep_phone_approved p = true ∧ sweep_vault_descriptor p = vault_descriptor config;
  sw_psbt : psbt_from_str (sweep_psbt p) = Some psbt;
  sw_count : length (inputs psbt) = sweep_input_count p ∧ inputs psbt ≠ [];
  sw_final : Forall (λ i, sequence i = SEQUENCE_MAX) (input (unsigned_tx psbt));
  sw_output : ∃ network unchecked destination, bitcoin_network config = Ok network ∧
    from_descriptor_for_network (vault_descriptor config) network = Ok policy ∧
    address_from_str (sweep_destination p) = Some unchecked ∧
    require_network unchecked network = Some destination ∧
    output (unsigned_tx psbt) = [{| value := sweep_sent_sats p;
                                    script_pubkey := address_script_pubkey destination |}];
  sw_inputs : ∃ outs,
    Forall2 (λ x o, witness_utxo x = Some o ∧
                    script_pubkey o = address_script_pubkey (vault_address_of policy))
      (inputs psbt) outs ∧
    sumN (value <$> outs) = (sweep_sent_sats p + sweep_fee_sats p)%N ∧
    (sumN (value <$> outs) ≤ U64_MAX)%N;
  sw_fee : estimate_vault_vsize (unsigned_tx psbt) policy Cooperative = Ok (sweep_fee_sats p);
}.

Lemma sweep_inputs_Ok script l s t :
  try_fold (sweep_input_step script) s l = Ok t ↔
  ∃ outs, Forall2 (λ x o, witness_utxo x = Some o ∧ script_pubkey o = script) l outs ∧
    t = (s + sumN (value <$> outs))%N ∧ (l = [] ∨ (t ≤ U64_MAX)%N).
Proof.
  revert s. induction l as [|x l IH]; intros s.
  - simpl. split.
    + intros [= <-]. exists []. split; [constructor|]. split; [simpl; lia|by left].
    + intros (outs & ->%Forall2_nil_inv_l & -> & _). simpl. f_equal. lia.
  - simpl. rewrite bind_Ok. split.
    + intros (s1 & Hs1 & (outs & Ho & -> & Hb)%IH). unfold sweep_input_step in Hs1.
      apply bind_Ok in Hs1 as (o & Hw%or_err_Ok & Hs1).
      apply bind_Ok in Hs1 as ([] & Hsc%bail_neg & [-> Hle]%or_err_Ok%checked_add_Some).
      exists (o :: outs). split; [by constructor|]. rewrite sumN_fmap_cons.
      split; [lia|]. right. destruct Hb as [->|?]; [|lia].
      apply Forall2_nil_inv_l in Ho as ->. simpl. lia.
    + intros (outs & Ho & -> & Hb).
      apply Forall2_cons_inv_l in Ho as (o & outs' & [Hw Hsc] & Ho & ->).
      rewrite sumN_fmap_cons in Hb |- *. exists (s + value o)%N. destruct Hb as [?|Hb]; [done|]. split.
      * unfold sweep_input_step. ok_step (by apply or_err_Ok).
        ok_step (by apply (proj2 (bail_neg _ _ ()))). apply or_err_Ok, checked_add_Some. lia.
      * apply IH. exists outs'. rewrite sumN_fmap_cons. split; [done|]. split; [lia|]. right. lia.
Qed.

Lemma all_final_Ok (l : list TxIn) :
  existsb (λ i, negb (bool_decide (sequence i = SEQUENCE_MAX))) l = false ↔
  Forall (λ i, sequence i = SEQUENCE_MAX) l.
Proof.
  induction l as [|x l IH]; simpl; [by split; [constructor|]|].
  by rewrite orb_false_iff, negb_decide_false, IH, Forall_cons_iff.
Qed.

Lemma mul_rate_Ok v fee : mul_u64 v DEFAULT_FEE_RATE_SAT_VB = Ok fee ↔ v = fee ∧ (fee ≤ U64_MAX)%N.
Proof.
  unfold mul_u64, DEFAULT_FEE_RATE_SAT_VB. rewrite unwrap_Ok, checked_mul_Some, N.mul_1_r.
  naive_solver.
Qed.

Lemma sweep_tx_Ok (p : CooperativeSweepPackage) psbt destination :
  psbt_wf psbt →
  sweep_tx_wrong p psbt destination = Ok false ↔
  (length (inputs psbt) = sweep_input_count p ∧ inputs psbt ≠ []) ∧
  Forall (λ i, sequence i = SEQUENCE_MAX) (input (unsigned_tx psbt)) ∧
  output (unsigned_tx psbt) = [{| value := sweep_sent_sats p;
                                  script_pubkey := address_script_pubkey destination |}].
Proof.
  intros [Hwf _]. unfold sweep_tx_wrong.
  rewrite !orb_seq_false, !Ok_bool_false, !negb_decide_false, !index_check, bool_decide_eq_false,
    all_final_Ok. split.
  - intros [[[[[[H1 H2] H3] H4] H5] (o & Ho & Hs)] (o' & Ho' & Hv)]. split_and!; [done| |done|].
    + intros Hi. apply H3, length_zero_iff_nil. by rewrite <-Hwf, Hi.
    + assert (o' = o) as -> by congruence. apply (list_of_one _ _ H5) in Ho as ->.
      destruct o as [v s]. simpl in *. by subst.
  - intros ([Hc Hne] & Hf & Ho). rewrite Ho, <-Hwf. split_and!; try done; [|by eexists..].
    intros Hi. rewrite Hi in Hwf. by apply Hne, length_zero_iff_nil.
Qed.

Lemma sweep_package_Ok (p : CooperativeSweepPackage) :
  sweep_package_wrong p = false ↔
  sweep_version p = 1%N ∧ sweep_kind p = "cooperative-sweep" ∧ sweep_phone_approved p = true.
Proof.
  unfold sweep_package_wrong. rewrite !orb_false_iff, !negb_decide_false, negb_false_iff. tauto.
Qed.

Lemma validate_cooperative_sweep_Ok config p policy psbt :
  validate_cooperative_sweep config p = Ok (policy, psbt) ↔ accepted_sweep config p policy psbt.
Proof.
  unfold validate_cooperative_sweep. split.
  - intros ([] & (Hv & Hk & Hpa)%bail_if_Ok%sweep_package_Ok & Hr)%bind_Ok.
    apply bind_Ok in Hr as ([] & Hd%bail_neg & Hr). apply bind_Ok in Hr as (n & Hn & Hr).
    apply bind_Ok in Hr as (pol & Hpol & Hr). apply bind_Ok in Hr as (u & Hu%or_err_Ok & Hr).
    apply bind_Ok in Hr as (dest & Hdest%or_err_Ok & Hr).
    apply bind_Ok in Hr as (q & Hq%or_err_Ok & Hr). pose proof (psbt_from_str_wf _ _ Hq) as Hwf.
    apply bind_Ok in Hr as ([] & Hx%bail_when_Ok & Hr).
    apply sweep_tx_Ok in Hx as (Hc & Hf & Ho); [|done].
    apply bind_Ok in Hr as (t & (outs & Hin & -> & Hb)%sweep_inputs_Ok & Hr).
    apply bind_Ok in Hr as (fee & [-> Hle]%or_err_Ok%checked_sub_Some & Hr).
    apply bind_Ok in Hr as (v & Hve & Hr). apply bind_Ok in Hr as (ef & [-> Hef]%mul_rate_Ok & Hr).
    apply bind_Ok in Hr as ([] & [Hfee Hexp]%bail_if_Ok%orb_false_iff & [= <- <-]).
    apply negb_decide_false in Hfee, Hexp. rewrite N.add_0_l in *.
    destruct Hb as [?|Hb]; [by destruct Hc|]. split; try done; [by exists n, u, dest| |congruence].
    exists outs. split; [done|]. split; [lia|done].
  - intros [(Hv & Hk & Hpa & Hd) Hq Hc Hf (n & u & dest & Hn & Hpol & Hu & Hdest & Ho)
            (outs & Hin & Hs & Hb) Hfee].
    ok_step (by apply (proj2 (bail_if_Ok _ _ ())), sweep_package_Ok).
    ok_step (by apply (proj2 (bail_neg _ _ ()))). ok_step (exact Hn). ok_step (exact Hpol).
    ok_step (by apply or_err_Ok). ok_step (by apply or_err_Ok). ok_step (by apply or_err_Ok).
    ok_step (apply (proj2 (bail_when_Ok _ _ ())), sweep_tx_Ok; [by eapply psbt_from_str_wf|done]).
    ok_step (by apply sweep_inputs_Ok; exists outs; split; [|split; [reflexivity|right; lia]]).
    ok_step (by apply or_err_Ok, checked_sub_Some; split; [reflexivity|lia]).
    ok_step (exact Hfee). ok_step (apply mul_rate_Ok; split; [reflexivity|lia]).
    ok_step (apply (proj2 (bail_if_Ok _ _ ())), orb_false_iff; split; apply negb_decide_false; lia).
    done.
Qed.

(** The two signatures of a spend by the cooperative leaf. *)
Definition signed_by policy (key : XOnlyPublicKey) psbt : Prop :=
  ∃ leaf, vault_leaf policy Cooperative = Ok leaf ∧
    Forall (has_sig (leaf_hash leaf) key psbt) (seq 0 (length (inputs psbt))).

Lemma verify_vault_signed_by psbt policy key :
  verify_vault_psbt_signature psbt policy Cooperative key = Ok tt → signed_by policy key psbt.
Proof. unfold verify_vault_psbt_signature. by intros [_ ?]%verify_vault_iff. Qed.

(** The vault of a configuration. *)
Definition vault_of (config : VaultConfig) policy : Prop :=
  ∃ network, bitcoin_network config = Ok network ∧
    from_descriptor_for_network (vault_descriptor config) network = Ok policy.

(** C26: The phone's cooperative sweep of vault outputs to an address of the
    vault's network is a package that every later validation accepts, for the
    vault's policy and with the phone's signature on every input; it sends
    everything but the fee. *)
Theorem cooperative_sweep_validates config network policy utxos destination phone p :
  bitcoin_network config = Ok network →
  from_descriptor_for_network (vault_descriptor config) network = Ok policy →
  Forall (λ u, script_pubkey (utxo_txout u) = address_script_pubkey (vault_address_of policy))
    utxos →
  on_network destination network → keys_of phone →
  create_cooperative_sweep config utxos destination phone = Ok p →
  utxo_values utxos = (sweep_sent_sats p + sweep_fee_sats p)%N ∧
  ∃ psbt, validate_cooperative_sweep config p = Ok (policy, psbt) ∧
    (previous_output <$> input (unsigned_tx psbt)) = (utxo_outpoint <$> utxos) ∧
    verify_vault_psbt_signature psbt policy Cooperative (vault_pubkey phone) = Ok tt.
Proof.
  intros Hn Hpol Hvault Hnet Hkeys Hr. unfold create_cooperative_sweep in Hr.
  rewrite Hn in Hr. simpl in Hr. rewrite Hpol in Hr. simpl in Hr.
  apply bind_Ok in Hr as ([] & Hne%bail_if_Ok%bool_decide_eq_false & Hr).
  apply bind_Ok in Hr as ([[q0 fee] sent] & Hq0%build_sweep_psbt_Ok & Hr).
  apply bind_Ok in Hr as (q & (Hsame & leaf & Hleaf & Hsigned)%sign_vault_psbt_Ok & [= <-]).
  pose proof (sweep_of_same _ _ _ _ _ _ _ _ Hsame Hq0) as [Hready Hcons Hfits Hfee].
  destruct Hfits as [Hfits|]; [|done]. simpl in Hfee.
  destruct Hready as [Htx Hwf Hprev Hdef]. simpl. split; [done|].
  exists q. split_and!.
  - apply validate_cooperative_sweep_Ok. unfold on_network in Hnet.
    apply bind_Some in Hnet as (u & Hu & Hdest).
    pose proof (Forall2_length _ _ _ Hprev) as Hlen. rewrite length_fmap in Hlen.
    split; simpl.
    + done.
    + by apply psbt_round_trip.
    + split; [done|]. intros Hi. rewrite Hi in Hlen. by apply Hne, length_zero_iff_nil.
    + rewrite Htx. simpl. by apply Forall_fmap, Forall_true.
    + exists network, u, destination. by rewrite Htx.
    + exists (utxo_txout <$> utxos). rewrite <-list_fmap_compose. split; [|done].
      apply Forall2_and_r; [done|]. by apply Forall_fmap.
    + done.
  - rewrite Htx. simpl. by rewrite <-list_fmap_compose.
  - apply verify_vault_iff. split; [done|]. exists leaf. split; [done|].
    apply from_mnemonic_inv in Hkeys as (_ & _ & _ & _ & ->).
    apply Forall_forall. intros i Hi. eapply signed_has_sig; [exact Hsigned|].
    by rewrite (same_but_sigs_length _ _ Hsame).
Qed.

(** C22: A finished cooperative sweep has both approvals and a valid signature of
    the phone's and of the HWW's key on every input; the transaction that is
    sent spends only outputs of the vault, has a single output, to the
    package's destination, and pays exactly the estimated fee. *)
Theorem finalized_sweep_safe config p tx r :
  finalize_cooperative_sweep config p = Ok (tx, r) →
  ∃ policy psbt phone hww outs destination,
    vault_of config policy ∧ psbt_from_str (sweep_psbt p) = Some psbt ∧
    sweep_phone_approved p = true ∧ sweep_hww_approved p = true ∧
    key_from_str (phone_vault_pubkey config) = Some phone ∧ signed_by policy phone psbt ∧
    key_from_str (hww_vault_pubkey config) = Some hww ∧ signed_by policy hww psbt ∧
    Forall2 (λ x o, witness_utxo x = Some o ∧
                    script_pubkey o = address_script_pubkey (vault_address_of policy))
      (inputs psbt) outs ∧
    (∃ u n, address_from_str (sweep_destination p) = Some u ∧
       bitcoin_network config = Ok n ∧ require_network u n = Some destination) ∧
    same_effect tx (unsigned_tx psbt) ∧
    output tx = [{| value := result_sent_sats r;
                    script_pubkey := address_script_pubkey destination |}] ∧
    sumN (value <$> outs) = (result_sent_sats r + result_fee_sats r)%N ∧
    estimate_vault_vsize (unsigned_tx psbt) policy Cooperative = Ok (result_fee_sats r) ∧
    result_txid r = compute_txid tx.
Proof.
  unfold finalize_cooperative_sweep.
  intros ([] & [Hpa Hha]%bail_if_Ok%orb_false_iff & Hr)%bind_Ok.
  apply negb_false_iff in Hpa, Hha.
  apply bind_Ok in Hr as ([policy psbt] & Hv%validate_cooperative_sweep_Ok & Hr).
  apply bind_Ok in Hr as (phone & Hph%or_err_Ok & Hr).
  apply bind_Ok in Hr as ([] & Hps%verify_vault_signed_by & Hr).
  apply bind_Ok in Hr as (hww & Hhw%or_err_Ok & Hr).
  apply bind_Ok in Hr as ([] & Hhs%verify_vault_signed_by & Hr).
  apply bind_Ok in Hr as (t & Ht%finalize_vault_psbt_effect & [= <- <-]).
  destruct Hv as [_ Hq _ _ (n & u & dest & Hn & Hpol & Hu & Hd & Ho) (outs & Hin & Hs & _) Hfee].
  pose proof Ht as (_ & _ & Hout & _). rewrite Ho in Hout.
  exists policy, psbt, phone, hww, outs, dest. split_and!; try done; [by exists n|by exists u, n].
Qed.

Lemma saturated_mature h d tip : (tip < U64_MAX - 1)%N →
  (saturating_add h d ≤ saturating_add tip 1)%N ↔ (h + d ≤ tip + 1)%N.
Proof. unfold saturating_add, U64_MAX. lia. Qed.


(** ** Rotation *)

Lemma rotated_config_Ok old phone policy new :
  rotated_config old phone policy = Ok new →
  phone_vault_pubkey new = key_to_string (vault_pubkey phone) ∧
  hww_vault_pubkey new = hww_vault_pubkey old ∧ config_network new = config_network old ∧
  vault_descriptor new = vault_descriptor_string policy ∧
  vault_address new = address_to_string (vault_address_of policy) ∧
  config_monthly_limit_sats new = config_monthly_limit_sats old ∧
  config_emergency_access_limit_sats new = config_emergency_access_limit_sats old.
Proof. unfold rotated_config. by intros ([ext int] & _ & [= <-])%bind_Ok. Qed.

(** The renewed policy starts from the sweep's only output. *)
Definition chained (sweep : CooperativeSweepPackage) (renewed : PolicyPackage) : Prop :=
  ∃ sweep_p rollover_text rollover_p i x o,
    psbt_from_str (sweep_psbt sweep) = Some sweep_p ∧
    psbts renewed !! psbt_file (Ceremony.rollover (package_manifest renewed)) = Some rollover_text ∧
    psbt_from_str rollover_text = Some rollover_p ∧
    input (unsigned_tx rollover_p) = [i] ∧ inputs rollover_p = [x] ∧
    previous_output i = {| txid := compute_txid (unsigned_tx sweep_p); vout := 0 |} ∧
    output (unsigned_tx sweep_p) !! 0 = Some o ∧ witness_utxo x = Some o.

Lemma binding_Ok old new sweep renewed :
  validate_rotation_policy_binding old new sweep renewed = Ok tt ↔
  renewed_manifest_wrong old new renewed = false ∧ chained sweep renewed.
Proof.
  unfold validate_rotation_policy_binding, rollover_unchained, new_outpoint. split.
  - intros ([] & Hm%bail_if_Ok & Hr)%bind_Ok. split; [done|].
    apply bind_Ok in Hr as (sp & Hsp%or_err_Ok & Hr). apply bind_Ok in Hr as (o & Ho%or_err_Ok & Hr).
    apply bind_Ok in Hr as (t & Ht%or_err_Ok & Hr). apply bind_Ok in Hr as (rp & Hrp%or_err_Ok & Hr).
    apply bail_when_Ok in Hr. rewrite !orb_seq_false, !Ok_bool_false, !negb_decide_false,
      !index_check in Hr. destruct Hr as [[[H1 H2] (i & Hi & Hpo)] (x & Hx & Hw)].
    exists sp, t, rp, i, x, o. rewrite <-head_lookup.
    split_and!; try done; by apply list_of_one.
  - intros (Hm & sp & t & rp & i & x & o & Hsp & Ht & Hrp & Hi & Hx & Hpo & Ho & Hw).
    ok_step (by apply (proj2 (bail_if_Ok _ _ ()))). ok_step (by apply or_err_Ok).
    ok_step (by apply or_err_Ok; rewrite head_lookup). ok_step (by apply or_err_Ok).
    ok_step (by apply or_err_Ok). apply bail_when_Ok.
    rewrite !orb_seq_false, !Ok_bool_false, !negb_decide_false, !index_check, Hi, Hx.
    split_and!; eauto.
Qed.
End sweeps.

Section rotation.
Context `{Laws : BitcoinLaws, !KeyLib, !KeyLaws, Json VaultConfig, Json DeviceFile}.

Lemma limit_enabled m e : ((0 <? m) || (0 <? e))%N = false ↔ m = 0%N ∧ e = 0%N.
Proof. rewrite orb_false_iff, !N.ltb_ge. lia. Qed.

End rotation.

(** * Witnesses *)

Definition toy_hww_device : DeviceKeys := toy_keys "h" Regtest.
Definition toy_new_phone : DeviceKeys := toy_keys "q" Regtest.
Definition toy_current : VaultPolicy := Eval vm_compute in
  get_value (from_descriptor_for_network (vault_descriptor toy_config) Regtest) toy_vault.
Definition toy_next : VaultPolicy := Eval vm_compute in
  get_value (vault_new_for_network (vault_pubkey toy_new_phone) (vault_pubkey toy_hww_device) Regtest)
    toy_vault.
Definition toy_utxo (n v h : N) : VaultUtxo :=
  {| utxo_outpoint := toy_outpoint n;
     utxo_txout := {| value := v; script_pubkey := address_script_pubkey (vault_address_of toy_current) |};
     confirmation_height := h |}.
Definition toy_no_sweep : CooperativeSweepPackage :=
  Build_CooperativeSweepPackage 0 "" "" "" "" 0 0 0 false false.
Definition toy_sweep : CooperativeSweepPackage := Eval vm_compute in
  get_value (create_cooperative_sweep toy_config [toy_utxo 1 40000 5; toy_utxo 2 60000 9]
               (vault_address_of toy_next) toy_phone_device) toy_no_sweep.

Lemma cooperative_sweep_validates_witness :
  create_cooperative_sweep toy_config [toy_utxo 1 40000 5; toy_utxo 2 60000 9]
    (vault_address_of toy_next) toy_phone_device = Ok toy_sweep ∧
  ∃ psbt, validate_cooperative_sweep toy_config toy_sweep = Ok (toy_current, psbt).
Proof.
  assert (create_cooperative_sweep toy_config [toy_utxo 1 40000 5; toy_utxo 2 60000 9]
    (vault_address_of toy_next) toy_phone_device = Ok toy_sweep) as Hc by (vm_compute; reflexivity).
  split; [exact Hc|].
  assert (from_descriptor_for_network (vault_descriptor toy_config) Regtest = Ok toy_current) as Hp
    by (vm_compute; reflexivity).
  assert (on_network (vault_address_of toy_next) Regtest) as Hn by (vm_compute; reflexivity).
  destruct (cooperative_sweep_validates toy_config Regtest toy_current
    [toy_utxo 1 40000 5; toy_utxo 2 60000 9] _ _ _ eq_refl Hp ltac:(repeat constructor) Hn
    (parse_keys_of "p" Regtest 0 toy_phone_device eq_refl) Hc) as (_ & psbt & Hv & _).
  exists psbt. exact Hv.
Defined.

(** The HWW signs and approves. *)
Definition toy_sweep_approved : CooperativeSweepPackage := Eval vm_compute in
  match psbt_from_str (sweep_psbt toy_sweep) with
  | Some q =>
      match exec (sign_vault_psbt toy_current Cooperative (vault_keypair toy_hww_device)) q with
      | Ok q' => {| sweep_version := 1; sweep_kind := "cooperative-sweep";
                    sweep_vault_descriptor := sweep_vault_descriptor toy_sweep;
                    sweep_destination := sweep_destination toy_sweep;
                    sweep_psbt := psbt_to_string q';
                    sweep_input_count := sweep_input_count toy_sweep;
                    sweep_sent_sats := sweep_sent_sats toy_sweep;
                    sweep_fee_sats := sweep_fee_sats toy_sweep;
                    sweep_phone_approved := true; sweep_hww_approved := true |}
      | _ => toy_no_sweep
      end
  | None => toy_no_sweep
  end.
Definition toy_no_result : Transaction * SweepResult :=
  (toy_action, {| result_txid := 0%N : Txid; result_input_count := 0; result_sent_sats := 0;
                  result_fee_sats := 0 |}).
Definition toy_final : Transaction * SweepResult := Eval vm_compute in
  get_value (finalize_cooperative_sweep toy_config toy_sweep_approved) toy_no_result.

Lemma finalized_sweep_safe_witness :
  finalize_cooperative_sweep toy_config toy_sweep_approved = Ok toy_final ∧
  ∃ policy psbt phone, vault_of toy_config policy ∧ signed_by policy phone psbt.
Proof.
  assert (finalize_cooperative_sweep toy_config toy_sweep_approved = Ok (toy_final.1, toy_final.2))
    as Hf by (vm_compute; reflexivity).
  split; [exact Hf|].
  destruct (finalized_sweep_safe _ _ _ _ Hf)
    as (policy & psbt & phone & _ & _ & _ & Hv & _ & _ & _ & _ & Hs & _).
  exists policy, psbt, phone. split; [exact Hv|exact Hs].
Defined.

(** At height 65540 the first output, not the second, is spendable by the HWW. *)
Definition toy_plan : SweepPlan := Eval vm_compute in
  get_value (prepare_sweep toy_config [toy_utxo 1 40000 5; toy_utxo 2 60000 9] 65540
               SweepHwwRecovery ("r-safe" : Address))
    {| plan_policy := toy_vault; plan_psbt := toy_empty_psbt; plan_input_count := 0;
       plan_sent_sats := 0; plan_fee_sats := 0 |}.
Definition toy_recovered : Transaction * SweepResult := Eval vm_compute in
  get_value (sign_recovery_sweep toy_plan SweepHwwRecovery toy_hww_device) toy_no_result.


Definition toy_rotating : FS :=
  set_nodes (<[["data"; "phone"; "pending-rotation.json"] :=
                 File (Toy.to_text (toy_device "phone" "q"))]> (nodes toy_initialized)) toy_initialized.
Definition toy_rotation : PhoneRotationPackage :=
  {| rotation_version := 1; rotation_kind := "phone-key-rotation";
     old_vault_descriptor := vault_descriptor toy_config;
     new_phone_vault_pubkey := key_to_string (vault_pubkey toy_new_phone);
     new_vault_descriptor := vault_descriptor_string toy_next;
     new_vault_address := address_to_string (vault_address_of toy_next);
     rotation_monthly_limit_sats := 0; rotation_emergency_access_limit_sats := 0;
     rotation_sweep := toy_sweep; renewed_policy := None; cloud_recovery_backup := None |}.
Definition toy_rotated : VaultConfig := Eval vm_compute in
  get_value (rotated_config toy_config toy_new_phone toy_next) toy_config.

