(* ===== verification/ColdWallet.v ===== *)
(** The hardware wallet's side: it validates everything it is shown before it
    signs ([cold_wallet/mod.rs]). *)

From S2P Require Import Prelude Bitcoin Toy Types Keys Policy Transactions FileSystem Storage Crypto Social Ceremony CeremonyValidate Recovery.

Section cold_wallet.
Context `{BitcoinLib, !KeyLib, Pgp : PgpLib, Json VaultConfig, Json DeviceFile,
          Json PublicDeviceFile, Json BatchManifest, Json CloudRecoveryBackup, Json EncryptedBlob,
          Json RecoveryPayload, JsonVec RecoveryPayload, JsonVec (list FriendKeyWrapper)}.

(** ** The device *)

(** A phone that is initialised already must be of the same network. *)
Definition check_phone_network (f : FS) (data_dir : Path) (network : Network) : result unit :=
  if exists_ f (join data_dir PHONE_DEVICE_FILE) then
    phone_file ← load_device f data_dir PHONE_DEVICE_FILE;
    phone_network ← device_bitcoin_network phone_file;
    _ ← bail_if (negb (bool_decide (phone_network = network)))
          "phone is configured for another network";
    _ ← parse_for_network_at_index (device_mnemonic phone_file) network
          (device_vault_key_index phone_file);
    mret tt
  else Ok tt.

Definition initialize (data_dir : Path) (network : Network) : M (FS * Rng) InitializedDevice :=
  _ ← pure (validate_supported_network network);
  let hww_path := join data_dir HWW_DEVICE_FILE in
  s ← get;
  _ ← pure (bail_if (exists_ s.1 hww_path) "HWW already initialized");
  _ ← pure (check_phone_network s.1 data_dir network);
  entropy ← on_rng (draw 32);
  hww ← pure (generate_for_network entropy network);
  let words := mnemonic_to_string (mnemonic hww) in
  _ ← on_fs (write_json (join data_dir HWW_PUBLIC_FILE)
        {| public_version := 1; public_kind := "hww-public-key";
           public_network := network_name network;
           public_vault_pubkey := key_to_string (vault_pubkey hww) |});
  _ ← on_fs (write_json hww_path
        {| device_kind := "hww"; device_network := network_name network;
           device_mnemonic := words; device_vault_key_index := vault_key_index hww |});
  mret {| initialized_mnemonic := words;
          initialized_vault_pubkey := key_to_string (vault_pubkey hww);
          initialized_vault_key_index := vault_key_index hww |}.

(** ** Backups *)

Definition load_or_migrate_cloud_backup (data_dir backup_path : Path) (config : VaultConfig)
    (hww : DeviceKeys) : M (FS * Rng) CloudRecoveryBackup :=
  s ← get;
  match (read_json s.1 backup_path : result CloudRecoveryBackup) with
  | Ok backup => mret backup
  | Panic => pure Panic
  | Err _ =>
      legacy ← pure (with_context (read_json s.1 backup_path : result EncryptedBlob)
                 "backup is neither a cloud recovery envelope nor a legacy phone backup");
      words ← pure (decrypt (seed hww) "phone-seed-backup" legacy);
      _ ← pure (bail_if (negb (utf8 words)) "legacy phone backup was not UTF-8");
      network ← pure (bitcoin_network config);
      phone ← pure (parse_for_network (string_of words) network);
      payload ← pure (payload_new config phone);
      migrated ← on_rng (create_backup payload (seed hww) []);
      _ ← (if bool_decide (backup_path = join data_dir PHONE_BACKUP_FILE)
           then on_fs (write_json backup_path migrated) else mret tt);
      mret migrated
  end.

Definition decrypt_phone_backup (data_dir : Path) : M (FS * Rng) string :=
  s ← get;
  config ← pure (load_config s.1 data_dir);
  hww ← pure (load_device_keys s.1 data_dir HWW_DEVICE_FILE);
  backup ← load_or_migrate_cloud_backup data_dir (join data_dir PHONE_BACKUP_FILE) config hww;
  payload ← pure (decrypt_with_hww backup (seed hww));
  _ ← pure (validate_against payload config);
  mret (payload_phone_mnemonic payload).

Definition create_cloud_recovery_backup (data_dir : Path) (config : VaultConfig)
    : M (FS * Rng) CloudRecoveryBackup :=
  s ← get;
  phone ← pure (load_device_keys s.1 data_dir PHONE_DEVICE_FILE);
  hww ← pure (load_device_keys s.1 data_dir HWW_DEVICE_FILE);
  payload ← pure (payload_new config phone);
  backup ← on_rng (create_backup payload (seed hww) []);
  _ ← on_fs (write_json (join data_dir PHONE_BACKUP_FILE) backup);
  mret backup.

(** [social::add_friend] on a local envelope. *)
Definition add_friend_to (backup : CloudRecoveryBackup) (hww_seed public_key : Bytes)
    : M (FS * Rng) (string * CloudRecoveryBackup) :=
  λ s, match add_friend hww_seed public_key (backup, s.2) with
       | (Ok fingerprint, (backup, r)) => (Ok (fingerprint, backup), (s.1, r))
       | (Err e, (_, r)) => (Err e, (s.1, r))
       | (Panic, (_, r)) => (Panic, (s.1, r))
       end.

Definition add_recovery_friend (data_dir : Path) (public_key : Bytes) : M (FS * Rng) string :=
  s ← get;
  config ← pure (load_config s.1 data_dir);
  hww ← pure (load_device_keys s.1 data_dir HWW_DEVICE_FILE);
  backup ← load_or_migrate_cloud_backup data_dir (join data_dir PHONE_BACKUP_FILE) config hww;
  payload ← pure (decrypt_with_hww backup (seed hww));
  _ ← pure (validate_against payload config);
  '(fingerprint, backup) ← add_friend_to backup (seed hww) public_key;
  _ ← on_fs (write_json (join data_dir PHONE_BACKUP_FILE) backup);
  mret fingerprint.

Definition decrypt_phone_backup_package (data_dir backup_path : Path)
    : M (FS * Rng) PhoneRecoveryPackage :=
  s ← get;
  config ← pure (load_config s.1 data_dir);
  hww ← pure (load_device_keys s.1 data_dir HWW_DEVICE_FILE);
  backup ← load_or_migrate_cloud_backup data_dir backup_path config hww;
  payload ← pure (decrypt_with_hww backup (seed hww));
  _ ← pure (validate_against payload config);
  network ← pure (bitcoin_network config);
  phone ← pure (parse_for_network_at_index (payload_phone_mnemonic payload) network
                  (payload_phone_vault_key_index payload));
  _ ← pure (bail_if (negb (bool_decide (key_to_string (vault_pubkey phone)
                                        = phone_vault_pubkey config)))
              "decrypted phone backup does not match the configured vault policy");
  mret {| recovery_version := 2; recovery_kind := "phone-recovery";
          recovery_phone_mnemonic := payload_phone_mnemonic payload;
          recovery_phone_vault_key_index := vault_key_index phone;
          recovery_phone_vault_pubkey := key_to_string (vault_pubkey phone);
          recovery_vault_descriptor := payload_vault_descriptor payload;
          recovery_vault_address := payload_vault_address payload |}.

(** ** Approving a policy *)

(** One transaction of the batch: the phone's signatures are verified, the
    HWW's are added, and the file is replaced. *)
Definition approve_transaction (m : BatchManifest) (batch_dir : Path) (policy : VaultPolicy)
    (controller : ControllerPolicy) (phone_pubkey : XOnlyPublicKey) (hww : DeviceKeys)
    (t : BatchTransaction) : M FS unit :=
  let path := join batch_dir (psbt_file t) in
  f ← get;
  psbt ← pure (read_psbt f path);
  vault_indexes ← pure (transaction_indexes (vault_input_indexes t));
  controller_indexes ← pure (transaction_indexes (controller_input_indexes t));
  _ ← pure (verify_vault_psbt_signatures psbt policy Cooperative phone_pubkey vault_indexes);
  _ ← pure (if negb (bool_decide (controller_indexes = []))
               && bool_decide (psbt_file t = psbt_file (rollover m))
            then verify_controller_psbt_signatures psbt controller PhonePath phone_pubkey
                   controller_indexes
            else Ok tt);
  psbt ← pure (exec (sign_vault_psbt_inputs policy Cooperative (vault_keypair hww) vault_indexes)
                 psbt);
  write_psbt path psbt.

(** [manifest.hww_approved = true]. *)
Definition set_hww_approved (m : BatchManifest) : BatchManifest :=
  {| manifest_version := manifest_version m; created_at := created_at m;
     manifest_network := manifest_network m;
     manifest_vault_descriptor := manifest_vault_descriptor m;
     manifest_vault_address := manifest_vault_address m;
     controller_descriptor := controller_descriptor m;
     controller_address := controller_address m;
     connector_value_sats := connector_value_sats m; monthly_limit_sats := monthly_limit_sats m;
     emergency_access_limit_sats := emergency_access_limit_sats m;
     fee_rate_sat_vb := fee_rate_sat_vb m; total_input_sats := total_input_sats m;
     vault_input_sats := vault_input_sats m; controller_input_sats := controller_input_sats m;
     allowance_count := allowance_count m; rollover := rollover m;
     allowance_vout := allowance_vout m; allowance_value_sats := allowance_value_sats m;
     remainder_vout := remainder_vout m; remainder_value_sats := remainder_value_sats m;
     monthly_connector_vout := monthly_connector_vout m;
     emergency_connector_vout := emergency_connector_vout m; allowances := allowances m;
     emergency_access := emergency_access m; phone_approved := phone_approved m;
     hww_approved := true |}.

Definition approve_policy_for_config (data_dir : Path) (config : VaultConfig) (batch_dir : Path)
    : M FS BatchManifest :=
  f ← get;
  manifest ← pure (load_manifest f batch_dir);
  policy ← pure (validate_batch config manifest f batch_dir);
  phone_pubkey ← pure (or_err (key_from_str (phone_vault_pubkey config)) "malformed public key");
  hww_pubkey ← pure (or_err (key_from_str (hww_vault_pubkey config)) "malformed public key");
  network ← pure (bitcoin_network config);
  controller ← pure (controller_new_for_network phone_pubkey hww_pubkey network);
  hww ← pure (load_device_keys f data_dir HWW_DEVICE_FILE);
  _ ← pure (bail_if (negb (bool_decide (key_to_string (vault_pubkey hww) = hww_vault_pubkey config)))
              "HWW key does not match the configured vault policy");
  _ ← for_eachM (approve_transaction manifest batch_dir policy controller phone_pubkey hww)
        (manifest_transactions manifest);
  let manifest := set_hww_approved manifest in
  _ ← write_json (join batch_dir "manifest.json") manifest;
  mret manifest.

Definition approve_policy (data_dir batch_dir : Path) : M FS BatchManifest :=
  f ← get;
  config ← pure (load_config f data_dir);
  approve_policy_for_config data_dir config batch_dir.

(** ** Spending *)

Definition recover (f : FS) (data_dir : Path) (config : VaultConfig) (utxos : list VaultUtxo)
    (tip_height : N) (destination : Address) : result (Transaction * SweepResult) :=
  plan ← prepare_sweep config utxos tip_height SweepHwwRecovery destination;
  hww ← load_device_keys f data_dir HWW_DEVICE_FILE;
  sign_recovery_sweep plan SweepHwwRecovery hww.

Definition revoke_policy (f : FS) (data_dir : Path) (config : VaultConfig)
    (controller_utxos : list VaultUtxo) (destination : Address) : result Transaction :=
  phone_pubkey ← or_err (key_from_str (phone_vault_pubkey config)) "malformed public key";
  hww ← load_device_keys f data_dir HWW_DEVICE_FILE;
  _ ← bail_if (negb (bool_decide (key_to_string (vault_pubkey hww) = hww_vault_pubkey config)))
        "HWW key does not match the configured vault policy";
  network ← bitcoin_network config;
  controller ← controller_new_for_network phone_pubkey (vault_pubkey hww) network;
  '(psbt, _) ← build_controller_revocation_psbt controller_utxos
                 (address_script_pubkey destination) DEFAULT_FEE_RATE_SAT_VB controller;
  psbt ← exec (sign_controller_psbt_inputs controller HwwPath (vault_keypair hww)
                 (seq 0 (length (inputs psbt)))) psbt;
  finalize_vault_psbt psbt.

(** [approved.psbt = ..] and [approved.hww_approved = true]. *)
Definition approved_sweep (p : CooperativeSweepPackage) (psbt : Psbt) : CooperativeSweepPackage :=
  {| sweep_version := sweep_version p; sweep_kind := sweep_kind p;
     sweep_vault_descriptor := sweep_vault_descriptor p;
     sweep_destination := sweep_destination p; sweep_psbt := psbt_to_string psbt;
     sweep_input_count := sweep_input_count p; sweep_sent_sats := sweep_sent_sats p;
     sweep_fee_sats := sweep_fee_sats p; sweep_phone_approved := sweep_phone_approved p;
     sweep_hww_approved := true |}.

Definition approve_cooperative_sweep_for_config (f : FS) (data_dir : Path) (config : VaultConfig)
    (p : CooperativeSweepPackage) : result CooperativeSweepPackage :=
  '(policy, psbt) ← validate_cooperative_sweep config p;
  phone_pubkey ← or_err (key_from_str (phone_vault_pubkey config)) "malformed public key";
  _ ← verify_vault_psbt_signature psbt policy Cooperative phone_pubkey;
  hww ← load_device_keys f data_dir HWW_DEVICE_FILE;
  _ ← bail_if (negb (bool_decide (key_to_string (vault_pubkey hww) = hww_vault_pubkey config)))
        "HWW key does not match the configured vault policy";
  psbt ← exec (sign_vault_psbt policy Cooperative (vault_keypair hww)) psbt;
  mret (approved_sweep p psbt).

Definition approve_cooperative_sweep (f : FS) (data_dir : Path) (p : CooperativeSweepPackage)
    : result CooperativeSweepPackage :=
  config ← load_config f data_dir;
  approve_cooperative_sweep_for_config f data_dir config p.

(** ** Approving a rotation *)

Definition reset_workspace (path : Path) : M FS unit :=
  f ← get;
  if exists_ f path then remove_dir_all path else mret tt.

(** Assignments to the approved package. *)
Definition set_approved (p : PhoneRotationPackage) (sweep : CooperativeSweepPackage)
    (policy : option PolicyPackage) (backup : option CloudRecoveryBackup) : PhoneRotationPackage :=
  {| rotation_version := rotation_version p; rotation_kind := rotation_kind p;
     old_vault_descriptor := old_vault_descriptor p;
     new_phone_vault_pubkey := new_phone_vault_pubkey p;
     new_vault_descriptor := new_vault_descriptor p; new_vault_address := new_vault_address p;
     rotation_monthly_limit_sats := rotation_monthly_limit_sats p;
     rotation_emergency_access_limit_sats := rotation_emergency_access_limit_sats p;
     rotation_sweep := sweep; renewed_policy := policy; cloud_recovery_backup := backup |}.

Definition review_workspace (data_dir : Path) : Path :=
  join data_dir "hww/rotation-policy-review".

(** The renewed policy is reviewed in a workspace of its own. *)
Definition approve_renewed_policy (data_dir : Path) (old_config new_config : VaultConfig)
    (sweep : CooperativeSweepPackage) (policy : PolicyPackage) : M FS PolicyPackage :=
  let workspace := review_workspace data_dir in
  _ ← reset_workspace workspace;
  _ ← materialize_policy_package policy workspace;
  _ ← pure (validate_rotation_policy_binding old_config new_config sweep policy);
  _ ← approve_policy_for_config data_dir new_config workspace;
  f ← get;
  approved ← pure (package_from_batch f workspace);
  _ ← reset_workspace workspace;
  mret approved.

Definition approve_phone_rotation (data_dir : Path) (p : PhoneRotationPackage)
    : M (FS * Rng) PhoneRotationPackage :=
  s ← get;
  '(old_config, new_config, new_phone) ← pure (validate_phone_rotation s.1 data_dir p);
  sweep ← pure (approve_cooperative_sweep_for_config s.1 data_dir old_config (rotation_sweep p));
  policy ← match renewed_policy p with
           | Some policy =>
               approved ← on_fs (approve_renewed_policy data_dir old_config new_config sweep policy);
               mret (Some approved)
           | None => mret None
           end;
  s ← get;
  hww ← pure (load_device_keys s.1 data_dir HWW_DEVICE_FILE);
  current_backup ← load_or_migrate_cloud_backup data_dir (join data_dir PHONE_BACKUP_FILE)
                     old_config hww;
  old_payload ← pure (decrypt_with_hww current_backup (seed hww));
  _ ← pure (validate_against old_payload old_config);
  payload ← pure (payload_new new_config new_phone);
  backup ← on_rng (create_backup payload (seed hww) (Social.friend_public_keys current_backup));
  mret (set_approved p sweep policy (Some backup)).
End cold_wallet.
