(* ===== verification/ColdWalletFacts.v ===== *)
(** What the hardware wallet signs: only what it validated, nothing more than
    it was asked for, and in a way that later validation still accepts. *)

From S2P Require Import Prelude Bitcoin Toy Types Keys Policy Transactions FileSystem Storage Crypto Social SocialFacts Ceremony CeremonyValidate CeremonySound CeremonyBuild ToyCeremony Recovery RecoveryFacts ColdWallet.

(** * Signatures and acceptance *)

Section countersigning.
Context `{Laws : BitcoinLaws, !KeyLib}.
Implicit Types (m : BatchManifest) (p q : Psbt) (f : FS) (t : BatchTransaction).

(** The second PSBT differs at most in the signatures of the vault inputs. *)
Definition countersigned t p q : Prop :=
  same_but_sigs p q ∧
  ∀ i x y, i ∉ N.to_nat <$> vault_input_indexes t →
    inputs p !! i = Some x → inputs q !! i = Some y → tap_script_sigs y = tap_script_sigs x.

(** The files of a batch in two directories of two file systems. *)
Definition follows dir f dir' f' t : Prop :=
  ∀ p, read_psbt f (join dir (psbt_file t)) = Ok p →
  ∃ q, read_psbt f' (join dir' (psbt_file t)) = Ok q ∧ countersigned t p q.
Definition batch_follows m dir f dir' f' : Prop :=
  Forall (follows dir f dir' f') (manifest_transactions m).
Definition batch_countersigned m dir f f' : Prop := batch_follows m dir f dir f'.

Lemma countersigned_witness_utxo t p q i x y :
  countersigned t p q → inputs p !! i = Some x → inputs q !! i = Some y →
  witness_utxo y = witness_utxo x.
Proof.
  intros [Hs _] Hx Hy. by injection (same_but_sigs_lookup _ _ _ _ _ Hs Hx Hy) as -> _ _ _.
Qed.

Lemma countersigned_lookup t p q i x :
  countersigned t p q → inputs p !! i = Some x →
  ∃ y, inputs q !! i = Some y ∧ witness_utxo y = witness_utxo x.
Proof.
  intros Hc Hx. destruct (same_lookup _ _ _ _ (proj1 Hc) Hx) as [y Hy].
  exists y. split; [done|]. by eapply countersigned_witness_utxo.
Qed.

Lemma child_countersigned t p q prevout o c cs :
  countersigned t p q → child_of p prevout o c cs t → child_of q prevout o c cs t.
Proof.
  intros Hc [Hidx Htxid Hin (x0 & x1 & Hx & Hw0 & Hw1 & Hs1) Hcons Hfit].
  pose proof Hc as [Hs Hkeep]. pose proof (same_but_sigs_length _ _ Hs) as Hlen. pose proof Hs as (Htx & _ & _).
  rewrite Hx in Hlen. destruct (inputs q) as [|y0 [|y1 [|]]] eqn:Hy; try done.
  pose proof (countersigned_witness_utxo _ _ _ 0 x0 y0 Hc) as E0.
  pose proof (countersigned_witness_utxo _ _ _ 1 x1 y1 Hc) as E1.
  rewrite Hx, Hy in E0, E1. specialize (E0 eq_refl eq_refl). specialize (E1 eq_refl eq_refl).
  specialize (Hkeep 1 x1 y1). rewrite Hx, (proj1 Hidx) in Hkeep.
  rewrite Htx in *. split; try done. exists y0, y1. rewrite E0, E1, Hkeep; [done| |done|done].
  set_solver.
Qed.

Lemma chain_follows config m f f' dir dir' policy controller delay i l e :
  Forall (follows dir f dir' f') (authorization <$> l) →
  accepted_chain config m f dir policy controller delay i l e →
  accepted_chain config m f' dir' policy controller delay i l e.
Proof.
  revert i e. induction l as [|a l IH]; intros i e Hall Hch; [done|].
  csimpl in Hall. apply Forall_cons_iff in Hall as [Ha Hall].
  destruct Hch as (o & v & c & p & -> & [S1 S2 S3 S4 S5 S6 S7 S8 S9] & Hch).
  destruct (Ha p S4) as (q & Hq & Hc). pose proof (child_countersigned _ _ _ _ _ _ _ Hc S5) as S5'.
  destruct Hc as [(Htx & _ & _) _]. exists o, v, c, q. split; [done|]. split.
  - split; try done; by rewrite <-Htx.
  - unfold next_expected. rewrite <-Htx. by apply IH.
Qed.

Lemma emergency_follows config m f f' dir dir' policy controller rtx :
  batch_follows m dir f dir' f' →
  emergency_accepted config m f dir policy controller rtx →
  emergency_accepted config m f' dir' policy controller rtx.
Proof.
  intros Hall [?|(Hne & e & delay & hot & src & staged & vout & pt & pw & He & Hem)]; [by left|].
  right. split; [done|]. unfold batch_follows, manifest_transactions in Hall.
  rewrite He, Forall_cons_iff, Forall_app, !Forall_cons_iff in Hall.
  destruct Hall as (_ & _ & Ht & Hw & _).
  destruct Hem as [E1 E2 E3 [T1 T2 T3 T4 T5 T6 T7 T8 T9] [W1 W2 W3 W4 W5 W6]].
  destruct (Ht pt T4) as (qt & Hqt & Hct). destruct (Hw pw W2) as (qw & Hqw & Hcw).
  pose proof (child_countersigned _ _ _ _ _ _ _ Hct T5). pose proof (child_countersigned _ _ _ _ _ _ _ Hcw W3).
  destruct Hct as [(Htt & _ & _) _]. destruct Hcw as [(Htw & _ & _) _].
  exists e, delay, hot, src, staged, vout, qt, qw. split; [done|].
  split; [done..| |]; rewrite <-?Htt; split; rewrite <-?Htt, <-?Htw; done.
Qed.

Lemma rollover_countersigned m p q policy controller vouts couts :
  countersigned (rollover m) p q →
  accepted_rollover m p policy controller vouts couts →
  accepted_rollover m q policy controller vouts couts.
Proof.
  intros Hc [R1 [F1 F2 F3 F4 F5 F6 F7] [A1 A2 A3 A4 A5] R4 R5 R6].
  pose proof (same_but_sigs_length _ _ (proj1 Hc)) as Hlen.
  assert (∀ ids s outs, role_outputs p ids s outs → role_outputs q ids s outs) as Hro.
  { intros ids s outs Ho. eapply Forall2_impl; [exact Ho|]. intros i o (x & Hx & Hw & Hs).
    destruct (countersigned_lookup _ _ _ _ _ Hc Hx) as (y & Hy & Hyw). exists y. by rewrite Hyw. }
  destruct Hc as [(Htx & _ & _) _]. rewrite Htx in *. rewrite Hlen in *.
  split; [done|by split|split; auto|done..].
Qed.

Lemma read_follows m dir f dir' f' t :
  batch_follows m dir f dir' f' → t ∈ manifest_transactions m → follows dir f dir' f' t.
Proof. unfold batch_follows. rewrite Forall_forall. auto. Qed.

(** Signing vault inputs, and carrying the files elsewhere, keeps a batch
    accepted. *)
Lemma validate_follows config m f f' dir dir' policy :
  batch_follows m dir f dir' f' →
  validate_batch config m f dir = Ok policy → validate_batch config m f' dir' = Ok policy.
Proof.
  intros Hall (controller & p & vouts & couts & delay & [B1 B2 B3 B4 B5 B6 B7 B8 B9])%validate_batch_Ok.
  destruct (read_follows m dir f dir' f' (rollover m) Hall ltac:(left) p B5) as (q & Hq & Hc).
  apply validate_batch_Ok. exists controller, q, vouts, couts, delay.
  pose proof (rollover_countersigned _ _ _ _ _ _ _ Hc B6) as B6'.
  destruct Hc as [(Htx & _ & _) _]. split; try done.
  - apply Forall_forall. intros t Ht. rewrite Forall_forall in B4.
    destruct (B4 t Ht) as (x & Hx & Hd). destruct (read_follows _ _ _ _ _ _ Hall Ht x Hx) as (y & Hy & Hxy).
    exists y. split; [done|]. by rewrite <-(validate_default_same _ _ (proj1 Hxy)).
  - rewrite <-Htx. eapply chain_follows; [|done].
    unfold batch_follows, manifest_transactions in Hall.
    apply Forall_cons_iff in Hall as [_ Hall]. by apply Forall_app in Hall as [? _].
  - rewrite <-Htx. by eapply emergency_follows.
Qed.
End countersigning.

(** The approval flag is not part of what is validated. *)
Section flag.
Context `{BitcoinLib, !KeyLib}.

Lemma validate_allowance_list_approved config m f dir policy controller delay i l e :
  validate_allowance_list config (set_hww_approved m) f dir policy controller delay i l e =
  validate_allowance_list config m f dir policy controller delay i l e.
Proof.
  revert i e. induction l as [|a l IH]; intros i e; [done|]. simpl.
  change (validate_allowance config (set_hww_approved m) f dir policy controller delay i a e)
    with (validate_allowance config m f dir policy controller delay i a e).
  destruct (validate_allowance config m f dir policy controller delay i a e); simpl; [|done..].
  apply IH.
Qed.

Lemma validate_allowances_approved config m f dir policy controller rollover :
  validate_allowances config (set_hww_approved m) f dir policy controller rollover =
  validate_allowances config m f dir policy controller rollover.
Proof.
  unfold validate_allowances. apply bind_ext; [reflexivity|intros e].
  apply bind_ext; [reflexivity|intros delay]. apply validate_allowance_list_approved.
Qed.

Lemma validate_batch_approved config m f dir :
  validate_batch config (set_hww_approved m) f dir = validate_batch config m f dir.
Proof.
  unfold validate_batch.
  repeat (apply bind_ext; [first [reflexivity|apply validate_allowances_approved]|intros ?]).
  reflexivity.
Qed.
End flag.

(** * Approving a policy *)

Section approval.
Context `{Laws : BitcoinLaws, !KeyLib, !KeyLaws, Json VaultConfig, Json DeviceFile,
          JsonLaws BatchManifest}.
Implicit Types (m : BatchManifest) (p q : Psbt) (f F : FS) (t : BatchTransaction) (d : Path).

Lemma read_psbt_env f f' path :
  same_env f f' → file_at f' (resolve f path) = file_at f (resolve f path) →
  read_psbt f' path = read_psbt f path.
Proof.
  intros He Hf. unfold read_psbt, read_to_string, read.
  rewrite (resolve_env _ _ _ He). destruct He as [_ ->]. unfold file_at in Hf.
  by destruct (node_at f' _) as [[]|], (node_at f _) as [[]|]; simplify_eq.
Qed.

Lemma load_keys_pubkey f d x k :
  load_device_keys f d x = Ok k → vault_pubkey k = x_only_public_key (vault_keypair k).
Proof.
  unfold load_device_keys, parse_for_network_at_index.
  intros (file & _ & Hr)%bind_Ok. apply bind_Ok in Hr as (n & _ & Hr).
  apply bind_Ok in Hr as (mn & _ & Hr). by apply from_mnemonic_inv in Hr as (_ & _ & _ & _ & ?).
Qed.

(** One transaction, read, checked, signed and written. *)
Definition approved_transaction d (policy : VaultPolicy) (phone : XOnlyPublicKey)
    (hww : DeviceKeys) f f' t : Prop :=
  let ids := N.to_nat <$> vault_input_indexes t in
  ∃ p q leaf, read_psbt f (join d (psbt_file t)) = Ok p ∧
    read_psbt f' (join d (psbt_file t)) = Ok q ∧
    vault_leaf policy Cooperative = Ok leaf ∧
    signed (leaf_hash leaf) (vault_keypair hww) ids p q ∧
    Forall (has_sig (leaf_hash leaf) phone q) ids ∧
    Forall (has_sig (leaf_hash leaf) (vault_pubkey hww) q) ids.

Lemma approve_transaction_run m d policy controller phone hww t f f' :
  no_read_fault f → vault_pubkey hww = x_only_public_key (vault_keypair hww) →
  approve_transaction m d policy controller phone hww t f = (Ok tt, f') →
  same_env f f' ∧ approved_transaction d policy phone hww f f' t ∧
  ∀ k, k ≠ resolve f (join d (psbt_file t)) → file_at f' k = file_at f k.
Proof.
  intros Hn Hkey Ha. unfold approve_transaction in Ha.
  apply M_bind_Ok in Ha as (? & ? & [= <- <-] & Ha).
  apply M_bind_Ok in Ha as (p & ? & [Hp ->]%pure_Ok & Ha).
  apply M_bind_Ok in Ha as (vs & ? & [[= <-] ->]%pure_Ok & Ha).
  apply M_bind_Ok in Ha as (cs & ? & [[= <-] ->]%pure_Ok & Ha).
  apply M_bind_Ok in Ha as ([] & ? & [Hphone ->]%pure_Ok & Ha).
  apply M_bind_Ok in Ha as ([] & ? & [_ ->]%pure_Ok & Ha).
  apply M_bind_Ok in Ha as (q & ? & [([] & Hq)%exec_Ok ->]%pure_Ok & Hw).
  apply verify_vault_iff in Hphone as (_ & leaf & Hleaf & Hsigs).
  apply sign_vault_psbt_inputs_Ok in Hq as (_ & leaf' & Hleaf' & Hsd).
  rewrite Hleaf in Hleaf'. injection Hleaf' as <-.
  apply write_psbt_run in Hw as (He & Hh & Ho). split; [done|]. split; [|done].
  pose proof (psbt_wf_same _ _ (proj1 Hsd) (read_psbt_wf _ _ _ Hp)) as Hwf.
  rewrite <-(resolve_env _ _ _ He) in Hh.
  pose proof (read_held _ _ _ (same_env_faults _ _ He Hn) Hwf Hh) as Hread.
  exists p, q, leaf. split_and!; try done.
  - eapply Forall_impl; [exact Hsigs|]. intros i Hi. by eapply signed_keeps_sig.
  - apply Forall_forall. intros i Hi. rewrite Hkey. by eapply signed_has_sig.
Qed.

Lemma approve_all_run m d policy controller phone hww l f f' :
  no_read_fault f → vault_pubkey hww = x_only_public_key (vault_keypair hww) →
  NoDup ((λ t, resolve f (join d (psbt_file t))) <$> l) →
  for_eachM (approve_transaction m d policy controller phone hww) l f = (Ok tt, f') →
  same_env f f' ∧ Forall (approved_transaction d policy phone hww f f') l ∧
  ∀ k, k ∉ (λ t, resolve f (join d (psbt_file t))) <$> l → file_at f' k = file_at f k.
Proof.
  revert f. induction l as [|t l IH]; intros f Hn Hkey Hnd Ha; simpl in Ha.
  { injection Ha as <-. split_and!; [done|constructor|done]. }
  csimpl in Hnd. apply NoDup_cons in Hnd as [Hnew Hnd].
  apply M_bind_Ok in Ha as ([] & f1 & Ht & Ha).
  apply approve_transaction_run in Ht as (He1 & Happ & Hother); [|done..].
  assert (∀ x, resolve f1 x = resolve f x) as Hres by (intros x; by apply resolve_env).
  destruct (IH f1) as (He2 & Hl & Hrest); [by eapply same_env_faults|done| |done|].
  { erewrite list_fmap_ext; [exact Hnd|]. intros ? ? _. apply Hres. }
  split; [by eapply same_env_trans|].
  assert (∀ k, (k ∉ (λ x, resolve f (join d (psbt_file x))) <$> l) → file_at f' k = file_at f1 k)
    as Hrest'.
  { intros k Hk. apply Hrest. erewrite list_fmap_ext; [exact Hk|]. intros ? ? _. apply Hres. }
  split.
  - constructor.
    + destruct Happ as (p & q & leaf & Hp & Hq & Hx). exists p, q, leaf. split; [done|].
      split; [|done]. rewrite <-Hq. apply (read_psbt_env f1); [done|]. apply Hrest'. by rewrite Hres.
    + apply Forall_forall. intros u Hu. rewrite Forall_forall in Hl.
      destruct (Hl u Hu) as (p & q & leaf & Hp & Hx). exists p, q, leaf. split; [|done].
      rewrite <-Hp. symmetry. apply (read_psbt_env f); [done|]. apply Hother.
      intros Heq. apply Hnew. rewrite <-Heq. apply list_elem_of_fmap. eauto.
  - intros k Hk. csimpl in Hk. apply not_elem_of_cons in Hk as [Hk1 Hk2].
    rewrite Hrest' by done. by apply Hother.
Qed.

Lemma approved_countersigned d policy phone hww f f' t :
  approved_transaction d policy phone hww f f' t →
  ∀ p, read_psbt f (join d (psbt_file t)) = Ok p →
  ∃ q, read_psbt f' (join d (psbt_file t)) = Ok q ∧ countersigned t p q.
Proof.
  intros (p & q & leaf & Hp & Hq & _ & Hs & _) p' Hp'. rewrite Hp in Hp'. injection Hp' as <-.
  exists q. split; [done|]. split; [apply Hs|]. intros i x y Hi Hx Hy.
  by eapply signed_other_inputs.
Qed.

(** The files of a batch: every transaction has its own, and none of them is
    the manifest. *)
Definition batch_files f d m : list Key :=
  resolve f (join d "manifest.json")
  :: ((λ t, resolve f (join d (psbt_file t))) <$> manifest_transactions m).

(** What an approval did, for any configuration. *)
Lemma approve_for_config_run data_dir config d f f' m' :
  no_read_fault f →
  (∀ m, load_manifest f d = Ok m → NoDup (batch_files f d m)) →
  approve_policy_for_config data_dir config d f = (Ok m', f') →
  same_env f f' ∧
  ∃ m policy phone hww,
    load_manifest f d = Ok m ∧
    validate_batch config m f d = Ok policy ∧
    key_from_str (phone_vault_pubkey config) = Some phone ∧
    load_device_keys f data_dir HWW_DEVICE_FILE = Ok hww ∧
    key_to_string (vault_pubkey hww) = hww_vault_pubkey config ∧
    Forall (approved_transaction d policy phone hww f f') (manifest_transactions m) ∧
    batch_countersigned m d f f' ∧
    m' = set_hww_approved m ∧ load_manifest f' d = Ok m' ∧
    validate_batch config m' f' d = Ok policy ∧
    ∀ k, k ∉ batch_files f d m → file_at f' k = file_at f k.
Proof.
  intros Hn Hdist Ha. unfold approve_policy_for_config in Ha.
  apply M_bind_Ok in Ha as (? & ? & [= <- <-] & Ha).
  apply M_bind_Ok in Ha as (m & ? & [Hm ->]%pure_Ok & Ha).
  apply M_bind_Ok in Ha as (policy & ? & [Hv ->]%pure_Ok & Ha).
  apply M_bind_Ok in Ha as (phone & ? & [Hph%or_err_Ok ->]%pure_Ok & Ha).
  apply M_bind_Ok in Ha as (hpk & ? & [_ ->]%pure_Ok & Ha).
  apply M_bind_Ok in Ha as (n & ? & [_ ->]%pure_Ok & Ha).
  apply M_bind_Ok in Ha as (controller & ? & [_ ->]%pure_Ok & Ha).
  apply M_bind_Ok in Ha as (hww & ? & [Hhww ->]%pure_Ok & Ha).
  apply M_bind_Ok in Ha as ([] & ? & [Hkey%bail_neg ->]%pure_Ok & Ha).
  apply M_bind_Ok in Ha as ([] & f1 & Hloop & Ha).
  apply M_bind_Ok in Ha as ([] & f2 & Hw & [<- ->]%mret_Ok).
  specialize (Hdist m Hm). apply NoDup_cons in Hdist as [Hman Hnd].
  apply approve_all_run in Hloop as (He1 & Hall & Hrest1); [|done|by eapply load_keys_pubkey|done].
  apply write_json_run in Hw as (He2 & _ & Hrest2 & Hjson).
  destruct (Hjson eq_refl) as (s & Hs & Hf2). pose proof (same_env_trans _ _ _ He1 He2) as He.
  rewrite (resolve_env _ _ _ He1) in Hf2, Hrest2.
  assert (Forall (approved_transaction d policy phone hww f f2) (manifest_transactions m)) as Happ.
  { apply Forall_forall. intros t Ht. rewrite Forall_forall in Hall.
    destruct (Hall t Ht) as (p & q & leaf & Hp & Hq & Hx). exists p, q, leaf. split; [done|].
    split; [|done]. rewrite <-Hq. apply (read_psbt_env f1); [done|].
    rewrite (resolve_env _ _ _ He1). apply Hrest2. intros Heq. apply Hman. rewrite <-Heq.
    apply list_elem_of_fmap. eauto. }
  assert (batch_countersigned m d f f2) as Hcs.
  { eapply Forall_impl; [exact Happ|]. intros t Ht p Hp. by eapply approved_countersigned. }
  split; [done|]. exists m, policy, phone, hww. split_and!; try done.
  - unfold load_manifest. eapply read_json_of; [by eapply same_env_faults|exact Hs|].
    by rewrite (resolve_env _ _ _ He).
  - rewrite validate_batch_approved. by eapply validate_follows.
  - intros k Hk. unfold batch_files in Hk. apply not_elem_of_cons in Hk as [Hk1 Hk2].
    rewrite Hrest2 by done. by apply Hrest1.
Qed.

(** C2: The hardware wallet approves only a batch that it has validated.
    What it does is to add its own signature to every vault input of every
    transaction, all of which the phone had signed; no connector input gets a
    signature, no transaction changes, the manifest changes in the approval
    flag alone, and the approved batch is still one that validation accepts. *)
Theorem approve_policy_sound data_dir d f f' m' :
  no_read_fault f →
  (∀ m, load_manifest f d = Ok m → NoDup (batch_files f d m)) →
  approve_policy data_dir d f = (Ok m', f') →
  ∃ config m policy phone hww,
    load_config f data_dir = Ok config ∧ load_manifest f d = Ok m ∧
    validate_batch config m f d = Ok policy ∧
    key_from_str (phone_vault_pubkey config) = Some phone ∧
    load_device_keys f data_dir HWW_DEVICE_FILE = Ok hww ∧
    key_to_string (vault_pubkey hww) = hww_vault_pubkey config ∧
    Forall (approved_transaction d policy phone hww f f') (manifest_transactions m) ∧
    batch_countersigned m d f f' ∧
    m' = set_hww_approved m ∧ load_manifest f' d = Ok m' ∧
    validate_batch config m' f' d = Ok policy ∧
    ∀ k, k ∉ batch_files f d m → file_at f' k = file_at f k.
Proof.
  intros Hn Hdist Ha. unfold approve_policy in Ha.
  apply M_bind_Ok in Ha as (? & ? & [= <- <-] & Ha).
  apply M_bind_Ok in Ha as (config & ? & [Hconfig ->]%pure_Ok & Ha).
  destruct (approve_for_config_run _ _ _ _ _ _ Hn Hdist Ha) as (_ & m & policy & phone & hww & Hall).
  by exists config, m, policy, phone, hww.
Qed.

(** A batch that does not validate is never signed: the hardware wallet
    fails and leaves every file as it is. *)
Theorem unvalidated_policy_rejected data_dir d f config m :
  load_config f data_dir = Ok config → load_manifest f d = Ok m →
  (∀ policy, validate_batch config m f d ≠ Ok policy) →
  ∀ r f', approve_policy data_dir d f = (r, f') → f' = f ∧ ∀ m', r ≠ Ok m'.
Proof.
  intros Hc Hm Hv r f'. unfold approve_policy, approve_policy_for_config, pure, get, mbind, M_bind.
  rewrite Hc, Hm. destruct (validate_batch config m f d) as [policy|e|]; [by destruct (Hv policy)| |];
    by intros [= <- <-].
Qed.
End approval.
