(* ===== verification/ColdWalletSpend.v ===== *)
(** What else the hardware wallet does: revocations, approvals of sweeps, and
    the backup of the phone. *)

From S2P Require Import Prelude Bitcoin Toy Types Keys Policy Transactions FileSystem Storage Crypto Social SocialFacts Ceremony CeremonyValidate CeremonySound CeremonyBuild ToyCeremony Recovery RecoveryFacts ColdWallet ColdWalletFacts.

(** * Spending *)

Section spending.
Context `{Laws : BitcoinLaws, !KeyLib, !KeyLaws, Json VaultConfig, Json DeviceFile}.
Implicit Types (f : FS) (d : Path) (p : CooperativeSweepPackage).

(** C21: A revocation by the hardware wallet needs no other device: the
    transaction it returns spends exactly the connectors it was given, which
    all belong to the configured controller, by the HWW's own leaf and its
    signature on each of them, and sends their value less the fee for the
    transaction's size to the destination, never as dust. *)
Theorem revoke_policy_sound f d config utxos destination tx :
  revoke_policy f d config utxos destination = Ok tx →
  ∃ phone hww network controller change fee leaf psbt psbt',
    key_from_str (phone_vault_pubkey config) = Some phone ∧
    load_device_keys f d HWW_DEVICE_FILE = Ok hww ∧
    key_to_string (vault_pubkey hww) = hww_vault_pubkey config ∧
    bitcoin_network config = Ok network ∧
    controller_new_for_network phone (vault_pubkey hww) network = Ok controller ∧
    Forall (λ u, script_pubkey (utxo_txout u) =
                 address_script_pubkey (controller_address_of controller)) utxos ∧
    (λ i, (previous_output i, sequence i)) <$> input tx =
      ((λ u, (utxo_outpoint u, ENABLE_RBF_NO_LOCKTIME)) <$> utxos) ∧
    output tx = [{| value := change; script_pubkey := address_script_pubkey destination |}] ∧
    utxo_values utxos = (change + fee)%N ∧
    (minimal_non_dust (address_script_pubkey destination) ≤ change)%N ∧
    (∃ size, estimate_controller_vsize (unsigned_tx psbt) controller PhonePath = Ok size ∧
             fee = (size * DEFAULT_FEE_RATE_SAT_VB)%N) ∧
    controller_leaf controller HwwPath = Ok leaf ∧
    signed (cleaf_hash leaf) (vault_keypair hww) (seq 0 (length utxos)) psbt psbt' ∧
    finalize_vault_psbt psbt' = Ok tx.
Proof.
  unfold revoke_policy. intros (phone & Hph%or_err_Ok & Hr)%bind_Ok.
  apply bind_Ok in Hr as (hww & Hhww & Hr). apply bind_Ok in Hr as ([] & Hkey%bail_neg & Hr).
  apply bind_Ok in Hr as (n & Hn & Hr). apply bind_Ok in Hr as (controller & Hc & Hr).
  apply bind_Ok in Hr as ([psbt fee] & Hb%revocation_conserves & Hr).
  destruct Hb as (change & size & Htx & Hs & Hsize & Hfee & Hdust & Hprev & Hall).
  apply bind_Ok in Hr as (psbt' & (leaf & Hleaf & Hsd)%sign_controller_psbt_Ok & Ht).
  pose proof Ht as (_ & _ & Hout & Hin)%finalize_vault_psbt_effect.
  pose proof Hsd as [(Hsame & _ & _) _]. rewrite <-Hsame, Htx in Hout, Hin.
  apply Forall2_length in Hprev. rewrite length_fmap in Hprev. rewrite Hprev in Hsd.
  exists phone, hww, n, controller, change, fee, leaf, psbt, psbt'. split_and!; try done; [|by eauto].
  rewrite Hin. simpl. by rewrite <-list_fmap_compose.
Qed.

(** Signatures, again, do not change what is accepted. *)
Lemma accepted_sweep_signed config p policy psbt psbt' :
  same_but_sigs psbt psbt' → accepted_sweep config p policy psbt →
  accepted_sweep config (approved_sweep p psbt') policy psbt'.
Proof.
  intros Hs [A1 A2 [A3 A3'] A4 A5 (outs & Hin & A6) A7].
  pose proof (same_but_sigs_length _ _ Hs) as Hlen. pose proof Hs as (Htx & _ & Hin').
  split; simpl; rewrite <-?Htx; try done.
  - apply psbt_round_trip. by eapply psbt_wf_same, psbt_from_str_wf.
  - rewrite <-Hlen. split; [done|]. intros Hx. rewrite Hx in Hlen. by apply A3', length_zero_iff_nil.
  - exists outs. split; [|done]. revert Hin Hin'. generalize (inputs psbt') as l. clear.
    generalize (inputs psbt) as k. intros k l Hk. revert l.
    induction Hk as [|x o k outs [Hw Hx] _ IH]; intros [|y l] Heq; try done.
    injection Heq as Hy _ _ _ Hl. constructor; [by rewrite <-Hy|by apply IH].
Qed.

(** What an approval of a sweep establishes. *)
Record sweep_approval (config : VaultConfig) p p' (policy : VaultPolicy) (psbt psbt' : Psbt)
    (phone hww : XOnlyPublicKey) : Prop := {
  ap_phone : key_from_str (phone_vault_pubkey config) = Some phone;
  ap_hww : key_from_str (hww_vault_pubkey config) = Some hww;
  ap_valid : validate_cooperative_sweep config p = Ok (policy, psbt);
  ap_signed : signed_by policy phone psbt;
  ap_same : same_but_sigs psbt psbt';
  ap_package : p' = approved_sweep p psbt';
  ap_valid' : validate_cooperative_sweep config p' = Ok (policy, psbt');
  ap_default : validate_default_sighashes psbt' = Ok tt;
  ap_both : signed_by policy phone psbt' ∧ signed_by policy hww psbt';
}.

Lemma approve_sweep_Ok f d config p p' :
  approve_cooperative_sweep_for_config f d config p = Ok p' →
  ∃ policy psbt psbt' phone hww, sweep_approval config p p' policy psbt psbt' phone hww.
Proof.
  unfold approve_cooperative_sweep_for_config. intros ([policy psbt] & Hv & Hr)%bind_Ok.
  apply bind_Ok in Hr as (phone & Hph%or_err_Ok & Hr).
  apply bind_Ok in Hr as ([] & Hver & Hr).
  pose proof Hver as Hps%verify_vault_signed_by. pose proof Hver as [Hdef _]%verify_vault_iff.
  apply bind_Ok in Hr as (hww & Hhww & Hr). apply bind_Ok in Hr as ([] & Hkey%bail_neg & Hr).
  apply bind_Ok in Hr as (psbt' & (Hsame & leaf & Hleaf & Hsd)%sign_vault_psbt_Ok & [= <-]).
  pose proof (same_but_sigs_length _ _ Hsame) as Hlen.
  exists policy, psbt, psbt', phone, (vault_pubkey hww). split; try done.
  - by rewrite <-Hkey, key_round_trip.
  - apply validate_cooperative_sweep_Ok. eapply accepted_sweep_signed; [done|].
    by apply validate_cooperative_sweep_Ok.
  - by rewrite <-(validate_default_same psbt psbt').
  - split.
    + destruct Hps as (leaf' & Hl' & Hall). exists leaf'. split; [done|]. rewrite <-Hlen.
      eapply Forall_impl; [exact Hall|]. intros i Hi. by eapply signed_keeps_sig.
    + exists leaf. split; [done|]. rewrite <-Hlen, (load_keys_pubkey _ _ _ _ Hhww).
      apply Forall_forall. intros i Hi. by eapply signed_has_sig.
Qed.

(** The hardware wallet signs a cooperative sweep only when it is valid
    for the configured vault and the phone has signed it; what it returns is
    the same sweep with its own signature on every input, which validation
    accepts, both of whose required signatures verify, and which needs only
    the finalisation of the witnesses to be sent. *)
Theorem approve_sweep_sound f d p p' :
  approve_cooperative_sweep f d p = Ok p' →
  ∃ config policy psbt psbt' phone hww,
    load_config f d = Ok config ∧ sweep_approval config p p' policy psbt psbt' phone hww ∧
    finalize_cooperative_sweep config p' =
      (tx ← finalize_vault_psbt psbt';
       mret (tx, {| result_txid := compute_txid tx; result_input_count := sweep_input_count p;
                    result_sent_sats := sweep_sent_sats p; result_fee_sats := sweep_fee_sats p |})).
Proof.
  unfold approve_cooperative_sweep. intros (config & Hc & Ha)%bind_Ok.
  apply approve_sweep_Ok in Ha as (policy & psbt & psbt' & phone & hww & Ha).
  exists config, policy, psbt, psbt', phone, hww. split; [done|]. split; [done|].
  destruct Ha as [Hph Hhww Hv _ Hsame Hp' Hv' Hd [Hs1 Hs2]].
  unfold finalize_cooperative_sweep. rewrite Hv'. subst p'. simpl.
  apply validate_cooperative_sweep_Ok in Hv as [(_ & _ & -> & _) _ _ _ _ _ _]. simpl.
  unfold verify_vault_psbt_signature.
  rewrite Hph. simpl. rewrite (proj2 (verify_vault_iff _ _ _ _ _)) by done. simpl.
  rewrite Hhww. simpl. by rewrite (proj2 (verify_vault_iff _ _ _ _ _)).
Qed.
End spending.

(** * The backup of the phone *)

Section backup_file.
Implicit Types (f : FS) (d : Path) (k : Key).

Lemma read_json_env `{Json A} f f' path :
  same_env f f' → file_at f' (resolve f path) = file_at f (resolve f path) →
  read_json f' path = (read_json f path : result A).
Proof.
  intros He Hf. unfold read_json, read. rewrite (resolve_env _ _ _ He). destruct He as [_ ->].
  unfold file_at in Hf. by destruct (node_at f' _) as [[]|], (node_at f _) as [[]|]; simplify_eq.
Qed.

Lemma resolve_backup f d :
  resolve f (join d PHONE_BACKUP_FILE) = resolve f d ++ ["cloud"; "phone-seed-backup.json"].
Proof. by apply resolve_join. Qed.

Lemma resolve_backup_dir f d :
  resolve f (parent (join d PHONE_BACKUP_FILE)) = resolve f d ++ ["cloud"].
Proof.
  change (join d PHONE_BACKUP_FILE) with (d ++ [Normal "cloud"; Normal "phone-seed-backup.json"]).
  change [Normal "cloud"; Normal "phone-seed-backup.json"]
    with ([Normal "cloud"] ++ [Normal "phone-seed-backup.json"]).
  rewrite (assoc_L (++)), parent_snoc. unfold resolve. by rewrite foldl_app.
Qed.

Lemma sibling_not_prefix (k : Key) x y : x ≠ y → (k ++ [x]) ∉ prefixes (k ++ [y]).
Proof.
  unfold prefixes. intros Hxy (n & Heq & _)%list_elem_of_fmap. pose proof (f_equal length Heq) as Hl.
  rewrite length_take, !length_app in Hl. cbn [length] in Hl.
  rewrite take_ge in Heq by (rewrite length_app; cbn [length]; lia).
  by apply app_inj_2 in Heq as [_ [= ?]].
Qed.

(** Writing the backup leaves a file of the data directory as it exists. *)
Lemma backup_keeps_existence f f' d bytes r x :
  write_private (join d PHONE_BACKUP_FILE) bytes f = (r, f') →
  resolve f (join d x) = resolve f d ++ [x] → x ≠ "cloud" →
  exists_ f' (join d x) = exists_ f (join d x).
Proof.
  intros (He & _ & Hk & _)%write_private_run Hx Hne. unfold exists_. rewrite (resolve_env _ _ _ He), Hx.
  destruct (Hk (resolve f d ++ [x])) as [->|(_ & _ & Hin)]; [|done|].
  - rewrite resolve_backup. intros Heq%app_inv_head. done.
  - rewrite resolve_backup_dir in Hin. by apply sibling_not_prefix in Hin.
Qed.

Lemma backup_keeps_config `{Json VaultConfig} f f' d bytes r :
  write_private (join d PHONE_BACKUP_FILE) bytes f = (r, f') → load_config f' d = load_config f d.
Proof.
  intros Hw. unfold load_config, config_path.
  rewrite (backup_keeps_existence _ _ _ _ _ CONFIG_FILE Hw) by first [apply resolve_current|done].
  rewrite (backup_keeps_existence _ _ _ _ _ LEGACY_CONFIG_FILE Hw) by first [apply resolve_legacy|done].
  apply write_private_files in Hw as (He & _ & Hk & _).
  repeat case_match; apply read_json_env; try done; apply Hk;
    rewrite ?resolve_current, ?resolve_legacy, resolve_backup; by intros ?%app_inv_head.
Qed.
End backup_file.

Section backup.
Context `{Laws : BitcoinLaws, !KeyLib, !KeyLaws, CLaws : !CryptoLaws, Pgp : !PgpLib,
          PLaws : !PgpLaws, Json VaultConfig, Json DeviceFile, JsonLaws CloudRecoveryBackup,
          Json EncryptedBlob, Json RecoveryPayload, JsonVec RecoveryPayload,
          !JsonVecLaws RecoveryPayload, Json (list FriendKeyWrapper),
          JsonVec (list FriendKeyWrapper), !JsonVecLaws (list FriendKeyWrapper)}.
Implicit Types (f : FS) (d : Path).

Lemma backup_keeps_device f f' d bytes r x :
  write_private (join d PHONE_BACKUP_FILE) bytes f = (r, f') →
  resolve f (join d x) ≠ resolve f (join d PHONE_BACKUP_FILE) →
  load_device_keys f' d x = load_device_keys f d x.
Proof.
  intros (He & _ & Hk & _)%write_private_files Hne. unfold load_device_keys, load_device.
  by rewrite (read_json_env f f') by auto.
Qed.

Lemma resolve_hww f d : resolve f (join d HWW_DEVICE_FILE) = resolve f d ++ ["hww"; "device.json"].
Proof. by apply resolve_join. Qed.


(** ** Rotation *)

(** The hardware wallet's review of a renewed policy, in its workspace. *)
Definition reviewed `{Json BatchManifest} d (new : VaultConfig) (before after : PolicyPackage) : Prop :=
  ∃ f1 f2 f3 m, materialize_policy_package before (review_workspace d) f1 = (Ok tt, f2) ∧
    approve_policy_for_config d new (review_workspace d) f2 = (Ok m, f3) ∧
    package_from_batch f3 (review_workspace d) = Ok after.

Context `{!Json BatchManifest}.

Lemma approve_renewed_Ok d old new sweep policy f approved f' :
  approve_renewed_policy d old new sweep policy f = (Ok approved, f') →
  reviewed d new policy approved ∧
  validate_rotation_policy_binding old new sweep policy = Ok tt.
Proof.
  unfold approve_renewed_policy. intros ([] & f1 & _ & Ha)%M_bind_Ok.
  apply M_bind_Ok in Ha as ([] & f2 & Hm & Ha).
  apply M_bind_Ok in Ha as ([] & ? & [Hb ->]%pure_Ok & Ha).
  apply M_bind_Ok in Ha as (m & f3 & Happ & Ha).
  apply M_bind_Ok in Ha as (? & ? & [= <- <-] & Ha).
  apply M_bind_Ok in Ha as (pkg & ? & [Hpkg ->]%pure_Ok & Ha).
  apply M_bind_Ok in Ha as ([] & f4 & _ & [<- _]%mret_Ok). split; [|done].
  by exists f1, f2, f3, m.
Qed.

End backup.
