(* ===== verification/CeremonyTransport.v ===== *)
(** Carrying a batch elsewhere: what a policy package holds of a workspace,
    and what it makes of another one. *)

From stdpp Require Import sorting.
From S2P Require Import Prelude Bitcoin Types Keys Policy Transactions FileSystem FsProgress Storage Ceremony CeremonyValidate CeremonySound CeremonyBuild ColdWallet ColdWalletFacts.

(** * File names *)

Section names.

(** The names on the way of a relative path. *)
Definition names_of (s : string) : list string :=
  omap (λ c, match c with Normal n => Some n | _ => None end) (components s).

(** The paths that a package may hold. *)
Definition safe (s : string) : Prop :=
  is_absolute s = false ∧ forallb is_normal (components s) = true.

Lemma safe_components s : safe s → components s = Normal <$> names_of s.
Proof.
  intros [_ Hs]. unfold names_of. induction (components s) as [|c l IH]; [done|].
  simpl in Hs. apply andb_true_iff in Hs as [Hc Hs]. destruct c; try done. csimpl. by f_equal; apply IH.
Qed.

Lemma resolve_safe f d s : safe s → resolve f (join d s) = resolve f d ++ names_of s.
Proof. intros Hs. apply resolve_join; [apply Hs|by apply safe_components]. Qed.

Lemma names_manifest : names_of "manifest.json" = ["manifest.json"].
Proof. reflexivity. Qed.
Lemma safe_manifest : safe "manifest.json".
Proof. done. Qed.

(** Different names are different files, none of them the manifest. *)
Definition apart (l : list string) : Prop :=
  (∀ x, x ∈ l → names_of x ≠ ["manifest.json"]) ∧
  ∀ x y, x ∈ l → y ∈ l → names_of x = names_of y → x = y.
End names.

(** * Packing *)

Section packing.
Context `{Laws : BitcoinLaws, JsonLaws BatchManifest}.
Implicit Types (f : FS) (d : Path) (m : BatchManifest) (t : BatchTransaction).

Definition batch_names m : list string := psbt_file <$> manifest_transactions m.

(** The text that a package takes from a file. *)
Definition text_of f d (name : string) : option string :=
  match read_to_string f (join d name) with Ok s => Some (trim s) | _ => None end.

Lemma package_step_Ok f d ps t ps' :
  package_step f d ps t = Ok ps' ↔
  ∃ s, text_of f d (psbt_file t) = Some s ∧ ps' = <[psbt_file t := s]> ps.
Proof.
  unfold package_step, text_of, with_context.
  destruct (read_to_string f (join d (psbt_file t))) as [s|e|]; simpl; split.
  - intros [= <-]. by eexists.
  - by intros (? & [= <-] & ->).
  - done.
  - by intros (? & ? & _).
  - done.
  - by intros (? & ? & _).
Qed.

Lemma package_fold_Ok f d l ps ps' :
  try_fold (package_step f d) ps l = Ok ps' ↔
  Forall (λ t, is_Some (text_of f d (psbt_file t))) l ∧
  ∀ n, ps' !! n = if decide (n ∈ psbt_file <$> l) then text_of f d n else ps !! n.
Proof.
  revert ps. induction l as [|t l IH]; intros ps; simpl.
  { split.
    - intros [= <-]. split; [constructor|done].
    - intros [_ Hn]. f_equal. symmetry. by apply map_eq. }
  rewrite bind_Ok, Forall_cons_iff. setoid_rewrite package_step_Ok.
  assert (∀ s, text_of f d (psbt_file t) = Some s → ∀ n : string,
    (if decide (n ∈ psbt_file <$> l) then text_of f d n else <[psbt_file t := s]> ps !! n) =
    if decide (n ∈ psbt_file t :: (psbt_file <$> l)) then text_of f d n else ps !! n) as Heq.
  { intros s Hs n. destruct (decide (n ∈ psbt_file <$> l)).
    - by rewrite decide_True by (by right).
    - destruct (decide (n = psbt_file t)) as [->|Hne].
      + rewrite decide_True by left. by rewrite lookup_insert_eq.
      + rewrite lookup_insert_ne by done. rewrite decide_False; [done|]. by intros [?|?]%elem_of_cons. }
  split.
  - intros (ps1 & (s & Hs & ->) & [Hall Hn]%IH). split; [by split|]. intros n.
    by rewrite Hn, Heq.
  - intros [[[s Hs] Hall] Hn]. eexists. split; [by eauto|]. apply IH. split; [done|].
    intros n. by rewrite Hn, Heq.
Qed.

(** A package is the manifest and the trimmed text of every file it names. *)
Lemma package_from_batch_Ok f d pkg :
  package_from_batch f d = Ok pkg ↔
  is_supported_policy_package pkg = true ∧ load_manifest f d = Ok (package_manifest pkg) ∧
  Forall (λ t, is_Some (text_of f d (psbt_file t))) (manifest_transactions (package_manifest pkg)) ∧
  ∀ n, psbts pkg !! n =
    if decide (n ∈ batch_names (package_manifest pkg)) then text_of f d n else None.
Proof.
  unfold package_from_batch, is_supported_policy_package.
  rewrite andb_true_iff, !bool_decide_eq_true. split.
  - intros (m & Hm & (ps & [Hall Hn]%package_fold_Ok & [= <-])%bind_Ok)%bind_Ok. simpl.
    split_and!; [done..|]. intros n. by rewrite Hn.
  - intros ([Hv Hk] & Hm & Hall & Hn). apply bind_Ok. exists (package_manifest pkg). split; [done|].
    apply bind_Ok. exists (psbts pkg). split; [|destruct pkg; simpl in *; by subst].
    apply package_fold_Ok. split; [done|]. intros n. rewrite Hn. by rewrite lookup_empty.
Qed.

Lemma read_psbt_text f d name p : read_psbt f (join d name) = Ok p →
  ∃ s, text_of f d name = Some s ∧ psbt_from_str s = Some p.
Proof.
  unfold read_psbt, text_of, with_context. intros (s & Hs & Hp%or_err_Ok)%bind_Ok.
  destruct (read_to_string _ _) as [s'|e|]; try done. injection Hs as <-. by eexists.
Qed.

(** A workspace whose PSBTs can be read can be packed. *)
Lemma package_exists f d m :
  load_manifest f d = Ok m →
  Forall (λ t, ∃ p, read_psbt f (join d (psbt_file t)) = Ok p) (manifest_transactions m) →
  ∃ pkg, package_from_batch f d = Ok pkg ∧ package_manifest pkg = m.
Proof.
  intros Hm Hall. unfold package_from_batch.
  assert (∃ ps, try_fold (package_step f d) ∅ (manifest_transactions m) = Ok ps) as [ps Hps].
  { assert (Forall (λ t, is_Some (text_of f d (psbt_file t))) (manifest_transactions m)) as Ht.
    { eapply Forall_impl; [exact Hall|]. intros t (p & (s & Hs & _)%read_psbt_text). by eexists. }
    clear Hall Hm. generalize (∅ : gmap string string). induction Ht as [|t l [s Hs] Ht IH]; intros ps.
    - by eexists.
    - simpl. rewrite (proj2 (package_step_Ok f d ps t _)) by eauto. simpl. apply IH. }
  eexists {| package_version := 5; package_kind := _; package_manifest := m; psbts := ps |}.
  split; [|done]. apply bind_Ok. exists m. split; [done|]. apply bind_Ok. by exists ps.
Qed.
End packing.

(** * Unpacking *)

Section unpacking.
Context `{Laws : BitcoinLaws, JsonLaws BatchManifest}.
Implicit Types (f : FS) (d : Path) (m : BatchManifest) (t : BatchTransaction).

Lemma write_package_psbt_Ok d e f f' :
  write_package_psbt d e f = (Ok tt, f') →
  safe e.1 ∧ same_env f f' ∧
  file_at f' (resolve f d ++ names_of e.1) = Some (e.2 +:+ NEWLINE) ∧
  ∀ k, k ≠ resolve f d ++ names_of e.1 → file_at f' k = file_at f k.
Proof.
  destruct e as [n s]. unfold write_package_psbt.
  intros ([] & ? & [[Ha Hn%negb_false_iff]%bail_if_Ok%orb_false_iff ->]%pure_Ok & Hw)%M_bind_Ok.
  assert (safe n) as Hs by done. apply write_private_files in Hw as (He & _ & Ho & Hf).
  cbn in *. rewrite resolve_safe in * by done. split_and!; [done..| |done].
  by destruct Hf as [?|[? _]].
Qed.

Lemma write_all_Ok d l f f' :
  for_eachM (write_package_psbt d) l f = (Ok tt, f') →
  Forall (λ e, safe e.1) l ∧ same_env f f' ∧
  (∀ k, k ∉ (λ e, resolve f d ++ names_of e.1) <$> l → file_at f' k = file_at f k) ∧
  (NoDup ((λ e, names_of e.1) <$> l) →
   Forall (λ e, file_at f' (resolve f d ++ names_of e.1) = Some (e.2 +:+ NEWLINE)) l).
Proof.
  revert f. induction l as [|e l IH]; intros f; simpl.
  { intros [_ ->]%mret_Ok. split_and!; [constructor|done|done|constructor]. }
  intros ([] & f1 & (Hs & He1 & Hf1 & Ho1)%write_package_psbt_Ok & Hr)%M_bind_Ok.
  apply IH in Hr as (Hsl & He2 & Ho2 & Hf2). rewrite (resolve_env _ _ _ He1) in *.
  split_and!; [by constructor|by eapply same_env_trans| |].
  - intros k [Hk1 Hk2]%not_elem_of_cons. rewrite Ho2 by done. by apply Ho1.
  - intros [Hnew Hnd]%NoDup_cons. constructor; [|by apply Hf2].
    rewrite Ho2; [done|]. intros (x & Hx & Hin)%list_elem_of_fmap. apply Hnew.
    apply app_inv_head in Hx. rewrite Hx. by apply (list_elem_of_fmap_2 (λ e, names_of e.1)).
Qed.

Lemma elem_of_entries (ps : gmap string string) e : e ∈ entries ps ↔ ps !! e.1 = Some e.2.
Proof.
  unfold entries. rewrite (merge_sort_Permutation key_le). destruct e. apply elem_of_map_to_list.
Qed.

Lemma entries_NoDup (ps : gmap string string) :
  (∀ x y, is_Some (ps !! x) → is_Some (ps !! y) → names_of x = names_of y → x = y) →
  NoDup ((λ e, names_of e.1) <$> entries ps).
Proof.
  intros Hinj. apply NoDup_fmap_2_strong.
  - intros [x s] [y s'] Hx%elem_of_entries Hy%elem_of_entries Heq. simpl in *.
    apply Hinj in Heq as ->; [|by eexists..]. rewrite Hx in Hy. by injection Hy as ->.
  - unfold entries. rewrite (merge_sort_Permutation key_le). apply NoDup_map_to_list.
Qed.

(** What an unpacked workspace holds. *)
Lemma materialize_Ok pkg d f f' :
  materialize_policy_package pkg d f = (Ok tt, f') →
  is_supported_policy_package pkg = true ∧
  dom (psbts pkg) = list_to_set (batch_names (package_manifest pkg)) ∧
  Forall safe (batch_names (package_manifest pkg)) ∧ same_env f f' ∧
  (∀ k, (∀ x, x ∈ "manifest.json" :: batch_names (package_manifest pkg) →
      k ≠ resolve f d ++ names_of x) → file_at f' k = file_at f k) ∧
  (apart (batch_names (package_manifest pkg)) →
   (∃ s, to_vec_pretty (package_manifest pkg) = Some s ∧
     file_at f' (resolve f d ++ ["manifest.json"]) = Some s) ∧
   ∀ n s, psbts pkg !! n = Some s → file_at f' (resolve f d ++ names_of n) = Some (s +:+ NEWLINE)).
Proof.
  unfold materialize_policy_package.
  intros ([] & ? & [Hsup%bail_if_Ok%negb_false_iff ->]%pure_Ok & Hm)%M_bind_Ok.
  apply M_bind_Ok in Hm as ([] & ? & ->%empty_batch_dir_same & Hm). cbv zeta in Hm.
  apply M_bind_Ok in Hm as ([] & ? & [Hdom%bail_if_Ok%negb_false_iff%bool_decide_eq_true ->]%pure_Ok & Hm).
  apply M_bind_Ok in Hm as ([] & f1 & Hdir & Hm).
  unfold create_dir_all, get, mbind, M_bind in Hdir. apply create_key_run in Hdir as (He1 & _ & Hk1).
  apply M_bind_Ok in Hm as ([] & f2 & (He2 & _ & Ho2 & Hj)%write_json_run & Hall).
  destruct (Hj eq_refl) as (s & Hs & Hf2). clear Hj.
  apply write_all_Ok in Hall as (Hsafe & He3 & Ho3 & Hf3).
  rewrite (resolve_env _ _ d He2) in *. rewrite !(resolve_env _ _ _ He1) in *.
  rewrite (resolve_safe f d "manifest.json" safe_manifest), names_manifest in *.
  assert (∀ n, n ∈ batch_names (package_manifest pkg) ↔ is_Some (psbts pkg !! n)) as Hin.
  { intros n. rewrite <-elem_of_dom, Hdom. by rewrite elem_of_list_to_set. }
  assert (∀ e, e ∈ entries (psbts pkg) → e.1 ∈ batch_names (package_manifest pkg)) as Hent.
  { intros e He%elem_of_entries. apply Hin. by eexists. }
  pose proof (same_env_trans _ _ _ He1 He2) as He12.
  split; [done|]. split; [done|]. split; [|split; [by eapply same_env_trans|split]].
  - apply Forall_forall. intros n [s' Hn]%Hin. rewrite Forall_forall in Hsafe.
    by apply (Hsafe (n, s')), elem_of_entries.
  - intros k Hk. rewrite Ho3, Ho2.
    + by apply (node_kept_file _ _ _ _ (Hk1 k)).
    + rewrite <-names_manifest. apply Hk. left.
    + intros (e & -> & He%Hent)%list_elem_of_fmap. by apply (Hk e.1); [right|].
  - intros [Hman Hinj]. split.
    + exists s. split; [done|]. rewrite Ho3; [done|].
      intros (e & Heq%app_inv_head & He%Hent)%list_elem_of_fmap. by apply (Hman e.1).
    + intros n t Hn. apply (proj2 (elem_of_entries _ (n, t))) in Hn.
      assert (NoDup ((λ e, names_of e.1) <$> entries (psbts pkg))) as Hnd.
      { apply entries_NoDup. intros x y Hx%Hin Hy%Hin. by apply Hinj. }
      specialize (Hf3 Hnd). rewrite Forall_forall in Hf3. exact (Hf3 _ Hn).
Qed.
End unpacking.

(** * From one workspace to another *)

Section transport.
Context `{Laws : BitcoinLaws, !KeyLib, JsonLaws BatchManifest}.
Implicit Types (f : FS) (d : Path) (m : BatchManifest) (t : BatchTransaction).

Lemma psbt_text_line s p : psbt_from_str s = Some p → Forall plain (bytes_of s) ∧ trim (s +:+ NEWLINE) = s.
Proof.
  intros Hp%psbt_from_str_text%visible_plain. split; [done|by apply trim_line].
Qed.

(** Both workspaces hold the PSBTs of a batch, and they are the same. *)
Definition holds_same m f d f' d' : Prop :=
  Forall (λ t, ∃ p, read_psbt f (join d (psbt_file t)) = Ok p ∧
                    read_psbt f' (join d' (psbt_file t)) = Ok p) (manifest_transactions m).

Lemma holds_same_sym m f d f' d' : holds_same m f d f' d' → holds_same m f' d' f d.
Proof. intros Hall. eapply Forall_impl; [exact Hall|]. intros t (p & ? & ?). by exists p. Qed.

Lemma countersigned_refl t p : countersigned t p p.
Proof. split; [done|]. intros i x y _ Hx Hy. rewrite Hx in Hy. by injection Hy as ->. Qed.

Lemma holds_same_follows m f d f' d' : holds_same m f d f' d' → batch_follows m d f d' f'.
Proof.
  intros Hall. eapply Forall_impl; [exact Hall|]. intros t (p & Hp & Hp') q Hq.
  rewrite Hp in Hq. injection Hq as <-. exists p. split; [done|apply countersigned_refl].
Qed.

Lemma holds_same_valid config m f d f' d' policy :
  holds_same m f d f' d' →
  validate_batch config m f' d' = Ok policy ↔ validate_batch config m f d = Ok policy.
Proof.
  intros Hs. split; apply validate_follows; by apply holds_same_follows, (holds_same_sym m f d) || apply holds_same_follows.
Qed.

Lemma validate_approved_batch_Ok config m f d policy :
  validate_approved_batch config m f d = Ok policy ↔
  phone_approved m = true ∧ hww_approved m = true ∧ validate_batch config m f d = Ok policy ∧
  ∃ phone hww, key_from_str (phone_vault_pubkey config) = Some phone ∧
    key_from_str (hww_vault_pubkey config) = Some hww ∧
    Forall (λ t, validate_approved_transaction m f d policy phone hww t = Ok tt)
      (manifest_transactions m).
Proof.
  unfold validate_approved_batch. split.
  - intros ([] & [Ha%negb_false_iff Hh%negb_false_iff]%bail_if_Ok%orb_false_iff & Hr)%bind_Ok.
    apply bind_Ok in Hr as (p & Hv & Hr). apply bind_Ok in Hr as (phone & Hph%or_err_Ok & Hr).
    apply bind_Ok in Hr as (hww & Hhw%or_err_Ok & Hr).
    apply bind_Ok in Hr as (u & Hall%for_each_Ok & [= <-]). split_and!; [done..|]. by exists phone, hww.
  - intros (-> & -> & Hv & phone & hww & Hph & Hhw & Hall). rewrite Hv. apply bind_Ok.
    exists tt. split; [done|]. apply bind_Ok. exists policy. split; [done|].
    apply bind_Ok. exists phone. split; [by rewrite Hph|]. apply bind_Ok. exists hww.
    split; [by rewrite Hhw|]. apply bind_Ok. exists tt. split; [|done]. by apply for_each_Ok.
Qed.

Lemma holds_same_approved config m f d f' d' policy :
  holds_same m f d f' d' →
  validate_approved_batch config m f' d' = Ok policy ↔
  validate_approved_batch config m f d = Ok policy.
Proof.
  intros Hs. rewrite !validate_approved_batch_Ok, (holds_same_valid config m f d f' d') by done.
  assert (∀ phone hww, Forall (λ t, validate_approved_transaction m f' d' policy phone hww t = Ok tt)
                         (manifest_transactions m) ↔
                       Forall (λ t, validate_approved_transaction m f d policy phone hww t = Ok tt)
                         (manifest_transactions m)) as Heach.
  { intros phone hww. rewrite !Forall_forall. apply forall_proper. intros t. apply forall_proper.
    intros Ht. unfold holds_same in Hs. rewrite Forall_forall in Hs.
    destruct (Hs t Ht) as (q & Hq & Hq'). unfold validate_approved_transaction. by rewrite Hq, Hq'. }
  by setoid_rewrite Heach.
Qed.

(** What the package of a workspace makes of another one. *)
Lemma carried f d pkg f0 d' f' :
  no_read_fault f0 → package_from_batch f d = Ok pkg → apart (batch_names (package_manifest pkg)) →
  Forall (λ t, ∃ p, read_psbt f (join d (psbt_file t)) = Ok p)
    (manifest_transactions (package_manifest pkg)) →
  materialize_policy_package pkg d' f0 = (Ok tt, f') →
  same_env f0 f' ∧ holds_same (package_manifest pkg) f d f' d' ∧
  package_from_batch f' d' = Ok pkg.
Proof.
  intros Hn Hp Hap Hread Hm. set (m := package_manifest pkg) in *.
  apply package_from_batch_Ok in Hp as (Hsup & _ & _ & Hps). fold m in Hps.
  apply materialize_Ok in Hm as (_ & _ & Hsafe & He & _ & Hf). fold m in Hsafe, Hf.
  destruct (Hf Hap) as [(j & Hj & Hman) Hfiles]. clear Hf.
  pose proof (same_env_faults _ _ He Hn) as Hn'.
  assert (∀ t, t ∈ manifest_transactions m → ∃ p s,
    read_psbt f (join d (psbt_file t)) = Ok p ∧ text_of f d (psbt_file t) = Some s ∧
    psbt_from_str s = Some p ∧ read_to_string f' (join d' (psbt_file t)) = Ok (s +:+ NEWLINE)) as Hall.
  { intros t Ht. rewrite Forall_forall in Hread. destruct (Hread t Ht) as [p Hp].
    destruct (read_psbt_text _ _ _ _ Hp) as (s & Hs & Hps'). exists p, s. split_and!; [done..|].
    assert (psbt_file t ∈ batch_names m) as Hin by by apply (list_elem_of_fmap_2 psbt_file).
    apply read_line; [done|by apply (psbt_text_line s p)|].
    rewrite resolve_safe by (rewrite Forall_forall in Hsafe; by apply Hsafe).
    rewrite (resolve_env _ _ _ He). apply Hfiles. rewrite Hps. by rewrite decide_True. }
  split; [done|]. split.
  - apply Forall_forall. intros t Ht. destruct (Hall t Ht) as (p & s & Hp & _ & Hs & Hr).
    exists p. split; [done|]. unfold read_psbt. rewrite Hr. simpl.
    by rewrite (proj2 (psbt_text_line s p Hs)), Hs.
  - apply package_from_batch_Ok. split; [done|]. split; [|split].
    + unfold load_manifest. eapply read_json_of; [done|exact Hj|].
      rewrite (resolve_safe f' d' "manifest.json" safe_manifest), names_manifest.
      by rewrite (resolve_env _ _ _ He).
    + apply Forall_forall. intros t Ht. destruct (Hall t Ht) as (p & s & _ & _ & _ & Hr).
      unfold text_of. rewrite Hr. by eexists.
    + intros n. rewrite Hps. fold m. case_decide as Hin; [|done].
      apply list_elem_of_fmap in Hin as (t & -> & Ht).
      destruct (Hall t Ht) as (p & s & _ & Hs & Hps' & Hr). rewrite Hs. unfold text_of. rewrite Hr.
      by rewrite (proj2 (psbt_text_line s p Hps')).
Qed.

(** C13: A policy package carries a batch: unpacked into the workspace of
    another device, what was packed there gives the same package again, and
    both validations, before and after the hardware wallet's approval, accept
    it exactly when they accept what was packed. *)
Theorem package_carries_batch config f d pkg f0 d' f' policy :
  no_read_fault f0 → package_from_batch f d = Ok pkg →
  apart (batch_names (package_manifest pkg)) →
  Forall (λ t, ∃ p, read_psbt f (join d (psbt_file t)) = Ok p)
    (manifest_transactions (package_manifest pkg)) →
  materialize_policy_package pkg d' f0 = (Ok tt, f') →
  let m := package_manifest pkg in
  package_from_batch f' d' = Ok pkg ∧
  (validate_batch config m f' d' = Ok policy ↔ validate_batch config m f d = Ok policy) ∧
  (validate_approved_batch config m f' d' = Ok policy ↔
   validate_approved_batch config m f d = Ok policy).
Proof.
  intros Hn Hp Hap Hread Hm m. destruct (carried _ _ _ _ _ _ Hn Hp Hap Hread Hm) as (_ & Hs & Hpkg).
  split; [done|]. split; [by apply holds_same_valid|by apply holds_same_approved].
Qed.
End transport.
