(* ===== verification/CeremonyWorkspace.v ===== *)
(** When a workspace can be made: on a file system that is a tree without
    faults, resetting the workspace's directory and unpacking a package of
    ordinary names into it succeeds. *)

From stdpp Require Import sorting.
From S2P Require Import Prelude Bitcoin Types Keys Policy Transactions FileSystem FsProgress Storage Ceremony CeremonyValidate CeremonySound CeremonyBuild ColdWallet ColdWalletFacts CeremonyTransport.

(** * Names that can be files together *)

#[local] Abbreviation with_manifest l := ("manifest.json"%string :: l).

Section fitting.

(** Safe names, each once, none of them on the way to another one. *)
Record fits (l : list string) : Prop := {
  fit_safe : Forall safe l;
  fit_once : NoDup (with_manifest l);
  fit_apart : ∀ x y, x ∈ with_manifest l → y ∈ with_manifest l →
    names_of x `prefix_of` names_of y → x = y;
}.

Definition fits_b (l : list string) : bool :=
  bool_decide (Forall (λ s, is_absolute s = false ∧ forallb is_normal (components s) = true) l)
  && bool_decide (NoDup (with_manifest l))
  && bool_decide (Forall (λ x, Forall (λ y, ¬ names_of x `prefix_of` names_of y ∨ x = y)
                                 (with_manifest l)) (with_manifest l)).

Lemma fits_of_b l : fits_b l = true → fits l.
Proof.
  unfold fits_b. rewrite !andb_true_iff, !bool_decide_eq_true. intros [[Hs Hn] Ha].
  split; [exact Hs|exact Hn|]. intros x y Hx Hy Hp. rewrite Forall_forall in Ha. specialize (Ha x Hx).
  rewrite Forall_forall in Ha. by destruct (Ha y Hy).
Qed.

Lemma fits_apart l : fits l → apart l.
Proof.
  intros [_ [Hnew _]%NoDup_cons Ha]. split.
  - intros x Hx Heq. apply Hnew. rewrite (Ha "manifest.json"%string x); [done|left|by right|].
    rewrite names_manifest, Heq. done.
  - intros x y Hx Hy Heq. apply Ha; [by right..|]. by rewrite Heq.
Qed.

Lemma fits_names l x : fits l → x ∈ with_manifest l → names_of x ≠ [].
Proof.
  intros [_ [Hnew _]%NoDup_cons Ha] Hx Heq.
  assert (x = "manifest.json"%string) as ->; [|by rewrite names_manifest in Heq].
  apply Ha; [done|left|]. rewrite Heq. apply prefix_nil.
Qed.

Lemma fits_components l x : fits l → x ∈ with_manifest l → components x = Normal <$> names_of x ∧
  is_absolute x = false.
Proof.
  intros [Hs _ _] [->|Hx]%elem_of_cons; [done|]. rewrite Forall_forall in Hs. specialize (Hs x Hx).
  split; [by apply safe_components|apply Hs].
Qed.
End fitting.

(** * Room for files *)

Section room.
Context (K : Key) (l : list string) (Hfit : fits l).
Implicit Types (f : FS) (d : Path).

(** Nothing is in the way of the files of [l] and of the manifest. *)
Record room f : Prop := {
  rm_fault : no_fault f;
  rm_tree : tree f;
  rm_way : ∀ x k, x ∈ with_manifest l → k `prefix_of` K ++ names_of x → k ≠ K ++ names_of x →
    is_file f k = false;
  rm_file : ∀ x, x ∈ with_manifest l → node_at f (K ++ names_of x) ≠ Some Dir;
}.

Lemma target_prefix x y :
  x ∈ with_manifest l → y ∈ with_manifest l → K ++ names_of x `prefix_of` K ++ names_of y → x = y.
Proof using Hfit.
  intros Hx Hy Hp. apply (fit_apart _ Hfit); [done..|]. by apply prefix_app_inv in Hp.
Qed.

Lemma room_write f d bytes x :
  room f → resolve f d = K → x ∈ with_manifest l →
  ∃ f', write_private (join d x) bytes f = (Ok tt, f') ∧ same_env f f' ∧ room f'.
Proof using Hfit.
  intros [Hn Ht Hw Hd] Hk Hx. destruct (fits_components _ _ Hfit Hx) as [Hc Ha].
  destruct (snoc_names (names_of x)) as (ns & y & Hns); [by eapply fits_names|].
  rewrite Hns in Hc.
  assert (K ++ names_of x = (K ++ ns) ++ [y]) as Hkey by (by rewrite Hns, <-app_assoc).
  assert (∀ k, k `prefix_of` K ++ ns → k `prefix_of` K ++ names_of x ∧ k ≠ K ++ names_of x) as Hup.
  { intros k Hp. split; [etrans; [exact Hp|rewrite Hkey; by eexists]|]. intros ->.
    apply prefix_length in Hp. rewrite Hkey, length_app in Hp. simpl in Hp. lia. }
  destruct (write_private_ok (join d x) bytes f (K ++ ns) y) as (f' & Hr & He & Ht' & Hnodes).
  - by rewrite (resolve_join _ _ _ _ Ha Hc), Hk, <-app_assoc.
  - by rewrite (parent_join _ _ _ _ _ Ha Hc), Hk.
  - done.
  - done.
  - intros k Hp%Hup. destruct Hp. by apply (Hw x).
  - rewrite <-Hkey. by apply Hd.
  - exists f'. split; [done|]. split; [done|]. rewrite <-Hkey in Hnodes. split.
    + by eapply no_fault_env.
    + done.
    + intros z k Hz Hp Hne. unfold is_file. rewrite Hnodes. case_decide as Heq.
      * subst k. exfalso. apply Hne. apply target_prefix in Hp; [by subst|done..].
      * case_decide; [done|]. by apply (Hw z).
    + intros z Hz. rewrite Hnodes. case_decide as Heq; [done|]. case_decide as Hp; [|by apply Hd].
      exfalso. apply Hup in Hp as [Hp Hne]. apply target_prefix in Hp; [by subst|done..].
Qed.

Lemma room_mkdir f d : room f → resolve f d = K →
  ∃ f', create_dir_all d f = (Ok tt, f') ∧ same_env f f' ∧ room f'.
Proof using Hfit.
  intros [Hn Ht Hw Hd] Hk.
  destruct (create_key_ok K f Hn Ht) as (f' & Hr & He & Ht' & Hnodes).
  { intros k Hp. apply (Hw "manifest.json"%string); [left|by apply prefix_app_r|].
    intros ->. apply prefix_length in Hp. rewrite names_manifest, length_app in Hp. simpl in Hp. lia. }
  exists f'. split; [|split; [done|]].
  { unfold create_dir_all, get, mbind, M_bind. by rewrite Hk. }
  split; [by eapply no_fault_env|done|..].
  - intros x k Hx Hp Hne. unfold is_file. rewrite Hnodes. case_decide; [done|]. by apply (Hw x).
  - intros x Hx. rewrite Hnodes. case_decide as Hp; [|by apply Hd].
    apply prefix_length in Hp. rewrite length_app in Hp.
    destruct (names_of x) eqn:Hnx; [by eapply fits_names in Hnx|simpl in Hp; lia].
Qed.

(** An unoccupied name on a clear way. *)
Lemma room_empty f : no_fault f → tree f → clear f K → node_at f K = None → room f.
Proof using Hfit.
  intros Hn Ht Hc Hk.
  assert (∀ k, K `prefix_of` k → node_at f k = None) as Hnone.
  { intros k Hp. destruct (decide (K = k)) as [->|Hne]; [done|].
    destruct (node_at f k) as [nd|] eqn:Hx; [|done].
    pose proof (tree_above f k K nd Ht Hx Hp Hne). congruence. }
  split; [done..| |].
  - intros x k Hx Hp _. destruct (decide (k `prefix_of` K)) as [Hk1|Hk1]; [by apply Hc|].
    unfold is_file. rewrite Hnone; [done|].
    destruct (prefix_weak_total k K (K ++ names_of x)) as [?|?]; [done|by apply prefix_app_r|done|done].
  - intros x Hx. by rewrite Hnone by by apply prefix_app_r.
Qed.

(** Every file of the batch finds its place. *)
Lemma room_write_all f d es :
  room f → resolve f d = K → Forall (λ e, e.1 ∈ l) es →
  ∃ f', for_eachM (write_package_psbt d) es f = (Ok tt, f') ∧ same_env f f' ∧ room f'.
Proof using Hfit.
  revert f. induction es as [|[n s] es IH]; intros f Hr Hk Hes; simpl.
  { exists f. done. }
  apply Forall_cons_iff in Hes as [Hn Hes]. simpl in Hn.
  destruct (room_write f d (s +:+ NEWLINE) n Hr Hk) as (f1 & Hw & He1 & Hr1); [by right|].
  destruct (IH f1 Hr1) as (f2 & Hw2 & He2 & Hr2); [by rewrite (resolve_env _ _ _ He1)|done|].
  exists f2. split; [|split; [by eapply same_env_trans|done]].
  unfold write_package_psbt at 1, pure, mbind, M_bind.
  pose proof (fit_safe _ Hfit) as Hs. rewrite Forall_forall in Hs. destruct (Hs n Hn) as [Ha Hc].
  rewrite Ha, Hc. simpl. by rewrite Hw.
Qed.
End room.

(** * Making a workspace *)

Section making.
Context `{Laws : BitcoinLaws, JsonLaws BatchManifest}.
Implicit Types (f : FS) (d : Path).

Lemma reset_workspace_ok f d :
  no_fault f → tree f → clear f (resolve f d) → resolve f d ≠ [] →
  ∃ f', reset_workspace d f = (Ok tt, f') ∧ same_env f f' ∧ tree f' ∧
    clear f' (resolve f d) ∧ node_at f' (resolve f d) = None ∧
    ∀ k, ¬ resolve f d `prefix_of` k → node_at f' k = node_at f k.
Proof.
  intros Hn Ht Hc Hne. unfold reset_workspace, get, mbind, M_bind. cbn beta iota.
  unfold exists_. destruct (node_at f (resolve f d)) as [nd|] eqn:Hk; [|by exists f].
  assert (nd = Dir) as ->.
  { specialize (Hc (resolve f d) ltac:(done)). unfold is_file in Hc. rewrite Hk in Hc. by destruct nd. }
  destruct (remove_dir_all_ok d f Hne Hn Ht Hk) as (f' & Hr & He & Ht' & Hnodes).
  exists f'. split; [done|]. split; [done|]. split; [done|]. split; [|split].
  - intros k Hp. unfold is_file. rewrite Hnodes. case_decide; [done|]. by apply Hc.
  - rewrite Hnodes. by rewrite decide_True.
  - intros k Hp. rewrite Hnodes. by rewrite decide_False.
Qed.

(** Unpacking succeeds. *)
Lemma materialize_ok pkg d f text :
  let names := batch_names (package_manifest pkg) in
  is_supported_policy_package pkg = true → dom (psbts pkg) = list_to_set names → fits names →
  to_vec_pretty (package_manifest pkg) = Some text →
  no_fault f → tree f → clear f (resolve f d) → node_at f (resolve f d) = None →
  ∃ f', materialize_policy_package pkg d f = (Ok tt, f') ∧ same_env f f' ∧
    room (resolve f d) names f'.
Proof.
  intros names Hsup Hdom Hfit Htext Hn Ht Hc Hk.
  pose proof (room_empty (resolve f d) names Hfit f Hn Ht Hc Hk) as Hr.
  destruct (room_mkdir _ _ Hfit f d Hr eq_refl) as (f1 & H1 & He1 & Hr1).
  assert (resolve f1 d = resolve f d) as Hd1 by by apply resolve_env.
  destruct (room_write _ _ Hfit f1 d text "manifest.json" Hr1 Hd1) as (f2 & H2 & He2 & Hr2); [left|].
  assert (resolve f2 d = resolve f d) as Hd2 by (by rewrite (resolve_env _ _ _ He2)).
  destruct (room_write_all _ _ Hfit f2 d (entries (psbts pkg)) Hr2 Hd2) as (f3 & H3 & He3 & Hr3).
  { apply Forall_forall. intros e He%elem_of_entries.
    apply (elem_of_list_to_set (C:=gset string)). rewrite <-Hdom. by apply elem_of_dom. }
  exists f3. split; [|split; [exact (same_env_trans _ _ _ He1 (same_env_trans _ _ _ He2 He3))|done]].
  unfold materialize_policy_package, empty_batch_dir, get, pure, mret, M_ret, mbind, M_bind, exists_.
  rewrite Hsup, Hk. simpl. fold names. rewrite bool_decide_eq_true_2 by done. simpl.
  rewrite H1. unfold write_json, pure, mbind, M_bind. rewrite Htext. simpl. rewrite H2. exact H3.
Qed.

(** A reset workspace takes the package, and nothing outside it changes. *)
Lemma review_workspace_ok pkg d f text :
  let names := batch_names (package_manifest pkg) in
  is_supported_policy_package pkg = true → dom (psbts pkg) = list_to_set names → fits names →
  to_vec_pretty (package_manifest pkg) = Some text →
  no_fault f → tree f → clear f (resolve f d) → resolve f d ≠ [] →
  ∃ f1 f2, reset_workspace d f = (Ok tt, f1) ∧ materialize_policy_package pkg d f1 = (Ok tt, f2) ∧
    same_env f f1 ∧ same_env f f2 ∧ room (resolve f d) names f2 ∧
    ∀ k, ¬ resolve f d `prefix_of` k → file_at f2 k = file_at f k.
Proof.
  intros names Hsup Hdom Hfit Htext Hn Ht Hc Hne.
  destruct (reset_workspace_ok f d Hn Ht Hc Hne) as (f1 & H1 & He1 & Ht1 & Hc1 & Hk1 & Ho1).
  assert (resolve f1 d = resolve f d) as Hd1 by by apply resolve_env.
  rewrite <-Hd1 in Hc1, Hk1.
  destruct (materialize_ok pkg d f1 text Hsup Hdom Hfit Htext (no_fault_env _ _ He1 Hn) Ht1 Hc1 Hk1)
    as (f2 & H2 & He2 & Hr2).
  exists f1, f2. split; [done|]. split; [done|]. split; [done|].
  split; [by eapply same_env_trans|]. rewrite Hd1 in Hr2. split; [done|].
  intros k Hk. apply materialize_Ok in H2 as (_ & _ & _ & _ & Ho2 & _). rewrite Ho2, ?Hd1.
  - unfold file_at. by rewrite Ho1.
  - intros x _ ->. apply Hk. rewrite Hd1. by apply prefix_app_r.
Qed.
End making.
