(* ===== verification/CeremonyApproval.v ===== *)
(** When the hardware wallet approves: a batch as the phone has signed it, in
    a workspace, of a policy whose other key is the wallet's. *)

From S2P Require Import Prelude Bitcoin Types Keys Policy Transactions Signable FileSystem FsProgress Storage Ceremony CeremonyValidate CeremonySound CeremonyBuild ColdWallet ColdWalletFacts CeremonyTransport CeremonyWorkspace.

(** * The files of a proposal *)

Section files.
Context `{Laws : BitcoinLaws, !KeyLib}.
Implicit Types (P : Proposal).

Definition ceremony_names (count : nat) (emergency : bool) : list string :=
  "rollover.psbt" :: ((λ i, authorization_file (N.of_nat (i + 1))) <$> seq 0 count) ++
  if emergency then ["emergency/trigger.psbt"; "emergency/withdrawal.psbt"] else [].

Lemma ceremony_names_fit count emergency :
  count ≤ MONTHS_PER_ROLLOVER → fits (ceremony_names count emergency).
Proof.
  unfold MONTHS_PER_ROLLOVER. intros Hc. apply fits_of_b.
  do 13 (destruct count as [|count]; [destruct emergency; vm_compute; reflexivity|]). lia.
Qed.

Lemma build_allowances_files {Hot} `{!HotAddressProvider Hot} P delay count l i n c w w' :
  build_allowances P delay count (seq i n) c w = (Ok l, w') →
  (λ a, psbt_file (authorization a)) <$> l =
  (λ i, authorization_file (N.of_nat (i + 1))) <$> seq i n.
Proof.
  revert i c w l. induction n as [|n IH]; intros i c [f h] l Hb.
  { by injection Hb as <- <-. }
  simpl in Hb. apply M_bind_Ok in Hb as ([a c1] & [f1 h1] & Ha & Hb).
  apply M_bind_Ok in Hb as (l1 & w2 & Hl & [= <- <-]).
  apply build_allowance_run in Ha as (addr & o & v & cs & tx & fee & p & _ & _ & _ & _ & _ & ->).
  csimpl. f_equal. by eapply IH.
Qed.

Lemma build_emergency_files P rtx b delay hot f e f' :
  build_emergency P rtx b delay hot f = (Ok e, f') →
  psbt_file <$> match e with Some e => [trigger e; withdrawal e] | None => [] end =
  if bool_decide (is_Some e) then ["emergency/trigger.psbt"; "emergency/withdrawal.psbt"]%string else [].
Proof.
  unfold build_emergency. destruct hot as [hot|]; [|by intros [= <- <-]].
  intros (src & w & [_ ->]%pure_Ok & Hb)%M_bind_Ok. apply M_bind_Ok in Hb as (vo & w & [_ ->]%pure_Ok & Hb).
  apply M_bind_Ok in Hb as (em & w & Hb & [= <- <-]).
  apply build_emergency_run in Hb as (? & ? & ? & ? & ? & ? & ? & _ & _ & _ & _ & _ & ->). done.
Qed.

(** A transaction of the batch as the phone has left it: signed wherever a
    vault output is spent, and in the rollover by the connectors' key. *)
Definition phone_signed P (m : BatchManifest) f d t : Prop :=
  ∃ p, read_psbt f (join d (psbt_file t)) = Ok p ∧ validate_default_sighashes p = Ok tt ∧
    sealed P p (N.to_nat <$> vault_input_indexes t) (N.to_nat <$> controller_input_indexes t) ∧
    (psbt_file t = psbt_file (rollover m) →
     connector_signed P p (N.to_nat <$> controller_input_indexes t)).

(** What the phone hands over. *)
Record handed_over `{Json BatchManifest} config m f d phone P : Prop := {
  ho_valid : validate_batch config m f d = Ok (p_policy P);
  ho_manifest : load_manifest f d = Ok m;
  ho_controller : controller_policy config = Ok (p_controller P);
  ho_phone : p_phone P = phone ∧ key_to_string (vault_pubkey phone) = phone_vault_pubkey config;
  ho_approved : phone_approved m = true ∧ hww_approved m = false;
  ho_fits : fits (batch_names m);
  ho_signed : Forall (phone_signed P m f d) (manifest_transactions m);
}.

Lemma proposal_handed_over `{JsonLaws BatchManifest} {Hot} `{!HotAddressProvider Hot}
    config us cs now limits dir phone f h m F h' :
  no_read_fault f →
  (∀ h a h', next_receive_address h = (Ok a, h') →
     hot_script_of config (address_to_string a) = Ok (address_script_pubkey a)) →
  (N.of_nat (length us + length cs) < 4294967296)%N →
  build_policy_proposal_with_connectors config us cs now limits dir phone (f, h) = (Ok m, (F, h')) →
  no_read_fault F ∧ ∃ P, handed_over config m F dir phone P.
Proof.
  intros Hnf Hhl Hlen (P & hot & s & tx & vsum & csum & staging & ed & md & chain & l & e & f1 & f2
    & f3 & f4 & h1 & Hcr & Hb)%build_proposal_run.
  apply (create_key_run (resolve f dir)) in Hcr as (He1 & _).
  pose proof (same_env_faults _ _ He1 Hnf) as Hnf1.
  edestruct asm_accepted as (p & vouts & couts & Hacc & HnF & Hwr & Hcon);
    [exact Hb|exact Hnf1|exact Hhl|exact Hlen|].
  edestruct asm_selection as (mi & co & fi & _ & _ & [[Hc12 _] _ _ _ _]); [exact Hb|].
  edestruct asm_m as (_ & _ & _ & _ & _ & Hal & Hem & _); [exact Hb|exact Hlen|].
  assert (psbt_file (rollover m) = "rollover.psbt"%string) as Hrf.
  { rewrite (bu_manifest _ _ _ _ _ _ _ _ _ _ _ _ _ _ _ _ _ _ _ _ _ _ _ _ _ _ _ _ Hb).
    by destruct s as [[[c av] fee] rem]. }
  assert (batch_names m = ceremony_names s.1.1.1 (bool_decide (is_Some e))) as Hnames.
  { unfold batch_names, manifest_transactions, ceremony_names. csimpl. rewrite Hrf. f_equal.
    rewrite fmap_app, Hal, Hem, <-list_fmap_compose. f_equal.
    - destruct Hb as [_ _ _ _ _ _ _ _ _ Hba _ _ _]. by apply build_allowances_files in Hba.
    - destruct Hb as [_ _ _ _ _ _ _ _ _ _ Hbe _ _]. by apply build_emergency_files in Hbe. }
  assert (fits (batch_names m)) as Hfits by (rewrite Hnames; by apply ceremony_names_fit).
  split; [done|]. exists P. pose proof Hb as [[Hpol Hctl Hdir Hph _ _ _] _ _ _ _ _ _ _ _ _ _ Hm Hw].
  split; [|  |done|done| |done|].
  - apply validate_batch_Ok. eauto 10.
  - apply write_json_run in Hw as (He & _ & _ & Hs).
    destruct (Hs eq_refl) as (text & Ht & Hf). unfold load_manifest.
    eapply read_json_of; [done|exact Ht|]. by rewrite (resolve_env _ _ _ He).
  - rewrite Hm. by destruct s as [[[c av] fee] rem].
  - apply Forall_forall. intros t Ht. rewrite Forall_forall in Hwr.
    destruct (Hwr t Ht) as (q & Hq & Hd & Hs). subst dir. exists q. split_and!; [done..|].
    intros Hfile. assert (t = rollover m) as ->.
    { pose proof (fit_once _ Hfits) as [_ [Hnew _]%NoDup_cons]%NoDup_cons.
      apply elem_of_cons in Ht as [->|Ht]; [done|]. exfalso. apply Hnew. rewrite <-Hfile.
      by apply (list_elem_of_fmap_2 psbt_file). }
    destruct Hacc as [_ _ _ _ Hp _ _ _ _]. rewrite Hp in Hq. by injection Hq as <-.
Qed.
End files.

(** * The hardware wallet's approval *)

Section approval.
Context `{Laws : BitcoinLaws, !KeyLib, !KeyLaws, Json VaultConfig, Json DeviceFile,
          JsonLaws BatchManifest}.
Implicit Types (P : Proposal) (m : BatchManifest) (p q : Psbt) (f : FS) (t : BatchTransaction) (d : Path).

(** The documented behaviour of [update_input_with_descriptor]: every key of
    the descriptor is recorded with the leaves it signs. *)
Definition records_cosigner (policy : VaultPolicy) (k : XOnlyPublicKey) : Prop :=
  ∀ (d : DefiniteDescriptor) leaf q i q' y, vault_definite_descriptor policy = Ok d →
    vault_leaf policy Cooperative = Ok leaf →
    update_input_with_descriptor q i d = Some q' → inputs q' !! i = Some y →
    ∃ o, tap_key_origins y !! k = Some o ∧ leaf_hash leaf ∈ o.

(** What the phone has sealed, its cosigner can sign. *)
Lemma sealed_signs P p vs cs kp :
  records_cosigner (p_policy P) (x_only_public_key kp) → validate_default_sighashes p = Ok tt →
  sealed P p vs cs →
  ∃ q, exec (sign_vault_psbt_inputs (p_policy P) Cooperative kp vs) p = Ok q.
Proof using Laws.
  intros Hrec Hd [(leaf & Hl & Hsig) (dd & Hdd & Hdesc) _].
  destruct (sign_vault_complete (p_policy P) Cooperative kp vs p leaf Hd Hl) as [q Hq].
  - apply Forall_forall. intros i Hi. rewrite Forall_forall in Hsig, Hdesc.
    eapply has_sig_signable; [by apply Hsig|]. intros x Hx.
    destruct (Hdesc i Hi) as (r & r' & x' & y & Hu & Hy & Hx' & Ho).
    rewrite Hx in Hx'. injection Hx' as <-. rewrite Ho. by eapply Hrec.
  - exists q. apply exec_Ok. by eexists.
Qed.

Lemma controller_verified P p phone ids :
  validate_default_sighashes p = Ok tt → x_only_public_key (vault_keypair (p_phone P)) = phone →
  connector_signed P p ids →
  verify_controller_psbt_signatures p (p_controller P) PhonePath phone ids = Ok tt.
Proof using Laws.
  intros Hd <- [(leaf & Hl & Hs) _]. apply verify_controller_iff. split; [done|]. by exists leaf.
Qed.

Lemma approve_transaction_ok P K names m d phone hww t f :
  fits names → room K names f → resolve f d = K → psbt_file t ∈ names →
  records_cosigner (p_policy P) (x_only_public_key (vault_keypair hww)) →
  x_only_public_key (vault_keypair (p_phone P)) = phone →
  phone_signed P m f d t →
  ∃ f', approve_transaction m d (p_policy P) (p_controller P) phone hww t f = (Ok tt, f') ∧
    same_env f f' ∧ room K names f' ∧
    ∀ k, k ≠ resolve f (join d (psbt_file t)) → file_at f' k = file_at f k.
Proof using Laws.
  intros Hfit Hr Hk Hin Hrec Hph (p & Hp & Hd & Hseal & Hcon).
  destruct (sealed_signs _ _ _ _ _ Hrec Hd Hseal) as [q Hq].
  destruct (room_write K names Hfit f d (psbt_to_string q +:+ NEWLINE) (psbt_file t) Hr Hk)
    as (f' & Hw & He & Hr'); [by right|].
  exists f'. split; [|split; [done|split; [done|]]].
  2: { by apply write_private_files in Hw as (_ & _ & ? & _). }
  unfold approve_transaction. apply M_bind_Ok. exists f, f. split; [done|].
  apply M_bind_Ok. exists p, f. split; [by apply pure_Ok|].
  do 2 (apply M_bind_Ok; eexists _, f; split; [by apply pure_Ok|]).
  apply M_bind_Ok. exists tt, f. split.
  { apply pure_Ok. split; [|done]. apply verify_vault_iff. split; [done|]. rewrite <-Hph. apply Hseal. }
  apply M_bind_Ok. exists tt, f. split.
  { apply pure_Ok. split; [|done]. case_bool_decide; [done|]. simpl. case_bool_decide as Hf; [|done].
    by apply controller_verified; [..|apply Hcon]. }
  apply M_bind_Ok. exists q, f. split; [by apply pure_Ok|]. exact Hw.
Qed.

Lemma phone_signed_env P m f f' d t :
  same_env f f' →
  file_at f' (resolve f (join d (psbt_file t))) = file_at f (resolve f (join d (psbt_file t))) →
  phone_signed P m f d t → phone_signed P m f' d t.
Proof using.
  intros He Hf (p & Hp & Hrest). exists p. split; [|done]. by rewrite (read_psbt_env f f').
Qed.

Lemma approve_all_ok P K names m d phone hww l f :
  fits names → room K names f → resolve f d = K → Forall (λ t, psbt_file t ∈ names) l →
  NoDup (psbt_file <$> l) →
  records_cosigner (p_policy P) (x_only_public_key (vault_keypair hww)) →
  x_only_public_key (vault_keypair (p_phone P)) = phone →
  Forall (phone_signed P m f d) l →
  ∃ f', for_eachM (approve_transaction m d (p_policy P) (p_controller P) phone hww) l f = (Ok tt, f') ∧
    same_env f f' ∧ room K names f'.
Proof using Laws.
  intros Hfit Hr Hk Hin Hnd Hrec Hph Hall. revert f Hr Hk Hall.
  induction l as [|t l IH]; intros f Hr Hk Hall; simpl; [by exists f|].
  apply Forall_cons_iff in Hin as [Ht Hin]. apply Forall_cons_iff in Hall as [Hs Hall].
  csimpl in Hnd. apply NoDup_cons in Hnd as [Hnew Hnd].
  destruct (approve_transaction_ok P K names m d phone hww t f) as (f1 & Hrun1 & He1 & Hr1 & Ho1); [done..|].
  destruct (IH Hin Hnd f1 Hr1) as (f2 & Hrun2 & He2 & Hr2); [by rewrite (resolve_env _ _ _ He1)| |].
  - apply Forall_forall. intros u Hu. rewrite Forall_forall in Hall, Hin.
    eapply phone_signed_env; [exact He1| |by apply Hall]. apply Ho1.
    pose proof (fit_safe _ Hfit) as Hsafe. rewrite Forall_forall in Hsafe.
    rewrite !resolve_safe by auto. intros Heq%app_inv_head. apply Hnew.
    rewrite <-((proj2 (fits_apart _ Hfit)) _ _ (Hin u Hu) Ht Heq).
    by apply (list_elem_of_fmap_2 psbt_file).
  - exists f2. split; [|split; [by eapply same_env_trans|done]].
    unfold mbind, M_bind. by rewrite Hrun1.
Qed.

(** The keys that the configuration and a policy's controller share. *)
Lemma controller_policy_Ok config c :
  Ceremony.controller_policy config = Ok c →
  ∃ phone hww n, key_from_str (phone_vault_pubkey config) = Some phone ∧
    key_from_str (hww_vault_pubkey config) = Some hww ∧ bitcoin_network config = Ok n ∧
    controller_new_for_network phone hww n = Ok c.
Proof using.
  unfold Ceremony.controller_policy. intros (phone & Hph%or_err_Ok & Hr)%bind_Ok.
  apply bind_Ok in Hr as (hww & Hh%or_err_Ok & Hr). apply bind_Ok in Hr as (n & Hn & Hr).
  by exists phone, hww, n.
Qed.

Lemma handed_over_phone config m f d phone P :
  handed_over config m f d phone P → vault_pubkey phone = x_only_public_key (vault_keypair phone) →
  key_from_str (phone_vault_pubkey config) = Some (x_only_public_key (vault_keypair (p_phone P))).
Proof using Laws.
  intros [_ _ _ [-> Hph] _ _ _] Hk. by rewrite <-Hph, key_round_trip, Hk.
Qed.

(** A batch that was handed over, in a workspace of the hardware wallet. *)
Lemma approve_ok data_dir config m f0 d0 phone P f d hww text :
  handed_over config m f0 d0 phone P → vault_pubkey phone = x_only_public_key (vault_keypair phone) →
  holds_same m f0 d0 f d → load_manifest f d = Ok m → room (resolve f d) (batch_names m) f →
  load_device_keys f data_dir HWW_DEVICE_FILE = Ok hww →
  key_to_string (vault_pubkey hww) = hww_vault_pubkey config →
  records_cosigner (p_policy P) (vault_pubkey hww) →
  to_vec_pretty (set_hww_approved m) = Some text →
  ∃ f', approve_policy_for_config data_dir config d f = (Ok (set_hww_approved m), f') ∧
    same_env f f' ∧ room (resolve f d) (batch_names m) f'.
Proof.
  intros Hho Hph Hsame Hm Hr Hhww Hkey Hrec Htext.
  pose proof (handed_over_phone _ _ _ _ _ _ Hho Hph) as Hpk.
  destruct Hho as [Hval _ Hctl _ _ Hfit Hsigned].
  destruct (controller_policy_Ok _ _ Hctl) as (pk & hk & n & Hpk' & Hhk & Hn & Hc).
  rewrite Hpk in Hpk'. injection Hpk' as <-.
  rewrite (load_keys_pubkey _ _ _ _ Hhww) in Hrec.
  assert (Forall (phone_signed P m f d) (manifest_transactions m)) as Hsigned'.
  { apply Forall_forall. intros t Ht. unfold holds_same in Hsame. rewrite Forall_forall in Hsame, Hsigned.
    destruct (Hsame t Ht) as (p & Hp & Hp'). destruct (Hsigned t Ht) as (p' & Hp2 & Hrest).
    rewrite Hp in Hp2. injection Hp2 as <-. by exists p. }
  destruct (approve_all_ok P _ _ m d (x_only_public_key (vault_keypair (p_phone P))) hww
              (manifest_transactions m) f Hfit Hr eq_refl)
    as (f1 & Hrun1 & He1 & Hr1); [|  |done|done|done|].
  { apply Forall_forall. intros t Ht. by apply (list_elem_of_fmap_2 psbt_file). }
  { by pose proof (fit_once _ Hfit) as [_ ?]%NoDup_cons. }
  destruct (room_write _ _ Hfit f1 d text "manifest.json" Hr1) as (f2 & Hrun2 & He2 & Hr2);
    [by apply resolve_env|left|].
  exists f2. split; [|split; [by eapply same_env_trans|done]].
  unfold approve_policy_for_config. apply M_bind_Ok. exists f, f. split; [done|].
  apply M_bind_Ok. exists m, f. split; [by apply pure_Ok|].
  apply M_bind_Ok. exists (p_policy P), f. split.
  { apply pure_Ok. split; [|done]. by apply (holds_same_valid _ _ f0 d0). }
  apply M_bind_Ok. eexists _, f. split; [apply pure_Ok; split; [by rewrite Hpk|done]|].
  apply M_bind_Ok. eexists _, f. split; [apply pure_Ok; split; [by rewrite Hhk|done]|].
  apply M_bind_Ok. exists n, f. split; [by apply pure_Ok|].
  apply M_bind_Ok. exists (p_controller P), f. split; [by apply pure_Ok|].
  apply M_bind_Ok. exists hww, f. split; [by apply pure_Ok|].
  apply M_bind_Ok. exists tt, f. split.
  { apply pure_Ok. rewrite bool_decide_eq_true_2 by done. done. }
  apply M_bind_Ok. exists tt, f1. split; [done|]. cbv zeta.
  apply M_bind_Ok. exists tt, f2. split; [|done].
  unfold write_json, pure, mbind, M_bind. by rewrite Htext.
Qed.
End approval.
