(* ===== verification/CeremonyComplete.v ===== *)
(** The whole ceremony: what the phone proposes is carried to the hardware
    wallet, approved there, carried back, and accepted for activation. *)

From S2P Require Import Prelude Bitcoin Types Keys Policy Transactions Signable FileSystem FsProgress Storage Ceremony CeremonyValidate CeremonySound CeremonyBuild CeremonyTheorems ColdWallet ColdWalletFacts ColdWalletSpend CeremonyTransport CeremonyWorkspace CeremonyApproval.

(** * Finalising *)

Section finalising.
Context `{Laws : BitcoinLaws}.
Implicit Types (p q : Psbt) (ids : list nat).

(** The documented behaviour of [finalize_inp_mut] on the inputs of a vault:
    it satisfies the script of an input that its descriptor describes and
    whose leaf has the signatures it asks for, and changes no other input. *)
Record finalises (policy : VaultPolicy) (controller : ControllerPolicy)
    (phone hww : XOnlyPublicKey) : Prop := {
  fin_vault : ∀ p i (d : DefiniteDescriptor) leaf,
    vault_definite_descriptor policy = Ok d → vault_leaf policy Cooperative = Ok leaf →
    described d p i → has_sig (leaf_hash leaf) phone p i → has_sig (leaf_hash leaf) hww p i →
    is_Some (finalize_inp_mut p i);
  fin_controller : ∀ p i (d : DefiniteDescriptor) leaf,
    controller_definite_descriptor controller = Ok d → controller_leaf controller PhonePath = Ok leaf →
    described d p i → has_sig (cleaf_hash leaf) phone p i → is_Some (finalize_inp_mut p i);
  fin_others : ∀ p i q j, finalize_inp_mut p i = Some q → j ≠ i →
    inputs q !! j = inputs p !! j ∧ ∀ l, sighash_msg q j l = sighash_msg p j l;
}.

(** An input and its message are as before. *)
Definition kept p q (j : nat) : Prop :=
  inputs q !! j = inputs p !! j ∧ ∀ l, sighash_msg q j l = sighash_msg p j l.

Lemma kept_trans p q r j : kept p q j → kept q r j → kept p r j.
Proof. intros [H1 H2] [H3 H4]. split; [congruence|]. intros l. by rewrite H4. Qed.

Lemma kept_described p q (d : DefiniteDescriptor) j : kept p q j → described d p j → described d q j.
Proof.
  intros [Hi _] (r & r' & x & y & Hu & Hy & Hx & Ho). exists r, r', x, y.
  split_and!; [done..| |done]. by rewrite Hi.
Qed.

Lemma kept_sig lh pk p q j : kept p q j → has_sig lh pk p j → has_sig lh pk q j.
Proof.
  intros [Hi Hm] (x & s & m & Hx & Hs & Ht & Hmsg & Hv). exists x, s, m. by rewrite Hi, Hm.
Qed.

(** Finalising one input after the other. *)
Lemma finalize_inputs_ok (complete : Psbt → nat → Prop) ids p msg :
  (∀ p q j, kept p q j → complete p j → complete q j) →
  (∀ p i, complete p i → is_Some (finalize_inp_mut p i)) →
  (∀ p i q j, finalize_inp_mut p i = Some q → j ≠ i → kept p q j) →
  NoDup ids → Forall (complete p) ids →
  ∃ q, finalize_inputs p ids msg = Ok q ∧ ∀ j, j ∉ ids → kept p q j.
Proof.
  intros Hkept Hfin Hother. unfold finalize_inputs. revert p.
  induction ids as [|i ids IH]; intros p Hnd Hall; simpl; [by exists p|].
  apply NoDup_cons in Hnd as [Hi Hnd]. apply Forall_cons_iff in Hall as [Hp Hall].
  destruct (Hfin p i Hp) as [q Hq]. rewrite Hq. simpl.
  destruct (IH q Hnd) as (r & Hr & Hk).
  - apply Forall_forall. intros j Hj. rewrite Forall_forall in Hall.
    apply (Hkept p); [|by apply Hall]. apply (Hother p i q j Hq). by intros ->.
  - exists r. split; [done|]. intros j [Hne Hj]%not_elem_of_cons.
    eapply kept_trans; [by apply (Hother p i q j Hq)|by apply Hk].
Qed.
End finalising.

(** * Indexes *)

Section indexes.
Context `{Laws : BitcoinLaws, !KeyLib}.

(** The inputs of a transaction's two roles, each once. *)
Definition roles_apart (t : BatchTransaction) : Prop :=
  NoDup ((N.to_nat <$> vault_input_indexes t) ++ (N.to_nat <$> controller_input_indexes t)).

Lemma child_roles p v o c cs t : child_of p v o c cs t → roles_apart t.
Proof.
  intros [[Hv Hc] _ _ _ _ _]. unfold roles_apart. rewrite Hv, Hc. cbn.
  by apply (bool_decide_unpack (NoDup [0; 1])).
Qed.

Lemma chain_roles config m f dir policy controller delay i l e :
  accepted_chain config m f dir policy controller delay i l e →
  Forall roles_apart (authorization <$> l).
Proof.
  revert i e. induction l as [|a l IH]; intros i e; [constructor|].
  intros (o & v & c & p & _ & Hst & Hch). csimpl. constructor; [|by eapply IH].
  destruct Hst. by eapply child_roles.
Qed.

Lemma accepted_roles config m f dir policy :
  validate_batch config m f dir = Ok policy → Forall roles_apart (manifest_transactions m).
Proof.
  intros (c & p & vo & co & delay & [_ _ _ _ _ [Hpart _ _ _ _ _] _ Hch Hem])%validate_batch_Ok.
  unfold manifest_transactions. constructor; [|apply Forall_app; split].
  - unfold roles_apart. change (NoDup (rollover_vault_indexes m ++ rollover_controller_indexes m)).
    rewrite Hpart. apply NoDup_seq.
  - by eapply chain_roles.
  - destruct Hem as [[_ ->]|(_ & e & ? & ? & ? & ? & ? & pt & pw & -> & [_ _ _ Ht Hw])]; [constructor|].
    destruct Ht, Hw. repeat constructor; by eapply child_roles.
Qed.
End indexes.

(** * The ceremony *)

Section ceremony.
Context `{Laws : BitcoinLaws, !KeyLib, !KeyLaws, Json VaultConfig, Json DeviceFile,
          JsonLaws BatchManifest} {Hot : Type} `{!HotAddressProvider Hot}.
Implicit Types (P : Proposal) (m : BatchManifest) (p q : Psbt) (f : FS) (t : BatchTransaction) (d : Path).

(** A proposed transaction in a later workspace: the proposal's, with both
    signatures on every vault input and, in the rollover, the phone's on every
    connector. *)
Definition both_signed P hww m F dir f d t : Prop :=
  ∃ p q, read_psbt F (join dir (psbt_file t)) = Ok p ∧ read_psbt f (join d (psbt_file t)) = Ok q ∧
    same_but_sigs p q ∧ validate_default_sighashes q = Ok tt ∧
    sealed P q (N.to_nat <$> vault_input_indexes t) (N.to_nat <$> controller_input_indexes t) ∧
    (∃ leaf, vault_leaf (p_policy P) Cooperative = Ok leaf ∧
       Forall (has_sig (leaf_hash leaf) (vault_pubkey hww) q) (N.to_nat <$> vault_input_indexes t)) ∧
    (psbt_file t = psbt_file (rollover m) →
     connector_signed P q (N.to_nat <$> controller_input_indexes t)).

Lemma approved_both_signed P phone hww m F dir f f' d t :
  phone_signed P m F dir t →
  (∃ p, read_psbt F (join dir (psbt_file t)) = Ok p ∧ read_psbt f (join d (psbt_file t)) = Ok p) →
  approved_transaction d (p_policy P) phone hww f f' t →
  both_signed P hww m F dir f' d t.
Proof.
  intros (p & Hp & Hd & Hseal & Hcon) (p0 & HpF & Hpf) (p' & q & leaf & Hp' & Hq & Hleaf & Hs & _ & Hh).
  rewrite Hp in HpF. injection HpF as <-. rewrite Hpf in Hp'. injection Hp' as <-.
  exists p, q. split; [done|]. split; [done|]. split; [apply Hs|].
  split; [by rewrite <-(validate_default_same p q) by apply Hs|].
  split; [by eapply sealed_kept|]. split; [by exists leaf|].
  intros Hf. destruct (Hcon Hf) as [(cl & Hcl & Hsig) (cd & Hcd & Hdesc)]. split.
  - exists cl. split; [done|]. eapply Forall_impl; [exact Hsig|]. intros i. by eapply signed_keeps_sig.
  - exists cd. split; [done|]. eapply Forall_impl; [exact Hdesc|]. intros i. apply described_same, Hs.
Qed.

(** Carried on, it is the same. *)
Lemma both_signed_carried P hww m F dir f d f' d' t :
  (∃ q, read_psbt f (join d (psbt_file t)) = Ok q ∧ read_psbt f' (join d' (psbt_file t)) = Ok q) →
  both_signed P hww m F dir f d t → both_signed P hww m F dir f' d' t.
Proof.
  intros (r & Hr & Hr') (p & q & Hp & Hq & Hrest). rewrite Hr in Hq. injection Hq as <-.
  by exists p, r.
Qed.

(** Such a transaction passes the final check. *)
Lemma both_signed_approved P hww m F dir f d t :
  let phone := x_only_public_key (vault_keypair (p_phone P)) in
  finalises (p_policy P) (p_controller P) phone (vault_pubkey hww) → roles_apart t →
  both_signed P hww m F dir f d t →
  validate_approved_transaction m f d (p_policy P) phone (vault_pubkey hww) t = Ok tt.
Proof.
  intros phone [Hfv Hfc Hfo] Hroles (_ & q & _ & Hq & _ & Hd & [(leaf & Hleaf & Hps) (dd & Hdd & Hdesc) _] & (leaf' & Hl' & Hhs) & Hcon).
  rewrite Hleaf in Hl'. injection Hl' as <-. apply NoDup_app in Hroles as (Hndv & Hdisj & Hndc).
  unfold validate_approved_transaction. rewrite Hq. apply bind_Ok. exists q. split; [done|].
  apply bind_Ok. eexists. split; [done|]. apply bind_Ok. exists tt. split.
  { apply for_each_Ok. repeat constructor; unfold with_context;
      rewrite (proj2 (verify_vault_iff _ _ _ _ _)); try done; split; try done; by exists leaf. }
  destruct (finalize_inputs_ok (λ p i, described dd p i ∧ has_sig (leaf_hash leaf) phone p i ∧
      has_sig (leaf_hash leaf) (vault_pubkey hww) p i) (N.to_nat <$> vault_input_indexes t) q
      "vault input cannot finalize") as (q1 & Hq1 & Hkept).
  - intros p r j Hk (Hx1 & Hx2 & Hx3). split_and!; [by eapply kept_described|by eapply kept_sig..].
  - intros p i (Hx1 & Hx2 & Hx3). by eapply Hfv.
  - intros p i r j Hr Hne. by apply (Hfo p i).
  - done.
  - apply Forall_forall. intros i Hi. rewrite Forall_forall in Hps, Hdesc, Hhs. auto.
  - apply bind_Ok. exists q1. split; [done|]. case_bool_decide as Hf; [|done].
    destruct (Hcon Hf) as [(cl & Hcl & Hsig) (cd & Hcd & Hcdesc)].
    destruct (finalize_inputs_ok (λ p i, described cd p i ∧ has_sig (cleaf_hash cl) phone p i)
      (N.to_nat <$> controller_input_indexes t) q1
      "rollover controller input cannot finalize") as (q2 & Hq2 & _).
    + intros p r j Hk (Hx1 & Hx2). split; [by eapply kept_described|by eapply kept_sig].
    + intros p i (Hx1 & Hx2). by eapply Hfc.
    + intros p i r j Hr Hne. by apply (Hfo p i).
    + done.
    + apply Forall_forall. intros i Hi. rewrite Forall_forall in Hsig, Hcdesc.
      assert (kept q q1 i) as Hk by (apply Hkept; intros Hv; by apply (Hdisj i)).
      split; [eapply kept_described; eauto|eapply kept_sig; eauto].
    + apply bind_Ok. eexists. split; [done|]. apply bind_Ok. by exists q2.
Qed.

Lemma read_device_env f f' d name :
  same_env f f' → file_at f' (resolve f (join d name)) = file_at f (resolve f (join d name)) →
  load_device_keys f' d name = load_device_keys f d name.
Proof. intros He Hf. unfold load_device_keys, load_device. by rewrite (read_json_env f f'). Qed.

(** The machines that take part: the file system is a tree without faults and
    the workspace's directory, not the root, has no file on its way. *)
Definition usable f d : Prop :=
  no_fault f ∧ tree f ∧ clear f (resolve f d) ∧ resolve f d ≠ [].

(** The workspace's files are not the manifest's, and each has its own. *)
Lemma batch_files_NoDup f d m : fits (batch_names m) → NoDup (batch_files f d m).
Proof.
  intros Hfit. unfold batch_files.
  assert (NoDup ((λ x, resolve f (join d x)) <$> "manifest.json"%string :: batch_names m)) as Hnd.
  { apply NoDup_fmap_2_strong; [|apply Hfit]. intros x y Hx Hy Heq.
    assert (∀ z, z ∈ "manifest.json"%string :: batch_names m → safe z) as Hsafe.
    { intros z [->|Hz]%elem_of_cons; [apply safe_manifest|]. pose proof (fit_safe _ Hfit) as Hs.
      rewrite Forall_forall in Hs. by apply Hs. }
    rewrite !resolve_safe in Heq by auto. apply app_inv_head in Heq.
    apply (fit_apart _ Hfit); [done..|]. by rewrite Heq. }
  csimpl in Hnd. unfold batch_names in Hnd. by rewrite <-list_fmap_compose in Hnd.
Qed.

(** A package, unpacked where a workspace was reset. *)
Definition unpacked (pkg : PolicyPackage) d f f' : Prop :=
  ∃ f1, reset_workspace d f = (Ok tt, f1) ∧ materialize_policy_package pkg d f1 = (Ok tt, f').

(** A readable batch of fitting names travels to any usable workspace. *)
Lemma travels F dir pkg f d text :
  package_from_batch F dir = Ok pkg → fits (batch_names (package_manifest pkg)) →
  Forall (λ t, ∃ p, read_psbt F (join dir (psbt_file t)) = Ok p)
    (manifest_transactions (package_manifest pkg)) →
  to_vec_pretty (package_manifest pkg) = Some text → usable f d →
  ∃ f', unpacked pkg d f f' ∧ same_env f f' ∧ holds_same (package_manifest pkg) F dir f' d ∧
    load_manifest f' d = Ok (package_manifest pkg) ∧
    room (resolve f' d) (batch_names (package_manifest pkg)) f' ∧
    ∀ k, ¬ resolve f d `prefix_of` k → file_at f' k = file_at f k.
Proof.
  intros Hpkg Hfit Hread Htext (Hn & Ht & Hc & Hne).
  pose proof Hpkg as (Hsup & _ & Hall & Hps)%package_from_batch_Ok.
  destruct (review_workspace_ok pkg d f text Hsup) as (f1 & f2 & Hr & Hm & He1 & He2 & Hroom & Hout);
    [|done..|].
  { apply set_eq. intros n. rewrite elem_of_dom, elem_of_list_to_set, Hps. split.
    - case_decide; [done|by intros [? [=]]].
    - intros Hin. rewrite decide_True by done. apply list_elem_of_fmap in Hin as (t & -> & Hin).
      rewrite Forall_forall in Hall. by apply Hall. }
  destruct (carried F dir pkg f1 d f2) as (_ & Hsame & Hpkg'); [|done|by apply fits_apart|done|done|].
  { by apply no_fault_reads, (no_fault_env _ _ He1). }
  apply package_from_batch_Ok in Hpkg' as (_ & Hman & _).
  rewrite <-(resolve_env _ _ _ He2) in Hroom. exists f2. split; [by exists f1|]. done.
Qed.

(** The hardware wallet's part. *)
Lemma hww_review config m F dir phone P data hww G R :
  handed_over config m F dir phone P → vault_pubkey phone = x_only_public_key (vault_keypair phone) →
  usable G R → load_device_keys G data HWW_DEVICE_FILE = Ok hww →
  key_to_string (vault_pubkey hww) = hww_vault_pubkey config →
  ¬ resolve G R `prefix_of` resolve G (join data HWW_DEVICE_FILE) →
  records_cosigner (p_policy P) (vault_pubkey hww) → (∀ x : BatchManifest, is_Some (to_vec_pretty x)) →
  ∃ pkg pkg' G2 G3, package_from_batch F dir = Ok pkg ∧ unpacked pkg R G G2 ∧
    approve_policy_for_config data config R G2 = (Ok (set_hww_approved m), G3) ∧
    package_from_batch G3 R = Ok pkg' ∧ package_manifest pkg' = set_hww_approved m ∧
    validate_batch config (set_hww_approved m) G3 R = Ok (p_policy P) ∧
    Forall (both_signed P hww m F dir G3 R) (manifest_transactions m).
Proof.
  intros Hho Hph Hus Hhww Hkey Hout Hrec Hjson. pose proof Hho as [_ Hman _ _ _ Hfit Hsigned].
  assert (Forall (λ t, ∃ p, read_psbt F (join dir (psbt_file t)) = Ok p) (manifest_transactions m))
    as Hread by (eapply Forall_impl; [exact Hsigned|]; intros t (p & Hp & _); by exists p).
  destruct (package_exists F dir m Hman Hread) as (pkg & Hpkg & Hpm).
  destruct (Hjson m) as [text Htext]. destruct (Hjson (set_hww_approved m)) as [text' Htext'].
  destruct (travels F dir pkg G R text Hpkg) as (G2 & Hun & He2 & Hsame & Hm2 & Hroom & Hother);
    [by rewrite Hpm..|done|]. rewrite Hpm in Hsame, Hm2, Hroom.
  assert (load_device_keys G2 data HWW_DEVICE_FILE = Ok hww) as Hhww2.
  { rewrite (read_device_env G); [done|done|]. by apply Hother. }
  destruct (approve_ok data config m F dir phone P G2 R hww text') as (G3 & Happ & He3 & _); [done..|].
  pose proof Hus as (Hn & _). pose proof (no_fault_reads _ (no_fault_env _ _ He2 Hn)) as Hn2.
  pose proof Happ as Hrun. apply approve_for_config_run in Hrun as (_ & m0 & policy & pk & hk & Hm0 & Hval & Hpk & Hhk & _
    & Hall & _ & _ & Hm3 & Hval3 & _); [|done|].
  2: { intros m1 Hm1. rewrite Hm2 in Hm1. injection Hm1 as <-. by apply batch_files_NoDup. }
  rewrite Hm2 in Hm0. injection Hm0 as <-. rewrite Hhww2 in Hhk. injection Hhk as <-.
  pose proof (proj1 (holds_same_valid config m F dir G2 R policy Hsame) Hval) as Hval'.
  rewrite (ho_valid _ _ _ _ _ _ Hho) in Hval'. injection Hval' as <-.
  assert (Forall (both_signed P hww m F dir G3 R) (manifest_transactions m)) as Hboth.
  { apply Forall_forall. intros t Ht. unfold holds_same in Hsame. rewrite Forall_forall in Hall, Hsigned, Hsame.
    eapply approved_both_signed; [by apply Hsigned|by apply Hsame|by apply Hall]. }
  destruct (package_exists G3 R (set_hww_approved m) Hm3) as (pkg' & Hpkg' & Hpm').
  { eapply Forall_impl; [exact Hboth|]. intros t (_ & q & _ & Hq & _). by exists q. }
  exists pkg, pkg', G2, G3. done.
Qed.

Context (config : VaultConfig) (policy : VaultPolicy) (controller : ControllerPolicy)
  (phone hww : DeviceKeys)
  (Hpolicy : (n ← bitcoin_network config; from_descriptor_for_network (vault_descriptor config) n)
             = Ok policy)
  (Hcontroller : Ceremony.controller_policy config = Ok controller)
  (Hphone : vault_pubkey phone = x_only_public_key (vault_keypair phone))
  (Hhww : key_to_string (vault_pubkey hww) = hww_vault_pubkey config)
  (Hrecords : records_cosigner policy (vault_pubkey hww))
  (Hfinalises : finalises policy controller (vault_pubkey phone) (vault_pubkey hww))
  (Hjson : ∀ x : BatchManifest, is_Some (to_vec_pretty x)).

Lemma handed_over_policies m F dir P :
  handed_over config m F dir phone P → p_policy P = policy ∧ p_controller P = controller.
Proof using Laws Hpolicy Hcontroller.
  intros [Hv _ Hc _ _ _ _]. rewrite Hcontroller in Hc. injection Hc as <-. split; [|done].
  apply validate_batch_Ok in Hv as (c & p & vo & co & delay & [_ Hp _ _ _ _ _ _ _]).
  rewrite Hpolicy in Hp. by injection Hp as <-.
Qed.

(** The whole run, with what it leaves in the phone's workspace. *)
Lemma ceremony_run us cs now limits dir f h m F h' data G R A0 A :
  no_read_fault f → hot_on_network config → (N.of_nat (length us + length cs) < 4294967296)%N →
  build_policy_proposal_with_connectors config us cs now limits dir phone (f, h) = (Ok m, (F, h')) →
  usable G R → load_device_keys G data HWW_DEVICE_FILE = Ok hww →
  ¬ resolve G R `prefix_of` resolve G (join data HWW_DEVICE_FILE) → usable A0 A →
  ∃ P pkg pkg' G2 G3 A2,
    package_from_batch F dir = Ok pkg ∧ unpacked pkg R G G2 ∧
    approve_policy_for_config data config R G2 = (Ok (set_hww_approved m), G3) ∧
    package_from_batch G3 R = Ok pkg' ∧ unpacked pkg' A A0 A2 ∧
    load_manifest A2 A = Ok (set_hww_approved m) ∧
    validate_approved_batch config (set_hww_approved m) A2 A = Ok policy ∧
    package_manifest pkg' = set_hww_approved m ∧
    handed_over config m F dir phone P ∧ fits (batch_names m) ∧ same_env A0 A2 ∧
    room (resolve A2 A) (batch_names m) A2 ∧
    Forall (both_signed P hww m F dir A2 A) (manifest_transactions m).
Proof.
  intros Hnf Hhot Hlen Hb Hus Hdev Hout Hus2.
  destruct (proposal_handed_over config us cs now limits dir phone f h m F h' Hnf) as (_ & P & Hho); [|done..|].
  { intros h0 a h0' Ha. destruct (Hhot _ _ _ Ha) as (n & Hn & Hon). by eapply hot_script_on_network. }
  destruct (handed_over_policies _ _ _ _ Hho) as [HpolP HctlP].
  destruct (hww_review config m F dir phone P data hww G R) as (pkg & pkg' & G2 & G3 & Hpkg & Hun & Happ
    & Hpkg' & Hpm & Hval & Hboth); [done..|by rewrite HpolP|done|].
  pose proof (ho_fits _ _ _ _ _ _ Hho) as Hfits.
  assert (batch_names (set_hww_approved m) = batch_names m) as Hnames by done.
  destruct (Hjson (package_manifest pkg')) as [text Htext].
  destruct (travels G3 R pkg' A0 A text Hpkg') as (A2 & Hun2 & Henv & Hsame & Hman & Hroom & _);
    [..|done|done|].
  { by rewrite Hpm, Hnames. }
  { rewrite Hpm. eapply Forall_impl; [exact Hboth|]. intros t (_ & q & _ & Hq & _). by exists q. }
  rewrite Hpm in Hman, Hsame. rewrite Hpm, Hnames in Hroom.
  exists P, pkg, pkg', G2, G3, A2. split_and!; [done..| |done|done|done|done|done|].
  - apply (holds_same_approved _ _ _ _ _ _ _ Hsame), validate_approved_batch_Ok.
    destruct (ho_approved _ _ _ _ _ _ Hho) as [Hpa _]. rewrite HpolP in Hval.
    split; [exact Hpa|]. split; [done|]. split; [done|].
    pose proof (handed_over_phone _ _ _ _ _ _ Hho Hphone) as Hpk.
    exists (x_only_public_key (vault_keypair (p_phone P))), (vault_pubkey hww).
    split; [done|]. split; [by rewrite <-Hhww, key_round_trip|].
    pose proof (accepted_roles _ _ _ _ _ Hval) as Hroles.
    apply Forall_forall. intros t Ht. rewrite Forall_forall in Hroles, Hboth. rewrite <-HpolP.
    eapply both_signed_approved; [|by apply Hroles|by apply Hboth].
    rewrite HpolP, HctlP. destruct (ho_phone _ _ _ _ _ _ Hho) as [-> _]. by rewrite <-Hphone.
  - apply Forall_forall. intros t Ht. rewrite Forall_forall in Hboth. unfold holds_same in Hsame.
    rewrite Forall_forall in Hsame. eapply both_signed_carried; [by apply Hsame|by apply Hboth].
Qed.

(** The ceremony completes: whatever the phone has proposed, packed and
    unpacked on the hardware wallet's machine, is approved there; packed again
    and unpacked in any usable workspace of the phone, it is what activation
    asks for, with the same policy, both approvals, and witnesses that can be
    finalised. *)
Theorem ceremony_completes us cs now limits dir f h m F h' data G R A0 A :
  no_read_fault f → hot_on_network config → (N.of_nat (length us + length cs) < 4294967296)%N →
  build_policy_proposal_with_connectors config us cs now limits dir phone (f, h) = (Ok m, (F, h')) →
  usable G R → load_device_keys G data HWW_DEVICE_FILE = Ok hww →
  ¬ resolve G R `prefix_of` resolve G (join data HWW_DEVICE_FILE) → usable A0 A →
  ∃ pkg pkg' G2 G3 A2,
    package_from_batch F dir = Ok pkg ∧ unpacked pkg R G G2 ∧
    approve_policy_for_config data config R G2 = (Ok (set_hww_approved m), G3) ∧
    package_from_batch G3 R = Ok pkg' ∧ unpacked pkg' A A0 A2 ∧
    load_manifest A2 A = Ok (set_hww_approved m) ∧
    validate_approved_batch config (set_hww_approved m) A2 A = Ok policy.
Proof.
  intros Hnf Hhot Hlen Hb Hus Hdev Hout Hus2.
  destruct (ceremony_run us cs now limits dir f h m F h' data G R A0 A) as
    (P & pkg & pkg' & G2 & G3 & A2 & Hpkg & Hun & Happ & Hpkg' & Hun2 & Hman & Hval & _); [done..|].
  by exists pkg, pkg', G2, G3, A2.
Qed.
End ceremony.
