(* ===== verification/ColdWalletWitness.v ===== *)
(** The hardware wallet's theorems at a concrete vault: the one initialised in
    [Storage], with a one-month policy. *)

From S2P Require Import Prelude Bitcoin Toy Types Keys Policy Transactions FileSystem Storage Crypto Social SocialFacts Ceremony CeremonyValidate CeremonySound CeremonyBuild ToyCeremony Recovery RecoveryFacts ColdWallet ColdWalletFacts ColdWalletSpend.

(** * A policy to approve *)

Definition toy_month : PolicyLimits :=
  {| limits_monthly_limit_sats := 20000; limits_emergency_access_limit_sats := 0 |}.
Definition toy_proposed : result BatchManifest * (FS * N) := Eval vm_compute in
  build_policy_proposal toy_config [toy_utxo 3 24000 1] 1700000000 toy_month toy_batch_dir
    toy_phone_device (toy_initialized, 0%N).
Definition toy_proposed_manifest : BatchManifest :=
  ltac:(let r := eval cbv delta [toy_proposed] in toy_proposed in
        match r with (Ok ?m, _) => exact m end).
Definition toy_proposed_fs : FS :=
  ltac:(let r := eval cbv delta [toy_proposed] in toy_proposed in
        match r with (_, (?f, _)) => exact f end).
Definition toy_approved : result BatchManifest * FS := Eval vm_compute in
  approve_policy toy_dir toy_batch_dir toy_proposed_fs.
Definition toy_approved_fs : FS :=
  ltac:(let r := eval cbv delta [toy_approved] in toy_approved in
        match r with (Ok _, ?f) => exact f end).

Lemma toy_loaded : load_manifest toy_proposed_fs toy_batch_dir = Ok toy_proposed_manifest.
Proof. vm_cast_no_check (eq_refl (Ok toy_proposed_manifest)). Qed.

Lemma toy_batch_files :
  ∀ m, load_manifest toy_proposed_fs toy_batch_dir = Ok m →
  NoDup (batch_files toy_proposed_fs toy_batch_dir m).
Proof.
  rewrite toy_loaded. intros m [= <-]. unfold batch_files.
  apply (bool_decide_unpack _). vm_compute. exact I.
Qed.

Lemma approve_policy_sound_witness :
  approve_policy toy_dir toy_batch_dir toy_proposed_fs
    = (Ok (set_hww_approved toy_proposed_manifest), toy_approved_fs) ∧
  length (manifest_transactions toy_proposed_manifest) = 2 ∧
  load_manifest toy_approved_fs toy_batch_dir = Ok (set_hww_approved toy_proposed_manifest).
Proof.
  assert (approve_policy toy_dir toy_batch_dir toy_proposed_fs
    = (Ok (set_hww_approved toy_proposed_manifest), toy_approved_fs)) as Ha
    by (vm_cast_no_check (eq_refl toy_approved)).
  split; [exact Ha|]. split; [reflexivity|].
  destruct (approve_policy_sound toy_dir toy_batch_dir toy_proposed_fs toy_approved_fs _
    (λ _, ltac:(discriminate)) toy_batch_files Ha)
    as (config & m & policy & phone & hww & _ & _ & _ & _ & _ & _ & _ & _ & _ & Hl & _).
  exact Hl.
Defined.

(** * A policy of another vault *)

Definition toy_other_config : VaultConfig :=
  {| config_version := 1; config_network := "regtest";
     phone_vault_pubkey := phone_vault_pubkey toy_config;
     hww_vault_pubkey := hww_vault_pubkey toy_config; phone_hot_external_descriptor := "";
     phone_hot_internal_descriptor := ""; vault_descriptor := vault_descriptor toy_config;
     vault_address := "r-another"; phone_recovery_blocks := PHONE_RECOVERY_BLOCKS;
     hww_recovery_blocks := HWW_RECOVERY_BLOCKS; config_monthly_limit_sats := 0;
     config_emergency_access_limit_sats := 0 |}.
Definition toy_other_fs : FS := Eval vm_compute in
  set_nodes (<[["data"; "anzen.json"] := File (Toy.to_text toy_other_config)]>
               (nodes toy_proposed_fs)) toy_proposed_fs.

Lemma toy_other_rejected policy :
  validate_batch toy_other_config toy_proposed_manifest toy_other_fs toy_batch_dir ≠ Ok policy.
Proof.
  assert (validate_batch toy_other_config toy_proposed_manifest toy_other_fs toy_batch_dir
          = Err "ceremony policy does not match configured vault policy") as ->
    by (vm_cast_no_check (eq_refl (Err (A:=VaultPolicy)
          "ceremony policy does not match configured vault policy"))).
  discriminate.
Qed.

Lemma unvalidated_policy_rejected_witness :
  load_config toy_other_fs toy_dir = Ok toy_other_config ∧
  ∀ r f', approve_policy toy_dir toy_batch_dir toy_other_fs = (r, f') → f' = toy_other_fs.
Proof.
  assert (load_config toy_other_fs toy_dir = Ok toy_other_config) as Hc
    by (vm_compute; reflexivity).
  assert (load_manifest toy_other_fs toy_batch_dir = Ok toy_proposed_manifest) as Hm
    by (vm_cast_no_check (eq_refl (Ok toy_proposed_manifest))).
  split; [exact Hc|]. intros r f' Ha.
  exact (proj1 (unvalidated_policy_rejected toy_dir toy_batch_dir toy_other_fs _ _ Hc Hm
                  toy_other_rejected r f' Ha)).
Defined.

(** * A revocation and a sweep *)

Definition toy_own_controller : ControllerPolicy := Eval vm_compute in
  get_value (controller_new_for_network (vault_pubkey toy_phone_device)
               (vault_pubkey toy_hww_device) Regtest) toy_controller.
Definition toy_own_connector : VaultUtxo :=
  {| utxo_outpoint := toy_outpoint 8;
     utxo_txout := {| value := CONNECTOR_VALUE_SATS;
       script_pubkey := address_script_pubkey (controller_address_of toy_own_controller) |};
     confirmation_height := 1 |}.
Definition toy_revoked : Transaction := Eval vm_compute in
  get_value (revoke_policy toy_initialized toy_dir toy_config [toy_own_connector]
               ("r-safe" : Address)) toy_action.

Lemma revoke_policy_sound_witness :
  revoke_policy toy_initialized toy_dir toy_config [toy_own_connector] ("r-safe" : Address)
    = Ok toy_revoked ∧
  ∃ change fee, utxo_values [toy_own_connector] = (change + fee)%N ∧
    output toy_revoked = [{| value := change;
      script_pubkey := address_script_pubkey ("r-safe" : Address) |}].
Proof.
  assert (revoke_policy toy_initialized toy_dir toy_config [toy_own_connector]
            ("r-safe" : Address) = Ok toy_revoked) as Hr
    by (vm_cast_no_check (eq_refl (Ok toy_revoked))).
  split; [exact Hr|].
  destruct (revoke_policy_sound _ _ _ _ _ _ Hr)
    as (phone & hww & n & c & change & fee & leaf & p & q & _ & _ & _ & _ & _ & _ & _ & Ho & Hs & _).
  exists change, fee. split; [exact Hs|exact Ho].
Defined.

Definition toy_countersigned : CooperativeSweepPackage := Eval vm_compute in
  get_value (approve_cooperative_sweep toy_initialized toy_dir toy_sweep) toy_no_sweep.

Lemma approve_sweep_sound_witness :
  approve_cooperative_sweep toy_initialized toy_dir toy_sweep = Ok toy_countersigned ∧
  ∃ config, load_config toy_initialized toy_dir = Ok config.
Proof.
  assert (approve_cooperative_sweep toy_initialized toy_dir toy_sweep = Ok toy_countersigned) as Ha
    by (vm_cast_no_check (eq_refl (Ok toy_countersigned))).
  split; [exact Ha|].
  destruct (approve_sweep_sound _ _ _ _ Ha) as (config & _ & _ & _ & _ & _ & Hc & _).
  exists config. exact Hc.
Defined.

(** * A backup and a rotation *)

Definition toy_backed_up : result CloudRecoveryBackup * (FS * N) := Eval vm_compute in
  create_cloud_recovery_backup toy_dir toy_config (toy_initialized, 1%N).
Definition toy_stored_backup : CloudRecoveryBackup :=
  ltac:(let r := eval cbv delta [toy_backed_up] in toy_backed_up in
        match r with (Ok ?b, _) => exact b end).
Definition toy_backed_up_fs : FS :=
  ltac:(let r := eval cbv delta [toy_backed_up] in toy_backed_up in
        match r with (_, (?f, _)) => exact f end).


Definition toy_rotating_backed_up : FS := Eval vm_compute in
  set_nodes (<[["data"; "phone"; "pending-rotation.json"] :=
                 File (Toy.to_text (toy_device "phone" "q"))]> (nodes toy_backed_up_fs))
            toy_backed_up_fs.
Definition toy_rotation_run : result PhoneRotationPackage * (FS * N) := Eval vm_compute in
  approve_phone_rotation toy_dir toy_rotation (toy_rotating_backed_up, 9%N).
Definition toy_rotation_approved : PhoneRotationPackage :=
  ltac:(let r := eval cbv delta [toy_rotation_run] in toy_rotation_run in
        match r with (Ok ?b, _) => exact b end).

