(* ===== verification/CeremonyWitness.v ===== *)
(** The ceremony at a concrete vault: the one initialised in [Storage], with a
    policy of one month, reviewed and activated in workspaces of their own. *)

From S2P Require Import Prelude Bitcoin Toy Types Keys Policy Transactions Signable FileSystem FsProgress Storage SocialFacts Ceremony CeremonyValidate CeremonySound CeremonyBuild ToyCeremony CeremonyTheorems Recovery RecoveryFacts ColdWallet ColdWalletFacts ColdWalletWitness CeremonyTransport CeremonyWorkspace CeremonyApproval CeremonyComplete.

(** * The vault *)

Definition toy_own_policy : VaultPolicy := Eval vm_compute in
  get_value (from_descriptor_for_network (vault_descriptor toy_config) Regtest) toy_vault.
Definition toy_own_descriptor : DefiniteDescriptor := Eval vm_compute in
  get_value (vault_definite_descriptor toy_own_policy) EmptyString.
Definition toy_own_connectors : DefiniteDescriptor := Eval vm_compute in
  get_value (controller_definite_descriptor toy_own_controller) EmptyString.
Definition toy_own_leaf : TapLeafHash :=
  ltac:(let r := eval vm_compute in (vault_leaf toy_own_policy Cooperative) in
        match r with Ok ?l => let h := eval vm_compute in (leaf_hash l) in exact h end).
Definition toy_own_cleaf : TapLeafHash :=
  ltac:(let r := eval vm_compute in (controller_leaf toy_own_controller PhonePath) in
        match r with Ok ?l => let h := eval vm_compute in (cleaf_hash l) in exact h end).

Lemma toy_definite d : vault_definite_descriptor toy_own_policy = Ok d → d = toy_own_descriptor.
Proof.
  assert (vault_definite_descriptor toy_own_policy = Ok toy_own_descriptor) as ->
    by (vm_compute; reflexivity).
  by intros [= <-].
Qed.
Lemma toy_leaf leaf : vault_leaf toy_own_policy Cooperative = Ok leaf → leaf_hash leaf = toy_own_leaf.
Proof.
  intros Hl. assert (leaf_hash <$> vault_leaf toy_own_policy Cooperative = Ok toy_own_leaf) as Hh
    by (vm_compute; reflexivity).
  rewrite Hl in Hh. by injection Hh.
Qed.

(** * The toy library keeps the promises of the real one *)

Lemma toy_update_origins q i d q' y :
  toy_update q i d = Some q' → inputs q' !! i = Some y → tap_key_origins y = toy_origins d.
Proof.
  unfold toy_update. intros (x & Hx & [= <-])%bind_Some. cbn [inputs].
  rewrite list_lookup_insert_eq by (by eapply lookup_lt_Some). by intros [= <-].
Qed.

Lemma toy_described_origins p d i x :
  described d p i → inputs p !! i = Some x → tap_key_origins x = toy_origins d.
Proof.
  intros (q & q' & x' & y & Hu & Hy & Hx' & Ho) Hx. rewrite Hx in Hx'. injection Hx' as <-.
  rewrite Ho. by eapply toy_update_origins.
Qed.

(** A leaf all of whose keys have signed. *)
Lemma toy_complete x l :
  l ∈ mjoin (snd <$> map_to_list (tap_key_origins x)) →
  Forall (λ e : string * list N, l ∉ e.2 ∨ is_Some (tap_script_sigs x !! (e.1, l)))
    (map_to_list (tap_key_origins x)) →
  toy_input_complete x = true.
Proof.
  intros Hl Hall. unfold toy_input_complete. apply existsb_exists. exists l.
  split; [by apply list_elem_of_In|]. apply forallb_forall. intros [k ls] Hin%list_elem_of_In.
  rewrite Forall_forall in Hall. apply orb_true_iff. rewrite !bool_decide_eq_true. by apply (Hall (k, ls)).
Qed.

Lemma toy_finalize_complete p i x :
  inputs p !! i = Some x → toy_input_complete x = true → is_Some (finalize_inp_mut p i).
Proof. intros Hx Hc. cbn. unfold toy_finalize_inp. rewrite Hx. cbn. rewrite Hc. by eexists. Qed.

Lemma toy_sigs_complete p i d l (keys : list string) :
  described d p i →
  Forall (λ k, has_sig (l : TapLeafHash) (k : XOnlyPublicKey) p i) keys →
  bool_decide (l ∈ mjoin (snd <$> map_to_list (toy_origins d))) = true →
  bool_decide (Forall (λ e : string * list N, l ∉ e.2 ∨ e.1 ∈ keys) (map_to_list (toy_origins d))) = true →
  ∃ x, inputs p !! i = Some x ∧ toy_input_complete x = true.
Proof.
  intros Hd Hsigs Hl%bool_decide_eq_true Hall%bool_decide_eq_true.
  assert (∃ x, inputs p !! i = Some x) as [x Hx].
  { destruct Hd as (? & ? & x & ? & _ & _ & Hx & _). by exists x. }
  pose proof (toy_described_origins _ _ _ _ Hd Hx) as Ho.
  exists x. split; [done|]. apply (toy_complete x l); rewrite Ho; [done|].
  eapply Forall_impl; [exact Hall|]. intros [k ls] [?|Hk]; [by left|right].
  rewrite Forall_forall in Hsigs. destruct (Hsigs k Hk) as (x' & s & m & Hx' & Hs & _).
  rewrite Hx in Hx'. injection Hx' as <-. by exists s.
Qed.

(** The inputs of the vault that both keys have signed, and the connectors that
    the phone has signed. *)
Lemma toy_vault_complete p i d leaf :
  vault_definite_descriptor toy_own_policy = Ok d → vault_leaf toy_own_policy Cooperative = Ok leaf →
  described d p i → has_sig (leaf_hash leaf) (vault_pubkey toy_phone_device) p i →
  has_sig (leaf_hash leaf) (vault_pubkey toy_hww_device) p i →
  ∃ x, inputs p !! i = Some x ∧ toy_input_complete x = true.
Proof.
  intros ->%toy_definite Hl Hd Hp Hh. apply toy_leaf in Hl. rewrite Hl in *.
  eapply (toy_sigs_complete p i _ _ [vault_pubkey toy_phone_device; vault_pubkey toy_hww_device]);
    [exact Hd|by repeat constructor|vm_compute; reflexivity..].
Qed.

Lemma toy_connectors d : controller_definite_descriptor toy_own_controller = Ok d → d = toy_own_connectors.
Proof.
  assert (controller_definite_descriptor toy_own_controller = Ok toy_own_connectors) as ->
    by (vm_compute; reflexivity).
  by intros [= <-].
Qed.
Lemma toy_cleaf leaf :
  controller_leaf toy_own_controller PhonePath = Ok leaf → cleaf_hash leaf = toy_own_cleaf.
Proof.
  intros Hl. assert (cleaf_hash <$> controller_leaf toy_own_controller PhonePath = Ok toy_own_cleaf) as Hh
    by (vm_compute; reflexivity).
  rewrite Hl in Hh. by injection Hh.
Qed.

Lemma toy_connector_complete p i d leaf :
  controller_definite_descriptor toy_own_controller = Ok d →
  controller_leaf toy_own_controller PhonePath = Ok leaf →
  described d p i → has_sig (cleaf_hash leaf) (vault_pubkey toy_phone_device) p i →
  ∃ x, inputs p !! i = Some x ∧ toy_input_complete x = true.
Proof.
  intros ->%toy_connectors Hl Hd Hp. apply toy_cleaf in Hl. rewrite Hl in *.
  eapply (toy_sigs_complete p i _ _ [vault_pubkey toy_phone_device]);
    [exact Hd|by repeat constructor|vm_compute; reflexivity..].
Qed.

Lemma toy_records : records_cosigner toy_own_policy (vault_pubkey toy_hww_device).
Proof.
  intros d leaf q i q' y ->%toy_definite ->%toy_leaf Hu Hy.
  rewrite (toy_update_origins _ _ _ _ _ Hu Hy).
  assert (bool_decide (toy_own_leaf ∈ default [] (toy_origins toy_own_descriptor !! vault_pubkey toy_hww_device))
          = true) as Hin%bool_decide_eq_true by (vm_compute; reflexivity).
  destruct (toy_origins toy_own_descriptor !! vault_pubkey toy_hww_device) as [o|] eqn:Ho.
  - by exists o.
  - by apply not_elem_of_nil in Hin.
Qed.

Lemma toy_finalises :
  finalises toy_own_policy toy_own_controller (vault_pubkey toy_phone_device) (vault_pubkey toy_hww_device).
Proof.
  split.
  - intros p i d leaf Hd Hl Hdesc Hp Hh.
    destruct (toy_vault_complete p i d leaf) as (x & Hx & Hc); [done..|].
    by eapply toy_finalize_complete.
  - intros p i d leaf Hd Hl Hdesc Hp.
    destruct (toy_connector_complete p i d leaf) as (x & Hx & Hc); [done..|].
    by eapply toy_finalize_complete.
  - intros p i q j Hq _. cbn in Hq. unfold toy_finalize_inp in Hq.
    apply bind_Some in Hq as (x & _ & Hq). destruct (toy_input_complete x); [|discriminate].
    by injection Hq as ->.
Qed.

(** * The workspaces *)

Definition toy_review_dir : Path := join toy_dir "hww/policy-review".
Definition toy_incoming_dir : Path := join toy_dir "ceremony/incoming".

Lemma toy_usable d :
  clear_b toy_initialized (resolve toy_initialized d) = true →
  bool_decide (resolve toy_initialized d ≠ []) = true → usable toy_initialized d.
Proof.
  intros Hc Hne%bool_decide_eq_true. split; [by intros k|].
  split; [apply tree_of_b; vm_compute; reflexivity|]. split; [by apply clear_of_b|done].
Qed.

Lemma toy_own_hot_on_network : hot_on_network toy_config.
Proof. intros h a h' [= <- <-]. exists Regtest. split; reflexivity. Qed.

Lemma ceremony_completes_witness :
  ∃ pkg' A2, unpacked pkg' toy_incoming_dir toy_initialized A2 ∧
    validate_approved_batch toy_config (set_hww_approved toy_proposed_manifest) A2 toy_incoming_dir
      = Ok toy_own_policy.
Proof.
  assert ((n ← bitcoin_network toy_config; from_descriptor_for_network (vault_descriptor toy_config) n)
          = Ok toy_own_policy) as Hpolicy by (vm_cast_no_check (eq_refl (Ok toy_own_policy))).
  assert (Ceremony.controller_policy toy_config = Ok toy_own_controller) as Hcontroller
    by (vm_cast_no_check (eq_refl (Ok toy_own_controller))).
  assert (build_policy_proposal_with_connectors toy_config [toy_utxo 3 24000 1] [] 1700000000 toy_month
            toy_batch_dir toy_phone_device (toy_initialized, 0%N)
          = (Ok toy_proposed_manifest, (toy_proposed_fs, toy_proposed.2.2))) as Hb
    by (vm_cast_no_check (eq_refl toy_proposed)).
  assert (load_device_keys toy_initialized toy_dir HWW_DEVICE_FILE = Ok toy_hww_device) as Hdev
    by (vm_cast_no_check (eq_refl (Ok toy_hww_device))).
  destruct (ceremony_completes toy_config toy_own_policy toy_own_controller toy_phone_device toy_hww_device
    Hpolicy Hcontroller eq_refl ltac:(vm_compute; reflexivity) toy_records toy_finalises
    (λ x, ex_intro _ _ eq_refl) [toy_utxo 3 24000 1] [] 1700000000 toy_month toy_batch_dir
    toy_initialized 0%N toy_proposed_manifest toy_proposed_fs toy_proposed.2.2 toy_dir toy_initialized
    toy_review_dir toy_initialized toy_incoming_dir)
    as (pkg & pkg' & G2 & G3 & A2 & _ & _ & _ & _ & Hun & _ & Hv).
  - intros k. discriminate.
  - exact toy_own_hot_on_network.
  - reflexivity.
  - exact Hb.
  - apply toy_usable; vm_compute; reflexivity.
  - exact Hdev.
  - apply (bool_decide_unpack (¬ _)). vm_compute. exact I.
  - apply toy_usable; vm_compute; reflexivity.
  - exists pkg', A2. split; [exact Hun|exact Hv].
Defined.

(** The package of the toy proposal, unpacked beside it. *)
Definition toy_packed : PolicyPackage :=
  ltac:(let r := eval vm_compute in (package_from_batch toy_proposed_fs toy_batch_dir) in
        match r with Ok ?p => exact p end).
Definition toy_unpacked : FS :=
  ltac:(let r := eval vm_compute in
          (materialize_policy_package toy_packed toy_review_dir toy_initialized) in
        match r with (Ok _, ?f) => exact f end).

Lemma package_carries_batch_witness :
  materialize_policy_package toy_packed toy_review_dir toy_initialized = (Ok tt, toy_unpacked) ∧
  package_from_batch toy_unpacked toy_review_dir = Ok toy_packed ∧
  validate_batch toy_config toy_proposed_manifest toy_unpacked toy_review_dir = Ok toy_own_policy.
Proof.
  assert (package_from_batch toy_proposed_fs toy_batch_dir = Ok toy_packed) as Hp
    by (vm_cast_no_check (eq_refl (Ok toy_packed))).
  assert (materialize_policy_package toy_packed toy_review_dir toy_initialized = (Ok tt, toy_unpacked))
    as Hm by (vm_cast_no_check (eq_refl (Ok (A:=unit) tt, toy_unpacked))).
  assert (validate_batch toy_config toy_proposed_manifest toy_proposed_fs toy_batch_dir
          = Ok toy_own_policy) as Hv by (vm_cast_no_check (eq_refl (Ok toy_own_policy))).
  split; [exact Hm|].
  destruct (package_carries_batch toy_config toy_proposed_fs toy_batch_dir toy_packed toy_initialized
    toy_review_dir toy_unpacked toy_own_policy) as (Hpkg & [_ Hval] & _).
  - intros k. discriminate.
  - exact Hp.
  - apply fits_apart, fits_of_b. vm_compute. reflexivity.
  - apply validate_batch_Ok in Hv as (c & p & vo & co & delay & [_ _ _ Hs _ _ _ _ _]).
    eapply Forall_impl; [exact Hs|]. intros t (q & Hq & _). exists q. exact Hq.
  - exact Hm.
  - split; [exact Hpkg|exact (Hval Hv)].
Defined.
