(* ===== verification/ColdSigner.v ===== *)
(** The allocation-free signing workload of the hardware-wallet app
    ([cold-signer/src/benchmark.rs]): fixed-capacity byte writers, the
    commitments to the two policies, the annual graph of fifteen
    transactions and the walk that hands one BIP341 message per vault input
    to the device.

    Bytes are naturals below 256 and arrays are lists of the array's length.
    The hasher is the class [Sha256] on a state of its own; what the source
    calls through a closure is an argument on the closure's state. *)

From S2P Require Import Prelude.

(** * Outcomes with the source's error types

    [Result<A, E>] for the enumerations of errors used here; [Abort] is a
    panic. *)

Inductive outcome (E A : Type) : Type :=
  | Done (a : A)
  | Fail (e : E)
  | Abort.
Arguments Done {E A} a.
Arguments Fail {E A} e.
Arguments Abort {E A}.

#[export] Instance outcome_ret E : MRet (outcome E) := λ A a, Done a.
#[export] Instance outcome_bind E : MBind (outcome E) := λ A B f o,
  match o with
  | Done a => f a
  | Fail e => Fail e
  | Abort => Abort
  end.

(** Steps that change a state, which an error keeps. *)
Definition SM (S E A : Type) : Type := S → outcome E A * S.

#[export] Instance SM_ret S E : MRet (SM S E) := λ A a s, (Done a, s).
#[export] Instance SM_bind S E : MBind (SM S E) := λ A B f m s,
  match m s with
  | (Done a, s') => f a s'
  | (Fail e, s') => (Fail e, s')
  | (Abort, s') => (Abort, s')
  end.

(** A step that only fails or returns. *)
Definition lift {S E A} (o : outcome E A) : SM S E A := λ s, (o, s).

(** [Option::ok_or] and [u8] counters that panic at their bound. *)
Definition ok_or {E A} (o : option A) (e : E) : outcome E A :=
  match o with
  | Some a => Done a
  | None => Fail e
  end.
Definition add_u8 {E} (a b : N) : outcome E N :=
  if (a + b <=? 255)%N then Done (a + b)%N else Abort.

(** [l[i]] and [&l[..n]]. *)
Definition at_index {E A} (l : list A) (i : nat) : outcome E A :=
  match l !! i with
  | Some a => Done a
  | None => Abort
  end.
Definition slice_to {E A} (l : list A) (n : nat) : outcome E (list A) :=
  if bool_decide (n ≤ length l) then Done (take n l) else Abort.

(** [for x in l] over a fallible body with a local variable, and with a
    state. *)
Fixpoint fold_loop {E A W} (f : W → A → outcome E W) (w : W) (l : list A) : outcome E W :=
  match l with
  | [] => Done w
  | x :: l' => w' ← f w x; fold_loop f w' l'
  end.
Fixpoint state_loop {S E A W} (f : W → A → SM S E W) (w : W) (l : list A) : SM S E W :=
  match l with
  | [] => mret w
  | x :: l' => w' ← f w x; state_loop f w' l'
  end.

(** [to_le_bytes] of an integer of [w] bytes. *)
Fixpoint le_bytes (w : nat) (x : N) : list N :=
  match w with
  | 0 => []
  | S w' => (x mod 256)%N :: le_bytes w' (x / 256)%N
  end.

(** * Constants *)

Definition VAULT_BALANCE_SATS : N := 210000000.
Definition MONTHLY_ALLOWANCE_SATS : N := 10000000.
Definition EMERGENCY_ACCESS_SATS : N := 50000000.
Definition CONNECTOR_VALUE_SATS : N := 1000.
Definition MONTHLY_STEPS : nat := 12.
Definition TRANSACTION_COUNT : N := 15.
Definition MAX_ROLLOVER_INPUTS : nat := 12.
Definition MONTHLY_DELAY_SEQUENCE : N := N.lor (N.shiftl 1 22) 5063.
Definition EMERGENCY_DELAY_SEQUENCE : N := N.lor (N.shiftl 1 22) 1182.
Definition PHONE_RECOVERY_BLOCKS : N := 61200.
Definition HWW_RECOVERY_BLOCKS : N := 65535.
Definition REPLACEABLE : N := 4294967293.
Definition BIP341_NUMS_XONLY : list N :=
  [80; 146; 155; 116; 193; 160; 73; 84; 183; 139; 75; 96; 53; 233; 122; 94;
   7; 138; 90; 15; 40; 236; 150; 213; 71; 191; 238; 154; 206; 128; 58; 192]%N.
Definition SECP256K1_FIELD_PRIME : list N :=
  replicate 27 255%N ++ [254; 255; 255; 252; 47]%N.

Definition MAX_SERIALIZED_TX_SIZE : nat := 768.
Definition MAX_HASH_COMPONENT_SIZE : nat := 512.
Definition P2TR_SCRIPT_LEN : nat := 34.
Definition COOPERATIVE_SCRIPT_LEN : nat := 70.
Definition COOPERATIVE_CONTROL_BLOCK_LEN : nat := 65.
Definition CONTROLLER_SCRIPT_LEN : nat := 34.
Definition CONTROLLER_CONTROL_BLOCK_LEN : nat := 65.
Definition TAPLEAF_TAG_HASH : list N :=
  [174; 234; 143; 220; 66; 8; 152; 49; 5; 115; 75; 88; 8; 29; 30; 38;
   56; 211; 95; 28; 181; 64; 8; 212; 211; 87; 202; 3; 190; 120; 233; 238]%N.
Definition TAPBRANCH_TAG_HASH : list N :=
  [25; 65; 161; 242; 229; 110; 185; 95; 162; 169; 241; 148; 190; 92; 1; 247;
   33; 111; 51; 237; 130; 176; 145; 70; 52; 144; 208; 91; 245; 22; 160; 21]%N.
Definition TAPTWEAK_TAG_HASH : list N :=
  [232; 15; 225; 99; 156; 156; 160; 80; 227; 175; 27; 57; 193; 67; 198; 62;
   66; 156; 188; 235; 21; 217; 64; 251; 181; 197; 161; 244; 175; 87; 197; 233]%N.
Definition TAPSIGHASH_TAG_HASH : list N :=
  [244; 10; 72; 223; 75; 42; 112; 200; 180; 146; 75; 242; 101; 70; 97; 237;
   61; 149; 253; 102; 163; 19; 235; 135; 35; 117; 151; 198; 40; 228; 160; 49]%N.

Inductive BenchmarkError :=
  | InvalidRolloverInputCount
  | InvalidPublicKey
  | SerializationOverflow
  | InsufficientValue.

Inductive VisitError (E : Type) :=
  | Graph (e : BenchmarkError)
  | Callback (e : E).
Arguments Graph {E} e.
Arguments Callback {E} e.

(** [?] on a [BenchmarkError], converted by [From]. *)
Definition graph {E A} (o : outcome BenchmarkError A) : outcome (VisitError E) A :=
  match o with
  | Done a => Done a
  | Fail e => Fail (Graph e)
  | Abort => Abort
  end.

(** * Key normalisation

    One byte of the subtraction [p - y], from the last index down, with the
    borrow; [value] is an [i16]. *)

Definition negate_byte (st : list N * Z) (i : nat) : outcome BenchmarkError (list N * Z) :=
  let '(key, borrow) := st in
  p ← at_index SECP256K1_FIELD_PRIME i;
  y ← at_index key (33 + i);
  let value := (Z.of_N p - Z.of_N y - borrow)%Z in
  if (value <? 0)%Z
  then mret (<[33 + i := Z.to_N (value + 256)]> key, 1%Z)
  else mret (<[33 + i := Z.to_N value]> key, 0%Z).

Definition normalize_bip340_public_key (key : list N) : outcome BenchmarkError (list N) :=
  prefix ← at_index key 0;
  if negb (prefix =? 4)%N then Fail InvalidPublicKey else
  last ← at_index key 64;
  if (N.land last 1 =? 1)%N then
    '(key', borrow) ← fold_loop negate_byte (key, 0%Z) (rev (seq 0 32));
    if negb (borrow =? 0)%Z then Fail InvalidPublicKey else mret key'
  else mret key.

(** * Byte writers *)

Record ByteWriter := { buffer : list N; written : nat }.

Definition writer_new (cap : nat) : ByteWriter := {| buffer := replicate cap 0%N; written := 0 |}.

(** The device's [usize] has 32 bits. *)
Definition extend (cap : nat) (w : ByteWriter) (values : list N)
    : outcome BenchmarkError ByteWriter :=
  if (U32_MAX <? N.of_nat (written w) + N.of_nat (length values))%N
  then Fail SerializationOverflow else
  let stop := written w + length values in
  if bool_decide (cap < stop) then Fail SerializationOverflow else
  mret {| buffer := take (written w) (buffer w) ++ values ++ drop stop (buffer w);
          written := stop |}.

Definition push (cap : nat) (w : ByteWriter) (value : N) : outcome BenchmarkError ByteWriter :=
  extend cap w [value].

Definition clear (w : ByteWriter) : ByteWriter := {| buffer := buffer w; written := 0 |}.

Definition as_slice (w : ByteWriter) : outcome BenchmarkError (list N) :=
  slice_to (buffer w) (written w).

(** * Scripts *)

Definition cooperative_script (phone hww : list N) : list N :=
  32%N :: phone ++ [172; 32]%N ++ hww ++ [186; 82; 156]%N.

Definition single_signature_script (key : list N) : list N := 32%N :: key ++ [172]%N.

Definition recovery_script (key : list N) (delay : N) : list N :=
  [3; delay mod 256; N.shiftr delay 8 mod 256; 0; 178; 105; 32]%N ++ key ++ [172]%N.

Definition p2tr_script (output_key : list N) : list N := [81; 32]%N ++ output_key.

(** * The fee estimate; [u8] and [u32] operators that panic past their bound *)

Definition div_ceil (a b : N) : N := ((a + b - 1) / b)%N.

Definition policy_vsize (vault_input_count controller_input_count output_count : N)
    : outcome BenchmarkError N :=
  input_count ← add_u8 vault_input_count controller_input_count;
  let base_size := (4 + 1 + input_count * 41 + 1
    + output_count * (8 + 1 + N.of_nat P2TR_SCRIPT_LEN) + 4)%N in
  let vault_witness := (1 + 2 * (1 + 64) + 1 + N.of_nat COOPERATIVE_SCRIPT_LEN + 1
    + N.of_nat COOPERATIVE_CONTROL_BLOCK_LEN)%N in
  let controller_witness := (1 + (1 + 64) + 1 + N.of_nat CONTROLLER_SCRIPT_LEN + 1
    + N.of_nat CONTROLLER_CONTROL_BLOCK_LEN)%N in
  let witness_size := (2 + vault_input_count * vault_witness
    + controller_input_count * controller_witness)%N in
  mret (div_ceil (base_size * 4 + witness_size) 4).

(** * Hashing *)

Class Sha256 (H : Type) := hash : list (list N) → H → list N * H.

(** The trait's contract: the digest of the concatenated parts, 32 bytes,
    whatever the device's state. *)
Class Sha256Laws (H : Type) `{!Sha256 H} (sha : list N → list N) : Prop := {
  hash_digest parts h : fst (hash parts h) = sha (mjoin parts);
  digest_length bytes : length (sha bytes) = 32;
}.

(** [Ord] on byte arrays. *)
Fixpoint bytes_cmp (a b : list N) : comparison :=
  match a, b with
  | [], [] => Eq
  | [], _ => Lt
  | _, [] => Gt
  | x :: a', y :: b' => match N.compare x y with Eq => bytes_cmp a' b' | c => c end
  end.

Record TxInput := {
  previous_txid : list N;
  previous_vout : N;
  in_amount_sats : N;
  in_sequence : N;
  controller : bool;
}.
Definition default_input : TxInput :=
  {| previous_txid := replicate 32 0%N; previous_vout := 0; in_amount_sats := 0;
     in_sequence := 0; controller := false |}.

Record TxOutput := { out_amount_sats : N; out_script_pubkey : list N }.
Definition default_output : TxOutput :=
  {| out_amount_sats := 0; out_script_pubkey := replicate P2TR_SCRIPT_LEN 0%N |}.

Record BenchmarkTransaction := {
  tx_inputs : list TxInput;
  input_count : N;
  tx_outputs : list TxOutput;
  output_count : N;
}.

Record SighashContext := {
  ctx_vault_script_pubkey : list N;
  ctx_controller_script_pubkey : list N;
  ctx_cooperative_leaf_hash : list N;
}.

Record SignatureJob := {
  signature_index : N;
  transaction_index : N;
  input_index : N;
  sighash : list N;
}.

Record WorkloadSummary := {
  summary_rollover_inputs : N;
  summary_transactions : N;
  summary_signature_jobs : N;
}.

Definition transaction_new (inputs : list TxInput) (outputs : list TxOutput)
    : outcome BenchmarkError BenchmarkTransaction :=
  if bool_decide (length inputs = 0) || bool_decide (MAX_ROLLOVER_INPUTS < length inputs)
     || bool_decide (length outputs = 0) || bool_decide (4 < length outputs)
  then Fail SerializationOverflow
  else mret
    {| tx_inputs := inputs ++ drop (length inputs) (replicate MAX_ROLLOVER_INPUTS default_input);
       input_count := N.of_nat (length inputs) mod 256;
       tx_outputs := outputs ++ drop (length outputs) (replicate 4 default_output);
       output_count := N.of_nat (length outputs) mod 256 |}.

Definition inputs_of (t : BenchmarkTransaction) : outcome BenchmarkError (list TxInput) :=
  slice_to (tx_inputs t) (N.to_nat (input_count t)).
Definition outputs_of (t : BenchmarkTransaction) : outcome BenchmarkError (list TxOutput) :=
  slice_to (tx_outputs t) (N.to_nat (output_count t)).

Definition serialize_outputs (cap : nat) (outputs : list TxOutput) (w : ByteWriter)
    : outcome BenchmarkError ByteWriter :=
  fold_loop (λ w output,
    w ← extend cap w (le_bytes 8 (out_amount_sats output));
    w ← push cap w (N.of_nat P2TR_SCRIPT_LEN);
    extend cap w (out_script_pubkey output)) w outputs.

Definition serialize (t : BenchmarkTransaction) : outcome BenchmarkError ByteWriter :=
  let cap := MAX_SERIALIZED_TX_SIZE in
  w ← extend cap (writer_new cap) (le_bytes 4 2);
  w ← push cap w (input_count t);
  inputs ← inputs_of t;
  w ← fold_loop (λ w input,
    w ← extend cap w (previous_txid input);
    w ← extend cap w (le_bytes 4 (previous_vout input));
    w ← push cap w 0;
    extend cap w (le_bytes 4 (in_sequence input))) w inputs;
  w ← push cap w (output_count t);
  outputs ← outputs_of t;
  w ← serialize_outputs cap outputs w;
  extend cap w (le_bytes 4 0).

(** Each component of the BIP341 message overwrites one 512-byte buffer. *)
Definition put_prevouts (w : ByteWriter) (inputs : list TxInput)
    : outcome BenchmarkError ByteWriter :=
  fold_loop (λ w input,
    w ← extend MAX_HASH_COMPONENT_SIZE w (previous_txid input);
    extend MAX_HASH_COMPONENT_SIZE w (le_bytes 4 (previous_vout input))) w inputs.
Definition put_amounts (w : ByteWriter) (inputs : list TxInput)
    : outcome BenchmarkError ByteWriter :=
  fold_loop (λ w input,
    extend MAX_HASH_COMPONENT_SIZE w (le_bytes 8 (in_amount_sats input))) w inputs.
Definition put_scripts (ctx : SighashContext) (w : ByteWriter) (inputs : list TxInput)
    : outcome BenchmarkError ByteWriter :=
  fold_loop (λ w input,
    w ← push MAX_HASH_COMPONENT_SIZE w (N.of_nat P2TR_SCRIPT_LEN);
    extend MAX_HASH_COMPONENT_SIZE w
      (if controller input then ctx_controller_script_pubkey ctx
       else ctx_vault_script_pubkey ctx)) w inputs.
Definition put_sequences (w : ByteWriter) (inputs : list TxInput)
    : outcome BenchmarkError ByteWriter :=
  fold_loop (λ w input,
    extend MAX_HASH_COMPONENT_SIZE w (le_bytes 4 (in_sequence input))) w inputs.

Record Components := {
  hash_prevouts : list N;
  hash_amounts : list N;
  hash_script_pubkeys : list N;
  hash_sequences : list N;
  hash_outputs : list N;
}.

Definition sighash_message (c : Components) (ctx : SighashContext) (i : N)
    : outcome BenchmarkError ByteWriter :=
  let cap := 256 in
  m ← push cap (writer_new cap) 0;
  m ← push cap m 0;
  m ← extend cap m (le_bytes 4 2);
  m ← extend cap m (le_bytes 4 0);
  m ← extend cap m (hash_prevouts c);
  m ← extend cap m (hash_amounts c);
  m ← extend cap m (hash_script_pubkeys c);
  m ← extend cap m (hash_sequences c);
  m ← extend cap m (hash_outputs c);
  m ← push cap m 2;
  m ← extend cap m (le_bytes 4 i);
  m ← extend cap m (ctx_cooperative_leaf_hash ctx);
  m ← push cap m 0;
  extend cap m (le_bytes 4 U32_MAX).

Section hashing.
Context {H : Type} `{!Sha256 H}.

(** A hash inside code with a state of its own beside the hasher's. *)
Definition hash_m {S E} (parts : list (list N)) : SM (H * S) E (list N) := λ '(h, s),
  let '(d, h') := hash parts h in (Done d, (h', s)).

(** [all_parts[2..].zip(parts)] drops what does not fit, and the slice of
    [2 + parts.len()] parts panics above six. *)
Definition tagged_hash {S E} (tag_hash : list N) (parts : list (list N))
    : SM (H * S) E (list N) :=
  if bool_decide (length parts ≤ 4) then hash_m (tag_hash :: tag_hash :: parts)
  else lift Abort.

Definition tapleaf_hash {S E} (script : list N) : SM (H * S) E (list N) :=
  if bool_decide (length script < 253) then
    tagged_hash TAPLEAF_TAG_HASH [[192%N]; [(N.of_nat (length script) mod 256)%N]; script]
  else lift Abort.

Definition tapbranch_hash {S E} (left right : list N) : SM (H * S) E (list N) :=
  match bytes_cmp left right with
  | Gt => tagged_hash TAPBRANCH_TAG_HASH [right; left]
  | _ => tagged_hash TAPBRANCH_TAG_HASH [left; right]
  end.

Definition transcript_hash {S E} (previous sighash signature : list N) : SM (H * S) E (list N) :=
  hash_m [previous; sighash; signature].

Record PolicyCommitment := {
  pc_cooperative_script : list N;
  pc_cooperative_leaf_hash : list N;
  pc_merkle_root : list N;
  pc_output_key_tweak : list N;
}.

Record ControllerCommitment := { cc_merkle_root : list N; cc_output_key_tweak : list N }.

Definition controller_commitment_new {S E} (phone hww : list N)
    : SM (H * S) E ControllerCommitment :=
  phone_leaf ← tapleaf_hash (single_signature_script phone);
  hww_leaf ← tapleaf_hash (single_signature_script hww);
  merkle_root ← tapbranch_hash phone_leaf hww_leaf;
  tweak ← tagged_hash TAPTWEAK_TAG_HASH [BIP341_NUMS_XONLY; merkle_root];
  mret {| cc_merkle_root := merkle_root; cc_output_key_tweak := tweak |}.

Definition policy_commitment_new {S E} (phone hww : list N) : SM (H * S) E PolicyCommitment :=
  let script := cooperative_script phone hww in
  leaf ← tapleaf_hash script;
  phone_recovery ← tapleaf_hash (recovery_script phone PHONE_RECOVERY_BLOCKS);
  hww_recovery ← tapleaf_hash (recovery_script hww HWW_RECOVERY_BLOCKS);
  recoveries ← tapbranch_hash phone_recovery hww_recovery;
  merkle_root ← tapbranch_hash leaf recoveries;
  tweak ← tagged_hash TAPTWEAK_TAG_HASH [BIP341_NUMS_XONLY; merkle_root];
  mret {| pc_cooperative_script := script; pc_cooperative_leaf_hash := leaf;
          pc_merkle_root := merkle_root; pc_output_key_tweak := tweak |}.

Definition tx_txid {S E} (t : BenchmarkTransaction) : SM (H * S) (VisitError E) (list N) :=
  w ← lift (graph (serialize t));
  bytes ← lift (graph (as_slice w));
  first ← hash_m [bytes];
  hash_m [first].

(** The hash of what one pass writes into the component buffer. *)
Definition hash_component {S E} (o : outcome BenchmarkError ByteWriter)
    : SM (H * S) (VisitError E) (list N * ByteWriter) :=
  w ← lift (graph o);
  bytes ← lift (graph (as_slice w));
  d ← hash_m [bytes];
  mret (d, clear w).

Definition hash_components {S E} (t : BenchmarkTransaction) (ctx : SighashContext)
    : SM (H * S) (VisitError E) Components :=
  inputs ← lift (graph (inputs_of t));
  '(prevouts, w) ← hash_component (put_prevouts (writer_new MAX_HASH_COMPONENT_SIZE) inputs);
  '(amounts, w) ← hash_component (put_amounts w inputs);
  '(scripts, w) ← hash_component (put_scripts ctx w inputs);
  '(sequences, w) ← hash_component (put_sequences w inputs);
  outputs ← lift (graph (outputs_of t));
  '(outs, _) ← hash_component (serialize_outputs MAX_HASH_COMPONENT_SIZE outputs w);
  mret {| hash_prevouts := prevouts; hash_amounts := amounts; hash_script_pubkeys := scripts;
          hash_sequences := sequences; hash_outputs := outs |}.

(** The caller's closure, on a state [C] of its own. *)
Definition call {C E} (callback : SignatureJob → SM C E unit) (job : SignatureJob)
    : SM (H * C) (VisitError E) unit := λ '(h, c),
  match callback job c with
  | (Done u, c') => (Done u, (h, c'))
  | (Fail e, c') => (Fail (Callback e), (h, c'))
  | (Abort, c') => (Abort, (h, c'))
  end.

Definition sign_input {C E} (t : BenchmarkTransaction) (transaction_index : N)
    (ctx : SighashContext) (c : Components) (callback : SignatureJob → SM C E unit)
    (next : N) (i : nat) : SM (H * C) (VisitError E) N :=
  input ← lift (at_index (tx_inputs t) i);
  if controller input then mret next else
  m ← lift (graph (sighash_message c ctx (N.of_nat i)));
  bytes ← lift (graph (as_slice m));
  d ← tagged_hash TAPSIGHASH_TAG_HASH [bytes];
  _ ← call callback {| signature_index := next; transaction_index := transaction_index;
                       input_index := N.of_nat i; sighash := d |};
  lift (add_u8 next 1).

Definition for_each_sighash {C E} (t : BenchmarkTransaction) (transaction_index first : N)
    (ctx : SighashContext) (callback : SignatureJob → SM C E unit)
    : SM (H * C) (VisitError E) N :=
  c ← hash_components t ctx;
  state_loop (sign_input t transaction_index ctx c callback) first
    (seq 0 (N.to_nat (input_count t))).
End hashing.

(** * The annual graph *)

(** A byte-string literal. *)
Fixpoint ascii_bytes (s : string) : list N :=
  match s with
  | EmptyString => []
  | String c s' => Ascii.N_of_ascii c :: ascii_bytes s'
  end.

Record BenchmarkConfig := {
  rollover_inputs : list TxInput;
  rollover_input_count : N;
  monthly_hot_scripts : list (list N);
  emergency_hot_script : list N;
  vault_script_pubkey : list N;
  controller_script_pubkey : list N;
  cooperative_leaf_hash : list N;
}.

Definition vault_output (cfg : BenchmarkConfig) (amount : N) : TxOutput :=
  {| out_amount_sats := amount; out_script_pubkey := vault_script_pubkey cfg |}.
Definition controller_output (cfg : BenchmarkConfig) : TxOutput :=
  {| out_amount_sats := CONNECTOR_VALUE_SATS;
     out_script_pubkey := controller_script_pubkey cfg |}.
Definition vault_input (id : list N) (vout amount sequence : N) : TxInput :=
  {| previous_txid := id; previous_vout := vout; in_amount_sats := amount;
     in_sequence := sequence; controller := false |}.
Definition connector_input (id : list N) (vout : N) : TxInput :=
  {| previous_txid := id; previous_vout := vout; in_amount_sats := CONNECTOR_VALUE_SATS;
     in_sequence := REPLACEABLE; controller := true |}.

Definition summary (cfg : BenchmarkConfig) : outcome BenchmarkError WorkloadSummary :=
  jobs ← add_u8 (rollover_input_count cfg) 14;
  mret {| summary_rollover_inputs := rollover_input_count cfg;
          summary_transactions := TRANSACTION_COUNT; summary_signature_jobs := jobs |}.

(** The amounts computed before the first transaction. *)
Definition allowance_value (continuing final : N) : outcome BenchmarkError N :=
  ok_or (v ← checked_mul MONTHLY_ALLOWANCE_SATS (N.of_nat MONTHLY_STEPS);
         v ← checked_add v (continuing * (N.of_nat MONTHLY_STEPS - 1));
         v ← checked_add v final;
         checked_sub v CONNECTOR_VALUE_SATS) InsufficientValue.

Definition rollover_remainder (allowance fee : N) : outcome BenchmarkError N :=
  ok_or (v ← checked_sub VAULT_BALANCE_SATS allowance;
         v ← checked_sub v fee;
         checked_sub v (CONNECTOR_VALUE_SATS * 2)) InsufficientValue.

Definition next_chain_value (amount : N) (has_next : bool) (fee : N) : outcome BenchmarkError N :=
  ok_or (v ← checked_add amount CONNECTOR_VALUE_SATS;
         v ← (if has_next then checked_sub v CONNECTOR_VALUE_SATS else Some v);
         v ← checked_sub v MONTHLY_ALLOWANCE_SATS;
         checked_sub v fee) InsufficientValue.

Section graph.
Context {H : Type} `{!Sha256 H}.

Definition fake_utxo {S} (count : N) (index : nat) : SM (H * S) BenchmarkError TxInput :=
  let input_value := (VAULT_BALANCE_SATS / count)%N in
  let remainder := (VAULT_BALANCE_SATS mod count)%N in
  id ← hash_m [ascii_bytes "Anzen benchmark fake UTXO v1"; [(N.of_nat index mod 256)%N]];
  mret (vault_input id 0
    (input_value + bool_to_N (bool_decide (index = 0)) * remainder) U32_MAX).

Definition monthly_hot_script {S} (index : nat) : SM (H * S) BenchmarkError (list N) :=
  d ← hash_m [ascii_bytes "Anzen benchmark monthly hot output v1"; [(N.of_nat index mod 256)%N]];
  mret (p2tr_script d).

(** [l.iter_mut().enumerate()] that assigns [f i] to each element in turn. *)
Definition fill {S A} (f : nat → SM (H * S) BenchmarkError A) (l : list A) (indexes : list nat)
    : SM (H * S) BenchmarkError (list A) :=
  state_loop (λ l i, x ← f i; mret (<[i := x]> l)) l indexes.

Definition deterministic {S} (count : N) (vault_output_key controller_output_key leaf : list N)
    : SM (H * S) BenchmarkError BenchmarkConfig :=
  if (count =? 0)%N || bool_decide (MAX_ROLLOVER_INPUTS < N.to_nat count)
  then lift (Fail InvalidRolloverInputCount) else
  inputs ← fill (fake_utxo count) (replicate MAX_ROLLOVER_INPUTS default_input)
    (seq 0 (N.to_nat count));
  monthly ← fill monthly_hot_script (replicate MONTHLY_STEPS (replicate P2TR_SCRIPT_LEN 0%N))
    (seq 0 MONTHLY_STEPS);
  emergency ← hash_m [ascii_bytes "Anzen benchmark emergency hot output v1"];
  mret {| rollover_inputs := inputs; rollover_input_count := count;
          monthly_hot_scripts := monthly; emergency_hot_script := p2tr_script emergency;
          vault_script_pubkey := p2tr_script vault_output_key;
          controller_script_pubkey := p2tr_script controller_output_key;
          cooperative_leaf_hash := leaf |}.

(** What each transaction of the walk goes through: the closure sees it, then
    its id is computed. *)
Definition visit {S E} (callback : BenchmarkTransaction → SM (H * S) (VisitError E) unit)
    (t : BenchmarkTransaction) : SM (H * S) (VisitError E) (list N) :=
  _ ← callback t; tx_txid t.

(** One month; the local variables are the chain input and the connector. *)
Definition monthly_step {S E} (cfg : BenchmarkConfig) (continuing_fee final_fee : N)
    (callback : BenchmarkTransaction → SM (H * S) (VisitError E) unit)
    (st : TxInput * TxInput) (index : nat) : SM (H * S) (VisitError E) (TxInput * TxInput) :=
  let '(chain, connector) := st in
  let has_next := bool_decide (index + 1 < MONTHLY_STEPS) in
  let fee := if has_next then continuing_fee else final_fee in
  next ← lift (graph (next_chain_value (in_amount_sats chain) has_next fee));
  hot_script ← lift (at_index (monthly_hot_scripts cfg) index);
  let hot := {| out_amount_sats := MONTHLY_ALLOWANCE_SATS; out_script_pubkey := hot_script |} in
  authorization ← lift (graph (
    if has_next then
      transaction_new [chain; connector] [hot; vault_output cfg next; controller_output cfg]
    else if negb (next =? 0)%N then Fail InsufficientValue
    else transaction_new [chain; connector] [hot]));
  id ← visit callback authorization;
  mret (if has_next
        then (vault_input id 1 next MONTHLY_DELAY_SEQUENCE, connector_input id 2)
        else (chain, connector)).

Definition rollover_step {S E} (cfg : BenchmarkConfig) (allowance remainder : N)
    (callback : BenchmarkTransaction → SM (H * S) (VisitError E) unit)
    : SM (H * S) (VisitError E) (list N) :=
  inputs ← lift (slice_to (rollover_inputs cfg) (N.to_nat (rollover_input_count cfg)));
  rollover ← lift (graph (transaction_new inputs
    [vault_output cfg allowance; vault_output cfg remainder;
     controller_output cfg; controller_output cfg]));
  visit callback rollover.

Definition emergency_step {S E} (cfg : BenchmarkConfig) (rollover_txid : list N) (remainder : N)
    (callback : BenchmarkTransaction → SM (H * S) (VisitError E) unit)
    : SM (H * S) (VisitError E) unit :=
  withdrawal_fee ← lift (graph (policy_vsize 1 1 1));
  staging ← lift (graph (ok_or (
    v ← checked_add EMERGENCY_ACCESS_SATS withdrawal_fee;
    checked_sub v CONNECTOR_VALUE_SATS) InsufficientValue));
  trigger_fee ← lift (graph (policy_vsize 1 1 3));
  change ← lift (graph (ok_or (
    v ← checked_sub remainder staging;
    checked_sub v trigger_fee) InsufficientValue));
  trigger ← lift (graph (transaction_new
    [vault_input rollover_txid 1 remainder U32_MAX; connector_input rollover_txid 3]
    [vault_output cfg staging; vault_output cfg change; controller_output cfg]));
  trigger_txid ← visit callback trigger;
  withdrawal ← lift (graph (transaction_new
    [vault_input trigger_txid 0 staging EMERGENCY_DELAY_SEQUENCE; connector_input trigger_txid 2]
    [{| out_amount_sats := EMERGENCY_ACCESS_SATS;
        out_script_pubkey := emergency_hot_script cfg |}]));
  callback withdrawal.

Definition walk_transactions {S E} (cfg : BenchmarkConfig)
    (callback : BenchmarkTransaction → SM (H * S) (VisitError E) unit)
    : SM (H * S) (VisitError E) unit :=
  continuing ← lift (graph (policy_vsize 1 1 3));
  final ← lift (graph (policy_vsize 1 1 1));
  allowance ← lift (graph (allowance_value continuing final));
  fee ← lift (graph (policy_vsize (rollover_input_count cfg) 0 4));
  remainder ← lift (graph (rollover_remainder allowance fee));
  rollover_txid ← rollover_step cfg allowance remainder callback;
  _ ← state_loop (monthly_step cfg continuing final callback)
    (vault_input rollover_txid 0 allowance MONTHLY_DELAY_SEQUENCE,
     connector_input rollover_txid 2) (seq 0 MONTHLY_STEPS);
  emergency_step cfg rollover_txid remainder callback.

(** The closure of [for_each_signature_job]: the captured counters and the
    caller's closure. *)
Definition on_transaction {C E} (ctx : SighashContext) (callback : SignatureJob → SM C E unit)
    (t : BenchmarkTransaction) : SM (H * (N * N * C)) (VisitError E) unit :=
  λ '(h, (next, index, c)),
  match for_each_sighash t index next ctx callback (h, c) with
  | (Done next', (h', c')) =>
      match add_u8 (E:=VisitError E) index 1 with
      | Done index' => (Done tt, (h', (next', index', c')))
      | _ => (Abort, (h', (next', index, c')))
      end
  | (Fail e, (h', c')) => (Fail e, (h', (next, index, c')))
  | (Abort, (h', c')) => (Abort, (h', (next, index, c')))
  end.

Definition for_each_signature_job {C E} (cfg : BenchmarkConfig)
    (callback : SignatureJob → SM C E unit)
    : SM (H * C) (VisitError E) WorkloadSummary := λ '(h, c),
  let ctx := {| ctx_vault_script_pubkey := vault_script_pubkey cfg;
                ctx_controller_script_pubkey := controller_script_pubkey cfg;
                ctx_cooperative_leaf_hash := cooperative_leaf_hash cfg |} in
  match walk_transactions cfg (on_transaction ctx callback) (h, (0%N, 0%N, c)) with
  | (Done _, (h', (next, index, c'))) =>
      match graph (E:=E) (summary cfg) with
      | Done s =>
          if bool_decide (index = summary_transactions s)
             && bool_decide (next = summary_signature_jobs s)
          then (Done s, (h', c')) else (Abort, (h', c'))
      | _ => (Abort, (h', c'))
      end
  | (Fail e, (h', (_, _, c'))) => (Fail e, (h', c'))
  | (Abort, (h', (_, _, c'))) => (Abort, (h', c'))
  end.
End graph.
