(* ===== verification/ColdSignerWriter.v ===== *)
(** The byte writer implements an appendable byte string of bounded length,
    and what the signing workload writes through it is the consensus
    serialisation and the BIP341 message. *)

From S2P Require Import Prelude ColdSigner.

Section outcomes.
Context {E A B : Type}.

Lemma obind_Done (o : outcome E A) (f : A → outcome E B) b :
  (a ← o; f a) = Done b ↔ ∃ a, o = Done a ∧ f a = Done b.
Proof. destruct o; naive_solver. Qed.
End outcomes.

Lemma le_bytes_length n x : length (le_bytes n x) = n.
Proof. revert x. induction n; intros; simpl; [done|]. by rewrite IHn. Qed.

(** * The abstraction of a writer *)

(** A writer of capacity [cap]: the array keeps its length and the position
    stays inside it. *)
Definition writer_wf (cap : nat) (w : ByteWriter) : Prop :=
  length (buffer w) = cap ∧ written w ≤ cap.

(** What was written. *)
Definition contents (w : ByteWriter) : list N := take (written w) (buffer w).

Lemma contents_length cap w : writer_wf cap w → length (contents w) = written w.
Proof. intros [Hl Hw]. unfold contents. rewrite length_take. lia. Qed.

Lemma as_slice_contents cap w : writer_wf cap w → as_slice w = Done (contents w).
Proof. intros [Hl Hw]. unfold as_slice, slice_to. by rewrite bool_decide_eq_true_2 by lia. Qed.

Lemma writer_new_wf cap : writer_wf cap (writer_new cap).
Proof. split; simpl; [apply length_replicate|lia]. Qed.

Lemma clear_wf cap w : writer_wf cap w → writer_wf cap (clear w).
Proof. intros [Hl Hw]. split; simpl; [done|lia]. Qed.

Lemma extend_fits cap w bs :
  writer_wf cap w → (N.of_nat cap ≤ U32_MAX)%N → written w + length bs ≤ cap →
  ∃ w', extend cap w bs = Done w' ∧ writer_wf cap w' ∧ contents w' = contents w ++ bs.
Proof.
  intros [Hl Hw] Hcap Hfit. unfold extend.
  rewrite (proj2 (N.ltb_ge _ _)) by lia. rewrite bool_decide_eq_false_2 by lia.
  eexists. split; [done|]. unfold writer_wf, contents. simpl.
  rewrite !length_app, length_take, length_drop. split; [lia|].
  rewrite app_assoc. apply take_app_length'.
  rewrite length_app, length_take. lia.
Qed.

Lemma extend_overflows cap w bs :
  writer_wf cap w → cap < written w + length bs →
  extend cap w bs = Fail SerializationOverflow.
Proof.
  intros _ Hbig. unfold extend. destruct (_ <? _)%N; [done|].
  by rewrite bool_decide_eq_true_2 by lia.
Qed.

(** C35: a byte writer of a capacity of at most 2^32 - 1 behaves as a byte
    string bounded by its capacity, and stays well formed: a fresh or cleared
    writer is empty, [extend] (and [push], which extends by one byte) appends
    exactly when the result fits and otherwise fails with
    [SerializationOverflow], and [as_slice] is what was appended. *)
Theorem byte_writer_appends cap w bs :
  (N.of_nat cap ≤ U32_MAX)%N → writer_wf cap w →
  (writer_wf cap (writer_new cap) ∧ as_slice (writer_new cap) = Done []) ∧
  (writer_wf cap (clear w) ∧ as_slice (clear w) = Done []) ∧
  as_slice w = Done (contents w) ∧
  match extend cap w bs with
  | Done w' => length (contents w) + length bs ≤ cap ∧ writer_wf cap w' ∧
               as_slice w' = Done (contents w ++ bs)
  | Fail e => cap < length (contents w) + length bs ∧ e = SerializationOverflow
  | Abort => False
  end.
Proof.
  intros Hcap Hw. rewrite (contents_length _ _ Hw). split_and!.
  - apply writer_new_wf.
  - rewrite (as_slice_contents cap) by apply writer_new_wf. done.
  - by apply clear_wf.
  - by rewrite (as_slice_contents cap) by by apply clear_wf.
  - by apply (as_slice_contents cap).
  - destruct (decide (written w + length bs ≤ cap)) as [Hfit|Hbig].
    + destruct (extend_fits _ _ _ Hw Hcap Hfit) as (w' & -> & Hw' & Heq).
      by rewrite (as_slice_contents _ _ Hw'), Heq.
    + rewrite extend_overflows by (done || lia). split; [lia|done].
Qed.

Definition toy_writer : ByteWriter := {| buffer := [7; 8; 9; 0; 0]%N; written := 3 |}.

Lemma byte_writer_appends_witness :
  extend 5 toy_writer [1; 2]%N = Done {| buffer := [7; 8; 9; 1; 2]%N; written := 5 |} ∧
  extend 5 toy_writer [1; 2; 3]%N = Fail SerializationOverflow ∧
  as_slice (clear toy_writer) = Done [].
Proof.
  split; [done|split; [done|]].
  assert (writer_wf 5 toy_writer) as Hw by (split; simpl; lia).
  assert (N.of_nat 5 ≤ U32_MAX)%N as Hc by (vm_compute; discriminate).
  exact (proj2 (proj1 (proj2 (byte_writer_appends 5 toy_writer [] Hc Hw)))).
Defined.

(** * Runs that fit

    [writes cap o bs]: the writer [o] produces holds [bs]. *)

Definition writes (cap : nat) (o : outcome BenchmarkError ByteWriter) (bs : list N) : Prop :=
  ∃ w, o = Done w ∧ writer_wf cap w ∧ contents w = bs.

Section writes.
Variable cap : nat.
Hypothesis Hcap : (N.of_nat cap ≤ U32_MAX)%N.

Lemma writes_new : writes cap (Done (writer_new cap)) [].
Proof. eexists. split_and!; [done|apply writer_new_wf|done]. Qed.

Lemma writes_clear w : writer_wf cap w → writes cap (Done (clear w)) [].
Proof. intros Hw. eexists. split_and!; [done|by apply clear_wf|done]. Qed.

Lemma writes_extend w bs vs :
  writes cap (Done w) bs → length bs + length vs ≤ cap →
  writes cap (extend cap w vs) (bs ++ vs).
Proof.
  intros (? & [= <-] & Hw & <-) Hfit. rewrite (contents_length _ _ Hw) in Hfit.
  destruct (extend_fits _ _ vs Hw Hcap Hfit) as (w' & -> & Hw' & Heq).
  eexists. done.
Qed.

Lemma writes_push w bs v :
  writes cap (Done w) bs → length bs + 1 ≤ cap → writes cap (push cap w v) (bs ++ [v]).
Proof. intros Hw Hfit. by apply writes_extend. Qed.

Lemma writes_bind o f bs cs :
  writes cap o bs → (∀ w, writes cap (Done w) bs → writes cap (f w) cs) →
  writes cap (w ← o; f w) cs.
Proof. intros (w & -> & Hw) Hf. simpl. apply Hf. by exists w. Qed.

(** A loop that appends [g x] for each element. *)
Lemma writes_fold {A} (f : ByteWriter → A → outcome BenchmarkError ByteWriter)
    (g : A → list N) (k : nat) (P : A → Prop) l w bs :
  (∀ w bs x, P x → writes cap (Done w) bs → length bs + k ≤ cap →
     writes cap (f w x) (bs ++ g x)) →
  (∀ x, P x → length (g x) = k) →
  Forall P l → writes cap (Done w) bs → length bs + k * length l ≤ cap →
  writes cap (fold_loop f w l) (bs ++ mjoin (g <$> l)).
Proof.
  intros Hf Hg Hl. revert w bs. induction Hl as [|x l Hx Hl IH]; intros w bs Hw Hfit; simpl.
  - by rewrite app_nil_r.
  - simpl in Hfit. eapply writes_bind; [apply Hf; [done|done|lia]|].
    intros w' Hw'. rewrite app_assoc. apply IH; [done|]. rewrite length_app, Hg by done. lia.
Qed.
End writes.

(** * The formats, as the specifications state them *)

(** Bitcoin's variable-length count. *)
Definition compact_size (n : nat) : list N :=
  let n := N.of_nat n in
  if (n <? 253)%N then [n]
  else if (n <=? 65535)%N then 253%N :: le_bytes 2 n
  else if (n <=? 4294967295)%N then 254%N :: le_bytes 4 n
  else 255%N :: le_bytes 8 n.

Definition outpoint_bytes (i : TxInput) : list N :=
  previous_txid i ++ le_bytes 4 (previous_vout i).
Definition script_bytes (s : list N) : list N := compact_size (length s) ++ s.
Definition input_bytes (i : TxInput) : list N :=
  outpoint_bytes i ++ script_bytes [] ++ le_bytes 4 (in_sequence i).
Definition output_bytes (o : TxOutput) : list N :=
  le_bytes 8 (out_amount_sats o) ++ script_bytes (out_script_pubkey o).

(** A version-2 transaction without witnesses and with lock time zero. *)
Definition consensus_bytes (ins : list TxInput) (outs : list TxOutput) : list N :=
  le_bytes 4 2 ++ compact_size (length ins) ++ mjoin (input_bytes <$> ins) ++
  compact_size (length outs) ++ mjoin (output_bytes <$> outs) ++ le_bytes 4 0.

(** The script of the output that an input spends. *)
Definition spent_script (ctx : SighashContext) (i : TxInput) : list N :=
  if controller i then ctx_controller_script_pubkey ctx else ctx_vault_script_pubkey ctx.

Section formats.
Variable sha : list N → list N.

(** BIP341's common signature message, with the epoch, for the default
    signature type and a script-path spend without annex or code separator:
    version, lock time, the five hashes, the spend type, the input's index and
    BIP342's extension. *)
Definition bip341_message (ctx : SighashContext) (ins : list TxInput) (outs : list TxOutput)
    (i : nat) : list N :=
  [0; 0]%N ++ le_bytes 4 2 ++ le_bytes 4 0 ++
  sha (mjoin (outpoint_bytes <$> ins)) ++
  sha (mjoin ((λ x, le_bytes 8 (in_amount_sats x)) <$> ins)) ++
  sha (mjoin ((λ x, script_bytes (spent_script ctx x)) <$> ins)) ++
  sha (mjoin ((λ x, le_bytes 4 (in_sequence x)) <$> ins)) ++
  sha (mjoin (output_bytes <$> outs)) ++
  [2]%N ++ le_bytes 4 (N.of_nat i) ++
  ctx_cooperative_leaf_hash ctx ++ [0]%N ++ le_bytes 4 U32_MAX.

(** BIP340's tagged hash with the tag's hash given. *)
Definition tagged (tag bytes : list N) : list N := sha (tag ++ tag ++ bytes).

Definition transaction_id (ins : list TxInput) (outs : list TxOutput) : list N :=
  sha (sha (consensus_bytes ins outs)).
End formats.

(** Arrays of the right length. *)
Definition input_wf (i : TxInput) : Prop := length (previous_txid i) = 32.
Definition output_wf (o : TxOutput) : Prop := length (out_script_pubkey o) = 34.
Definition ctx_wf (c : SighashContext) : Prop :=
  length (ctx_vault_script_pubkey c) = 34 ∧ length (ctx_controller_script_pubkey c) = 34 ∧
  length (ctx_cooperative_leaf_hash c) = 32.

(** The value [transaction_new] builds. *)
Definition tx_of (ins : list TxInput) (outs : list TxOutput) : BenchmarkTransaction :=
  {| tx_inputs := ins ++ drop (length ins) (replicate MAX_ROLLOVER_INPUTS default_input);
     input_count := N.of_nat (length ins) mod 256;
     tx_outputs := outs ++ drop (length outs) (replicate 4 default_output);
     output_count := N.of_nat (length outs) mod 256 |}.

Definition tx_wf (ins : list TxInput) (outs : list TxOutput) : Prop :=
  1 ≤ length ins ≤ 12 ∧ 1 ≤ length outs ≤ 4 ∧ Forall input_wf ins ∧ Forall output_wf outs.

Lemma transaction_new_wf ins outs :
  tx_wf ins outs → transaction_new ins outs = Done (tx_of ins outs).
Proof.
  intros (Hi & Ho & _ & _). unfold transaction_new, MAX_ROLLOVER_INPUTS.
  by rewrite !bool_decide_eq_false_2 by lia.
Qed.

Lemma small_count n : n ≤ 12 → (N.of_nat n mod 256)%N = N.of_nat n.
Proof. intros. apply N.mod_small. lia. Qed.

Lemma compact_small n : n ≤ 252 → compact_size n = [N.of_nat n].
Proof. intros. unfold compact_size. by rewrite (proj2 (N.ltb_lt _ _)) by lia. Qed.

Lemma script_bytes_34 s : length s = 34 → script_bytes s = 34%N :: s.
Proof. intros Hs. unfold script_bytes. by rewrite Hs. Qed.

Lemma inputs_of_tx ins outs : tx_wf ins outs → inputs_of (tx_of ins outs) = Done ins.
Proof.
  intros ([_ Hi] & _). unfold inputs_of, slice_to, tx_of; cbn [tx_inputs input_count]. rewrite small_count by done.
  rewrite Nat2N.id, bool_decide_eq_true_2 by (rewrite length_app; lia).
  by rewrite take_app_length.
Qed.

Lemma outputs_of_tx ins outs : tx_wf ins outs → outputs_of (tx_of ins outs) = Done outs.
Proof.
  intros (_ & [_ Ho] & _). unfold outputs_of, slice_to, tx_of; cbn [tx_outputs output_count]. rewrite small_count by lia.
  rewrite Nat2N.id, bool_decide_eq_true_2 by (rewrite length_app; lia).
  by rewrite take_app_length.
Qed.

Lemma output_bytes_length o : output_wf o → length (output_bytes o) = 43.
Proof.
  intros Ho. unfold output_bytes. rewrite script_bytes_34 by done.
  by rewrite length_app, le_bytes_length; simpl; rewrite Ho.
Qed.

Lemma input_bytes_length i : input_wf i → length (input_bytes i) = 41.
Proof.
  intros Hi. unfold input_bytes, outpoint_bytes. by rewrite !length_app, !le_bytes_length, Hi.
Qed.

Lemma mjoin_length {A} (g : A → list N) k l :
  Forall (λ x, length (g x) = k) l → length (mjoin (g <$> l)) = k * length l.
Proof.
  induction 1 as [|x l Hx Hl IH]; [done|].
  change (mjoin (g <$> x :: l)) with (g x ++ mjoin (g <$> l)).
  rewrite length_app, IH, Hx. simpl. lia.
Qed.

(** [put] runs one append whose room is arithmetic. *)
Lemma writes_eq cap o bs cs : writes cap o bs → bs = cs → writes cap o cs.
Proof. by intros ? <-. Qed.

Ltac room := rewrite ?length_app, ?le_bytes_length; simpl; lia.
Ltac put :=
  first [eapply writes_bind | idtac];
  [first [eapply writes_push | eapply writes_extend];
     [first [assumption | vm_compute; discriminate] | eassumption | room]
  | intros ? ?..].

Section passes.
Context (cap : nat) (Hcap : (N.of_nat cap ≤ U32_MAX)%N).

Lemma writes_outputs w bs outs :
  Forall output_wf outs → writes cap (Done w) bs → length bs + 43 * length outs ≤ cap →
  writes cap (serialize_outputs cap outs w) (bs ++ mjoin (output_bytes <$> outs)).
Proof.
  intros Ho Hw Hfit. eapply (writes_fold cap Hcap _ output_bytes 43 output_wf); try done; [|apply output_bytes_length].
  clear -Hcap. intros w bs o Ho Hw Hfit. unfold output_wf in Ho.
  eapply writes_eq; [put; put; put|].
  unfold output_bytes. rewrite script_bytes_34 by done. by rewrite <-!app_assoc.
Qed.
End passes.

Lemma serialize_writes ins outs :
  tx_wf ins outs →
  writes MAX_SERIALIZED_TX_SIZE (serialize (tx_of ins outs)) (consensus_bytes ins outs).
Proof.
  intros Hwf. unfold serialize, consensus_bytes.
  rewrite inputs_of_tx, outputs_of_tx by done.
  destruct Hwf as ([_ Hi] & [_ Ho] & Hins & Houts).
  assert (N.of_nat MAX_SERIALIZED_TX_SIZE ≤ U32_MAX)%N as Hcap by (vm_compute; discriminate).
  change (input_count (tx_of ins outs)) with (N.of_nat (length ins) mod 256)%N.
  change (output_count (tx_of ins outs)) with (N.of_nat (length outs) mod 256)%N.
  rewrite !small_count by lia.
  assert (length (mjoin (input_bytes <$> ins)) = 41 * length ins) as Hil.
  { apply mjoin_length. eapply Forall_impl; [done|apply input_bytes_length]. }
  assert (length (mjoin (output_bytes <$> outs)) = 43 * length outs) as Hol.
  { apply mjoin_length. eapply Forall_impl; [done|apply output_bytes_length]. }
  unfold MAX_SERIALIZED_TX_SIZE in *.
  rewrite !compact_small by lia.
  pose proof (writes_new 768) as H0.
  eapply writes_eq.
  { put. put. simpl.
    eapply writes_bind.
    { eapply (writes_fold _ Hcap _ input_bytes 41 input_wf); try done; [|apply input_bytes_length|room].
      clear -Hcap. intros w bs i Hi Hw Hfit. unfold input_wf in Hi.
      eapply writes_eq; [put; put; put; put|].
      unfold input_bytes, outpoint_bytes. rewrite <-!app_assoc. reflexivity. }
    intros ? ?. put. simpl.
    eapply writes_bind; [apply writes_outputs; [done|done|eassumption|room]|].
    intros ? ?. put. }
  by rewrite <-!app_assoc.
Qed.

(** A pass over the inputs that appends a fixed number of bytes each time. *)
Lemma writes_pass (g : TxInput → list N) (k : nat) f w ins :
  (∀ w bs x, input_wf x → writes MAX_HASH_COMPONENT_SIZE (Done w) bs → length bs + k ≤ 512 →
     writes MAX_HASH_COMPONENT_SIZE (f w x) (bs ++ g x)) →
  (∀ x, input_wf x → length (g x) = k) → k ≤ 42 →
  Forall input_wf ins → length ins ≤ 12 → writes MAX_HASH_COMPONENT_SIZE (Done w) [] →
  writes MAX_HASH_COMPONENT_SIZE (fold_loop f w ins) (mjoin (g <$> ins)).
Proof.
  intros Hf Hg Hk Hins Hl Hw. change (mjoin (g <$> ins)) with ([] ++ mjoin (g <$> ins)).
  eapply (writes_fold _ _ _ g k input_wf); try done. unfold MAX_HASH_COMPONENT_SIZE. simpl. nia.
  Unshelve. vm_compute. discriminate.
Qed.

Lemma component_cap : (N.of_nat MAX_HASH_COMPONENT_SIZE ≤ U32_MAX)%N.
Proof. vm_compute. discriminate. Qed.

Section component_passes.
Context (w : ByteWriter) (ins : list TxInput).
Hypothesis (Hins : Forall input_wf ins) (Hl : length ins ≤ 12).
Hypothesis (Hw : writes MAX_HASH_COMPONENT_SIZE (Done w) []).

Lemma prevouts_writes :
  writes MAX_HASH_COMPONENT_SIZE (put_prevouts w ins) (mjoin (outpoint_bytes <$> ins)).
Proof using Hins Hl Hw.
  pose proof component_cap as Hcap.
  eapply (writes_pass _ 36); try done; [| |lia].
  - clear. intros w bs x Hx Hw Hfit. unfold input_wf in Hx.
    pose proof component_cap. unfold MAX_HASH_COMPONENT_SIZE in *. eapply writes_eq; [put; put|].
    unfold outpoint_bytes. by rewrite <-!app_assoc.
  - intros x Hx. unfold outpoint_bytes. by rewrite length_app, le_bytes_length, Hx.
Qed.

Lemma amounts_writes :
  writes MAX_HASH_COMPONENT_SIZE (put_amounts w ins)
    (mjoin ((λ x, le_bytes 8 (in_amount_sats x)) <$> ins)).
Proof using Hins Hl Hw.
  eapply (writes_pass _ 8); try done; [|lia].
  clear. intros w bs x Hx Hw Hfit.
  pose proof component_cap. unfold MAX_HASH_COMPONENT_SIZE in *. eapply writes_eq; [put|done].
Qed.

Lemma sequences_writes :
  writes MAX_HASH_COMPONENT_SIZE (put_sequences w ins)
    (mjoin ((λ x, le_bytes 4 (in_sequence x)) <$> ins)).
Proof using Hins Hl Hw.
  eapply (writes_pass _ 4); try done; [|lia].
  clear. intros w bs x Hx Hw Hfit.
  pose proof component_cap. unfold MAX_HASH_COMPONENT_SIZE in *. eapply writes_eq; [put|done].
Qed.

Lemma spent_script_length ctx x : ctx_wf ctx → length (spent_script ctx x) = 34.
Proof. intros (? & ? & _). unfold spent_script. by destruct (controller x). Qed.

Lemma scripts_writes ctx :
  ctx_wf ctx →
  writes MAX_HASH_COMPONENT_SIZE (put_scripts ctx w ins)
    (mjoin ((λ x, script_bytes (spent_script ctx x)) <$> ins)).
Proof using Hins Hl Hw.
  intros Hctx. eapply (writes_pass _ 35); try done; [| |lia].
  - clear -Hctx. intros w bs x Hx Hw Hfit.
    pose proof (spent_script_length ctx x Hctx) as Hs. rewrite script_bytes_34 by done.
    fold (spent_script ctx x).
    pose proof component_cap. unfold MAX_HASH_COMPONENT_SIZE in *.
    eapply writes_eq; [put; put|]. by rewrite <-!app_assoc.
  - intros x Hx. pose proof (spent_script_length ctx x Hctx) as Hs.
    rewrite script_bytes_34 by done. simpl. by rewrite Hs.
Qed.
End component_passes.

(** The hashes of the message's five parts. *)
Definition components_of (sha : list N → list N) (ctx : SighashContext) (ins : list TxInput)
    (outs : list TxOutput) : Components :=
  {| hash_prevouts := sha (mjoin (outpoint_bytes <$> ins));
     hash_amounts := sha (mjoin ((λ x, le_bytes 8 (in_amount_sats x)) <$> ins));
     hash_script_pubkeys := sha (mjoin ((λ x, script_bytes (spent_script ctx x)) <$> ins));
     hash_sequences := sha (mjoin ((λ x, le_bytes 4 (in_sequence x)) <$> ins));
     hash_outputs := sha (mjoin (output_bytes <$> outs)) |}.

Definition components_wf (c : Components) : Prop :=
  length (hash_prevouts c) = 32 ∧ length (hash_amounts c) = 32 ∧
  length (hash_script_pubkeys c) = 32 ∧ length (hash_sequences c) = 32 ∧
  length (hash_outputs c) = 32.

(** The message of given components. *)
Definition message_bytes (c : Components) (ctx : SighashContext) (i : nat) : list N :=
  [0; 0]%N ++ le_bytes 4 2 ++ le_bytes 4 0 ++ hash_prevouts c ++ hash_amounts c ++
  hash_script_pubkeys c ++ hash_sequences c ++ hash_outputs c ++
  [2]%N ++ le_bytes 4 (N.of_nat i) ++
  ctx_cooperative_leaf_hash ctx ++ [0]%N ++ le_bytes 4 U32_MAX.

Lemma message_writes c ctx i :
  components_wf c → ctx_wf ctx →
  writes 256 (sighash_message c ctx (N.of_nat i)) (message_bytes c ctx i).
Proof.
  intros (L1 & L2 & L3 & L4 & L5) (_ & _ & Hleaf). unfold sighash_message, message_bytes.
  assert (N.of_nat 256 ≤ U32_MAX)%N as Hcap by (vm_compute; discriminate).
  pose proof (writes_new 256) as H0.
  eapply writes_eq; [repeat put|]. by rewrite <-!app_assoc.
Qed.
