(* ===== verification/ColdSignerWalk.v ===== *)
(** The signing walk against its specification: the jobs of an annual policy
    are one BIP341 message per vault input of fifteen transactions, in order,
    and the walk's only failures are the caller's. *)

From S2P Require Import Prelude ColdSigner ColdSignerWriter.

(** * Runs up to the hasher's state *)

Definition gives {H S E A} (m : SM (H * S) E A) (s : S) (o : outcome E A) (s' : S) : Prop :=
  ∀ h, ∃ h', m (h, s) = (o, (h', s')).

Section gives.
Context {H S E : Type}.
Implicit Types (s : S).

Lemma gives_ret {A} (a : A) s : gives (mret a : SM (H * S) E A) s (Done a) s.
Proof. intros h. by exists h. Qed.

Lemma gives_lift {A} (o : outcome E A) s : gives (lift o : SM (H * S) E A) s o s.
Proof. intros h. by exists h. Qed.

Lemma gives_bind {A B} (m : SM (H * S) E A) (f : A → SM (H * S) E B) s a s1 o s2 :
  gives m s (Done a) s1 → gives (f a) s1 o s2 → gives (a ← m; f a) s o s2.
Proof.
  intros Hm Hf h. destruct (Hm h) as [h1 H1], (Hf h1) as [h2 H2].
  exists h2. unfold mbind, SM_bind. by rewrite H1.
Qed.

Lemma gives_bind_fail {A B} (m : SM (H * S) E A) (f : A → SM (H * S) E B) s e s1 :
  gives m s (Fail e) s1 → gives (a ← m; f a) s (Fail e) s1.
Proof. intros Hm h. destruct (Hm h) as [h1 H1]. exists h1. unfold mbind, SM_bind. by rewrite H1. Qed.

Lemma gives_bind_abort {A B} (m : SM (H * S) E A) (f : A → SM (H * S) E B) s s1 :
  gives m s Abort s1 → gives (a ← m; f a) s Abort s1.
Proof. intros Hm h. destruct (Hm h) as [h1 H1]. exists h1. unfold mbind, SM_bind. by rewrite H1. Qed.

(** A step that returns and leaves the state alone. *)
Lemma gives_step {A B} (m : SM (H * S) E A) (f : A → SM (H * S) E B) s a o s' :
  gives m s (Done a) s → gives (f a) s o s' → gives (a ← m; f a) s o s'.
Proof. apply gives_bind. Qed.
End gives.

Section walk.
Context {H : Type} `{Hash : !Sha256 H} (sha : list N → list N) `{Laws : !Sha256Laws H sha}.
Context {E : Type}.

Lemma gives_hash {S E'} parts (s : S) :
  gives (hash_m parts : SM (H * S) E' _) s (Done (sha (mjoin parts))) s.
Proof using Laws.
  intros h. unfold hash_m. pose proof (hash_digest parts h) as Hd.
  destruct (hash parts h) as [d h']. simpl in Hd. subst d. by exists h'.
Qed.

Lemma gives_writes {S A} cap o bs (f : ByteWriter → SM (H * S) (VisitError E) A) (s : S) r s' :
  writes cap o bs → (∀ w, writes cap (Done w) bs → gives (f w) s r s') →
  gives (w ← lift (graph o); f w) s r s'.
Proof.
  intros (w & -> & Hw) Hf. eapply gives_step; [apply gives_lift|]. apply Hf. by exists w.
Qed.

Lemma gives_slice {S A} cap w bs (f : list N → SM (H * S) (VisitError E) A) (s : S) r s' :
  writes cap (Done w) bs → gives (f bs) s r s' →
  gives (bytes ← lift (graph (as_slice w)); f bytes) s r s'.
Proof.
  intros (? & [= <-] & Hw & <-) Hf. eapply gives_step; [|exact Hf].
  rewrite (as_slice_contents _ _ Hw). apply gives_lift.
Qed.

Lemma gives_component {S A} o bs (f : list N * ByteWriter → SM (H * S) (VisitError E) A)
    (s : S) r s' :
  writes MAX_HASH_COMPONENT_SIZE o bs →
  (∀ w, writes MAX_HASH_COMPONENT_SIZE (Done w) [] → gives (f (sha bs, w)) s r s') →
  gives (p ← hash_component o; f p) s r s'.
Proof using Laws.
  intros (w & -> & Hw & <-) Hf.
  eapply (gives_step _ _ _ (sha (contents w), clear w)).
  - unfold hash_component. eapply gives_step; [apply gives_lift|].
    eapply (gives_slice MAX_HASH_COMPONENT_SIZE _ (contents w)); [by exists w|].
    eapply gives_step; [apply gives_hash|]. simpl. rewrite app_nil_r. apply gives_ret.
  - apply Hf. by apply writes_clear.
Qed.

Lemma gives_txid {S} ins outs (s : S) :
  tx_wf ins outs →
  gives (tx_txid (tx_of ins outs) : SM (H * S) (VisitError E) _) s
    (Done (transaction_id sha ins outs)) s.
Proof using Laws.
  intros Hwf. unfold tx_txid. eapply gives_writes; [by apply serialize_writes|].
  intros w Hw. eapply gives_slice; [done|].
  eapply gives_step; [apply gives_hash|].
  assert (transaction_id sha ins outs = sha (mjoin [sha (mjoin [consensus_bytes ins outs])])) as ->.
  { unfold transaction_id. simpl. by rewrite !app_nil_r. }
  apply gives_hash.
Qed.

Lemma components_of_wf ctx ins outs : components_wf (components_of sha ctx ins outs).
Proof using Laws. repeat split; exact (digest_length _). Qed.

Lemma gives_components {S} ins outs ctx (s : S) :
  tx_wf ins outs → ctx_wf ctx →
  gives (hash_components (tx_of ins outs) ctx : SM (H * S) (VisitError E) _) s
    (Done (components_of sha ctx ins outs)) s.
Proof using Laws.
  intros Hwf Hctx. unfold hash_components. rewrite inputs_of_tx, outputs_of_tx by done.
  destruct Hwf as ([_ Hi] & [_ Ho] & Hins & Houts).
  eapply gives_step; [apply gives_lift|].
  eapply gives_component; [apply prevouts_writes; [done..|apply writes_new]|]. intros w1 Hw1.
  eapply gives_component; [by apply amounts_writes|]. intros w2 Hw2.
  eapply gives_component; [by apply scripts_writes|]. intros w3 Hw3.
  eapply gives_component; [by apply sequences_writes|]. intros w4 Hw4.
  eapply gives_step; [apply gives_lift|].
  eapply gives_component.
  { eapply writes_outputs; [apply component_cap|done|exact Hw4|].
    unfold MAX_HASH_COMPONENT_SIZE. simpl. lia. }
  intros w5 _. apply gives_ret.
Qed.

(** * Jobs *)

Definition vault_indexes (ins : list TxInput) : list nat :=
  filter (λ i, controller <$> ins !! i = Some false) (seq 0 (length ins)).

Fixpoint number_jobs (message : nat → list N) (tidx first : N) (idx : list nat)
    : list SignatureJob :=
  match idx with
  | [] => []
  | i :: idx' =>
      {| signature_index := first; transaction_index := tidx; input_index := N.of_nat i;
         sighash := tagged sha TAPSIGHASH_TAG_HASH (message i) |}
      :: number_jobs message tidx (first + 1) idx'
  end.

(** What the caller's closure sees: the jobs in order, up to its first
    failure. *)
Fixpoint run_jobs {C} (callback : SignatureJob → SM C E unit) (jobs : list SignatureJob) (c : C)
    : outcome (VisitError E) unit * C :=
  match jobs with
  | [] => (Done tt, c)
  | j :: jobs' =>
      match callback j c with
      | (Done _, c') => run_jobs callback jobs' c'
      | (Fail e, c') => (Fail (Callback e), c')
      | (Abort, c') => (Abort, c')
      end
  end.

Definition and_then {A B} (o : outcome (VisitError E) A) (b : B) : outcome (VisitError E) B :=
  _ ← o; mret b.

Lemma run_jobs_app {C} (cb : SignatureJob → SM C E unit) jobs jobs' c :
  run_jobs cb (jobs ++ jobs') c =
  match run_jobs cb jobs c with
  | (Done _, c') => run_jobs cb jobs' c'
  | r => r
  end.
Proof. revert c. induction jobs as [|j jobs IH]; intros c; simpl; [done|]. by destruct (cb j c) as [[]]. Qed.

Lemma run_jobs_cons {C} (cb : SignatureJob → SM C E unit) j jobs c :
  run_jobs cb (j :: jobs) c =
  match run_jobs cb [j] c with
  | (Done _, c') => run_jobs cb jobs c'
  | r => r
  end.
Proof. apply (run_jobs_app cb [j]). Qed.

Lemma add_u8_fits {E'} a b : (a + b ≤ 255)%N → add_u8 (E:=E') a b = Done (a + b)%N.
Proof. intros Hs. unfold add_u8. by rewrite (proj2 (N.leb_le _ _)). Qed.

Definition job_of ctx ins outs (tidx first : N) (i : nat) : SignatureJob :=
  {| signature_index := first; transaction_index := tidx; input_index := N.of_nat i;
     sighash := tagged sha TAPSIGHASH_TAG_HASH (bip341_message sha ctx ins outs i) |}.

Lemma tx_input_lookup ins outs i x : ins !! i = Some x → tx_inputs (tx_of ins outs) !! i = Some x.
Proof. intros Hx. simpl. by apply lookup_app_l_Some. Qed.

Lemma sign_controller {C} (cb : SignatureJob → SM C E unit) ins outs ctx cs tidx first i x (c : C) :
  ins !! i = Some x → controller x = true →
  gives (sign_input (tx_of ins outs) tidx ctx cs cb first i) c (Done first) c.
Proof.
  intros Hx Hc. unfold sign_input, at_index. rewrite (tx_input_lookup _ outs _ _ Hx).
  eapply gives_step; [apply gives_lift|]. rewrite Hc. apply gives_ret.
Qed.

Lemma sign_vault {C} (cb : SignatureJob → SM C E unit) ins outs ctx tidx first i x (c : C) o c' :
  ins !! i = Some x → controller x = false → ctx_wf ctx → (first + 1 ≤ 255)%N →
  gives (call cb (job_of ctx ins outs tidx first i) : SM (H * C) _ _) c o c' →
  gives (sign_input (tx_of ins outs) tidx ctx (components_of sha ctx ins outs) cb first i) c
    (and_then o (first + 1)%N) c'.
Proof using Laws.
  intros Hx Hc Hctx Hfits Hcall. unfold sign_input, at_index.
  rewrite (tx_input_lookup _ outs _ _ Hx).
  eapply gives_step; [apply gives_lift|]. rewrite Hc.
  eapply gives_writes; [apply message_writes; [apply components_of_wf|done]|].
  intros w Hw. eapply gives_slice; [exact Hw|].
  eapply gives_step; [unfold tagged_hash; apply gives_hash|].
  assert (sha (mjoin [TAPSIGHASH_TAG_HASH; TAPSIGHASH_TAG_HASH;
    message_bytes (components_of sha ctx ins outs) ctx i]) =
    tagged sha TAPSIGHASH_TAG_HASH (bip341_message sha ctx ins outs i)) as ->.
  { unfold tagged. f_equal. cbn [mjoin list_join]. by rewrite app_nil_r. }
  destruct o as [[]|e|]; simpl.
  - eapply gives_bind; [exact Hcall|]. rewrite add_u8_fits by done. apply gives_lift.
  - by eapply gives_bind_fail.
  - by eapply gives_bind_abort.
Qed.

Lemma gives_call {C} (cb : SignatureJob → SM C E unit) job c :
  gives (call cb job : SM (H * C) _ _) c (run_jobs cb [job] c).1 (run_jobs cb [job] c).2.
Proof. intros h. exists h. simpl. by destruct (cb job c) as [[[]|e|] c']. Qed.

Lemma sign_loop {C} (cb : SignatureJob → SM C E unit) ins outs ctx tidx idx first (c : C) :
  ctx_wf ctx → Forall (λ i, i < length ins) idx → (first + N.of_nat (length idx) ≤ 255)%N →
  let vault := filter (λ i, controller <$> ins !! i = Some false) idx in
  let r := run_jobs cb (number_jobs (bip341_message sha ctx ins outs) tidx first vault) c in
  gives (state_loop (sign_input (tx_of ins outs) tidx ctx (components_of sha ctx ins outs) cb)
      first idx) c (and_then r.1 (first + N.of_nat (length vault))%N) r.2.
Proof using Laws.
  intros Hctx Hidx. revert first c.
  induction Hidx as [|i idx Hi Hidx IH]; intros first c Hmax; cbn [state_loop].
  { cbn. rewrite N.add_0_r. apply gives_ret. }
  destruct (lookup_lt_is_Some_2 _ _ Hi) as [x Hx].
  cbn [length] in Hmax. rewrite filter_cons.
  destruct (controller x) eqn:Hc.
  { destruct (decide _) as [Hd|_]; [rewrite Hx in Hd; simpl in Hd; congruence|].
    eapply gives_step; [by eapply sign_controller|]. apply IH. lia. }
  destruct (decide _) as [_|Hd]; [|destruct Hd; rewrite Hx; simpl; congruence].
  cbn [number_jobs length]. cbv zeta.
  rewrite run_jobs_cons.
  assert (first + 1 ≤ 255)%N as Hfirst by lia.
  pose proof (sign_vault cb ins outs ctx tidx first i x c _ _ Hx Hc Hctx Hfirst
    (gives_call cb _ c)) as Hsign.
  unfold job_of in Hsign.
  destruct (run_jobs cb [_] c) as [[[]|e|] c1]; cbn [and_then fst snd] in *.
  - eapply gives_bind; [exact Hsign|].
    replace (first + N.of_nat (S (length (filter (λ i, controller <$> ins !! i = Some false) idx))))%N
      with (first + 1 + N.of_nat (length (filter (λ i, controller <$> ins !! i = Some false) idx)))%N by lia.
    apply IH. lia.
  - by eapply gives_bind_fail.
  - by eapply gives_bind_abort.
Qed.

(** The jobs of one transaction. *)
Definition tx_jobs ctx (ins : list TxInput) (outs : list TxOutput) (tidx first : N)
    : list SignatureJob :=
  number_jobs (bip341_message sha ctx ins outs) tidx first (vault_indexes ins).

Lemma gives_sighashes {C} (cb : SignatureJob → SM C E unit) ins outs ctx tidx first (c : C) :
  tx_wf ins outs → ctx_wf ctx → (first + N.of_nat (length ins) ≤ 255)%N →
  let r := run_jobs cb (tx_jobs ctx ins outs tidx first) c in
  gives (for_each_sighash (tx_of ins outs) tidx first ctx cb) c
    (and_then r.1 (first + N.of_nat (length (vault_indexes ins)))%N) r.2.
Proof using Laws.
  intros Hwf Hctx Hmax. unfold for_each_sighash.
  eapply gives_step; [by apply gives_components|].
  assert (N.to_nat (input_count (tx_of ins outs)) = length ins) as ->.
  { destruct Hwf as ([_ Hi] & _). cbn [tx_of input_count]. rewrite small_count by done. lia. }
  apply sign_loop; [done| |by rewrite length_seq].
  apply Forall_forall. intros i Hi%elem_of_seq. lia.
Qed.
End walk.
