(* ===== verification/ColdSignerGraph.v ===== *)
(** The annual graph of the signing workload: what the walk builds, that it
    conserves value at one satoshi per virtual byte, and the jobs it yields. *)

From S2P Require Import Prelude Bitcoin ColdSigner ColdSignerWriter ColdSignerWalk.

(** * Sizes *)

(** The signed shape of a policy transaction: a vault input reveals two
    signatures, the cooperative script and a control block of depth one; a
    controller input one signature, the controller script and a control
    block. *)
Definition vault_shape : nat * list nat := (0, [64; 64; 70; 65]).
Definition controller_shape : nat * list nat := (0, [64; 34; 65]).
Definition policy_shape (v c o : nat) : list (nat * list nat) * list nat :=
  (replicate v vault_shape ++ replicate c controller_shape, replicate o 34).
Definition fee (v c o : nat) : N := bip141_vsize (policy_shape v c o).

Lemma sumN_replicate {A} (f : A → N) n x : sumN (f <$> replicate n x) = (N.of_nat n * f x)%N.
Proof. 
  induction n as [|n IH]; [done|].
  change (f x + sumN (f <$> replicate n x) = N.of_nat (S n) * f x)%N. rewrite IH. lia. Qed.

Lemma policy_base_size v c o :
  v + c ≤ 252 → o ≤ 252 →
  base_size (policy_shape v c o) = (10 + N.of_nat (v + c) * 41 + N.of_nat o * 43)%N.
Proof.
  intros Hin Ho. unfold base_size, policy_shape, fst, snd.
  rewrite length_app, !length_replicate. unfold varint_len at 1 2.
  rewrite !(proj2 (N.ltb_lt _ 253)) by lia.
  rewrite fmap_app, sumN_app, !sumN_replicate.
  cbn beta. unfold vault_shape, controller_shape, fst.
  change (with_len 0) with 1%N. change (with_len 34) with 35%N. lia.
Qed.

Lemma policy_witness_size v c o :
  1 ≤ v + c →
  witness_size (policy_shape v c o) = (2 + N.of_nat v * 268 + N.of_nat c * 167)%N.
Proof.
  intros Hin. unfold witness_size, policy_shape, fst.
  destruct (forallb _ _) eqn:Hall.
  - exfalso. destruct v as [|v]; [destruct c as [|c]; [lia|done]|done].
  - rewrite fmap_app, sumN_app, !sumN_replicate.
    cbn beta. change (varint_len (length vault_shape.2) + sumN (with_len <$> vault_shape.2))%N with 268%N.
    change (varint_len (length controller_shape.2) + sumN (with_len <$> controller_shape.2))%N
      with 167%N. lia.
Qed.

Lemma policy_vsize_fee v c o :
  1 ≤ v + c → v + c ≤ 252 → o ≤ 252 →
  policy_vsize (N.of_nat v) (N.of_nat c) (N.of_nat o) = Done (fee v c o).
Proof.
  intros Hin Hmax Ho. unfold policy_vsize. rewrite add_u8_fits by lia. cbn [mbind outcome_bind].
  unfold fee, bip141_vsize, div_ceil, mret, outcome_ret.
  rewrite policy_base_size, policy_witness_size by lia.
  unfold P2TR_SCRIPT_LEN, COOPERATIVE_SCRIPT_LEN, COOPERATIVE_CONTROL_BLOCK_LEN,
    CONTROLLER_SCRIPT_LEN, CONTROLLER_CONTROL_BLOCK_LEN.
  f_equal. f_equal. lia.
Qed.

(** The device's fee estimate of a transaction with [v] vault inputs,
    [c] controller inputs and [o] outputs is the BIP141 virtual size of that
    transaction once signed, whenever its counts take one byte; more than 255
    inputs overflow the counter. *)
Theorem policy_vsize_is_bip141 v c o :
  (1 ≤ v + c ≤ 252 ∧ o ≤ 252 →
   policy_vsize (N.of_nat v) (N.of_nat c) (N.of_nat o) = Done (fee v c o)) ∧
  (255 < v + c → policy_vsize (N.of_nat v) (N.of_nat c) (N.of_nat o) = Abort).
Proof.
  split; [intros [[? ?] ?]; by apply policy_vsize_fee|].
  intros Hbig. unfold policy_vsize, add_u8. by rewrite (proj2 (N.leb_gt _ _)) by lia.
Qed.

Lemma policy_vsize_is_bip141_witness : policy_vsize 12 0 4 = Done (fee 12 0 4).
Proof. apply (proj1 (policy_vsize_is_bip141 12 0 4)). lia. Defined.

(** * The graph *)

(** A transaction by its inputs and outputs. *)
Abbreviation plan := (list TxInput * list TxOutput)%type.
Definition build (p : plan) : BenchmarkTransaction := tx_of p.1 p.2.

(** What funds [k] remaining months: their allowances and fees, less the
    connector that the first of them adds. *)
Definition chain_amount (k : nat) : N :=
  (N.of_nat k * MONTHLY_ALLOWANCE_SATS + N.of_nat (k - 1) * fee 1 1 3 + fee 1 1 1
   - CONNECTOR_VALUE_SATS)%N.
Definition rollover_rest (n : nat) : N :=
  (VAULT_BALANCE_SATS - chain_amount 12 - fee n 0 4 - 2 * CONNECTOR_VALUE_SATS)%N.
Definition staging_amount : N := (EMERGENCY_ACCESS_SATS + fee 1 1 1 - CONNECTOR_VALUE_SATS)%N.

Section graph.
Variable sha : list N → list N.
Variable cfg : BenchmarkConfig.

Definition plan_txid (p : plan) : list N := transaction_id sha p.1 p.2.

Definition monthly_script (k : nat) : list N :=
  default [] (monthly_hot_scripts cfg !! (12 - k)).

(** The authorization with [k] months left, itself included; the last one
    leaves nothing in the vault. *)
Definition authorization (prev : list N) (out : N) (k : nat) : plan :=
  ([vault_input prev out (chain_amount k) MONTHLY_DELAY_SEQUENCE; connector_input prev 2],
   {| out_amount_sats := MONTHLY_ALLOWANCE_SATS; out_script_pubkey := monthly_script k |} ::
   (if bool_decide (k = 1) then []
    else [vault_output cfg (chain_amount (k - 1)); controller_output cfg])).

Fixpoint authorizations (prev : list N) (out : N) (k : nat) : list plan :=
  match k with
  | 0 => []
  | S k' => let p := authorization prev out k in p :: authorizations (plan_txid p) 1 k'
  end.

Definition rollover_plan (n : nat) : plan :=
  (take n (rollover_inputs cfg),
   [vault_output cfg (chain_amount 12); vault_output cfg (rollover_rest n);
    controller_output cfg; controller_output cfg]).
Definition trigger_plan (n : nat) (rollover_txid : list N) : plan :=
  ([vault_input rollover_txid 1 (rollover_rest n) U32_MAX; connector_input rollover_txid 3],
   [vault_output cfg staging_amount;
    vault_output cfg (rollover_rest n - staging_amount - fee 1 1 3);
    controller_output cfg]).
Definition withdrawal_plan (trigger_txid : list N) : plan :=
  ([vault_input trigger_txid 0 staging_amount EMERGENCY_DELAY_SEQUENCE;
    connector_input trigger_txid 2],
   [{| out_amount_sats := EMERGENCY_ACCESS_SATS;
       out_script_pubkey := emergency_hot_script cfg |}]).

(** The fifteen transactions of a policy with [n] rollover inputs. *)
Definition annual_graph (n : nat) : list plan :=
  let r := plan_txid (rollover_plan n) in
  rollover_plan n :: authorizations r 0 12 ++
  [trigger_plan n r; withdrawal_plan (plan_txid (trigger_plan n r))].
End graph.

(** A configuration as [deterministic] makes it. *)
Record config_wf (cfg : BenchmarkConfig) (n : nat) : Prop := {
  wf_count : rollover_input_count cfg = N.of_nat n ∧ 1 ≤ n ≤ 12;
  wf_inputs : length (rollover_inputs cfg) = 12 ∧ Forall input_wf (rollover_inputs cfg);
  wf_vault : Forall (λ i, controller i = false) (take n (rollover_inputs cfg));
  wf_balance :
    sumN (in_amount_sats <$> take n (rollover_inputs cfg)) = VAULT_BALANCE_SATS;
  wf_monthly : length (monthly_hot_scripts cfg) = 12 ∧
    Forall (λ s, length s = 34) (monthly_hot_scripts cfg);
  wf_emergency : length (emergency_hot_script cfg) = 34;
  wf_scripts : length (vault_script_pubkey cfg) = 34 ∧ length (controller_script_pubkey cfg) = 34;
  wf_leaf : length (cooperative_leaf_hash cfg) = 32;
}.

(** What a policy transaction pays: its inputs are worth its outputs and one
    satoshi per virtual byte. *)
Definition pays_estimate (p : plan) : Prop :=
  let c := length (filter (λ i, controller i = true) p.1) in
  sumN (in_amount_sats <$> p.1) =
  (sumN (out_amount_sats <$> p.2) + fee (length p.1 - c) c (length p.2))%N.

Lemma fee_values : fee 1 1 3 = 331%N ∧ fee 1 1 1 = 245%N.
Proof. split; reflexivity. Qed.

Lemma fee_rollover n : n ≤ 12 → (fee n 0 4 ≤ 1500)%N.
Proof.
  intros Hn. do 13 (destruct n as [|n]; [vm_compute; discriminate|]). lia.
Qed.

(** The amounts, with the constants spelled out. *)
Lemma chain_amount_value k :
  1 ≤ k → chain_amount k = (N.of_nat k * 10000331 - 1086)%N.
Proof.
  intros Hk. unfold chain_amount. destruct fee_values as [-> ->].
  unfold MONTHLY_ALLOWANCE_SATS, CONNECTOR_VALUE_SATS. lia.
Qed.

Lemma rollover_rest_value n :
  n ≤ 12 → (rollover_rest n + fee n 0 4 = 89995114)%N ∧ (89993614 ≤ rollover_rest n)%N.
Proof.
  intros Hn. pose proof (fee_rollover n Hn). unfold rollover_rest.
  rewrite chain_amount_value by lia. unfold VAULT_BALANCE_SATS, CONNECTOR_VALUE_SATS. lia.
Qed.

Lemma staging_value : staging_amount = 49999245%N.
Proof. reflexivity. Qed.

Lemma no_controllers ins :
  Forall (λ i, controller i = false) ins → filter (λ i, controller i = true) ins = [].
Proof.
  induction 1 as [|i ins Hi Hins IH]; [done|]. rewrite filter_cons.
  destruct (decide _) as [Hc|_]; [congruence|done].
Qed.

Section conservation.
Context (sha : list N → list N) (cfg : BenchmarkConfig) (n : nat) (Hcfg : config_wf cfg n).

Lemma count_bounds : 1 ≤ n ≤ 12.
Proof using Hcfg. apply (wf_count _ _ Hcfg). Qed.

Lemma rollover_length : length (take n (rollover_inputs cfg)) = n.
Proof using Hcfg.
  destruct (wf_inputs _ _ Hcfg) as [Hl _]. pose proof count_bounds. rewrite length_take. lia.
Qed.

Lemma rollover_pays : pays_estimate (rollover_plan cfg n).
Proof using Hcfg.
  unfold pays_estimate, rollover_plan, fst, snd.
  rewrite no_controllers by apply (wf_vault _ _ Hcfg).
  rewrite (wf_balance _ _ Hcfg), rollover_length. cbn [length].
  rewrite Nat.sub_0_r. destruct count_bounds as [_ Hn]. destruct (rollover_rest_value n Hn).
  cbn. rewrite chain_amount_value by lia. unfold VAULT_BALANCE_SATS, CONNECTOR_VALUE_SATS. lia.
Qed.

Lemma authorization_pays prev out k :
  1 ≤ k ≤ 12 → pays_estimate (authorization cfg prev out k).
Proof using.
  intros Hk. unfold pays_estimate, authorization, fst, snd.
  change (filter _ [vault_input _ _ _ _; connector_input _ _]) with [connector_input prev 2].
  destruct (bool_decide (k = 1)) eqn:Hone; cbn.
  - apply bool_decide_eq_true in Hone as ->. reflexivity.
  - apply bool_decide_eq_false in Hone.
    rewrite !chain_amount_value by lia. change (fee 1 1 3) with 331%N.
    unfold MONTHLY_ALLOWANCE_SATS, CONNECTOR_VALUE_SATS. lia.
Qed.

Lemma authorizations_pay prev out k :
  k ≤ 12 → Forall pays_estimate (authorizations sha cfg prev out k).
Proof using.
  revert prev out. induction k as [|k IH]; intros prev out Hk; constructor.
  - apply authorization_pays. lia.
  - apply IH. lia.
Qed.

Lemma trigger_pays r : pays_estimate (trigger_plan cfg n r).
Proof using Hcfg.
  unfold pays_estimate, trigger_plan, fst, snd.
  change (filter _ [vault_input _ _ _ _; connector_input _ _]) with [connector_input r 3].
  cbn. change (fee 1 1 3) with 331%N. rewrite staging_value.
  destruct count_bounds as [_ Hn]. destruct (rollover_rest_value n Hn).
  unfold CONNECTOR_VALUE_SATS. lia.
Qed.

Lemma withdrawal_pays t : pays_estimate (withdrawal_plan cfg t).
Proof using. reflexivity. Qed.

Lemma annual_graph_pays : Forall pays_estimate (annual_graph sha cfg n).
Proof using Hcfg.
  constructor; [apply rollover_pays|]. apply Forall_app. split.
  - by apply authorizations_pay.
  - apply Forall_cons_2; [apply trigger_pays|].
    apply Forall_cons_2; [apply withdrawal_pays|]. apply Forall_nil_2.
Qed.
End conservation.

(** * Well-formedness of the graph's transactions *)

Section shapes.
Context (sha : list N → list N) (Hsha : ∀ bs, length (sha bs) = 32).
Context (cfg : BenchmarkConfig) (n : nat) (Hcfg : config_wf cfg n).

Definition plan_wf (p : plan) : Prop := tx_wf p.1 p.2.

Lemma plan_txid_length p : length (plan_txid sha p) = 32.
Proof using Hsha. apply Hsha. Qed.

Lemma rollover_plan_wf : plan_wf (rollover_plan cfg n).
Proof using Hcfg.
  destruct (wf_scripts _ _ Hcfg) as [Hv Hc]. unfold plan_wf, tx_wf, rollover_plan, fst, snd.
  rewrite (rollover_length cfg n Hcfg). pose proof (count_bounds cfg n Hcfg).
  split_and!; [lia..|simpl; lia|simpl; lia| |by repeat constructor].
  apply Forall_take, (wf_inputs _ _ Hcfg).
Qed.

Lemma monthly_script_length k : 1 ≤ k ≤ 12 → length (monthly_script cfg k) = 34.
Proof using Hcfg.
  intros Hk. destruct (wf_monthly _ _ Hcfg) as [Hl Hs]. unfold monthly_script.
  destruct (lookup_lt_is_Some_2 (monthly_hot_scripts cfg) (12 - k)) as [s Hk']; [lia|].
  rewrite Hk'. exact (Forall_lookup_1 _ _ _ _ Hs Hk').
Qed.

Lemma inputs_plan_wf ins outs :
  length ins = 2 → Forall input_wf ins → 1 ≤ length outs ≤ 4 → Forall output_wf outs →
  plan_wf (ins, outs).
Proof using. intros Hi Hins Ho Houts. unfold plan_wf, tx_wf. simpl. split_and!; [lia..|done|done]. Qed.

Lemma authorization_wf prev out k :
  length prev = 32 → 1 ≤ k ≤ 12 → plan_wf (authorization cfg prev out k).
Proof using Hcfg.
  intros Hp Hk. destruct (wf_scripts _ _ Hcfg) as [Hv Hc].
  pose proof (monthly_script_length k Hk) as Hm.
  apply inputs_plan_wf; [done|by repeat constructor| |];
    destruct (bool_decide (k = 1)); simpl; [lia|lia|by repeat constructor..].
Qed.

Lemma trigger_wf r : length r = 32 → plan_wf (trigger_plan cfg n r).
Proof using Hcfg.
  intros Hr. destruct (wf_scripts _ _ Hcfg) as [Hv Hc].
  apply inputs_plan_wf; [done|by repeat constructor|simpl; lia|by repeat constructor].
Qed.

Lemma withdrawal_wf t : length t = 32 → plan_wf (withdrawal_plan cfg t).
Proof using Hcfg.
  intros Ht. pose proof (wf_emergency _ _ Hcfg) as He.
  apply inputs_plan_wf; [done|by repeat constructor|simpl; lia|by repeat constructor].
Qed.
End shapes.

Lemma annual_graph_length sha cfg n : length (annual_graph sha cfg n) = 15.
Proof. reflexivity. Qed.
