(* ===== verification/ColdSignerJobs.v ===== *)
(** The configuration, the walk and the signing jobs: the theorems. *)

From S2P Require Import Prelude Bitcoin ColdSigner ColdSignerWriter ColdSignerWalk ColdSignerGraph.

Section config.
Context {H : Type} `{Hash : !Sha256 H} (sha : list N → list N) `{Laws : !Sha256Laws H sha}.

Lemma gives_fill {W A} (f : nat → SM (H * W) BenchmarkError A) (g : nat → A) (s : W) k :
  (∀ i, gives (f i) s (Done (g i)) s) →
  ∀ i l, i + k ≤ length l →
  gives (fill f l (seq i k)) s (Done (take i l ++ (g <$> seq i k) ++ drop (i + k) l)) s.
Proof.
  intros Hf. induction k as [|k IH]; intros i l Hl.
  - simpl. rewrite Nat.add_0_r, take_drop. apply gives_ret.
  - unfold fill. cbn [seq state_loop].
    eapply gives_step; [eapply gives_step; [apply Hf|apply gives_ret]|].
    assert (i < length l) as Hi by lia. destruct (lookup_lt_is_Some_2 _ _ Hi) as [x Hx].
    replace (take i l ++ (g <$> i :: seq (S i) k) ++ drop (i + S k) l)
      with (take (S i) (<[i:=g i]> l) ++ (g <$> seq (S i) k) ++ drop (S i + k) (<[i:=g i]> l)).
    { apply IH. rewrite length_insert. lia. }
    rewrite (take_S_r _ _ (g i)) by by apply list_lookup_insert_eq.
    rewrite take_insert_ge, drop_insert_lt by lia.
    rewrite <-app_assoc. replace (i + S k) with (S i + k) by lia. reflexivity.
Qed.

Definition rollover_value (n i : nat) : N :=
  (VAULT_BALANCE_SATS / N.of_nat n
   + bool_to_N (bool_decide (i = 0%nat)) * (VAULT_BALANCE_SATS mod N.of_nat n))%N.
Definition fake_input (n i : nat) : TxInput :=
  vault_input (sha (ascii_bytes "Anzen benchmark fake UTXO v1" ++ [(N.of_nat i mod 256)%N])) 0
    (rollover_value n i) U32_MAX.
Definition hot_script (i : nat) : list N :=
  p2tr_script (sha (ascii_bytes "Anzen benchmark monthly hot output v1" ++ [(N.of_nat i mod 256)%N])).

Definition config_of (n : nat) (vault_key controller_key leaf : list N) : BenchmarkConfig :=
  {| rollover_inputs :=
       (fake_input n <$> seq 0 n) ++ drop n (replicate MAX_ROLLOVER_INPUTS default_input);
     rollover_input_count := N.of_nat n;
     monthly_hot_scripts := hot_script <$> seq 0 12;
     emergency_hot_script := p2tr_script (sha (ascii_bytes "Anzen benchmark emergency hot output v1"));
     vault_script_pubkey := p2tr_script vault_key;
     controller_script_pubkey := p2tr_script controller_key;
     cooperative_leaf_hash := leaf |}.

Lemma gives_deterministic {S} n vk ck leaf (s : S) :
  1 ≤ n ≤ 12 →
  gives (deterministic (N.of_nat n) vk ck leaf : SM (H * S) _ _) s (Done (config_of n vk ck leaf)) s.
Proof using Laws.
  intros Hn. unfold deterministic.
  rewrite (proj2 (N.eqb_neq _ _)) by lia. rewrite Nat2N.id.
  unfold MAX_ROLLOVER_INPUTS at 1. rewrite bool_decide_eq_false_2 by lia. cbn [orb].
  eapply gives_step.
  { apply (gives_fill _ (fake_input n)).
    - intros i. unfold fake_utxo. eapply gives_step; [apply (gives_hash sha)|]. apply gives_ret.
    - rewrite length_replicate. unfold MAX_ROLLOVER_INPUTS. lia. }
  eapply gives_step.
  { apply (gives_fill _ hot_script).
    - intros i. unfold monthly_hot_script. eapply gives_step; [apply (gives_hash sha)|]. apply gives_ret.
    - rewrite length_replicate. done. }
  eapply gives_step; [apply (gives_hash sha)|]. apply gives_ret.
Qed.

Lemma deterministic_rejects {S} count vk ck leaf (s : S) h :
  (count = 0 ∨ 12 < count)%N →
  (deterministic count vk ck leaf : SM (H * S) _ _) (h, s) =
  (Fail InvalidRolloverInputCount, (h, s)).
Proof using.
  intros [->|Hbig]; unfold deterministic; [done|].
  unfold MAX_ROLLOVER_INPUTS at 1. rewrite (bool_decide_eq_true_2 (12 < N.to_nat count)) by lia.
  by rewrite orb_true_r.
Qed.

Lemma config_of_wf n vk ck leaf :
  1 ≤ n ≤ 12 → length vk = 32 → length ck = 32 → length leaf = 32 →
  config_wf (config_of n vk ck leaf) n.
Proof using Laws.
  intros Hn Hvk Hck Hleaf.
  assert (∀ bs, length (sha bs) = 32) as Hsha by exact (digest_length (H:=H)).
  assert (take n (rollover_inputs (config_of n vk ck leaf)) = fake_input n <$> seq 0 n) as Htake.
  { cbn [config_of rollover_inputs]. apply take_app_length'. by rewrite length_fmap, length_seq. }
  split; rewrite ?Htake.
  - split; [done|lia].
  - cbn [config_of rollover_inputs]. split.
    + rewrite length_app, length_fmap, length_seq, length_drop, length_replicate.
      unfold MAX_ROLLOVER_INPUTS. lia.
    + apply Forall_app. split.
      * apply Forall_fmap, Forall_forall. intros i _. apply Hsha.
      * apply Forall_drop, Forall_replicate. reflexivity.
  - apply Forall_fmap, Forall_forall. done.
  - rewrite <-list_fmap_compose.
    change (in_amount_sats ∘ fake_input n) with (rollover_value n). clear -Hn.
    do 13 (destruct n as [|n]; [first [lia|reflexivity]|]). lia.
  - split; [done|]. apply Forall_fmap, Forall_forall. intros i _.
    unfold compose, hot_script, p2tr_script. rewrite length_app, Hsha. done.
  - cbn [config_of emergency_hot_script]. unfold p2tr_script. by rewrite length_app, Hsha.
  - cbn. by rewrite Hvk, Hck.
  - done.
Qed.
End config.

(** * The walk *)

Section visiting.
Context {H St E : Type} `{Hash : !Sha256 H}.
Variable callback : BenchmarkTransaction → SM (H * St) (VisitError E) unit.

(** The closure sees the transactions of a list in order, up to its first
    failure. *)
Inductive visits : list plan → St → outcome (VisitError E) unit → St → Prop :=
  | visits_nil s : visits [] s (Done tt) s
  | visits_cons p ps s s1 o s' :
      gives (callback (build p)) s (Done tt) s1 → visits ps s1 o s' → visits (p :: ps) s o s'
  | visits_fail p ps s e s' :
      gives (callback (build p)) s (Fail e) s' → visits (p :: ps) s (Fail e) s'
  | visits_abort p ps s s' :
      gives (callback (build p)) s Abort s' → visits (p :: ps) s Abort s'.

Lemma gives_assoc {A B C} (m : SM (H * St) (VisitError E) A) (f : A → SM (H * St) (VisitError E) B)
    (g : B → SM (H * St) (VisitError E) C) s o s' :
  gives (a ← m; b ← f a; g b) s o s' → gives (b ← (a ← m; f a); g b) s o s'.
Proof.
  intros Hg h. destruct (Hg h) as [h' Hr]. exists h'. unfold mbind, SM_bind in *.
  by destruct (m (h, s)) as [[a|e|] [h1 s1]].
Qed.

Lemma gives_pure {A C} (x : A) (g : A → SM (H * St) (VisitError E) C) s o s' :
  gives (g x) s o s' → gives (a ← lift (graph (Done x)); g a) s o s'.
Proof. intros Hg. eapply gives_step; [apply gives_lift|done]. Qed.

Context (sha : list N → list N) `{Laws : !Sha256Laws H sha}.

(** One transaction of the walk, before the rest [k]. *)
Lemma gives_visit (k : list N → SM (H * St) (VisitError E) unit) p ps s o s' :
  plan_wf p → visits (p :: ps) s o s' →
  (∀ s1, visits ps s1 o s' → gives (k (plan_txid sha p)) s1 o s') →
  gives (id ← visit callback (build p); k id) s o s'.
Proof using Laws.
  intros Hwf Hv Hk. unfold visit. apply gives_assoc.
  inversion Hv; subst.
  - eapply gives_bind; [eassumption|]. eapply gives_step; [by apply gives_txid|]. by apply Hk.
  - by eapply gives_bind_fail.
  - by eapply gives_bind_abort.
Qed.

Lemma gives_last p s o s' : visits [p] s o s' → gives (callback (build p)) s o s'.
Proof.
  intros Hv. inversion Hv as [|p' ps s0 s1 o' s2 Hg Hnil|p' ps s0 e s1 Hg|p' ps s0 s1 Hg]; subst; [|done..].
  by inversion Hnil; subst.
Qed.
End visiting.

Section walking.
Context {H St E : Type} `{Hash : !Sha256 H}.
Context (sha : list N → list N) `{Laws : !Sha256Laws H sha}.
Variable callback : BenchmarkTransaction → SM (H * St) (VisitError E) unit.
Variables (cfg : BenchmarkConfig) (n : nat).
Hypothesis Hcfg : config_wf cfg n.

Lemma next_chain_ok k :
  1 ≤ k ≤ 12 →
  next_chain_value (chain_amount k) (bool_decide (k ≠ 1)) (if bool_decide (k ≠ 1) then 331 else 245)
  = Done (if bool_decide (k = 1) then 0%N else chain_amount (k - 1)).
Proof using.
  intros Hk. unfold next_chain_value. rewrite chain_amount_value by lia.
  unfold CONNECTOR_VALUE_SATS, MONTHLY_ALLOWANCE_SATS, checked_add, checked_sub.
  rewrite (proj2 (N.leb_le _ U64_MAX)) by (unfold U64_MAX; lia). simpl.
  destruct (decide (k = 1)) as [->|Hone]; [reflexivity|].
  rewrite (bool_decide_eq_true_2 (k ≠ 1)), (bool_decide_eq_false_2 (k = 1)) by done.
  rewrite chain_amount_value by lia.
  rewrite !(proj2 (N.leb_le _ _)) by lia. simpl.
  rewrite !(proj2 (N.leb_le _ _)) by lia. simpl.
  rewrite !(proj2 (N.leb_le _ _)) by lia. simpl. f_equal. lia.
Qed.

Lemma monthly_script_at k :
  1 ≤ k ≤ 12 → monthly_hot_scripts cfg !! (12 - k) = Some (monthly_script cfg k).
Proof using Hcfg.
  intros Hk. destruct (wf_monthly _ _ Hcfg) as [Hl _]. unfold monthly_script.
  destruct (lookup_lt_is_Some_2 (monthly_hot_scripts cfg) (12 - k)) as [x ->]; [lia|done].
Qed.

(** The state after the month with [k] left. *)
Definition next_inputs (prev : list N) (out : N) (k : nat) : TxInput * TxInput :=
  let id := plan_txid sha (authorization cfg prev out k) in
  if bool_decide (k = 1)
  then (vault_input prev out (chain_amount k) MONTHLY_DELAY_SEQUENCE, connector_input prev 2)
  else (vault_input id 1 (chain_amount (k - 1)) MONTHLY_DELAY_SEQUENCE, connector_input id 2).

Lemma walk_month (cont : TxInput * TxInput → SM (H * St) (VisitError E) unit)
    prev out k ps s o s' :
  1 ≤ k ≤ 12 → length prev = 32 →
  visits callback (authorization cfg prev out k :: ps) s o s' →
  (∀ s1, visits callback ps s1 o s' → gives (cont (next_inputs prev out k)) s1 o s') →
  gives (st ← monthly_step cfg 331 245 callback
      (vault_input prev out (chain_amount k) MONTHLY_DELAY_SEQUENCE, connector_input prev 2)
      (12 - k); cont st) s o s'.
Proof using Hcfg Laws.
  intros Hk Hprev Hv Hcont.
  pose proof (authorization_wf cfg n Hcfg prev out k Hprev Hk) as Hwf.
  unfold monthly_step.
  rewrite (bool_decide_ext (12 - k + 1 < MONTHLY_STEPS) (k ≠ 1)) by (unfold MONTHLY_STEPS; lia).
  cbn [vault_input in_amount_sats].
  rewrite next_chain_ok by done. apply gives_assoc, gives_pure.
  unfold at_index. rewrite monthly_script_at by done.
  apply gives_assoc. eapply gives_step; [apply gives_lift|]. cbv zeta.
  assert ((if bool_decide (k ≠ 1)
     then transaction_new
       [vault_input prev out (chain_amount k) MONTHLY_DELAY_SEQUENCE; connector_input prev 2]
       [{| out_amount_sats := MONTHLY_ALLOWANCE_SATS; out_script_pubkey := monthly_script cfg k |};
        vault_output cfg (if bool_decide (k = 1) then 0%N else chain_amount (k - 1));
        controller_output cfg]
     else if negb (N.eqb (if bool_decide (k = 1) then 0%N else chain_amount (k - 1)) 0%N)
     then Fail InsufficientValue
     else transaction_new
       [vault_input prev out (chain_amount k) MONTHLY_DELAY_SEQUENCE; connector_input prev 2]
       [{| out_amount_sats := MONTHLY_ALLOWANCE_SATS; out_script_pubkey := monthly_script cfg k |}])
     = Done (build (authorization cfg prev out k))) as ->.
  { unfold authorization, plan_wf in *. destruct (decide (k = 1)) as [Hone|Hone].
    - rewrite (bool_decide_eq_true_2 (k = 1)), (bool_decide_eq_false_2 (k ≠ 1)) in * by auto.
      by apply transaction_new_wf.
    - rewrite (bool_decide_eq_false_2 (k = 1)), (bool_decide_eq_true_2 (k ≠ 1)) in * by auto.
      by apply transaction_new_wf. }
  apply gives_assoc, gives_pure.
  apply gives_assoc. eapply (gives_visit callback sha); [done|exact Hv|].
  intros s1 Hs1. apply Hcont in Hs1.
  eapply gives_step; [apply gives_ret|].
  unfold next_inputs in Hs1. destruct (decide (k = 1)) as [Hone|Hone].
  - rewrite (bool_decide_eq_true_2 (k = 1)), (bool_decide_eq_false_2 (k ≠ 1)) in * by auto. exact Hs1.
  - rewrite (bool_decide_eq_false_2 (k = 1)), (bool_decide_eq_true_2 (k ≠ 1)) in * by auto. exact Hs1.
Qed.

Lemma walk_months (cont : TxInput * TxInput → SM (H * St) (VisitError E) unit) k :
  ∀ prev out rest s o s', k ≤ 12 → length prev = 32 →
  visits callback (authorizations sha cfg prev out k ++ rest) s o s' →
  (∀ st s1, visits callback rest s1 o s' → gives (cont st) s1 o s') →
  gives (st ← state_loop (monthly_step cfg 331 245 callback)
      (vault_input prev out (chain_amount k) MONTHLY_DELAY_SEQUENCE, connector_input prev 2)
      (seq (12 - k) k); cont st) s o s'.
Proof using Hcfg Laws.
  induction k as [|k IH]; intros prev out rest s o s' Hk Hprev Hv Hcont.
  { eapply gives_step; [apply gives_ret|]. by apply Hcont. }
  cbn [seq state_loop]. apply gives_assoc. cbn [authorizations app] in Hv.
  eapply walk_month; [lia|done|exact Hv|]. intros s1 Hs1.
  unfold next_inputs. destruct (decide (k = 0)) as [->|Hk0].
  - eapply gives_step; [apply gives_ret|]. by apply Hcont.
  - rewrite bool_decide_eq_false_2 by lia.
    replace (S (12 - S k)) with (12 - k) by lia.
    replace (S k - 1) with k in * by lia.
    eapply IH; [lia| |exact Hs1|done].
    destruct Laws as [_ Hlen]. apply Hlen.
Qed.

Lemma emergency_ok r s o s' :
  length r = 32 →
  visits callback [trigger_plan cfg n r; withdrawal_plan cfg (plan_txid sha (trigger_plan cfg n r))]
    s o s' →
  gives (emergency_step cfg r (rollover_rest n) callback) s o s'.
Proof using Hcfg Laws.
  intros Hr Hv. destruct (rollover_rest_value n) as [_ Hrest].
  { apply (wf_count _ _ Hcfg). }
  pose proof (trigger_wf cfg n Hcfg r Hr) as Hwf.
  assert (length (plan_txid sha (trigger_plan cfg n r)) = 32) as Ht.
  { destruct Laws as [_ Hlen]. apply Hlen. }
  pose proof (withdrawal_wf cfg n Hcfg _ Ht) as Hwf2.
  unfold emergency_step.
  change (policy_vsize 1 1 1) with (Done 245%N : outcome BenchmarkError N).
  change (policy_vsize 1 1 3) with (Done 331%N : outcome BenchmarkError N).
  apply gives_pure.
  change (v ← checked_add EMERGENCY_ACCESS_SATS 245; checked_sub v CONNECTOR_VALUE_SATS)
    with (Some staging_amount).
  apply gives_pure, gives_pure.
  assert ((v ← checked_sub (rollover_rest n) staging_amount; checked_sub v 331) =
    Some (rollover_rest n - staging_amount - fee 1 1 3)%N) as ->.
  { rewrite staging_value. change (fee 1 1 3) with 331%N.
    unfold checked_sub. rewrite (proj2 (N.leb_le _ _)) by lia. cbn [mbind option_bind].
    by rewrite (proj2 (N.leb_le _ _)) by lia. }
  apply gives_pure. rewrite transaction_new_wf by exact Hwf. apply gives_pure.
  eapply (gives_visit callback sha _ (trigger_plan cfg n r)); [done|exact Hv|]. intros s1 Hs1.
  rewrite transaction_new_wf by exact Hwf2. apply gives_pure.
  by apply (gives_last callback (withdrawal_plan cfg _)).
Qed.

Lemma walk_ok s o s' :
  visits callback (annual_graph sha cfg n) s o s' → gives (walk_transactions cfg callback) s o s'.
Proof using Hcfg Laws.
  intros Hv. destruct (wf_count _ _ Hcfg) as [Hcount Hn].
  destruct (wf_inputs _ _ Hcfg) as [Hinputs _].
  assert (length (plan_txid sha (rollover_plan cfg n)) = 32) as Hr.
  { destruct Laws as [_ Hlen]. apply Hlen. }
  unfold walk_transactions.
  change (policy_vsize 1 1 3) with (Done 331%N : outcome BenchmarkError N).
  change (policy_vsize 1 1 1) with (Done 245%N : outcome BenchmarkError N).
  apply gives_pure, gives_pure.
  change (allowance_value 331 245) with (Done (chain_amount 12) : outcome BenchmarkError N).
  apply gives_pure. rewrite Hcount.
  change (policy_vsize (N.of_nat n) 0 4) with (policy_vsize (N.of_nat n) (N.of_nat 0) (N.of_nat 4)).
  rewrite (policy_vsize_fee n 0 4) by lia. apply gives_pure.
  assert (rollover_remainder (chain_amount 12) (fee n 0 4) = Done (rollover_rest n)) as ->.
  { unfold rollover_remainder, rollover_rest. pose proof (fee_rollover n ltac:(lia)).
    rewrite chain_amount_value by lia. unfold VAULT_BALANCE_SATS, CONNECTOR_VALUE_SATS, checked_sub.
    rewrite (proj2 (N.leb_le _ _)) by lia. cbn [mbind option_bind].
    rewrite (proj2 (N.leb_le _ _)) by lia. cbn [mbind option_bind].
    rewrite (proj2 (N.leb_le _ _)) by lia. cbn [ok_or]. f_equal. }
  apply gives_pure. unfold rollover_step. apply gives_assoc.
  unfold slice_to. rewrite Hcount, Nat2N.id, bool_decide_eq_true_2 by lia.
  eapply gives_step; [apply gives_lift|].
  rewrite transaction_new_wf by exact (rollover_plan_wf cfg n Hcfg).
  apply gives_assoc, gives_pure.
  eapply (gives_visit callback sha _ (rollover_plan cfg n));
    [exact (rollover_plan_wf cfg n Hcfg)|exact Hv|].
  intros s1 Hs1. eapply (walk_months _ 12); [lia|exact Hr|exact Hs1|].
  intros st s2 Hs2. by apply emergency_ok.
Qed.
End walking.
