(* ===== verification/ColdSignerTheorems.v ===== *)
(** The theorems of the signing workload: the graph that is walked and the
    jobs that reach the caller. *)

From S2P Require Import Prelude Bitcoin ColdSigner ColdSignerWriter ColdSignerWalk ColdSignerGraph ColdSignerJobs.

(** * Inputs are outputs of earlier transactions *)

Section linked.
Context (sha : list N → list N) (cfg : BenchmarkConfig).

(** An earlier transaction has the output that an input names, with the
    amount and the script its signature message commits to. *)
Definition funded (earlier : list plan) (i : TxInput) : Prop :=
  ∃ p o, p ∈ earlier ∧ plan_txid sha p = previous_txid i ∧
    p.2 !! N.to_nat (previous_vout i) = Some o ∧ out_amount_sats o = in_amount_sats i ∧
    out_script_pubkey o =
      (if controller i then controller_script_pubkey cfg else vault_script_pubkey cfg).

Fixpoint linked (earlier ps : list plan) : Prop :=
  match ps with
  | [] => True
  | p :: ps' => Forall (funded earlier) p.1 ∧ linked (earlier ++ [p]) ps'
  end.

Lemma funded_app earlier more i : funded earlier i → funded (earlier ++ more) i.
Proof. intros (p & o & Hp & Hr). exists p, o. split; [|done]. apply elem_of_app. by left. Qed.

Lemma funded_last earlier p i o :
  plan_txid sha p = previous_txid i → p.2 !! N.to_nat (previous_vout i) = Some o →
  out_amount_sats o = in_amount_sats i →
  out_script_pubkey o =
    (if controller i then controller_script_pubkey cfg else vault_script_pubkey cfg) →
  funded (earlier ++ [p]) i.
Proof. intros. exists p, o. split_and!; [|done..]. apply elem_of_app. right. by apply list_elem_of_singleton. Qed.

Lemma linked_app earlier ps qs :
  linked earlier (ps ++ qs) ↔ linked earlier ps ∧ linked (earlier ++ ps) qs.
Proof.
  revert earlier. induction ps as [|p ps IH]; intros earlier; simpl.
  - rewrite app_nil_r. tauto.
  - rewrite IH, <-app_assoc. simpl. tauto.
Qed.

Lemma authorizations_linked k : ∀ earlier prev out,
  (k ≠ 0 → funded earlier (vault_input prev out (chain_amount k) MONTHLY_DELAY_SEQUENCE)) →
  (k ≠ 0 → funded earlier (connector_input prev 2)) →
  linked earlier (authorizations sha cfg prev out k).
Proof.
  induction k as [|k IH]; intros earlier prev out Hv Hc; [done|].
  cbn [authorizations linked]. split.
  - apply Forall_cons_2; [by apply Hv|]. apply Forall_cons_2; [by apply Hc|]. apply Forall_nil_2.
  - assert (k ≠ 0 → bool_decide (S k = 1) = false) as Hk.
    { intros ?. apply bool_decide_eq_false. lia. }
    assert (S k - 1 = k) as Hpred by lia.
    apply IH; intros Hk0.
    + apply (funded_last _ _ _ (vault_output cfg (chain_amount k))); [done| |done..].
      unfold authorization, snd. rewrite Hk, Hpred by done. reflexivity.
    + apply (funded_last _ _ _ (controller_output cfg)); [done| |done..].
      unfold authorization, snd. rewrite Hk by done. reflexivity.
Qed.

Lemma annual_graph_linked n :
  linked [rollover_plan cfg n] (tail (annual_graph sha cfg n)).
Proof.
  unfold annual_graph, tail. apply linked_app.
  assert (∀ o v a s, (rollover_plan cfg n).2 !! N.to_nat v = Some o → out_amount_sats o = a →
    out_script_pubkey o = vault_script_pubkey cfg →
    funded [rollover_plan cfg n] (vault_input (plan_txid sha (rollover_plan cfg n)) v a s)) as Hroll.
  { intros. by eapply (funded_last []). }
  assert (∀ v, v ∈ [2; 3]%N →
    funded [rollover_plan cfg n] (connector_input (plan_txid sha (rollover_plan cfg n)) v)) as Hconn.
  { intros v Hv. apply (funded_last [] _ _ (controller_output cfg)); [done| |done..].
    repeat (apply elem_of_cons in Hv as [->|Hv]; [reflexivity|]). by apply not_elem_of_nil in Hv. }
  split.
  - apply authorizations_linked; intros _.
    + by eapply Hroll.
    + apply Hconn. by left.
  - cbn [linked]. split; [|split; [|done]].
    + apply Forall_cons_2; [apply funded_app; by eapply Hroll|].
      apply Forall_cons_2; [|apply Forall_nil_2]. apply funded_app, Hconn. right. by left.
    + apply Forall_cons_2; [by apply (funded_last _ _ _ (vault_output cfg staging_amount))|].
      apply Forall_cons_2; [|apply Forall_nil_2]. by apply (funded_last _ _ _ (controller_output cfg)).
Qed.
End linked.

(** * The transactions that are walked *)

(** A closure that keeps what it sees. *)
Definition record {H E} (t : BenchmarkTransaction)
    : SM (H * list BenchmarkTransaction) (VisitError E) unit := λ '(h, l), (Done tt, (h, l ++ [t])).

Lemma visits_record {H E} (ps : list plan) l :
  visits (record (H:=H) (E:=E)) ps l (Done tt) (l ++ (build <$> ps)).
Proof.
  revert l. induction ps as [|p ps IH]; intros l.
  - rewrite app_nil_r. constructor.
  - eapply visits_cons; [by intros h; exists h|].
    change (l ++ (build <$> p :: ps)) with (l ++ [build p] ++ (build <$> ps)).
    rewrite app_assoc. apply IH.
Qed.

(** * The jobs *)

Section jobs.
Context {H E : Type} `{Hash : !Sha256 H} (sha : list N → list N) `{Laws : !Sha256Laws H sha}.

Definition vault_count (p : plan) : nat := length (vault_indexes p.1).
Definition total_jobs (ps : list plan) : nat := sum_list_with vault_count ps.

Fixpoint all_jobs (ctx : SighashContext) (ps : list plan) (tidx first : N) : list SignatureJob :=
  match ps with
  | [] => []
  | p :: ps' =>
      tx_jobs sha ctx p.1 p.2 tidx first ++
      all_jobs ctx ps' (tidx + 1) (first + N.of_nat (vault_count p))
  end.

Definition context_of (cfg : BenchmarkConfig) : SighashContext :=
  {| ctx_vault_script_pubkey := vault_script_pubkey cfg;
     ctx_controller_script_pubkey := controller_script_pubkey cfg;
     ctx_cooperative_leaf_hash := cooperative_leaf_hash cfg |}.

(** The jobs of a policy with [n] rollover inputs. *)
Definition annual_jobs (cfg : BenchmarkConfig) (n : nat) : list SignatureJob :=
  all_jobs (context_of cfg) (annual_graph sha cfg n) 0 0.

Lemma vault_count_le p : vault_count p ≤ length p.1.
Proof using.
  unfold vault_count, vault_indexes. etrans; [apply length_filter|]. by rewrite length_seq.
Qed.

Lemma number_jobs_numbered msg tidx idx first k j :
  number_jobs sha msg tidx first idx !! k = Some j → signature_index j = (first + N.of_nat k)%N.
Proof using.
  revert first k. induction idx as [|i idx IH]; intros first [|k]; simpl; [done..| |].
  - intros [= <-]. simpl. lia.
  - intros ->%IH. lia.
Qed.

Lemma number_jobs_length msg tidx idx first : length (number_jobs sha msg tidx first idx) = length idx.
Proof using. revert first. induction idx as [|i idx IH]; intros first; simpl; [done|]. by rewrite IH. Qed.

Lemma all_jobs_length ctx ps tidx first : length (all_jobs ctx ps tidx first) = total_jobs ps.
Proof using.
  revert tidx first. induction ps as [|p ps IH]; intros tidx first; simpl; [done|].
  unfold tx_jobs. by rewrite length_app, number_jobs_length, IH.
Qed.

Lemma all_jobs_numbered ctx ps tidx first k j :
  all_jobs ctx ps tidx first !! k = Some j → signature_index j = (first + N.of_nat k)%N.
Proof using.
  revert tidx first k. induction ps as [|p ps IH]; intros tidx first k; simpl; [done|].
  intros [Hj|[Hk Hj]]%lookup_app_Some.
  - by eapply number_jobs_numbered.
  - apply IH in Hj. unfold tx_jobs in *. rewrite number_jobs_length in *.
    unfold vault_count in *. lia.
Qed.

(** The closure of [for_each_signature_job] over a list of transactions. *)
Lemma visits_jobs {C} (cb : SignatureJob → SM C E unit) ctx ps tidx first (c : C) :
  ctx_wf ctx → Forall plan_wf ps →
  (tidx + N.of_nat (length ps) ≤ 255)%N → (first + N.of_nat (12 * length ps) ≤ 255)%N →
  let r := run_jobs cb (all_jobs ctx ps tidx first) c in
  ∃ next index, visits (H:=H) (on_transaction ctx cb) ps (first, tidx, c) r.1 (next, index, r.2) ∧
    (∀ u, r.1 = Done u → next = (first + N.of_nat (total_jobs ps))%N ∧
      index = (tidx + N.of_nat (length ps))%N).
Proof using Laws.
  intros Hctx Hps. revert tidx first c. induction Hps as [|p ps Hp Hps IH]; intros tidx first c Ht Hf.
  { exists first, tidx. split; [constructor|]. intros _ _. simpl. lia. }
  cbn [length] in Ht, Hf. cbn [all_jobs]. cbv zeta.
  pose proof (vault_count_le p) as Hvc. destruct Hp as (Hlen & Hp).
  pose proof (gives_sighashes sha cb p.1 p.2 ctx tidx first c (conj Hlen Hp) Hctx ltac:(lia)) as Hg.
  cbv zeta in Hg. rewrite run_jobs_app.
  destruct (run_jobs cb (tx_jobs sha ctx p.1 p.2 tidx first) c) as [[[]|e|] c1];
    cbn [fst snd and_then mbind outcome_bind] in Hg |- *.
  - destruct (IH (tidx + 1)%N (first + N.of_nat (vault_count p))%N c1) as (next & index & Hv & Hdone);
      [lia..|]. cbv zeta in Hv, Hdone.
    exists next, index. split.
    + eapply visits_cons; [|exact Hv]. intros h. destruct (Hg h) as [h' Hh]. exists h'.
      unfold on_transaction, build. rewrite Hh. by rewrite add_u8_fits by lia.
    + intros u Hu. destruct (Hdone u Hu) as [-> ->]. cbn [length].
      change (total_jobs (p :: ps)) with (vault_count p + total_jobs ps). lia.
  - exists first, tidx. split; [|done]. apply visits_fail. intros h. destruct (Hg h) as [h' Hh].
    exists h'. unfold on_transaction, build. by rewrite Hh.
  - exists first, tidx. split; [|done]. apply visits_abort. intros h. destruct (Hg h) as [h' Hh].
    exists h'. unfold on_transaction, build. by rewrite Hh.
Qed.

Lemma annual_graph_wf cfg n : config_wf cfg n → Forall plan_wf (annual_graph sha cfg n).
Proof using Laws.
  intros Hcfg. assert (∀ bs, length (sha bs) = 32) as Hsha by exact (digest_length (H:=H)).
  apply Forall_cons_2; [by eapply rollover_plan_wf|]. apply Forall_app. split.
  - assert (∀ k prev out, k ≤ 12 → length prev = 32 →
      Forall plan_wf (authorizations sha cfg prev out k)) as Hauth.
    { induction k as [|k IH]; intros prev out Hk Hprev; constructor.
      - eapply authorization_wf; [done..|lia].
      - apply IH; [lia|apply Hsha]. }
    apply Hauth; [lia|apply Hsha].
  - apply Forall_cons_2; [eapply trigger_wf; [done|apply Hsha]|].
    apply Forall_cons_2; [eapply withdrawal_wf; [done|apply Hsha]|]. apply Forall_nil_2.
Qed.

Lemma filter_all {A} (P : A → Prop) `{∀ x, Decision (P x)} l : Forall P l → filter P l = l.
Proof using.
  induction 1 as [|x l Hx Hl IH]; [done|]. rewrite filter_cons.
  destruct (decide _) as [_|Hn]; [by rewrite IH|done].
Qed.

Lemma all_vault_indexes ins :
  Forall (λ i, controller i = false) ins → length (vault_indexes ins) = length ins.
Proof using.
  intros Hins. unfold vault_indexes. rewrite filter_all; [apply length_seq|].
  apply Forall_forall. intros i [_ Hi]%elem_of_seq.
  destruct (lookup_lt_is_Some_2 ins i Hi) as [x Hx]. rewrite Hx. simpl. f_equal.
  by eapply Forall_lookup_1 in Hins.
Qed.

Lemma annual_total cfg n : config_wf cfg n → total_jobs (annual_graph sha cfg n) = n + 14.
Proof using.
  intros Hcfg.
  change (total_jobs (annual_graph sha cfg n)) with (vault_count (rollover_plan cfg n) + 14).
  f_equal. unfold vault_count. rewrite all_vault_indexes by apply (wf_vault _ _ Hcfg).
  by apply rollover_length.
Qed.
End jobs.

Section theorems.
Context {H E : Type} `{Hash : !Sha256 H} (sha : list N → list N) `{Laws : !Sha256Laws H sha}.

(** C11: for 1 to 12 rollover inputs the walk runs without error and builds
    exactly the fifteen transactions of the annual graph: the rollover, twelve
    monthly authorizations, the emergency trigger and its withdrawal.  Each of
    them pays one satoshi per estimated virtual byte and no more, and every
    input after the rollover's spends an output of an earlier transaction with
    the amount and the script it states.  Any other count is refused. *)
Theorem walk_builds_annual_graph count vk ck leaf (h : H) :
  length vk = 32 → length ck = 32 → length leaf = 32 →
  let n := N.to_nat count in
  ((1 ≤ count ≤ 12)%N →
   ∃ h1 h2, (deterministic count vk ck leaf : SM (H * unit) _ _) (h, tt) =
     (Done (config_of sha n vk ck leaf), (h1, tt)) ∧
   let cfg := config_of sha n vk ck leaf in
   let graph := annual_graph sha cfg n in
   walk_transactions (E:=E) cfg record (h1, []) = (Done tt, (h2, build <$> graph)) ∧
   length graph = 15 ∧ Forall pays_estimate graph ∧
   linked sha cfg [rollover_plan cfg n] (tail graph)) ∧
  (¬ (1 ≤ count ≤ 12)%N →
   (deterministic count vk ck leaf : SM (H * unit) _ _) (h, tt) =
     (Fail InvalidRolloverInputCount, (h, tt))).
Proof using Laws.
  intros Hvk Hck Hleaf n. split; [|intros Hn; apply deterministic_rejects; lia].
  intros Hn. assert (1 ≤ n ≤ 12) as Hn' by lia.
  assert (count = N.of_nat n) as Hcount by (unfold n; lia).
  destruct (gives_deterministic sha n vk ck leaf tt Hn' h) as [h1 H1].
  pose proof (config_of_wf sha n vk ck leaf Hn' Hvk Hck Hleaf) as Hcfg.
  destruct (walk_ok sha record _ n Hcfg [] (Done tt) _ (visits_record (E:=E) _ []) h1) as [h2 H2].
  exists h1, h2. rewrite Hcount at 1. split; [done|]. cbv zeta. split; [exact H2|].
  split; [done|]. split; [by apply annual_graph_pays|apply annual_graph_linked].
Qed.

(** The signing walk ends with its caller's outcome, and its jobs are counted. *)
Lemma signature_jobs_run {C} (callback : SignatureJob → SM C E unit) n vk ck leaf c :
  1 ≤ n ≤ 12 → length vk = 32 → length ck = 32 → length leaf = 32 →
  let cfg := config_of sha n vk ck leaf in
  let jobs := annual_jobs sha cfg n in
  length jobs = n + 14 ∧ ∀ h, ∃ h', for_each_signature_job cfg callback (h, c) =
    (and_then (run_jobs callback jobs c).1
       {| summary_rollover_inputs := N.of_nat n; summary_transactions := 15;
          summary_signature_jobs := N.of_nat (n + 14) |}, (h', (run_jobs callback jobs c).2)).
Proof using Laws.
  intros Hn Hvk Hck Hleaf cfg jobs.
  assert (config_wf cfg n) as Hcfg by by apply config_of_wf.
  assert (ctx_wf (context_of cfg)) as Hctx.
  { destruct (wf_scripts _ _ Hcfg). by split_and!. }
  pose proof (annual_graph_wf (H:=H) sha cfg n Hcfg) as Hps.
  destruct (visits_jobs sha callback (context_of cfg) _ 0 0 c Hctx Hps) as (next & index & Hv & Hdone);
    [vm_compute; discriminate..|].
  assert (length jobs = n + 14) as Hlen.
  { unfold jobs, annual_jobs. rewrite all_jobs_length. by apply annual_total. }
  split; [exact Hlen|]. intros h.
  destruct (walk_ok sha _ _ n Hcfg _ _ _ Hv h) as [h' Hwalk].
  change (all_jobs sha (context_of cfg) (annual_graph sha cfg n) 0 0) with jobs in *.
  destruct (run_jobs callback jobs c) as [o c'] eqn:Hrun. cbn [fst snd] in *.
  exists h'. unfold for_each_signature_job.
  change {| ctx_vault_script_pubkey := vault_script_pubkey cfg |} with (context_of cfg).
  rewrite Hwalk. destruct o as [[]|e|]; [|done..].
  destruct (Hdone tt eq_refl) as [-> ->]. unfold summary.
  rewrite (proj1 (wf_count _ _ Hcfg)), add_u8_fits by lia.
  cbn [mbind outcome_bind graph mret outcome_ret summary_transactions summary_signature_jobs].
  rewrite annual_graph_length, annual_total by done.
  unfold TRANSACTION_COUNT.
  rewrite !bool_decide_eq_true_2 by lia. cbn. do 3 f_equal. lia.
Qed.

(** C10: for 1 to 12 rollover inputs the signing walk terminates with its
    caller's outcome and no other: no buffer overflows, no counter wraps and no
    assertion fails.  The caller sees, in order and up to its first failure,
    exactly the [n + 14] jobs of the annual graph, numbered from zero, each with
    the BIP341 message hash of one vault input; when it accepts them all the
    summary counts 15 transactions and [n + 14] jobs. *)
Theorem signature_jobs_are_bip341 {C} (callback : SignatureJob → SM C E unit) n vk ck leaf h c :
  1 ≤ n ≤ 12 → length vk = 32 → length ck = 32 → length leaf = 32 →
  let cfg := config_of sha n vk ck leaf in
  let jobs := annual_jobs sha cfg n in
  let '(o, c') := run_jobs callback jobs c in
  (∃ h', for_each_signature_job cfg callback (h, c) =
    (and_then o {| summary_rollover_inputs := N.of_nat n; summary_transactions := 15;
                   summary_signature_jobs := N.of_nat (n + 14) |}, (h', c'))) ∧
  length jobs = n + 14 ∧ (∀ k j, jobs !! k = Some j → signature_index j = N.of_nat k).
Proof using Laws.
  intros Hn Hvk Hck Hleaf cfg jobs.
  destruct (signature_jobs_run callback n vk ck leaf c Hn Hvk Hck Hleaf) as [Hlen Hrun].
  specialize (Hrun h). fold cfg jobs in Hlen, Hrun. destruct (run_jobs callback jobs c) as [o c'].
  split_and!; [exact Hrun|exact Hlen|].
  intros k j Hj. unfold jobs, annual_jobs in Hj. apply all_jobs_numbered in Hj. lia.
Qed.
End theorems.

(** * Key normalisation *)

(** A big-endian integer. *)
Definition be (l : list N) : Z := foldl (λ a b, a * 256 + Z.of_N b)%Z 0%Z l.
Definition is_byte (b : N) : Prop := (b < 256)%N.
Definition FIELD_PRIME : Z := be SECP256K1_FIELD_PRIME.

Lemma be_snoc l b : be (l ++ [b]) = (be l * 256 + Z.of_N b)%Z.
Proof. unfold be. by rewrite foldl_app. Qed.

Lemma be_range l : Forall is_byte l → (0 ≤ be l < 256 ^ Z.of_nat (length l))%Z.
Proof.
  induction l as [|b l IH] using rev_ind; [done|].
  intros [Hl Hb]%Forall_app. apply Forall_cons_iff in Hb as [Hb _]. unfold is_byte in Hb.
  rewrite be_snoc, length_app, Nat2Z.inj_add, Z.pow_add_r by lia. specialize (IH Hl).
  change (256 ^ Z.of_nat (length [b]))%Z with 256%Z.
  generalize dependent (256 ^ Z.of_nat (length l))%Z. intros P HP. lia.
Qed.

(** Bytes [0] to [k - 1] of the subtraction, from the last one down. *)
Lemma negate_loop k : ∀ pre y borrow,
  length pre = 33 → length y = 32 → k ≤ 32 → Forall is_byte y → (borrow = 0 ∨ borrow = 1)%Z →
  ∃ y' borrow',
    fold_loop negate_byte (pre ++ y, borrow) (rev (seq 0 k)) = Done (pre ++ y', borrow') ∧
    length y' = 32 ∧ Forall is_byte y' ∧ drop k y' = drop k y ∧ (borrow' = 0 ∨ borrow' = 1)%Z ∧
    (be (take k SECP256K1_FIELD_PRIME) - be (take k y) - borrow =
     be (take k y') - borrow' * 256 ^ Z.of_nat k)%Z.
Proof.
  induction k as [|k IH]; intros pre y borrow Hpre Hy Hk Hbytes Hborrow.
  { exists y, borrow. split_and!; try done. change (0 - 0 - borrow = 0 - borrow * 1)%Z. lia. }
  rewrite seq_S, rev_app_distr. change (0 + k) with k. cbn [rev app fold_loop].
  destruct (lookup_lt_is_Some_2 SECP256K1_FIELD_PRIME k) as [p Hp]; [change (k < 32); lia|].
  destruct (lookup_lt_is_Some_2 y k) as [b Hb]; [lia|].
  assert (is_byte p) as Hpb.
  { assert (Forall is_byte SECP256K1_FIELD_PRIME) as Hall by by repeat constructor.
    exact (Forall_lookup_1 _ _ _ _ Hall Hp). }
  pose proof (Forall_lookup_1 _ _ _ _ Hbytes Hb) as Hbb. unfold is_byte in Hpb, Hbb.
  set (v := (Z.of_N p - Z.of_N b - borrow)%Z).
  set (r := (if (v <? 0)%Z then v + 256 else v)%Z).
  set (c := (if (v <? 0)%Z then 1 else 0)%Z).
  assert (0 ≤ r < 256 ∧ v = r - c * 256)%Z as [Hr Hv].
  { unfold r, c. destruct (Z.ltb_spec v 0); unfold v in *; lia. }
  assert (negate_byte (pre ++ y, borrow) k = Done (pre ++ <[k:=Z.to_N r]> y, c)) as ->.
  { unfold negate_byte, at_index. rewrite Hp.
    rewrite lookup_app_r by lia. replace (33 + k - length pre) with k by lia.
    rewrite Hb. cbn [mbind outcome_bind]. fold v.
    assert (∀ z, <[33 + k:=z]> (pre ++ y) = pre ++ <[k:=z]> y) as Hins.
    { intros z. rewrite insert_app_r_alt by lia. do 2 f_equal. lia. }
    unfold r, c. destruct (v <? 0)%Z; by rewrite Hins. }
  cbn [mbind outcome_bind].
  destruct (IH pre (<[k:=Z.to_N r]> y) c) as (y' & c' & -> & Hl' & Hby' & Hdrop & Hc' & Heq).
  - done.
  - by rewrite length_insert.
  - lia.
  - apply Forall_insert; [done|]. unfold is_byte. lia.
  - unfold c. destruct (v <? 0)%Z; auto.
  - exists y', c'. split_and!; try done.
    + replace (S k) with (k + 1) by lia. rewrite <-!drop_drop, Hdrop.
      rewrite !drop_drop, drop_insert_lt by lia. done.
    + assert (y' !! k = Some (Z.to_N r)) as Hyk.
      { apply (f_equal (.!! 0)) in Hdrop. rewrite !lookup_drop, Nat.add_0_r in Hdrop.
        rewrite Hdrop. apply list_lookup_insert_eq. lia. }
      rewrite (take_S_r _ _ _ Hp), (take_S_r _ _ _ Hb), (take_S_r _ _ _ Hyk), !be_snoc.
      rewrite take_insert_ge in Heq by lia.
      replace (256 ^ Z.of_nat (S k))%Z with (256 * 256 ^ Z.of_nat k)%Z
        by (rewrite Nat2Z.inj_succ, Z.pow_succ_r by lia; lia).
      rewrite Z2N.id by lia. unfold v in Hv. nia.
Qed.

Lemma last_byte_parity x y b :
  length x = 32 → length y = 32 → (4%N :: x ++ y) !! 64 = Some b →
  (N.land b 1 =? 1)%N = Z.odd (be y).
Proof.
  intros Hx Hy Hb. change ((x ++ y) !! 63 = Some b) in Hb.
  rewrite lookup_app_r in Hb by lia. rewrite Hx in Hb.
  assert (y = take 31 y ++ [b]) as Heq.
  { rewrite <-(take_S_r y 31 b) by done. rewrite take_ge; [done|lia]. }
  rewrite Heq, be_snoc.
  rewrite Z.odd_add, Z.odd_mul. cbn [Z.odd]. rewrite andb_false_r, xorb_false_l.
  by destruct b as [|[p|p|]].
Qed.

Lemma at_index_Some {E A} (l : list A) i a : l !! i = Some a → at_index (E:=E) l i = Done a.
Proof. intros Ha. unfold at_index. by rewrite Ha. Qed.

Lemma normalize_odd x y :
  length x = 32 → length y = 32 → Forall is_byte y → Z.odd (be y) = true →
  ∃ y', length y' = 32 ∧ Forall is_byte y' ∧
    if (be y <=? FIELD_PRIME)%Z
    then normalize_bip340_public_key (4%N :: x ++ y) = Done (4%N :: x ++ y') ∧
         be y' = (FIELD_PRIME - be y)%Z
    else normalize_bip340_public_key (4%N :: x ++ y) = Fail InvalidPublicKey.
Proof.
  intros Hx Hy Hb Hodd.
  destruct (lookup_lt_is_Some_2 (4%N :: x ++ y) 64) as [l Hl]; [simpl; rewrite length_app; lia|].
  destruct (negate_loop 32 (4%N :: x) y 0%Z) as (y' & b' & Hrun & Hly & Hby & _ & Hb' & Heq);
    [simpl; lia|done|lia|done|by left|].
  exists y'. split; [done|]. split; [done|].
  rewrite !take_ge in Heq by (rewrite ?Hy, ?Hly; done || lia).
  fold FIELD_PRIME in Heq. pose proof (be_range y' Hby) as Hr. rewrite Hly in Hr.
  assert (normalize_bip340_public_key (4%N :: x ++ y) =
    if negb (b' =? 0)%Z then Fail InvalidPublicKey else Done (4%N :: x ++ y')) as ->.
  { unfold normalize_bip340_public_key.
    rewrite (at_index_Some _ 0 4%N) by done. rewrite (at_index_Some _ _ _ Hl).
    cbn [mbind outcome_bind].
    rewrite (last_byte_parity x y l Hx Hy Hl), Hodd. cbn [N.eqb negb].
    change (4%N :: x ++ y) with ((4%N :: x) ++ y). by rewrite Hrun. }
  destruct Hb' as [->| ->], (Z.leb_spec (be y) FIELD_PRIME); cbn [Z.eqb negb]; try lia; [|done].
  split; [done|]. lia.
Qed.

(** C33: normalisation maps a point to BIP340's even form.  A key without
    the uncompressed prefix is refused; an even [y] is kept; an odd [y] up to
    the field prime [p] becomes [p - y], which is even, with [x] kept; and an
    odd [y] above [p] is refused. *)
Theorem normalize_negates_odd_y key x y :
  (∀ b, key !! 0 = Some b → b ≠ 4%N →
   normalize_bip340_public_key key = Fail InvalidPublicKey) ∧
  (key = 4%N :: x ++ y → length x = 32 → length y = 32 → Forall is_byte y →
   (Z.odd (be y) = false → normalize_bip340_public_key key = Done key) ∧
   (Z.odd (be y) = true → (FIELD_PRIME < be y)%Z →
    normalize_bip340_public_key key = Fail InvalidPublicKey) ∧
   (Z.odd (be y) = true → (be y ≤ FIELD_PRIME)%Z →
    ∃ y', normalize_bip340_public_key key = Done (4%N :: x ++ y') ∧ length y' = 32 ∧
      Forall is_byte y' ∧ be y' = (FIELD_PRIME - be y)%Z ∧ Z.odd (be y') = false)).
Proof.
  split.
  { intros b Hb Hne. unfold normalize_bip340_public_key, at_index. rewrite Hb.
    cbn [mbind outcome_bind]. by rewrite (proj2 (N.eqb_neq _ _)). }
  intros -> Hx Hy Hb. split_and!.
  - intros Heven. unfold normalize_bip340_public_key.
    rewrite (at_index_Some _ 0 4%N) by done.
    destruct (lookup_lt_is_Some_2 (4%N :: x ++ y) 64) as [l Hl]; [simpl; rewrite length_app; lia|].
    rewrite (at_index_Some _ _ _ Hl). cbn [mbind outcome_bind].
    by rewrite (last_byte_parity x y l Hx Hy Hl), Heven.
  - intros Hodd Hbig. destruct (normalize_odd x y Hx Hy Hb Hodd) as (y' & _ & _ & Hn).
    by rewrite (proj2 (Z.leb_gt _ _)) in Hn by done.
  - intros Hodd Hle. destruct (normalize_odd x y Hx Hy Hb Hodd) as (y' & Hly & Hby & Hn).
    rewrite (proj2 (Z.leb_le _ _)) in Hn by done. destruct Hn as [Hn Heq].
    exists y'. split_and!; try done. rewrite Heq, Z.odd_sub, Hodd. reflexivity.
Qed.

(** * Concrete instances *)

Definition toy_sha (bytes : list N) : list N :=
  le_bytes 32 (foldl (λ a b, (a * 257 + b + 1) mod 1000000007)%N 7%N bytes).
#[export] Instance toy_sha256 : Sha256 unit := λ parts h, (toy_sha (mjoin parts), h).
#[export] Instance toy_sha256_laws : Sha256Laws unit toy_sha.
Proof. split; [done|]. intros bytes. apply le_bytes_length. Qed.

(** A caller that counts the jobs and declines the fifth. *)
Definition toy_caller (job : SignatureJob) : SM N string unit := λ seen,
  if (signature_index job =? 4)%N then (Fail "declined", seen) else (Done tt, (seen + 1)%N).

Lemma walk_builds_annual_graph_witness :
  length (annual_graph toy_sha (config_of toy_sha 2 (toy_sha []) (toy_sha []) (toy_sha [])) 2) = 15 ∧
  (deterministic (H:=unit) 13 (toy_sha []) (toy_sha []) (toy_sha []) (tt, tt)).1 =
    Fail InvalidRolloverInputCount.
Proof.
  split.
  - destruct (proj1 (walk_builds_annual_graph (E:=string) toy_sha 2 (toy_sha []) (toy_sha [])
      (toy_sha []) tt eq_refl eq_refl eq_refl) ltac:(split; discriminate))
      as (h1 & h2 & _ & _ & Hl & _). exact Hl.
  - rewrite (proj2 (walk_builds_annual_graph (E:=string) toy_sha 13 (toy_sha []) (toy_sha [])
      (toy_sha []) tt eq_refl eq_refl eq_refl) ltac:(intros [_ Hb]; by apply Hb)). reflexivity.
Defined.

Lemma signature_jobs_are_bip341_witness :
  let cfg := config_of toy_sha 2 (toy_sha []) (toy_sha []) (toy_sha []) in
  ∃ h, for_each_signature_job cfg toy_caller (tt, 0%N) = (Fail (Callback "declined"), (h, 4%N)).
Proof.
  pose proof (signature_jobs_are_bip341 toy_sha toy_caller 2 (toy_sha []) (toy_sha []) (toy_sha [])
    tt 0%N ltac:(lia) eq_refl eq_refl eq_refl) as Hjobs.
  assert (run_jobs toy_caller (annual_jobs toy_sha
    (config_of toy_sha 2 (toy_sha []) (toy_sha []) (toy_sha [])) 2) 0%N =
    (Fail (Callback "declined"), 4%N)) as Hrun by (vm_compute; reflexivity).
  cbv zeta in Hjobs. rewrite Hrun in Hjobs. destruct Hjobs as [[h Hh] _]. exists h. exact Hh.
Defined.

Definition toy_x : list N := replicate 32 9%N.
Definition toy_y : list N := replicate 31 1%N ++ [3%N].

Lemma normalize_negates_odd_y_witness :
  ∃ y', normalize_bip340_public_key (4%N :: toy_x ++ toy_y) = Done (4%N :: toy_x ++ y') ∧
    be y' = (FIELD_PRIME - be toy_y)%Z.
Proof.
  destruct (normalize_negates_odd_y (4%N :: toy_x ++ toy_y) toy_x toy_y) as [_ Hn].
  assert (Forall is_byte toy_y) as Hb by by repeat constructor.
  destruct (Hn eq_refl eq_refl eq_refl Hb) as (_ & _ & Hodd).
  destruct (Hodd eq_refl ltac:(vm_compute; discriminate)) as (y' & Hrun & _ & _ & Heq & _).
  exists y'. exact (conj Hrun Heq).
Defined.
