(* ===== verification/ColdSignerScripts.v ===== *)
(** The hardware-wallet app builds the same scripts as the vault's policies. *)

From S2P Require Import Prelude Bitcoin Toy Types Policy ColdSigner.

Section scripts.
Context `{Laws : BitcoinLaws}.
Implicit Types (key phone hww : XOnlyPublicKey).

Lemma device_recovery_script key n :
  (32768 ≤ n ≤ 65535)%N →
  ColdSigner.recovery_script (key_serialize key) n = Policy.recovery_script key n.
Proof.
  intros Hn. rewrite recovery_script_bytes by done. unfold ColdSigner.recovery_script.
  rewrite N.shiftr_div_pow2. change (2 ^ 8)%N with 256%N.
  rewrite (N.mod_small (n / 256)); [reflexivity|].
  apply N.Div0.div_lt_upper_bound. lia.
Qed.

(** C37: the hardware-wallet app's fixed-size scripts are the scripts the
    vault's policies compile, byte for byte: the cooperative leaf, the two
    controller leaves and the two delayed recovery leaves, of 70, 34 and 40
    bytes. *)
Theorem device_scripts_match_policy phone hww :
  ColdSigner.cooperative_script (key_serialize phone) (key_serialize hww) =
    Policy.cooperative_script phone hww ∧
  ColdSigner.single_signature_script (key_serialize phone) = Policy.single_key_script phone ∧
  ColdSigner.recovery_script (key_serialize phone) ColdSigner.PHONE_RECOVERY_BLOCKS =
    Policy.recovery_script phone Types.PHONE_RECOVERY_BLOCKS ∧
  ColdSigner.recovery_script (key_serialize hww) ColdSigner.HWW_RECOVERY_BLOCKS =
    Policy.recovery_script hww Types.HWW_RECOVERY_BLOCKS ∧
  length (Policy.cooperative_script phone hww) = COOPERATIVE_SCRIPT_LEN ∧
  length (Policy.single_key_script phone) = CONTROLLER_SCRIPT_LEN ∧
  length (Policy.recovery_script phone Types.PHONE_RECOVERY_BLOCKS) = 40.
Proof.
  assert (ColdSigner.cooperative_script (key_serialize phone) (key_serialize hww) =
    Policy.cooperative_script phone hww) as Hcoop.
  { unfold Policy.cooperative_script.
    rewrite ?push_opcode_spec, push_int_two, ?push_opcode_spec, ?push_x_only_key_spec.
    unfold ColdSigner.cooperative_script. simpl. by rewrite <-!app_assoc. }
  assert (ColdSigner.single_signature_script (key_serialize phone) =
    Policy.single_key_script phone) as Hsingle.
  { unfold Policy.single_key_script. by rewrite push_opcode_spec, push_x_only_key_spec. }
  pose proof (device_recovery_script phone ColdSigner.PHONE_RECOVERY_BLOCKS
    ltac:(split; discriminate)) as Hphone.
  pose proof (device_recovery_script hww ColdSigner.HWW_RECOVERY_BLOCKS
    ltac:(split; discriminate)) as Hhww.
  split_and!; [exact Hcoop|exact Hsingle|exact Hphone|exact Hhww|..].
  - rewrite <-Hcoop. unfold ColdSigner.cooperative_script. simpl.
    rewrite length_app, key_serialize_length. simpl.
    by rewrite length_app, key_serialize_length.
  - rewrite <-Hsingle. unfold single_signature_script. simpl.
    by rewrite length_app, key_serialize_length.
  - change (Types.PHONE_RECOVERY_BLOCKS) with (ColdSigner.PHONE_RECOVERY_BLOCKS).
    rewrite <-Hphone. unfold ColdSigner.recovery_script. simpl.
    by rewrite length_app, key_serialize_length.
Qed.
End scripts.

Lemma device_scripts_match_policy_witness :
  ColdSigner.single_signature_script (key_serialize toy_phone) = Policy.single_key_script toy_phone.
Proof. exact (proj1 (proj2 (device_scripts_match_policy toy_phone toy_hww))). Defined.
