(* ===== verification/HotWallet.v ===== *)
(** The phone's everyday wallet ([hot_wallet/wallet.rs]) over the BDK wallet
    and its database, and the phone's world: its files, its random source,
    that database and the chain backend behind the [Blockchain] trait of
    [core/chain.rs]. *)

From S2P Require Import Prelude Bitcoin Types Keys FileSystem Storage Crypto Ceremony.

(** * What BDK and the backends offer *)

Inductive KeychainKind := External | Internal.

Record ChainTip := {
  tip_network : Network;
  tip_height : N;
  tip_median_time : N;
  tip_best_block_hash : string;
}.

(** The calls on BDK's transaction builder, kept as its arguments. *)
Record TxBuilder `{BitcoinTypes} := {
  builder_utxos : list OutPoint;
  manually_selected_only : bool;
  drain_wallet : bool;
  fee_rate : option N;
  drain_to : option ScriptBuf;
  recipients : list (ScriptBuf * N);
}.

Class BdkLib `{BitcoinTypes} := {
  (* The SQLite database, and a wallet loaded from it. *)
  Db : Type;
  BdkWallet : Type;
  connection_open : Db → option unit;
  load_wallet : string → string → Network → M Db (option BdkWallet);
  create_wallet : string → string → Network → M Db BdkWallet;
  persist : BdkWallet → M Db BdkWallet;
  reveal_next_address : KeychainKind → BdkWallet → Address * BdkWallet;
  get_utxo : BdkWallet → OutPoint → bool;
  (* [balance]: the total and its immature part. *)
  balance : BdkWallet → N * N;
  calculate_fee : BdkWallet → Transaction → option N;
  (* [add_utxo] fails for an output the wallet does not own. *)
  can_add_utxo : BdkWallet → OutPoint → bool;
  finish : TxBuilder → M BdkWallet Psbt;
  wallet_sign : BdkWallet → Psbt → option (Psbt * bool);
  (* The marker table of completed discovery scans. *)
  create_marker_table : M Db unit;
  discovered : Db → option bool;
  set_discovered : M Db unit;
  clear_discovered : M Db unit;
}.

(** * The phone's wallet *)

Record HotWallet `{BdkLib} := { wallet : BdkWallet; db : Db }.

Definition RECOVERY_STOP_GAP : N := 100.

Section hot_wallet.
Context `{BitcoinLib, !KeyLib, !BdkLib, !Json DeviceFile}.

Definition on_db {A} (m : M Db A) : M HotWallet A := λ h,
  let '(r, d) := m (db h) in (r, {| wallet := wallet h; db := d |}).

(** [self.wallet.persist(&mut self.db)?]. *)
Definition persist_wallet : M HotWallet unit := λ h,
  match persist (wallet h) (db h) with
  | (Ok w, d) => (Ok tt, {| wallet := w; db := d |})
  | (Err e, d) => (Err e, {| wallet := wallet h; db := d |})
  | (Panic, d) => (Panic, {| wallet := wallet h; db := d |})
  end.

Definition on_wallet {A} (m : M BdkWallet A) : M HotWallet A := λ h,
  let '(r, w) := m (wallet h) in (r, {| wallet := w; db := db h |}).

Definition open_or_create_with_keys (keys : DeviceKeys) : M Db BdkWallet :=
  descriptors ← pure (hot_private_descriptors keys);
  let '(external, internal) := descriptors in
  loaded ← load_wallet external internal (keys_network keys);
  w ← match loaded with
      | Some w => mret w
      | None => create_wallet external internal (keys_network keys)
      end;
  _ ← create_marker_table;
  mret w.

(** [open_or_create]: the directory, then the connection, then the wallet. *)
Definition open_or_create (data_dir : Path) : M (FS * Db) BdkWallet :=
  s ← get;
  keys ← pure (load_device_keys s.1 data_dir PHONE_DEVICE_FILE);
  _ ← on_fs (create_dir_all (parent (hot_db_path data_dir)));
  s ← get;
  _ ← pure (or_err (connection_open s.2) "failed to open hot wallet database");
  on_hot (open_or_create_with_keys keys).

Definition next_address (kind : KeychainKind) : M HotWallet Address :=
  address ← on_wallet (λ w, let '(a, w') := reveal_next_address kind w in (Ok a, w'));
  _ ← persist_wallet;
  mret address.

Definition hot_next_receive_address : M HotWallet Address := next_address External.
Definition next_change_address : M HotWallet Address := next_address Internal.

#[export] Instance hot_wallet_provider : HotAddressProvider HotWallet :=
  { next_receive_address := hot_next_receive_address }.

Definition request_full_scan : M HotWallet unit := on_db clear_discovered.

(** [builder.finish()?], then the signature, the transaction and the
    database. *)
Definition finish_signed (b : TxBuilder) (msg : string) : M HotWallet Transaction :=
  psbt ← on_wallet (finish b);
  h ← get;
  signed ← pure (or_err (wallet_sign (wallet h) psbt) "failed to sign");
  let '(psbt, finalized) := signed in
  _ ← pure (bail_if (negb finalized) msg);
  pure (or_err (extract psbt) "failed to extract transaction").

Definition build_soft_limit_return (authorization_outpoint : OutPoint)
    (monthly_limit_sats soft_limit_sats : N) (vault_script : ScriptBuf)
    : M HotWallet (option Transaction) :=
  _ ← pure (bail_if (monthly_limit_sats <? soft_limit_sats)%N
              "soft limit cannot exceed the active monthly limit");
  h ← get;
  _ ← pure (bail_if (negb (get_utxo (wallet h) authorization_outpoint))
              "hot wallet does not contain authorization output");
  if bool_decide (soft_limit_sats = monthly_limit_sats) then mret None else
  change ← next_change_address;
  requested ← pure (sub_u64 monthly_limit_sats soft_limit_sats);
  h ← get;
  _ ← pure (bail_if (negb (can_add_utxo (wallet h) authorization_outpoint)) "unknown utxo");
  let script := address_script_pubkey change in
  let b :=
    if bool_decide (soft_limit_sats = 0%N)
    then {| builder_utxos := [authorization_outpoint]; manually_selected_only := true;
            drain_wallet := false; fee_rate := Some 1%N; drain_to := Some vault_script;
            recipients := [] |}
    else {| builder_utxos := [authorization_outpoint]; manually_selected_only := true;
            drain_wallet := false; fee_rate := Some 1%N; drain_to := Some script;
            recipients := [(vault_script, requested)] |} in
  transaction ← finish_signed b "BDK could not finalize the soft-limit return transaction";
  _ ← persist_wallet;
  mret (Some transaction).

Definition build_payment (destination : ScriptBuf) (amount_sats : N)
    : M HotWallet (Transaction * N) :=
  _ ← pure (bail_if (bool_decide (amount_sats = 0%N)) "payment amount must be greater than zero");
  transaction ← finish_signed
    {| builder_utxos := []; manually_selected_only := false; drain_wallet := false;
       fee_rate := Some 1%N; drain_to := None; recipients := [(destination, amount_sats)] |}
    "BDK could not finalize the hot-wallet payment";
  h ← get;
  fee ← pure (or_err (calculate_fee (wallet h) transaction) "failed to calculate fee");
  _ ← persist_wallet;
  mret (transaction, fee).

Definition build_sweep (destination : ScriptBuf) : M HotWallet (option Transaction) :=
  h ← get;
  let '(total, immature) := balance (wallet h) in
  if bool_decide (total = immature) then mret None else
  transaction ← finish_signed
    {| builder_utxos := []; manually_selected_only := false; drain_wallet := true;
       fee_rate := Some 1%N; drain_to := Some destination; recipients := [] |}
    "BDK could not finalize the hot-wallet rotation sweep";
  _ ← persist_wallet;
  mret (Some transaction).
End hot_wallet.

(** * The backend and the phone's world *)

(** The traits [Blockchain] and [HotWalletBackend], on the state [B] of the
    backend and of the network behind it. *)
Class Blockchain `{BdkLib} (B : Type) := {
  backend_network : B → Network;
  chain_tip : M B ChainTip;
  scan_vault : VaultConfig → M B (list VaultUtxo);
  scan_connectors : VaultConfig → M B (list VaultUtxo);
  broadcast : Transaction → M B Txid;
  sync_hot_wallet : M (HotWallet * B) unit;
}.

Record World `{BdkLib, CryptoLib} (B : Type) := {
  w_fs : FS;
  w_rng : Rng;
  w_db : Db;
  w_chain : B;
}.
Arguments w_fs {_ _ _ _} w : rename.
Arguments w_rng {_ _ _ _} w : rename.
Arguments w_db {_ _ _ _} w : rename.
Arguments w_chain {_ _ _ _} w : rename.
Arguments Build_World {_ _ _ _} _ _ _ _ : rename.

Section world.
Context `{BitcoinLib, !KeyLib, !BdkLib, CryptoLib, !Json DeviceFile} {B : Type}.
Implicit Types (w : World B).

Definition at_fs {A} (m : M FS A) : M (World B) A := λ w,
  let '(r, f) := m (w_fs w) in (r, Build_World f (w_rng w) (w_db w) (w_chain w)).
Definition at_rng {A} (m : M Rng A) : M (World B) A := λ w,
  let '(r, g) := m (w_rng w) in (r, Build_World (w_fs w) g (w_db w) (w_chain w)).
Definition at_chain {A} (m : M B A) : M (World B) A := λ w,
  let '(r, b) := m (w_chain w) in (r, Build_World (w_fs w) (w_rng w) (w_db w) b).

(** [HotWallet::open_or_create], and a call on the wallet it returns: the
    database is the one on disk, the wallet is a local variable. *)
Definition open_hot (data_dir : Path) : M (World B) BdkWallet := λ w,
  let '(r, (f, d)) := open_or_create data_dir (w_fs w, w_db w) in
  (r, Build_World f (w_rng w) d (w_chain w)).
Definition at_hot {A} (bw : BdkWallet) (m : M HotWallet A) : M (World B) (A * BdkWallet) := λ w,
  let '(r, h) := m {| wallet := bw; db := w_db w |} in
  ((λ a, (a, wallet h)) <$> r, Build_World (w_fs w) (w_rng w) (db h) (w_chain w)).
Definition at_fs_hot {A} (bw : BdkWallet) (m : M (FS * HotWallet) A) : M (World B) A := λ w,
  let '(r, (f, h)) := m (w_fs w, {| wallet := bw; db := w_db w |}) in
  (r, Build_World f (w_rng w) (db h) (w_chain w)).
Definition at_hot_chain {A} (bw : BdkWallet) (m : M (HotWallet * B) A)
    : M (World B) (A * BdkWallet) := λ w,
  let '(r, (h, b)) := m ({| wallet := bw; db := w_db w |}, w_chain w) in
  ((λ a, (a, wallet h)) <$> r, Build_World (w_fs w) (w_rng w) (db h) b).

(** Reading: the files as they are. *)
Definition with_fs {A} (g : FS → result A) : M (World B) A := λ w, (g (w_fs w), w).
End world.
