(* ===== verification/Phone.v ===== *)
(** The phone's policy operations ([hot_wallet/mod.rs]): proposing and
    activating a policy, the monthly and emergency broadcasts, revocation, the
    soft limit, restoring and recovering, and the cooperative sweep. *)

From S2P Require Import Prelude Bitcoin Types Keys Policy Transactions FileSystem Storage Crypto Social Ceremony CeremonyValidate Recovery HotWallet.

(** * Data *)

Inductive TransactionKind := Authorization | Revocation.
#[export] Instance TransactionKind_eq_dec : EqDecision TransactionKind.
Proof. solve_decision. Defined.

Inductive EmergencyTransactionKind := Trigger | Withdrawal | Cancellation.
#[export] Instance EmergencyTransactionKind_eq_dec : EqDecision EmergencyTransactionKind.
Proof. solve_decision. Defined.

Record EncryptedTransaction := {
  artifact_version : N;
  artifact_step : N;
  artifact_kind : TransactionKind;
  artifact_txid : string;
  encrypted_psbt : EncryptedBlob;
}.

Record EncryptedEmergencyTransaction := {
  emergency_artifact_version : N;
  emergency_artifact_kind : EmergencyTransactionKind;
  emergency_artifact_txid : string;
  emergency_encrypted_psbt : EncryptedBlob;
}.

Section data.
Context `{BitcoinTypes}.

Record ScheduleEntry := {
  entry_step : N;
  entry_hot_address : string;
  entry_authorization_file : string;
  entry_authorization_txid : string;
  entry_connector : ConnectorState;
  entry_next_connector : option ConnectorState;
}.

Record EmergencyAccessSchedule := {
  es_amount_sats : N;
  es_delay_seconds : N;
  es_hot_address : string;
  es_trigger_file : string;
  es_trigger_txid : string;
  es_withdrawal_file : string;
  es_withdrawal_txid : string;
  es_trigger_connector : ConnectorState;
  es_withdrawal_connector : ConnectorState;
}.

Record Schedule := {
  schedule_version : N;
  schedule_rollover_txid : string;
  schedule_controller_descriptor : string;
  schedule_controller_address : string;
  schedule_connector_value_sats : N;
  schedule_monthly_limit_sats : N;
  schedule_monthly_delay_seconds : N;
  schedule_emergency_access_limit_sats : N;
  schedule_entries : list ScheduleEntry;
  schedule_emergency_access : option EmergencyAccessSchedule;
}.

(** The package itself, or the phone's encrypted copy of it. *)
Inductive ApprovedPolicyInput :=
  | InputPackage (package : PolicyPackage)
  | InputEncrypted (blob : EncryptedBlob).
End data.

(** * Names and purposes *)

Definition transaction_kind_name (kind : TransactionKind) : string :=
  match kind with
  | Authorization => "authorization"
  | Revocation => "revocation"
  end.

Definition emergency_transaction_kind_name (kind : EmergencyTransactionKind) : string :=
  match kind with
  | Trigger => "trigger"
  | Withdrawal => "withdrawal"
  | Cancellation => "cancellation"
  end.

Definition transaction_purpose (step : N) (kind : TransactionKind) (txid : string) : string :=
  "allowance/" +:+ pretty step +:+ "/" +:+ transaction_kind_name kind +:+ "/" +:+ txid.

Definition emergency_transaction_purpose (kind : EmergencyTransactionKind) (txid : string)
    : string :=
  "emergency/" +:+ emergency_transaction_kind_name kind +:+ "/" +:+ txid.

Definition policy_activation_purpose (txid : string) : string :=
  "policy-activation-v1:" +:+ txid.

Definition encrypted_transaction_path (epoch_dir : Path) (step : N) (kind : TransactionKind)
    : Path :=
  join epoch_dir ("allowance-" +:+ two_digits step +:+ "-" +:+ transaction_kind_name kind
                  +:+ ".json").

Definition emergency_transaction_path (epoch_dir : Path) (kind : EmergencyTransactionKind)
    (txid : string) : Path :=
  join epoch_dir ("emergency-" +:+ emergency_transaction_kind_name kind +:+ "-" +:+ txid
                  +:+ ".json").

(** [Path::strip_prefix], and the text of what is left. *)
Fixpoint strip_prefix (base path : Path) : option Path :=
  match base, path with
  | [], _ => Some path
  | a :: base', b :: path' => if bool_decide (a = b) then strip_prefix base' path' else None
  | _, [] => None
  end.

Definition component_text (c : Component) : string :=
  match c with
  | RootDir => ""
  | CurDir => "."
  | ParentDir => ".."
  | Normal s => s
  end.
Fixpoint path_text (p : Path) : string :=
  match p with
  | [] => ""
  | [RootDir] => "/"
  | [c] => component_text c
  | c :: p' => component_text c +:+ "/" +:+ path_text p'
  end.

Definition relative_to (base path : Path) : result string :=
  rest ← or_err (strip_prefix base path) "path is outside the data directory";
  mret (path_text rest).

(** [str::starts_with]. *)
Fixpoint starts_with (prefix s : string) : bool :=
  match prefix, s with
  | EmptyString, _ => true
  | String a prefix', String b s' => bool_decide (a = b) && starts_with prefix' s'
  | _, EmptyString => false
  end.

(** [str::parse::<Txid>]. *)
Class TxidText `{BitcoinTypes} := { txid_from_str : string → option Txid }.

Section phone.
Context `{BitcoinLib, !KeyLib, !BdkLib, !TxidText, CryptoLib, Json VaultConfig, !Json DeviceFile,
          Json PublicDeviceFile, Json BatchManifest, Json Schedule, Json PolicyPackage,
          JsonVec PolicyPackage, Json EncryptedTransaction, Json EncryptedEmergencyTransaction,
          Json EncryptedBlob, Json Transaction, Json bool}.
Context {B : Type} `{!Blockchain B}.

(** ** Reading *)

Definition open_approved_policy (f : FS) (data_dir : Path) (i : ApprovedPolicyInput)
    : result PolicyPackage :=
  match i with
  | InputPackage package => Ok package
  | InputEncrypted blob =>
      _ ← bail_if (negb (starts_with "policy-activation-v1:" (blob_purpose blob)))
            "encrypted artifact is not an approved policy backup";
      phone ← load_device_keys f data_dir PHONE_DEVICE_FILE;
      plaintext ← decrypt (seed phone) (blob_purpose blob) blob;
      package ← or_err (from_slice (string_of plaintext) : option PolicyPackage) "invalid JSON";
      _ ← bail_if (negb (bool_decide (blob_purpose blob =
              policy_activation_purpose (unsigned_txid (rollover (package_manifest package))))))
            "encrypted policy backup does not match its rollover";
      mret package
  end.

Definition load_schedule (f : FS) (data_dir : Path) : result Schedule :=
  schedule ← (read_json f (join data_dir SCHEDULE_FILE) : result Schedule);
  _ ← bail_if (negb (bool_decide (schedule_version schedule = 5%N)))
        "unsupported active policy version; approve a new vault policy";
  mret schedule.

Definition ensure_backend_network (config : VaultConfig) : M (World B) unit := λ w,
  (expected ← bitcoin_network config;
   bail_if (negb (bool_decide (backend_network (w_chain w) = expected)))
     "chain backend network does not match vault network", w).

Definition validate_schedule_controller (schedule : Schedule) (controller : ControllerPolicy)
    : result unit :=
  bail_if (negb (bool_decide (schedule_controller_descriptor schedule
                              = controller_descriptor_string controller))
           || negb (bool_decide (schedule_controller_address schedule
                                 = address_to_string (controller_address_of controller)))
           || negb (bool_decide (schedule_connector_value_sats schedule = CONNECTOR_VALUE_SATS)))
    "active schedule controller does not match the configured vault keys".

Definition ensure_connector_input (psbt : Psbt) (connector : ConnectorState) : result unit :=
  bail_if (negb (bool_decide ((previous_output <$> input (unsigned_tx psbt) !! 1)
                              = Some (connector_outpoint connector)))
           || negb (bool_decide ((value <$> (inputs psbt !! 1 ≫= witness_utxo))
                                 = Some (value_sats connector))))
    "encrypted policy PSBT does not consume the scheduled controller state".

Definition find_entry (schedule : Schedule) (step : N) : result ScheduleEntry :=
  or_err (List.find (λ e, bool_decide (entry_step e = step)) (schedule_entries schedule))
    "no allowance exists for step".

(** ** Proposing *)

Definition propose_policy (data_dir : Path) (now : Z)
    (monthly_limit_sats emergency_access_limit_sats : N) (batch_dir : Path)
    : M (World B) BatchManifest :=
  config ← with_fs (λ f, load_config f data_dir);
  _ ← ensure_backend_network config;
  utxos ← at_chain (scan_vault config);
  connectors ← at_chain (scan_connectors config);
  phone ← with_fs (λ f, load_device_keys f data_dir PHONE_DEVICE_FILE);
  w ← open_hot data_dir;
  at_fs_hot w (build_policy_proposal_with_connectors config utxos connectors now
    {| limits_monthly_limit_sats := monthly_limit_sats;
       limits_emergency_access_limit_sats := emergency_access_limit_sats |} batch_dir phone).

(** ** Activating *)

Definition write_encrypted_transaction (path : Path) (phone_seed : Bytes) (step : N)
    (kind : TransactionKind) (psbt : Psbt) : M (World B) unit :=
  let txid := txid_to_string (compute_txid (unsigned_tx psbt)) in
  blob ← at_rng (encrypt phone_seed (transaction_purpose step kind txid)
                   (bytes_of (psbt_to_string psbt)));
  at_fs (write_json path {| artifact_version := 3; artifact_step := step; artifact_kind := kind;
                            artifact_txid := txid; encrypted_psbt := blob |}).

Definition write_encrypted_emergency_transaction (path : Path) (phone_seed : Bytes)
    (kind : EmergencyTransactionKind) (psbt : Psbt) : M (World B) unit :=
  let txid := txid_to_string (compute_txid (unsigned_tx psbt)) in
  blob ← at_rng (encrypt phone_seed (emergency_transaction_purpose kind txid)
                   (bytes_of (psbt_to_string psbt)));
  at_fs (write_json path {| emergency_artifact_version := 2; emergency_artifact_kind := kind;
                            emergency_artifact_txid := txid; emergency_encrypted_psbt := blob |}).

Definition epoch_dir_of (data_dir : Path) (txid : Txid) : Path :=
  join (join data_dir "phone/transactions") (txid_to_string txid).

(** The epoch that the schedule names, if there is a schedule. *)
Definition previous_epoch_of (f : FS) (data_dir : Path) : result (option Txid) :=
  if is_file f (resolve f (join data_dir SCHEDULE_FILE)) then
    schedule ← load_schedule f data_dir;
    txid ← or_err (txid_from_str (schedule_rollover_txid schedule)) "invalid txid";
    mret (Some txid)
  else Ok None.

(** One authorization: encrypted for the phone and entered in the schedule. *)
Definition stage_allowance (data_dir epoch_dir batch_dir : Path) (phone : DeviceKeys)
    (allowance : AllowanceStep) : M (World B) ScheduleEntry :=
  authorization ← with_fs (λ f, read_psbt f (join batch_dir (psbt_file (authorization allowance))));
  let path := encrypted_transaction_path epoch_dir (step allowance) Authorization in
  _ ← write_encrypted_transaction path (seed phone) (step allowance) Authorization authorization;
  file ← pure (relative_to data_dir path);
  mret {| entry_step := step allowance; entry_hot_address := step_hot_address allowance;
          entry_authorization_file := file;
          entry_authorization_txid := txid_to_string (compute_txid (unsigned_tx authorization));
          entry_connector := connector allowance;
          entry_next_connector := next_connector allowance |}.

Fixpoint stage_allowances (data_dir epoch_dir batch_dir : Path) (phone : DeviceKeys)
    (l : list AllowanceStep) : M (World B) (list ScheduleEntry) :=
  match l with
  | [] => mret []
  | a :: l' =>
      e ← stage_allowance data_dir epoch_dir batch_dir phone a;
      rest ← stage_allowances data_dir epoch_dir batch_dir phone l';
      mret (e :: rest)
  end.

Definition stage_emergency (data_dir epoch_dir batch_dir : Path) (phone : DeviceKeys)
    (e : EmergencyAccessPolicy) : M (World B) EmergencyAccessSchedule :=
  trigger_psbt ← with_fs (λ f, read_psbt f (join batch_dir (psbt_file (trigger e))));
  withdrawal_psbt ← with_fs (λ f, read_psbt f (join batch_dir (psbt_file (withdrawal e))));
  let trigger_txid := txid_to_string (compute_txid (unsigned_tx trigger_psbt)) in
  let withdrawal_txid := txid_to_string (compute_txid (unsigned_tx withdrawal_psbt)) in
  let trigger_path := emergency_transaction_path epoch_dir Trigger trigger_txid in
  let withdrawal_path := emergency_transaction_path epoch_dir Withdrawal withdrawal_txid in
  _ ← write_encrypted_emergency_transaction trigger_path (seed phone) Trigger trigger_psbt;
  _ ← write_encrypted_emergency_transaction withdrawal_path (seed phone) Withdrawal
        withdrawal_psbt;
  trigger_file ← pure (relative_to data_dir trigger_path);
  withdrawal_file ← pure (relative_to data_dir withdrawal_path);
  mret {| es_amount_sats := amount_sats e; es_delay_seconds := emergency_delay_seconds e;
          es_hot_address := emergency_hot_address e; es_trigger_file := trigger_file;
          es_trigger_txid := trigger_txid; es_withdrawal_file := withdrawal_file;
          es_withdrawal_txid := withdrawal_txid; es_trigger_connector := trigger_connector e;
          es_withdrawal_connector := withdrawal_connector e |}.

(** Everything that is written before the rollover is sent, all of it in the
    directory of the new epoch. *)
Definition stage_epoch (data_dir epoch_dir batch_dir : Path) (phone : DeviceKeys)
    (manifest : BatchManifest) (rollover_tx : Transaction) : M (World B) Schedule :=
  let txid := txid_to_string (compute_txid rollover_tx) in
  package ← with_fs (λ f, package_from_batch f batch_dir);
  bytes ← pure (or_err (to_vec package) "failed to serialize");
  blob ← at_rng (encrypt (seed phone) (policy_activation_purpose txid) (bytes_of bytes));
  _ ← at_fs (write_json (join epoch_dir "approved-policy.json") blob);
  _ ← at_fs (write_json (join epoch_dir "rollover.json") rollover_tx);
  entries ← stage_allowances data_dir epoch_dir batch_dir phone (allowances manifest);
  emergency ← match emergency_access manifest with
              | Some e =>
                  s ← stage_emergency data_dir epoch_dir batch_dir phone e; mret (Some s)
              | None => mret None
              end;
  let schedule :=
    {| schedule_version := 5; schedule_rollover_txid := txid;
       schedule_controller_descriptor := controller_descriptor manifest;
       schedule_controller_address := controller_address manifest;
       schedule_connector_value_sats := connector_value_sats manifest;
       schedule_monthly_limit_sats := monthly_limit_sats manifest;
       schedule_monthly_delay_seconds := MONTHLY_ALLOWANCE_DELAY_SECONDS;
       schedule_emergency_access_limit_sats := emergency_access_limit_sats manifest;
       schedule_entries := entries; schedule_emergency_access := emergency |} in
  _ ← at_fs (write_json (join epoch_dir "schedule.json") schedule);
  mret schedule.

(** What is written once the rollover is accepted. *)
Definition activate_schedule (data_dir epoch_dir : Path) (previous_epoch : option Txid)
    (broadcast_txid : Txid) (manifest : BatchManifest) (schedule : Schedule)
    : M (World B) unit :=
  _ ← match previous_epoch with
      | Some previous =>
          if bool_decide (previous = broadcast_txid) then mret tt
          else at_fs (write_json (join (epoch_dir_of data_dir previous) "activated.json") true)
      | None => mret tt
      end;
  _ ← at_fs (write_json (join data_dir SCHEDULE_FILE) schedule);
  _ ← at_fs (set_policy_limits data_dir (monthly_limit_sats manifest)
               (emergency_access_limit_sats manifest));
  at_fs (write_json (join epoch_dir "activated.json") true).

Definition activate_policy (data_dir batch_dir : Path) : M (World B) Schedule :=
  config ← with_fs (λ f, load_config f data_dir);
  _ ← ensure_backend_network config;
  manifest ← with_fs (λ f, load_manifest f batch_dir);
  _ ← with_fs (λ f, validate_approved_batch config manifest f batch_dir);
  phone ← with_fs (λ f, load_device_keys f data_dir PHONE_DEVICE_FILE);
  rollover_psbt ← with_fs (λ f, read_psbt f (join batch_dir (psbt_file (rollover manifest))));
  rollover_tx ← pure (finalize_vault_psbt rollover_psbt);
  let txid := compute_txid rollover_tx in
  let epoch_dir := epoch_dir_of data_dir txid in
  previous_epoch ← with_fs (λ f, previous_epoch_of f data_dir);
  _ ← with_fs (λ f, bail_if (exists_ f (join epoch_dir "activated.json")
                             && match previous_epoch with
                                | Some previous => negb (bool_decide (previous = txid))
                                | None => false
                                end)
        "this policy epoch has already been superseded; refusing to reactivate it");
  schedule ← stage_epoch data_dir epoch_dir batch_dir phone manifest rollover_tx;
  broadcast_txid ← at_chain (broadcast rollover_tx);
  _ ← pure (bail_if (negb (bool_decide (broadcast_txid = txid)))
              "chain backend returned an unexpected rollover transaction ID");
  _ ← activate_schedule data_dir epoch_dir previous_epoch broadcast_txid manifest schedule;
  mret schedule.

(** ** Broadcasting *)

(** The decrypted PSBT of an artifact, whose id must be the recorded one. *)
Definition decrypt_psbt (phone : DeviceKeys) (purpose txid : string) (blob : EncryptedBlob)
    : result Psbt :=
  plaintext ← decrypt (seed phone) purpose blob;
  _ ← bail_if (negb (utf8 plaintext)) "decrypted PSBT was not UTF-8";
  psbt ← or_err (psbt_from_str (string_of plaintext)) "decrypted PSBT was invalid";
  _ ← bail_if (negb (bool_decide (txid_to_string (compute_txid (unsigned_tx psbt)) = txid)))
        "decrypted PSBT ID does not match its metadata";
  mret psbt.

(** The connector is checked and signed, and the transaction finalised. *)
Definition complete_with_controller (config : VaultConfig) (schedule : Schedule)
    (phone : DeviceKeys) (connector : ConnectorState) (psbt : Psbt) : result Transaction :=
  _ ← ensure_connector_input psbt connector;
  controller ← controller_policy config;
  _ ← validate_schedule_controller schedule controller;
  psbt ← exec (sign_controller_psbt_inputs controller PhonePath (vault_keypair phone) [1]) psbt;
  finalize_vault_psbt psbt.

Definition revoke_connector_to_phone (data_dir : Path) (config : VaultConfig)
    (phone : DeviceKeys) (connector : ConnectorState) : M (World B) Txid :=
  controller ← pure (controller_policy config);
  w ← open_hot data_dir;
  address ← at_hot w next_change_address;
  let connector_utxo :=
    {| utxo_outpoint := connector_outpoint connector;
       utxo_txout := {| value := value_sats connector;
                        script_pubkey := address_script_pubkey (controller_address_of controller) |};
       confirmation_height := 0 |} in
  built ← pure (build_controller_revocation_psbt [connector_utxo]
                  (address_script_pubkey address.1) DEFAULT_FEE_RATE_SAT_VB controller);
  psbt ← pure (exec (sign_controller_psbt_inputs controller PhonePath (vault_keypair phone) [0])
                 built.1);
  transaction ← pure (finalize_vault_psbt psbt);
  let txid := compute_txid transaction in
  broadcast_txid ← at_chain (broadcast transaction);
  _ ← pure (bail_if (negb (bool_decide (broadcast_txid = txid)))
              "chain backend returned an unexpected revocation transaction ID");
  mret txid.

(** What the phone loads before any broadcast of the active policy. *)
Definition open_phone (data_dir : Path) : M (World B) (VaultConfig * DeviceKeys) :=
  config ← with_fs (λ f, load_config f data_dir);
  _ ← ensure_backend_network config;
  phone ← with_fs (λ f, load_device_keys f data_dir PHONE_DEVICE_FILE);
  mret (config, phone).

Definition emergency_of (schedule : Schedule) : result EmergencyAccessSchedule :=
  or_err (schedule_emergency_access schedule)
    "emergency access is disabled for the active vault epoch".

Definition emergency_artifact (e : EmergencyAccessSchedule) (kind : EmergencyTransactionKind)
    : result (string * string * ConnectorState) :=
  match kind with
  | Trigger => Ok (es_trigger_file e, es_trigger_txid e, es_trigger_connector e)
  | Withdrawal => Ok (es_withdrawal_file e, es_withdrawal_txid e, es_withdrawal_connector e)
  | Cancellation =>
      Err "emergency cancellation is constructed dynamically from the live controller output"
  end.

Definition broadcast_emergency_transaction (data_dir : Path) (schedule : Schedule)
    (config : VaultConfig) (phone : DeviceKeys) (kind : EmergencyTransactionKind)
    : M (World B) Txid :=
  emergency ← pure (emergency_of schedule);
  found ← pure (emergency_artifact emergency kind);
  let '(file, expected_txid, connector) := found in
  artifact ← with_fs (λ f, read_json f (join data_dir file) : result EncryptedEmergencyTransaction);
  _ ← pure (bail_if (negb (bool_decide (emergency_artifact_version artifact = 2%N))
                     || negb (bool_decide (emergency_artifact_kind artifact = kind))
                     || negb (bool_decide (emergency_artifact_txid artifact = expected_txid)))
              "encrypted emergency transaction metadata does not match the requested action");
  psbt ← pure (decrypt_psbt phone
                 (emergency_transaction_purpose kind (emergency_artifact_txid artifact))
                 (emergency_artifact_txid artifact) (emergency_encrypted_psbt artifact));
  let txid := compute_txid (unsigned_tx psbt) in
  transaction ← pure (complete_with_controller config schedule phone connector psbt);
  broadcast_txid ← at_chain (broadcast transaction);
  _ ← pure (bail_if (negb (bool_decide (broadcast_txid = txid)))
              "chain backend returned an unexpected emergency transaction ID");
  mret txid.

Definition initiate_emergency_access (data_dir : Path) : M (World B) Txid :=
  schedule ← with_fs (λ f, load_schedule f data_dir);
  _ ← pure (emergency_of schedule);
  opened ← open_phone data_dir;
  broadcast_emergency_transaction data_dir schedule opened.1 opened.2 Trigger.

Definition withdraw_emergency_access (data_dir : Path) : M (World B) Txid :=
  schedule ← with_fs (λ f, load_schedule f data_dir);
  opened ← open_phone data_dir;
  broadcast_emergency_transaction data_dir schedule opened.1 opened.2 Withdrawal.

Definition cancel_emergency_access (data_dir : Path) : M (World B) Txid :=
  schedule ← with_fs (λ f, load_schedule f data_dir);
  opened ← open_phone data_dir;
  emergency ← pure (emergency_of schedule);
  revoke_connector_to_phone data_dir opened.1 opened.2 (es_withdrawal_connector emergency).

Definition broadcast_monthly (data_dir : Path) (step : N) (kind : TransactionKind)
    : M (World B) Txid :=
  schedule ← with_fs (λ f, load_schedule f data_dir);
  entry ← pure (find_entry schedule step);
  opened ← open_phone data_dir;
  let '(config, phone) := (opened : VaultConfig * DeviceKeys) in
  if bool_decide (kind = Revocation)
  then revoke_connector_to_phone data_dir config phone (entry_connector entry)
  else
    artifact ← with_fs (λ f, read_json f (join data_dir (entry_authorization_file entry))
                          : result EncryptedTransaction);
    _ ← pure (bail_if (negb (bool_decide (artifact_version artifact = 3%N))
                       || negb (bool_decide (artifact_step artifact = step))
                       || negb (bool_decide (artifact_kind artifact = kind))
                       || negb (bool_decide (artifact_txid artifact
                                             = entry_authorization_txid entry)))
                "encrypted allowance transaction metadata does not match the requested action");
    psbt ← pure (decrypt_psbt phone (transaction_purpose step kind (artifact_txid artifact))
                   (artifact_txid artifact) (encrypted_psbt artifact));
    transaction ← pure (complete_with_controller config schedule phone (entry_connector entry)
                          psbt);
    at_chain (broadcast transaction).

(** ** The soft limit *)

Definition apply_soft_limit (data_dir : Path) (step soft_limit_sats : N)
    : M (World B) (option Txid) :=
  schedule ← with_fs (λ f, load_schedule f data_dir);
  config ← with_fs (λ f, load_config f data_dir);
  _ ← ensure_backend_network config;
  entry ← pure (find_entry schedule step);
  authorization_txid ← pure (or_err (txid_from_str (entry_authorization_txid entry)) "invalid txid");
  w ← open_hot data_dir;
  synced ← at_hot_chain w sync_hot_wallet;
  vault ← pure (unchecked ← or_err (address_from_str (vault_address config)) "invalid address";
                network ← bitcoin_network config;
                or_err (require_network unchecked network) "address of another network");
  built ← at_hot synced.2 (build_soft_limit_return (new_outpoint authorization_txid 0)
            (schedule_monthly_limit_sats schedule) soft_limit_sats (address_script_pubkey vault));
  match (built.1 : option Transaction) with
  | Some transaction => txid ← at_chain (broadcast transaction); mret (Some txid)
  | None => mret None
  end.

(** ** Restoring and recovering *)

Definition restore_package_wrong (package : PhoneRecoveryPackage) (config : VaultConfig)
    (phone : DeviceKeys) : bool :=
  negb (bool_decide (key_to_string (vault_pubkey phone) = recovery_phone_vault_pubkey package))
  || negb (bool_decide (recovery_phone_vault_pubkey package = phone_vault_pubkey config))
  || negb (bool_decide (recovery_vault_descriptor package = vault_descriptor config))
  || negb (bool_decide (recovery_vault_address package = vault_address config)).

Definition restore_phone (data_dir : Path) (package : PhoneRecoveryPackage)
    : M (World B) string :=
  _ ← pure (bail_if (negb (bool_decide (recovery_version package = 2%N))
                     || negb (bool_decide (recovery_kind package = "phone-recovery")))
              "unsupported phone recovery package");
  let phone_path := join data_dir PHONE_DEVICE_FILE in
  _ ← with_fs (λ f, bail_if (exists_ f phone_path)
                      "phone key still exists; refusing to overwrite it");
  config ← with_fs (λ f, load_config f data_dir);
  network ← pure (bitcoin_network config);
  phone ← pure (parse_for_network_at_index (recovery_phone_mnemonic package) network
                  (recovery_phone_vault_key_index package));
  _ ← pure (bail_if (restore_package_wrong package config phone)
              "phone recovery package does not match the configured vault policy");
  _ ← at_fs (write_json phone_path
        {| device_kind := "phone"; device_network := config_network config;
           device_mnemonic := recovery_phone_mnemonic package;
           device_vault_key_index := recovery_phone_vault_key_index package |});
  w ← open_hot data_dir;
  _ ← at_hot w request_full_scan;
  mret (recovery_phone_mnemonic package).

Definition recover (f : FS) (data_dir : Path) (config : VaultConfig) (utxos : list VaultUtxo)
    (tip_height : N) (destination : Address) : result (Transaction * SweepResult) :=
  plan ← prepare_sweep config utxos tip_height SweepPhoneRecovery destination;
  phone ← load_device_keys f data_dir PHONE_DEVICE_FILE;
  sign_recovery_sweep plan SweepPhoneRecovery phone.

(** ** The cooperative sweep *)

Definition phone_create_cooperative_sweep (data_dir : Path) (destination : Address)
    : M (World B) CooperativeSweepPackage :=
  config ← with_fs (λ f, load_config f data_dir);
  _ ← ensure_backend_network config;
  utxos ← at_chain (scan_vault config);
  phone ← with_fs (λ f, load_device_keys f data_dir PHONE_DEVICE_FILE);
  pure (Recovery.create_cooperative_sweep config utxos destination phone).

Definition broadcast_cooperative_sweep_for_config (config : VaultConfig)
    (package : CooperativeSweepPackage) : M (World B) SweepResult :=
  finalized ← pure (finalize_cooperative_sweep config package);
  let '(transaction, sweep) := (finalized : Transaction * SweepResult) in
  txid ← at_chain (broadcast transaction);
  _ ← pure (bail_if (negb (bool_decide (txid = result_txid sweep)))
              "chain backend returned an unexpected cooperative sweep transaction ID");
  mret sweep.

Definition broadcast_cooperative_sweep (data_dir : Path) (package : CooperativeSweepPackage)
    : M (World B) SweepResult :=
  config ← with_fs (λ f, load_config f data_dir);
  _ ← ensure_backend_network config;
  broadcast_cooperative_sweep_for_config config package.

Definition validate_policy_package (package : PolicyPackage) : result unit :=
  bail_if (negb (is_supported_policy_package package)) "unsupported policy package".
End phone.
