(* ===== verification/PhonePaths.v ===== *)
(** Where the phone writes: names without separators, the directories of the
    policy epochs, and which names a sequence of writes can touch. *)

From S2P Require Import Prelude Bitcoin Types Keys Policy Transactions FileSystem Storage Crypto Social Ceremony CeremonyValidate Recovery HotWallet Phone.
From Stdlib Require Import Ascii.

(** * Names *)

Fixpoint slash_free (s : string) : bool :=
  match s with
  | EmptyString => true
  | String c s' => negb (bool_decide (c = "/"%char)) && slash_free s'
  end.

Lemma slash_free_app s t : slash_free (s +:+ t) = slash_free s && slash_free t.
Proof. induction s as [|c s IH]; [done|]. csimpl. rewrite IH. by rewrite andb_assoc. Qed.

Lemma split_slash_free s : slash_free s = true → split_slash s = [s].
Proof.
  induction s as [|c s IH]; [done|]. simpl. intros [Hc Hs]%andb_true_iff.
  apply negb_true_iff, bool_decide_eq_false in Hc.
  rewrite bool_decide_eq_false_2 by done. by rewrite IH.
Qed.

Lemma split_slash_app s t :
  slash_free s = true → split_slash (s +:+ "/" +:+ t) = s :: split_slash t.
Proof.
  induction s as [|c s IH]; [done|]. simpl. intros [Hc Hs]%andb_true_iff.
  apply negb_true_iff, bool_decide_eq_false in Hc.
  rewrite bool_decide_eq_false_2 by done. simpl in IH. by rewrite IH.
Qed.

(** A name that is one component of a path. *)
Definition is_name (s : string) : Prop :=
  slash_free s = true ∧ s ≠ "" ∧ s ≠ "." ∧ s ≠ "..".

Lemma segment_of_name s : is_name s → segment_component s = Some (Normal s).
Proof.
  intros (_ & H1 & H2 & H3). unfold segment_component.
  by rewrite !bool_decide_eq_false_2.
Qed.

Lemma components_name s : is_name s → components s = [Normal s].
Proof.
  intros Hs. pose proof (segment_of_name s Hs) as Hseg. destruct Hs as (Hf & H1 & H2 & H3).
  unfold components. rewrite split_slash_free by done.
  rewrite (bool_decide_eq_false_2 (s = EmptyString)) by done.
  rewrite (bool_decide_eq_false_2 (s = ".")) by done. by rewrite Hseg.
Qed.

Lemma is_absolute_name s : is_name s → is_absolute s = false.
Proof.
  intros (Hf & _). destruct s as [|c s]; [done|]. simpl in *.
  apply andb_true_iff in Hf as [Hc _]. apply negb_true_iff, bool_decide_eq_false in Hc.
  by apply bool_decide_eq_false_2.
Qed.

Lemma is_absolute_app s t : s ≠ "" → is_absolute (s +:+ t) = is_absolute s.
Proof. by destruct s. Qed.

(** Joining one name. *)
Lemma join_name p s : is_name s → join p s = p ++ [Normal s].
Proof.
  intros Hs. unfold join. rewrite is_absolute_name, components_name by done.
  by rewrite filter_cons_True, filter_nil by done.
Qed.

Lemma resolve_name f p s : is_name s → resolve f (join p s) = resolve f p ++ [s].
Proof. intros Hs. rewrite join_name by done. unfold resolve. by rewrite foldl_app. Qed.

(** A name from its parts, the first of which settles the special cases. *)
Lemma name_app s t : is_name s → 3 ≤ String.length s → slash_free t = true → is_name (s +:+ t).
Proof.
  intros (Hf & _) Hl Ht. split; [by rewrite slash_free_app, Hf, Ht|].
  destruct s as [|a [|b [|c s]]]; simpl in Hl; [lia..|]. done.
Qed.

Lemma pretty_go_slash_free x : ∀ s, slash_free s = true → slash_free (pretty_N_go x s) = true.
Proof.
  induction (N.lt_wf_0 x) as [x _ IH]; intros s Hs.
  destruct (decide (0 < x)%N) as [Hx|Hx].
  - rewrite pretty_N_go_step by done. apply IH; [by apply N.div_lt|].
    simpl. rewrite Hs, andb_true_r. unfold pretty_N_char. by repeat case_match.
  - assert (x = 0%N) as -> by lia. done.
Qed.

Lemma pretty_slash_free (n : N) : slash_free (pretty n) = true.
Proof.
  unfold pretty, pretty_N. case_decide; [done|]. by apply pretty_go_slash_free.
Qed.

Lemma two_digits_slash_free n : slash_free (two_digits n) = true.
Proof.
  unfold two_digits. destruct (n <? 10)%N; [|apply pretty_slash_free].
  rewrite slash_free_app. simpl. apply pretty_slash_free.
Qed.

Lemma two_digits_inj n m : (n ≤ 255)%N → (m ≤ 255)%N → two_digits n = two_digits m → n = m.
Proof.
  assert (NoDup (two_digits <$> (N.of_nat <$> seq 0 256))) as Hnd.
  { apply (bool_decide_eq_true_1 _). vm_compute. reflexivity. }
  intros Hn Hm Heq.
  assert (∀ x, (x ≤ 255)%N → (two_digits <$> (N.of_nat <$> seq 0 256)) !! N.to_nat x
    = Some (two_digits x)) as Hat.
  { intros x Hx. rewrite !list_lookup_fmap, lookup_seq_lt by lia. simpl. by rewrite N2Nat.id. }
  pose proof (NoDup_lookup _ (N.to_nat n) (N.to_nat m) _ Hnd (Hat n Hn)) as Hi.
  rewrite Heq in Hi. apply N2Nat.inj, Hi, Hat, Hm.
Qed.

Lemma app_string_inj s t u : s +:+ t = s +:+ u → t = u.
Proof. induction s as [|c s IH]; [done|]. csimpl. by intros [= ?%IH]. Qed.

Lemma app_string_inj_r s t u : s +:+ u = t +:+ u → s = t.
Proof.
  intros Heq.
  apply (f_equal bytes_of) in Heq. rewrite !bytes_app in Heq. apply app_inv_tail in Heq.
  rewrite <-(string_of_bytes s), <-(string_of_bytes t). by rewrite Heq.
Qed.

(** [str::parse] reads back what [Txid] prints: hexadecimal digits. *)
Class TxidTextLaws `{BitcoinLib, !TxidText} : Prop := {
  txid_round_trip t : txid_from_str (txid_to_string t) = Some t;
  txid_name t : is_name (txid_to_string t);
}.

(** * What writes touch *)

(** On the way to [key], or below it. *)
Definition near (key k : Key) : Prop := key `prefix_of` k ∨ k `prefix_of` key.

Lemma near_app key l k : near (key ++ l) k → near key k.
Proof.
  intros [Hk|Hk].
  - left. by apply prefix_app_l in Hk.
  - destruct (prefix_weak_total key k (key ++ l)) as [Hn|Hn]; [by apply prefix_app_r|done|..];
      [by left|by right].
Qed.

Lemma near_self key : near key key.
Proof. by left. Qed.

(** Two names of a directory, with what is below them. *)
Lemma not_near_names key a b l m : a ≠ b → ¬ near (key ++ a :: l) (key ++ b :: m).
Proof.
  intros Hne [Hp|Hp]; apply prefix_app_inv in Hp; apply prefix_cons_inv_1 in Hp; congruence.
Qed.

Definition touched (keys : list Key) (f f' : FS) : Prop :=
  same_env f f' ∧ ∀ k, (∀ key, key ∈ keys → ¬ near key k) → node_at f' k = node_at f k.

Lemma touched_refl keys f : touched keys f f.
Proof. done. Qed.

Lemma touched_trans keys f1 f2 f3 : touched keys f1 f2 → touched keys f2 f3 → touched keys f1 f3.
Proof.
  intros [[Hc Hf] H1] [[Hc' Hf'] H2]. split; [split; congruence|].
  intros k Hk. rewrite H2, H1; done.
Qed.

Lemma touched_mono keys keys' f f' : keys ⊆ keys' → touched keys f f' → touched keys' f f'.
Proof. intros Hs [He Ht]. split; [done|]. intros k Hk. apply Ht. intros key Hin. by apply Hk, Hs. Qed.

Lemma touched_file keys f f' k :
  touched keys f f' → (∀ key, key ∈ keys → ¬ near key k) → file_at f' k = file_at f k.
Proof. intros [_ Ht] Hk. unfold file_at. by rewrite Ht. Qed.

Lemma touched_resolve keys f f' p : touched keys f f' → resolve f' p = resolve f p.
Proof. intros [He _]. by apply resolve_env. Qed.

Lemma prefixes_prefix k x : x ∈ prefixes k → x `prefix_of` k.
Proof. unfold prefixes. intros (n & -> & _)%list_elem_of_fmap. apply prefix_take. Qed.

(** Writing the file of a name in a directory. *)
Lemma write_private_touches p s bytes f r f' :
  is_name s → write_private (join p s) bytes f = (r, f') → touched [resolve f p ++ [s]] f f'.
Proof.
  intros Hs (He & _ & Hk & Hn)%write_private_run. split; [done|].
  rewrite resolve_name in Hk, Hn by done. intros k Hfar.
  specialize (Hfar _ (list_elem_of_here _ _)).
  assert (k ≠ resolve f p ++ [s]) as Hne by (intros ->; by apply Hfar, near_self).
  destruct (Hk k Hne) as [Heq|(_ & _ & Hin%prefixes_prefix)]; [done|].
  destruct Hfar. right. rewrite join_name, parent_snoc in Hin by done. by apply prefix_app_r.
Qed.

Lemma write_json_touches `{Json A} p s (a : A) f r f' :
  is_name s → write_json (join p s) a f = (r, f') → touched [resolve f p ++ [s]] f f'.
Proof.
  intros Hs. unfold write_json, pure, mbind, M_bind.
  destruct (to_vec_pretty a) as [bytes|]; simpl; [|intros [= <- <-]; apply touched_refl].
  by apply write_private_touches.
Qed.
