(* ===== verification/PhoneActivation.v ===== *)
(** Activating a policy: nothing but the new epoch's directory changes before
    the network has the rollover, and what an activation leaves behind. *)

From S2P Require Import Prelude Bitcoin Types Keys Policy Transactions FileSystem Storage Crypto Social Ceremony CeremonyValidate CeremonySound Recovery HotWallet Phone PhonePaths.

Section frames.
Context `{BitcoinLib, !KeyLib, !BdkLib, CryptoLib} {B : Type}.

(** A step that only writes near some names, of the process of [f0], and does
    not reach the backend. *)
Definition writes_only (f0 : FS) (keys : list Key) {A} (m : M (World B) A) : Prop :=
  ∀ w r w', same_env f0 (w_fs w) → m w = (r, w') →
    touched keys (w_fs w) (w_fs w') ∧ w_chain w' = w_chain w.

Lemma same_env_touched f0 keys f f' : same_env f0 f → touched keys f f' → same_env f0 f'.
Proof. intros [Hc Hf] [[Hc' Hf'] _]. split; congruence. Qed.

Lemma wo_pure f0 keys {A} (r : result A) : writes_only f0 keys (pure r).
Proof. intros w r' w' _ [= <- <-]. split; [apply touched_refl|done]. Qed.

Lemma wo_ret f0 keys {A} (a : A) : writes_only f0 keys (mret a).
Proof. apply (wo_pure f0 keys (Ok a)). Qed.

Lemma wo_with_fs f0 keys {A} (g : FS → result A) : writes_only f0 keys (with_fs g).
Proof. intros w r w' _ [= <- <-]. split; [apply touched_refl|done]. Qed.

Lemma wo_at_rng f0 keys {A} (m : M Rng A) : writes_only f0 keys (at_rng m).
Proof.
  intros w r w' _. unfold at_rng. destruct (m (w_rng w)) as [r' g]. intros [= <- <-].
  split; [apply touched_refl|done].
Qed.

Lemma wo_bind f0 keys {A C} (m : M (World B) A) (g : A → M (World B) C) :
  writes_only f0 keys m → (∀ a, writes_only f0 keys (g a)) → writes_only f0 keys (a ← m; g a).
Proof.
  intros Hm Hg w r w' He. unfold mbind, M_bind. destruct (m w) as [[a|e|] w1] eqn:Hrun.
  - intros Hrun2. destruct (Hm _ _ _ He Hrun) as [Ht1 Hc1].
    destruct (Hg a w1 r w' (same_env_touched _ _ _ _ He Ht1) Hrun2) as [Ht2 Hc2].
    split; [by eapply touched_trans|congruence].
  - intros [= <- <-]. by eapply Hm.
  - intros [= <- <-]. by eapply Hm.
Qed.

Lemma wo_write_json f0 keys `{Json A} p s (a : A) :
  is_name s → (∀ k, (∀ key, key ∈ keys → ¬ near key k) → ¬ near (resolve f0 p ++ [s]) k) →
  writes_only f0 keys (at_fs (write_json (join p s) a)).
Proof.
  intros Hs Hin w r w' He. unfold at_fs.
  destruct (write_json (join p s) a (w_fs w)) as [r' f'] eqn:Hw. intros [= <- <-].
  apply write_json_touches in Hw as [Henv Ht]; [|done]. split; [|done]. split; [done|].
  intros k Hk. apply Ht. intros key ->%list_elem_of_singleton.
  rewrite (resolve_env _ _ _ He). by apply Hin.
Qed.

(** Below a directory. *)
Lemma wo_write_below f0 key `{Json A} p s (a : A) :
  is_name s → resolve f0 p = key →
  writes_only f0 [key] (at_fs (write_json (join p s) a)).
Proof.
  intros Hs Hp. apply wo_write_json; [done|]. intros k Hk Hn. rewrite Hp in Hn.
  by eapply Hk, near_app; [apply list_elem_of_here|].
Qed.
End frames.

Definition is_Ok {A} (r : result A) : Prop := ∃ a, r = Ok a.

Section activation.
Context `{BitcoinLib, !KeyLib, !BdkLib, !TxidText, CryptoLib, Json VaultConfig, !Json DeviceFile,
          Json PublicDeviceFile, Json BatchManifest, Json Schedule, Json PolicyPackage,
          JsonVec PolicyPackage, Json EncryptedTransaction, Json EncryptedEmergencyTransaction,
          Json EncryptedBlob, Json Transaction, Json bool}.
Context {B : Type} `{!Blockchain B} `{Names : !TxidTextLaws}.
Implicit Types (w : World B) (d : Path) (t : Txid).

(** The names of the phone's files. *)
Definition epoch_key (f : FS) d t : Key :=
  resolve f d ++ ["phone"; "transactions"; txid_to_string t].
Definition schedule_key (f : FS) d : Key := resolve f d ++ ["phone"; "schedule.json"].
Definition device_key (f : FS) d : Key := resolve f d ++ ["phone"; "device.json"].

Lemma resolve_epoch f d t : resolve f (epoch_dir_of d t) = epoch_key f d t.
Proof using Names.
  unfold epoch_dir_of, epoch_key. rewrite resolve_name by apply txid_name.
  rewrite (resolve_join f d _ ["phone"; "transactions"]) by done. by rewrite <-app_assoc.
Qed.

Lemma resolve_schedule f d : resolve f (join d SCHEDULE_FILE) = schedule_key f d.
Proof using. by apply resolve_join. Qed.

Lemma resolve_device f d : resolve f (join d PHONE_DEVICE_FILE) = device_key f d.
Proof using. by apply resolve_join. Qed.

Lemma allowance_name n kind :
  is_name ("allowance-" +:+ two_digits n +:+ "-" +:+ transaction_kind_name kind +:+ ".json").
Proof using.
  apply name_app; [done|simpl; lia|].
  rewrite !slash_free_app, two_digits_slash_free. by destruct kind.
Qed.

Lemma emergency_name kind t :
  is_name ("emergency-" +:+ emergency_transaction_kind_name kind +:+ "-" +:+ txid_to_string t
           +:+ ".json").
Proof using Names.
  apply name_app; [done|simpl; lia|].
  rewrite !slash_free_app. destruct (txid_name t) as [-> _]. by destruct kind.
Qed.

Lemma wo_write_encrypted f0 key p s sd n kind (psbt : Psbt) :
  is_name s → resolve f0 p = key →
  writes_only f0 [key] (write_encrypted_transaction (B:=B) (join p s) sd n kind psbt).
Proof using.
  intros Hs Hp. apply wo_bind; [apply wo_at_rng|]. intros blob. by apply wo_write_below.
Qed.

Lemma wo_write_encrypted_emergency f0 key p s sd kind (psbt : Psbt) :
  is_name s → resolve f0 p = key →
  writes_only f0 [key] (write_encrypted_emergency_transaction (B:=B) (join p s) sd kind psbt).
Proof using.
  intros Hs Hp. apply wo_bind; [apply wo_at_rng|]. intros blob. by apply wo_write_below.
Qed.

Lemma wo_stage_allowances f0 key d e b phone l :
  resolve f0 e = key → writes_only f0 [key] (stage_allowances (B:=B) d e b phone l).
Proof using.
  intros He. induction l as [|a l IH]; [apply wo_ret|]. simpl.
  apply wo_bind; [|intros x; apply wo_bind; [done|intros y; apply wo_ret]].
  unfold stage_allowance. apply wo_bind; [apply wo_with_fs|]. intros psbt.
  apply wo_bind; [apply wo_write_encrypted; [apply allowance_name|done]|]. intros _.
  apply wo_bind; [apply wo_pure|]. intros file. apply wo_ret.
Qed.

Lemma wo_stage_emergency f0 key d e b phone x :
  resolve f0 e = key → writes_only f0 [key] (stage_emergency (B:=B) d e b phone x).
Proof using Names.
  intros He. unfold stage_emergency.
  apply wo_bind; [apply wo_with_fs|]. intros tp. apply wo_bind; [apply wo_with_fs|]. intros wp.
  apply wo_bind; [apply wo_write_encrypted_emergency; [apply emergency_name|done]|]. intros _.
  apply wo_bind; [apply wo_write_encrypted_emergency; [apply emergency_name|done]|]. intros _.
  apply wo_bind; [apply wo_pure|]. intros tf. apply wo_bind; [apply wo_pure|]. intros wf.
  apply wo_ret.
Qed.

Lemma wo_stage_epoch f0 key d e b phone m tx :
  resolve f0 e = key → writes_only f0 [key] (stage_epoch (B:=B) d e b phone m tx).
Proof using Names.
  intros He. unfold stage_epoch.
  apply wo_bind; [apply wo_with_fs|]. intros package. apply wo_bind; [apply wo_pure|]. intros bytes.
  apply wo_bind; [apply wo_at_rng|]. intros blob.
  apply wo_bind; [by apply wo_write_below|]. intros _.
  apply wo_bind; [by apply wo_write_below|]. intros _.
  apply wo_bind; [by apply wo_stage_allowances|]. intros entries.
  apply wo_bind.
  { destruct (emergency_access m); [|apply wo_ret].
    apply wo_bind; [by apply wo_stage_emergency|]. intros s. apply wo_ret. }
  intros emergency. apply wo_bind; [by apply wo_write_below|]. intros _. apply wo_ret.
Qed.

(** ** Names apart *)

Lemma txid_text_inj t t' : txid_to_string t = txid_to_string t' → t = t'.
Proof using Names.
  intros Heq. apply (f_equal txid_from_str) in Heq. rewrite !txid_round_trip in Heq. by injection Heq.
Qed.

(** A file's name is not near an epoch's directory. *)
Lemma far_from_epoch f d t k x :
  x ∈ [["anzen.json"]; ["vault.json"]; ["phone"; "schedule.json"]; ["phone"; "device.json"]] →
  k = resolve f d ++ x → ¬ near (epoch_key f d t) k.
Proof using.
  intros Hx ->. unfold epoch_key. repeat (apply elem_of_cons in Hx as [->|Hx]); [..|by apply not_elem_of_nil in Hx].
  1, 2: by apply not_near_names.
  all: change (resolve f d ++ ?a :: ?b :: ?l) with (resolve f d ++ [a] ++ (b :: l));
    rewrite !app_assoc; by apply not_near_names.
Qed.

Lemma far_epochs f d t t' l : t ≠ t' → ¬ near (epoch_key f d t) (epoch_key f d t' ++ l).
Proof using Names.
  intros Hne. unfold epoch_key.
  change (["phone"; "transactions"; txid_to_string t]) with (["phone"; "transactions"] ++ [txid_to_string t]).
  change (["phone"; "transactions"; txid_to_string t']) with (["phone"; "transactions"] ++ [txid_to_string t']).
  rewrite !app_assoc, <-(app_assoc _ _ l). simpl. apply not_near_names.
  intros Heq. by apply Hne, txid_text_inj.
Qed.

(** Reading the configuration and the schedule depends on their names only. *)
Lemma exists_touched keys f f' p :
  touched keys f f' → (∀ key, key ∈ keys → ¬ near key (resolve f p)) → exists_ f' p = exists_ f p.
Proof using.
  intros Ht Hk. unfold exists_. rewrite (touched_resolve _ _ _ _ Ht).
  destruct Ht as [_ Ht]. by rewrite Ht.
Qed.

Lemma read_touched keys f f' p :
  touched keys f f' → (∀ key, key ∈ keys → ¬ near key (resolve f p)) → read f' p = read f p.
Proof using.
  intros Ht Hk. unfold read. rewrite (touched_resolve _ _ _ _ Ht).
  destruct Ht as [[_ Hf] Ht]. by rewrite Hf, Ht.
Qed.

Lemma load_config_touched keys f f' d :
  touched keys f f' →
  (∀ key, key ∈ keys → ¬ near key (resolve f d ++ ["anzen.json"]) ∧
     ¬ near key (resolve f d ++ ["vault.json"])) →
  load_config f' d = load_config f d.
Proof using.
  intros Ht Hk. unfold load_config, read_json.
  assert (config_path f' d = config_path f d) as Hp.
  { unfold config_path. rewrite !(exists_touched keys f f') by
      (try done; intros key Hin; rewrite ?resolve_current, ?resolve_legacy; by apply Hk). done. }
  rewrite Hp. rewrite (read_touched keys f f'); [done..|].
  intros key Hin. unfold config_path.
  repeat case_match; rewrite ?resolve_current, ?resolve_legacy; by apply Hk.
Qed.

Lemma load_schedule_touched keys f f' d :
  touched keys f f' → (∀ key, key ∈ keys → ¬ near key (schedule_key f d)) →
  load_schedule f' d = load_schedule f d.
Proof using.
  intros Ht Hk. unfold load_schedule, read_json. by rewrite (read_touched keys f f') by (done || rewrite resolve_schedule; done).
Qed.

(** ** The two parts of an activation *)

(** Whether an epoch was left for another one. *)
Definition superseded f d t (previous : option Txid) : bool :=
  exists_ f (join (epoch_dir_of d t) "activated.json") &&
  match previous with
  | Some previous => negb (bool_decide (previous = t))
  | None => false
  end.

(** The backend has the rollover of a batch that validation accepts. *)
Record accepted_rollover d (b : Path) w (c' : B) (m : BatchManifest) (tx : Transaction)
    (schedule : Schedule) (previous : option Txid) (w1 : World B) : Prop := {
  ar_config : ∃ config, load_config (w_fs w) d = Ok config ∧
    bitcoin_network config = Ok (backend_network (w_chain w)) ∧
    is_Ok (validate_approved_batch config m (w_fs w) b);
  ar_manifest : load_manifest (w_fs w) b = Ok m;
  ar_phone : ∃ phone, load_device_keys (w_fs w) d PHONE_DEVICE_FILE = Ok phone ∧
    stage_epoch d (epoch_dir_of d (compute_txid tx)) b phone m tx w = (Ok schedule, w1);
  ar_rollover : ∃ p, read_psbt (w_fs w) (join b (psbt_file (rollover m))) = Ok p ∧
    finalize_vault_psbt p = Ok tx;
  ar_previous : previous_epoch_of (w_fs w) d = Ok previous;
  ar_current : superseded (w_fs w) d (compute_txid tx) previous = false;
  ar_accepted : broadcast tx (w_chain w) = (Ok (compute_txid tx), c');
}.

(** A step that reads: it stops the run unchanged, or the run goes on. *)
Lemma read_step {A C} (m : M (World B) A) (g : A → M (World B) C) w r w' :
  (∀ r1 w1, m w = (r1, w1) → w1 = w) → (a ← m; g a) w = (r, w') →
  (w' = w ∧ ∀ c, r ≠ Ok c) ∨ (∃ a, m w = (Ok a, w) ∧ g a w = (r, w')).
Proof using.
  intros Hm. unfold mbind, M_bind. destruct (m w) as [[a|e|] w1] eqn:Hrun;
    rewrite (Hm _ _ eq_refl) in *; [by right; exists a|..]; intros [= <- <-]; by left.
Qed.

Lemma with_fs_reads {A} (g : FS → result A) w r1 w1 : with_fs g w = (r1, w1) → w1 = w.
Proof using. by intros [= _ <-]. Qed.
Lemma pure_reads {A} (x : result A) w r1 w1 : (pure x : M (World B) A) w = (r1, w1) → w1 = w.
Proof using. by intros [= _ <-]. Qed.
Lemma network_reads config w r1 w1 : ensure_backend_network config w = (r1, w1) → w1 = w.
Proof using. by intros [= _ <-]. Qed.

Lemma ensure_network_Ok config w u w' :
  ensure_backend_network config w = (Ok u, w') → bitcoin_network config = Ok (backend_network (w_chain w)).
Proof using.
  unfold ensure_backend_network. intros [= Hr _]. apply bind_Ok in Hr as (n & -> & Hn).
  apply bail_if_Ok, negb_false_iff, bool_decide_eq_true in Hn. congruence.
Qed.

(** Stopped before the backend takes the rollover: only the directory of one
    epoch was written to, one that was not superseded. *)
Definition stopped d w (r : result Schedule) w' : Prop :=
  ∃ t, touched [epoch_key (w_fs w) d t] (w_fs w) (w_fs w') ∧ (∀ s, r ≠ Ok s) ∧
     (w_chain w' = w_chain w ∨ ∃ tx o, broadcast tx (w_chain w) = (o, w_chain w') ∧
       o ≠ Ok (compute_txid tx)) ∧
     (w_fs w' = w_fs w ∨ ∃ previous, previous_epoch_of (w_fs w) d = Ok previous ∧
       superseded (w_fs w) d t previous = false).

(** An activation stops while staging, or when the backend does not take the
    rollover; or else the rollover is out. *)
Lemma activate_cases d b w r w' :
  activate_policy d b w = (r, w') →
  stopped d w r w' ∨
  (∃ c' m tx schedule previous w1 r0,
     accepted_rollover d b w c' m tx schedule previous w1 ∧
     touched [epoch_key (w_fs w) d (compute_txid tx)] (w_fs w) (w_fs w1) ∧
     activate_schedule d (epoch_dir_of d (compute_txid tx)) previous (compute_txid tx) m schedule
       (Build_World (w_fs w1) (w_rng w1) (w_db w1) c') = (r0, w') ∧
     r = (_ ← r0; mret schedule)).
Proof using Names.
  assert (∀ (r : result Schedule) w', w' = w ∧ (∀ s, r ≠ Ok s) → stopped d w r w') as Hstop.
  { intros r' w'' [-> Hr]. exists all_zeros. split_and!; [apply touched_refl|done|by left|by left]. }
  unfold activate_policy. intros Hrun.
  apply read_step in Hrun as [Hs|(config & [= Hconfig] & Hrun)]; [by left; apply Hstop| |apply with_fs_reads].
  apply read_step in Hrun as [Hs|([] & Hnet%ensure_network_Ok & Hrun)]; [by left; apply Hstop| |apply network_reads].
  apply read_step in Hrun as [Hs|(m & [= Hm] & Hrun)]; [by left; apply Hstop| |apply with_fs_reads].
  apply read_step in Hrun as [Hs|(va & [= Hva] & Hrun)]; [by left; apply Hstop| |apply with_fs_reads].
  apply read_step in Hrun as [Hs|(phone & [= Hphone] & Hrun)]; [by left; apply Hstop| |apply with_fs_reads].
  apply read_step in Hrun as [Hs|(p & [= Hp] & Hrun)]; [by left; apply Hstop| |apply with_fs_reads].
  apply read_step in Hrun as [Hs|(tx & [= Htx] & Hrun)]; [by left; apply Hstop| |apply pure_reads].
  cbv zeta in Hrun.
  apply read_step in Hrun as [Hs|(previous & [= Hprev] & Hrun)]; [by left; apply Hstop| |apply with_fs_reads].
  apply read_step in Hrun as [Hs|([] & [= Hsup%bail_if_Ok] & Hrun)]; [by left; apply Hstop| |apply with_fs_reads].
  assert (resolve (w_fs w) (epoch_dir_of d (compute_txid tx)) = epoch_key (w_fs w) d (compute_txid tx)) as Hkey
    by apply resolve_epoch.
  unfold mbind at 1, M_bind at 1 in Hrun.
  destruct (stage_epoch d (epoch_dir_of d (compute_txid tx)) b phone m tx w) as [rs w1] eqn:Hstage.
  destruct (wo_stage_epoch (w_fs w) _ d _ b phone m tx Hkey w rs w1 (conj eq_refl eq_refl) Hstage) as [Ht Hc].
  assert (∀ (r : result Schedule), w' = w1 → (∀ s, r ≠ Ok s) → stopped d w r w') as Hstop1.
  { intros r' -> Hr. exists (compute_txid tx). split_and!; [done|done|by left|right; by exists previous]. }
  destruct rs as [schedule|e|];
    [|injection Hrun as <- <-; left; by apply Hstop1|injection Hrun as <- <-; left; by apply Hstop1].
  unfold mbind at 1, M_bind at 1, at_chain in Hrun.
  destruct (broadcast tx (w_chain w1)) as [o c'] eqn:Hb. rewrite Hc in Hb.
  assert (∀ (r : result Schedule), w' = Build_World (w_fs w1) (w_rng w1) (w_db w1) c' →
    (∀ s, r ≠ Ok s) → o ≠ Ok (compute_txid tx) → stopped d w r w') as Hstop2.
  { intros r' -> Hr Ho. exists (compute_txid tx).
    split_and!; [done|done|right; by exists tx, o|right; by exists previous]. }
  destruct o as [id|e|];
    [|injection Hrun as <- <-; left; by apply Hstop2|injection Hrun as <- <-; left; by apply Hstop2].
  unfold mbind at 1, M_bind at 1, pure in Hrun.
  destruct (bool_decide (id = compute_txid tx)) eqn:Hid; simpl in Hrun;
    [|injection Hrun as <- <-; left; apply Hstop2; [done|done|];
      apply bool_decide_eq_false in Hid; congruence].
  apply bool_decide_eq_true in Hid as ->. right.
  unfold mbind at 1, M_bind at 1 in Hrun.
  destruct (activate_schedule _ _ _ _ _ _ _) as [r0 w2] eqn:Hact.
  exists c', m, tx, schedule, previous, w1, r0. split_and!.
  - split; [|done| | |done|done|done].
    + exists config. split_and!; [done|done|by exists va].
    + by exists phone.
    + by exists p.
  - done.
  - rewrite Hact. destruct r0 as [[]|e|]; by injection Hrun as _ <-.
  - destruct r0 as [[]|e|]; by injection Hrun as <- _.
Qed.

(** C5: Nothing of the active policy changes before the network has the new
    rollover.  Whatever fails, either the backend has accepted the finalised
    rollover of a batch that passes the final validation, or the activation
    does not succeed, the active schedule, the configuration with its limits,
    the phone's key file and every file outside the directory of one epoch are
    as before, and so are the files of every other epoch. *)
Theorem activation_waits_for_network d b w r w' :
  activate_policy d b w = (r, w') →
  (∃ c' m tx schedule previous w1, accepted_rollover d b w c' m tx schedule previous w1) ∨
  ((∀ s, r ≠ Ok s) ∧
   load_schedule (w_fs w') d = load_schedule (w_fs w) d ∧
   load_config (w_fs w') d = load_config (w_fs w) d ∧
   load_device_keys (w_fs w') d PHONE_DEVICE_FILE = load_device_keys (w_fs w) d PHONE_DEVICE_FILE ∧
   ∃ t, (∀ k, ¬ near (epoch_key (w_fs w) d t) k → file_at (w_fs w') k = file_at (w_fs w) k) ∧
     (∀ t' l, t' ≠ t → file_at (w_fs w') (epoch_key (w_fs w) d t' ++ l)
                       = file_at (w_fs w) (epoch_key (w_fs w) d t' ++ l))).
Proof using Names.
  intros [(t & Ht & Hr & _ & _)|(c' & m & tx & schedule & previous & w1 & r0 & Ha & _)]%activate_cases;
    [right|left; do 6 eexists; exact Ha].
  assert (∀ x, x ∈ [["anzen.json"]; ["vault.json"]; ["phone"; "schedule.json"]; ["phone"; "device.json"]] →
    ∀ key, key ∈ [epoch_key (w_fs w) d t] → ¬ near key (resolve (w_fs w) d ++ x)) as Hfar.
  { intros x Hx key ->%list_elem_of_singleton. by eapply far_from_epoch. }
  split_and!; [done|..].
  - apply (load_schedule_touched _ _ _ _ Ht). apply Hfar. set_solver.
  - apply (load_config_touched _ _ _ _ Ht). intros key Hk. split; apply Hfar; set_solver.
  - unfold load_device_keys, load_device, read_json.
    rewrite (read_touched _ _ _ _ Ht); [done|]. rewrite resolve_device. apply Hfar. set_solver.
  - exists t. split.
    + intros k Hk. apply (touched_file _ _ _ _ Ht). by intros key ->%list_elem_of_singleton.
    + intros t' l Hne. apply (touched_file _ _ _ _ Ht). intros key ->%list_elem_of_singleton.
      by apply far_epochs.
Qed.

(** ** What an activation leaves *)

Lemma at_fs_Ok {A} (m : M FS A) w a w' :
  at_fs m w = (Ok a, w') ↔
  ∃ f, m (w_fs w) = (Ok a, f) ∧ w' = Build_World f (w_rng w) (w_db w) (w_chain w).
Proof. unfold at_fs. destruct (m (w_fs w)) as [x f]. naive_solver. Qed.

Lemma write_name_Ok `{Json A} p s (a : A) f f' :
  is_name s → write_json (join p s) a f = (Ok tt, f') →
  touched [resolve f p ++ [s]] f f' ∧
  ∃ text, to_vec_pretty a = Some text ∧ file_at f' (resolve f p ++ [s]) = Some text.
Proof.
  intros Hs Hw. split; [by eapply write_json_touches|].
  apply write_json_run in Hw as (_ & _ & _ & Hok). rewrite resolve_name in Hok by done. by apply Hok.
Qed.

Lemma schedule_path d : join d SCHEDULE_FILE = join (join d "phone") "schedule.json".
Proof. unfold join. simpl. by rewrite <-app_assoc. Qed.

Lemma set_limits_touches f f' d m e c :
  set_policy_limits d m e f = (Ok c, f') →
  touched [resolve f d ++ ["anzen.json"]; resolve f d ++ ["vault.json"]] f f'.
Proof.
  intros (c0 & s & _ & _ & _ & Hw)%set_policy_limits_Ok.
  unfold config_path in Hw. repeat case_match; apply write_private_touches in Hw; try done;
    (eapply touched_mono; [|exact Hw]); set_solver.
Qed.

(** The writes after acceptance, one by one. *)
Record completed d t previous (f1 f5 : FS) (m : BatchManifest) (schedule : Schedule) : Prop := {
  cp_touched : touched
    (option_list (t' ← previous; if bool_decide (t' = t) then None
                                 else Some (epoch_key f1 d t' ++ ["activated.json"])) ++
     [schedule_key f1 d; resolve f1 d ++ ["anzen.json"]; resolve f1 d ++ ["vault.json"];
      epoch_key f1 d t ++ ["activated.json"]]) f1 f5;
  cp_previous : ∀ t', previous = Some t' → t' ≠ t →
    is_Some (file_at f5 (epoch_key f1 d t' ++ ["activated.json"]));
  cp_schedule : ∃ text, to_vec_pretty schedule = Some text ∧
    file_at f5 (schedule_key f1 d) = Some text;
  cp_config : ∃ c0 f3 f4 s, load_config f1 d = Ok c0 ∧
    to_vec_pretty (set_limits (monthly_limit_sats m) (emergency_access_limit_sats m) c0) = Some s ∧
    same_env f1 f3 ∧ config_exists f3 d = true ∧
    write_private (config_path f3 d) s f3 = (Ok tt, f4) ∧
    touched [epoch_key f1 d t ++ ["activated.json"]] f4 f5;
  cp_activated : is_Some (file_at f5 (epoch_key f1 d t ++ ["activated.json"]));
}.

Lemma resolve_phone f d : resolve f (join d "phone") = resolve f d ++ ["phone"].
Proof. by apply resolve_name. Qed.

Lemma schedule_key_snoc f d : schedule_key f d = (resolve f d ++ ["phone"]) ++ ["schedule.json"].
Proof. unfold schedule_key. by rewrite <-app_assoc. Qed.

(** The four names that an activation writes are apart. *)
Lemma far_config f d x l : x ∈ ["anzen.json"; "vault.json"] →
  ¬ near (resolve f d ++ [x]) (resolve f d ++ "phone" :: l).
Proof. intros Hx. apply (not_near_names _ x "phone" []). set_solver. Qed.

Lemma far_config' f d x l m : x ∈ ["anzen.json"; "vault.json"] →
  ¬ near (resolve f d ++ "phone" :: l) (resolve f d ++ x :: m).
Proof. intros Hx. apply not_near_names. set_solver. Qed.

Lemma far_schedule_epoch f d t l : ¬ near (schedule_key f d) (epoch_key f d t ++ l).
Proof.
  unfold schedule_key, epoch_key.
  change ["phone"; "schedule.json"] with (["phone"] ++ ["schedule.json"]).
  change ["phone"; "transactions"; txid_to_string t]
    with (["phone"] ++ ["transactions"; txid_to_string t]).
  rewrite !app_assoc, <-(app_assoc _ _ l). by apply not_near_names.
Qed.

Lemma far_epoch_schedule f d t l : ¬ near (epoch_key f d t ++ l) (schedule_key f d).
Proof.
  intros Hn%near_app. revert Hn. apply (far_from_epoch _ _ _ _ ["phone"; "schedule.json"]); [|done].
  set_solver.
Qed.

Lemma write_previous_Ok d t previous w u w1 :
  match previous with
  | Some t' => if bool_decide (t' = t) then mret tt
               else at_fs (write_json (join (epoch_dir_of d t') "activated.json") true)
  | None => mret tt
  end w = (Ok u, w1) →
  w_chain w1 = w_chain w ∧
  touched (option_list (t' ← previous; if bool_decide (t' = t) then None
             else Some (epoch_key (w_fs w) d t' ++ ["activated.json"]))) (w_fs w) (w_fs w1) ∧
  (∀ t', previous = Some t' → t' ≠ t →
     is_Some (file_at (w_fs w1) (epoch_key (w_fs w) d t' ++ ["activated.json"]))).
Proof using Names.
  destruct previous as [t'|]; [|intros [= _ <-]; split_and!; [done|apply touched_refl|done]].
  simpl. destruct (bool_decide (t' = t)) eqn:Heq.
  { intros [= _ <-]. split_and!; [done|apply touched_refl|].
    apply bool_decide_eq_true in Heq. intros ? [= <-]. done. }
  destruct u. intros (f & Hw & ->)%at_fs_Ok. apply write_name_Ok in Hw as [Ht (text & _ & Hf)]; [|done].
  rewrite resolve_epoch in Ht, Hf. split_and!; [done|exact Ht|].
  intros ? [= <-] _. by eexists.
Qed.

Lemma activate_schedule_Ok d t previous m schedule w u w' :
  activate_schedule d (epoch_dir_of d t) previous t m schedule w = (Ok u, w') →
  completed d t previous (w_fs w) (w_fs w') m schedule ∧ w_chain w' = w_chain w.
Proof using Names.
  unfold activate_schedule. intros Hrun.
  apply M_bind_Ok in Hrun as ([] & w1 & (Hc1 & Ht1 & Hp)%write_previous_Ok & Hrun).
  apply M_bind_Ok in Hrun as ([] & w2 & (f2 & Hw2 & ->)%at_fs_Ok & Hrun).
  rewrite schedule_path in Hw2. apply write_name_Ok in Hw2 as [Ht2 (text & Htext & Hf2)]; [|done].
  rewrite resolve_phone, <-schedule_key_snoc in Ht2, Hf2.
  apply M_bind_Ok in Hrun as (c & w3 & (f3 & Hw3 & ->)%at_fs_Ok & Hrun). simpl in Hw3.
  pose proof (set_limits_touches _ _ _ _ _ _ Hw3) as Ht3.
  apply set_policy_limits_Ok in Hw3 as (c0 & s & Hl & -> & Hs & Hw3).
  destruct u. apply at_fs_Ok in Hrun as (f4 & Hw4 & ->). simpl in Hw4.
  apply write_name_Ok in Hw4 as [Ht4 (text4 & _ & Hf4)]; [|done].
  set (f0 := w_fs w) in *. set (f1 := w_fs w1) in *. cbn [w_fs] in *.
  assert (∀ p, resolve f1 p = resolve f0 p) as He1 by (intros p; by eapply touched_resolve).
  assert (∀ p, resolve f2 p = resolve f1 p) as He2 by (intros p; by eapply touched_resolve).
  assert (∀ p, resolve f3 p = resolve f2 p) as He3 by (intros p; by eapply touched_resolve).
  rewrite resolve_epoch in Ht4, Hf4. unfold schedule_key, epoch_key in Ht2, Ht4, Hf2, Hf4.
  rewrite He1 in Ht2, Hf2. rewrite He2, He1 in Ht3. rewrite He3, He2, He1 in Ht4, Hf4.
  fold (schedule_key f0 d) in Ht2, Hf2. fold (epoch_key f0 d t) in Ht4, Hf4.
  split; [|done]. split.
  - eapply touched_trans; [eapply touched_mono, Ht1; set_solver|].
    eapply touched_trans; [eapply touched_mono, Ht2; set_solver|].
    eapply touched_trans; [eapply touched_mono, Ht3; set_solver|].
    eapply touched_mono, Ht4. set_solver.
  - intros t' Ht' Hne. destruct (Hp t' Ht' Hne) as [x Hx]. exists x.
    rewrite (touched_file _ _ _ _ Ht4), (touched_file _ _ _ _ Ht3), (touched_file _ _ _ _ Ht2); [done|..].
    + intros key ->%list_elem_of_singleton. apply far_schedule_epoch.
    + intros key Hk. unfold epoch_key. rewrite <-app_assoc.
      repeat (apply elem_of_cons in Hk as [->|Hk]); [..|by apply not_elem_of_nil in Hk];
        apply far_config; set_solver.
    + intros key ->%list_elem_of_singleton Hn%near_app. revert Hn. by apply far_epochs.
  - exists text. split; [done|].
    rewrite (touched_file _ _ _ _ Ht4), (touched_file _ _ _ _ Ht3); [done|..].
    + intros key Hk. unfold schedule_key.
      repeat (apply elem_of_cons in Hk as [->|Hk]); [..|by apply not_elem_of_nil in Hk];
        apply far_config; set_solver.
    + intros key ->%list_elem_of_singleton. apply far_epoch_schedule.
  - exists c0, f2, f3, s. split_and!; [|done| | |done|done].
    + rewrite <-Hl. symmetry.
      rewrite (load_config_touched _ f1 f2 d Ht2), (load_config_touched _ f0 f1 d Ht1); [done|..].
      * intros key Hk. destruct previous as [t'|]; simpl in Hk; [|by apply not_elem_of_nil in Hk].
        destruct (bool_decide (t' = t)); simpl in Hk; [by apply not_elem_of_nil in Hk|].
        apply list_elem_of_singleton in Hk as ->. unfold epoch_key. rewrite <-app_assoc.
        split; apply far_config'; set_solver.
      * intros key ->%list_elem_of_singleton. rewrite He1. unfold schedule_key.
        split; apply far_config'; set_solver.
    + destruct Ht1 as [[Ha Hb] _], Ht2 as [[Hc Hd] _]. split; congruence.
    + by eapply load_config_exists.
  - by eexists.
Qed.

Lemma stage_epoch_schedule d e b phone m tx w schedule w' :
  stage_epoch d e b phone m tx w = (Ok schedule, w') →
  schedule_version schedule = 5%N ∧
  schedule_rollover_txid schedule = txid_to_string (compute_txid tx).
Proof.
  unfold stage_epoch. intros Hrun.
  do 7 apply M_bind_Ok in Hrun as (? & ? & _ & Hrun).
  apply M_bind_Ok in Hrun as (? & ? & _ & [<- _]%mret_Ok). done.
Qed.

(** The state of a completed activation. *)
Lemma activate_Ok d b w schedule w' :
  activate_policy d b w = (Ok schedule, w') →
  ∃ c' m tx previous w1,
    accepted_rollover d b w c' m tx schedule previous w1 ∧
    touched [epoch_key (w_fs w) d (compute_txid tx)] (w_fs w) (w_fs w1) ∧
    completed d (compute_txid tx) previous (w_fs w1) (w_fs w') m schedule ∧ w_chain w' = c' ∧
    schedule_version schedule = 5%N ∧
    schedule_rollover_txid schedule = txid_to_string (compute_txid tx).
Proof using Names.
  intros [(_ & _ & Hr & _)|(c' & m & tx & sch & previous & w1 & r0 & Ha & Ht & Hact & Hr)]%activate_cases.
  { by destruct (Hr schedule). }
  destruct r0 as [[]|e|]; [|done..]. injection Hr as <-.
  apply activate_schedule_Ok in Hact as [Hc Hch].
  destruct (ar_phone _ _ _ _ _ _ _ _ _ Ha) as (phone & _ & Hs).
  apply stage_epoch_schedule in Hs as [Hv Hid].
  by exists c', m, tx, previous, w1.
Qed.

Lemma completed_schedule `{!JsonLaws Schedule} d t previous f1 f5 m schedule :
  no_read_fault f1 → completed d t previous f1 f5 m schedule → schedule_version schedule = 5%N →
  load_schedule f5 d = Ok schedule ∧ is_file f5 (resolve f5 (join d SCHEDULE_FILE)) = true.
Proof.
  intros Hn Hc Hv. destruct (cp_schedule _ _ _ _ _ _ _ Hc) as (text & Htext & Hf).
  destruct (cp_touched _ _ _ _ _ _ _ Hc) as [[Hcwd Hfault] _].
  assert (resolve f5 (join d SCHEDULE_FILE) = schedule_key f1 d) as Hk.
  { rewrite resolve_schedule. unfold schedule_key, resolve. by rewrite Hcwd. }
  split.
  - unfold load_schedule. rewrite (read_json_of f5 _ schedule text); [| |done|by rewrite Hk].
    + simpl. by rewrite bool_decide_eq_true_2.
    + intros k. rewrite Hfault. apply Hn.
  - rewrite Hk. unfold file_at in Hf. unfold is_file.
    destruct (node_at f5 (schedule_key f1 d)) as [[]|]; done.
Qed.

(** A batch whose rollover is a superseded epoch's is refused before anything
    is written or sent. *)
Lemma superseded_refused d b w r w2 m p tx :
  activate_policy d b w = (r, w2) →
  load_manifest (w_fs w) b = Ok m → read_psbt (w_fs w) (join b (psbt_file (rollover m))) = Ok p →
  finalize_vault_psbt p = Ok tx →
  (∀ previous, previous_epoch_of (w_fs w) d = Ok previous →
     superseded (w_fs w) d (compute_txid tx) previous = true) →
  w2 = w ∧ ∀ s, r ≠ Ok s.
Proof using.
  intros Hrun Hm Hpsbt Htx Hprev.
  unfold activate_policy in Hrun.
  apply read_step in Hrun as [Hs|(config & _ & Hrun)]; [done| |apply with_fs_reads].
  apply read_step in Hrun as [Hs|(? & _ & Hrun)]; [done| |apply network_reads].
  apply read_step in Hrun as [Hs|(m' & [= Hm'] & Hrun)]; [done| |apply with_fs_reads].
  rewrite Hm in Hm'. injection Hm' as <-.
  apply read_step in Hrun as [Hs|(? & _ & Hrun)]; [done| |apply with_fs_reads].
  apply read_step in Hrun as [Hs|(? & _ & Hrun)]; [done| |apply with_fs_reads].
  apply read_step in Hrun as [Hs|(p' & [= Hp'] & Hrun)]; [done| |apply with_fs_reads].
  rewrite Hpsbt in Hp'. injection Hp' as <-.
  apply read_step in Hrun as [Hs|(tx' & [= Htx'] & Hrun)]; [done| |apply pure_reads].
  rewrite Htx in Htx'. injection Htx' as <-. cbv zeta in Hrun.
  apply read_step in Hrun as [Hs|(pr & [= Hpr] & Hrun)]; [done| |apply with_fs_reads].
  apply read_step in Hrun as [Hs|([] & [= Hsup%bail_if_Ok] & _)]; [done| |apply with_fs_reads].
  unfold superseded in Hprev. by rewrite Hprev in Hsup.
Qed.
(** Once a new epoch has replaced an old one, the old one cannot come
    back: activating any batch whose rollover is the old epoch's fails, before
    anything is written or sent, and the schedule stays the new epoch's. *)
Theorem superseded_epoch_refused `{!JsonLaws Schedule} d b w schedule w' old :
  no_read_fault (w_fs w) →
  previous_epoch_of (w_fs w) d = Ok (Some old) →
  activate_policy d b w = (Ok schedule, w') →
  schedule_rollover_txid schedule ≠ txid_to_string old →
  load_schedule (w_fs w') d = Ok schedule ∧
  ∀ b' m p tx r w2,
    load_manifest (w_fs w') b' = Ok m → read_psbt (w_fs w') (join b' (psbt_file (rollover m))) = Ok p →
    finalize_vault_psbt p = Ok tx → compute_txid tx = old →
    activate_policy d b' w' = (r, w2) → w2 = w' ∧ ∀ s, r ≠ Ok s.
Proof using Names.
  intros Hn Hold (c' & m0 & tx0 & previous & w1 & Ha & [Henv Htch] & Hc & Hch & Hv & Hid)%activate_Ok Hne.
  rewrite Hid in Hne.
  pose proof (ar_previous _ _ _ _ _ _ _ _ _ Ha) as Hp. rewrite Hold in Hp. injection Hp as <-.
  assert (old ≠ compute_txid tx0) as Hne' by (intros Heq; by rewrite Heq in Hne).
  assert (no_read_fault (w_fs w1)) as Hn1 by (intros k; destruct Henv as [_ ->]; apply Hn).
  destruct (completed_schedule _ _ _ _ _ _ _ Hn1 Hc Hv) as [Hload Hfile].
  destruct (cp_previous _ _ _ _ _ _ _ Hc old eq_refl Hne') as [text Hact].
  destruct (cp_touched _ _ _ _ _ _ _ Hc) as [[Hcwd _] _].
  split; [done|]. intros b' m p tx r w2 Hm Hpsbt Htx <- Hrun.
  assert (previous_epoch_of (w_fs w') d = Ok (Some (compute_txid tx0))) as Hprev.
  { unfold previous_epoch_of. rewrite Hfile, Hload. simpl. by rewrite Hid, txid_round_trip. }
  assert (exists_ (w_fs w') (join (epoch_dir_of d (compute_txid tx)) "activated.json") = true) as Hex.
  { unfold exists_. rewrite resolve_name, resolve_epoch by done.
    unfold epoch_key, resolve in *. rewrite Hcwd. unfold file_at in Hact. by destruct (node_at _ _). }
  apply (superseded_refused _ _ _ _ _ _ _ _ Hrun Hm Hpsbt Htx). intros pr Hpr.
  rewrite Hprev in Hpr. injection Hpr as <-. unfold superseded.
  by rewrite Hex, bool_decide_eq_false_2 by congruence.
Qed.
End activation.
