(* ===== verification/PhoneHistory.v ===== *)
(** The epochs of a phone over its whole life: any sequence of activations,
    each of which may fail anywhere and be tried again, with other work between
    them, is a run of an automaton in which a replaced epoch never returns. *)

From S2P Require Import Prelude Bitcoin Types Keys Policy Transactions FileSystem Storage Crypto Social Ceremony CeremonyValidate CeremonySound Recovery HotWallet Phone PhonePaths PhoneActivation.

(** * The automaton *)

Section automaton.
Context `{BitcoinLib}.

(** The active epoch and the epochs that it has replaced. *)
Definition Epochs : Type := Txid * gset Txid.

(** A new epoch, never one that was replaced, takes the place of the active
    one. *)
Inductive epoch_step : Epochs → Epochs → Prop :=
  | epoch_renewed cur R t : t ≠ cur → t ∉ R → epoch_step (cur, R) (t, {[cur]} ∪ R).

Lemma epoch_run_monotone x y :
  rtc epoch_step x y → x.2 ⊆ y.2 ∧ (y.1 = x.1 ∨ x.1 ∈ y.2).
Proof.
  induction 1 as [x|x z y Hstep _ [Hsub _]]; [split; [done|by left]|].
  destruct Hstep as [cur R t _ _]. simpl in *. split; [|right]; set_solver.
Qed.
End automaton.

Section history.
Context `{BitcoinLib, !KeyLib, !BdkLib, !TxidText, CryptoLib, Json VaultConfig, !Json DeviceFile,
          Json PublicDeviceFile, Json BatchManifest, Json Schedule, Json PolicyPackage,
          JsonVec PolicyPackage, Json EncryptedTransaction, Json EncryptedEmergencyTransaction,
          Json EncryptedBlob, Json Transaction, Json bool}.
Context {B : Type} `{!Blockchain B} `{Names : !TxidTextLaws}.
Implicit Types (w : World B) (d : Path) (f : FS) (t cur : Txid).

(** * What the disk says *)

(** The epoch of the schedule on disk. *)
Definition recorded d f cur : Prop :=
  ∃ text s, file_at f (schedule_key f d) = Some text ∧ from_slice text = Some s ∧
    schedule_version s = 5%N ∧ txid_from_str (schedule_rollover_txid s) = Some cur.

(** An epoch that has been activated once. *)
Definition marked d f t : Prop := is_Some (node_at f (epoch_key f d t ++ ["activated.json"])).

(** The states of the automaton that a disk is in. *)
Record in_epochs d f (x : Epochs) : Prop := {
  ie_current : recorded d f x.1;
  ie_other : x.1 ∉ x.2;
  ie_replaced : ∀ t, t ∈ x.2 → marked d f t;
}.

(** Work that leaves the phone's schedule and the markers of its epochs. *)
Record quiet d f f' : Prop := {
  qt_cwd : cwd f' = cwd f;
  qt_schedule : file_at f' (schedule_key f d) = file_at f (schedule_key f d);
  qt_markers : ∀ t, marked d f t → marked d f' t;
}.

(** One attempt to activate a batch, or other work on the disk, the wallet's
    database and the network. *)
Inductive phone_step d : World B → World B → Prop :=
  | attempt b w r w' : activate_policy d b w = (r, w') → phone_step d w w'
  | other_work w w' : quiet d (w_fs w) (w_fs w') → phone_step d w w'.

(** A disk whose replaced epochs are not known. *)
Lemma recorded_epochs d f cur : recorded d f cur → in_epochs d f (cur, ∅).
Proof using. split; [done|apply not_elem_of_empty|]. by intros t Ht%elem_of_empty. Qed.

(** ** Keys of the same process *)

Lemma schedule_key_cwd d f f' : cwd f' = cwd f → schedule_key f' d = schedule_key f d.
Proof using. intros Hc. unfold schedule_key, resolve. by rewrite Hc. Qed.

Lemma epoch_key_cwd d f f' t : cwd f' = cwd f → epoch_key f' d t = epoch_key f d t.
Proof using. intros Hc. unfold epoch_key, resolve. by rewrite Hc. Qed.

#[local] Instance quiet_preorder d : PreOrder (quiet d).
Proof using.
  split; [by intros f; split|]. intros f1 f2 f3 [Hc Hs Hm] [Hc' Hs' Hm']. split; [congruence| |auto].
  by rewrite <-Hs, <-(schedule_key_cwd _ _ _ Hc).
Qed.

Lemma quiet_recorded d f f' cur : quiet d f f' → recorded d f cur → recorded d f' cur.
Proof using.
  intros [Hc Hs _] (text & s & Hf & Hr). exists text, s. split; [|done].
  by rewrite (schedule_key_cwd _ _ _ Hc), Hs.
Qed.

Lemma quiet_epochs d f f' x : quiet d f f' → in_epochs d f x → in_epochs d f' x.
Proof using.
  intros Hq [Hr Ho Hm]. split; [by eapply quiet_recorded|done|].
  intros t Ht. by eapply qt_markers, Hm.
Qed.

Lemma recorded_previous d f cur previous :
  recorded d f cur → previous_epoch_of f d = Ok previous → previous = Some cur.
Proof using.
  intros (text & s & Hf & Hs & Hv & Ht). unfold previous_epoch_of, is_file.
  rewrite resolve_schedule. pose proof Hf as Hf0. unfold file_at in Hf0.
  destruct (node_at f (schedule_key f d)) as [[text'|]|]; try done.
  intros (s' & Hload & (t & Ht' & [= <-])%bind_Ok)%bind_Ok. apply or_err_Ok in Ht'.
  unfold load_schedule in Hload. apply bind_Ok in Hload as (s0 & Hread & (u & _ & [= ->])%bind_Ok).
  unfold read_json in Hread. apply bind_Ok in Hread as (bytes & [_ Hb]%read_Ok & Hp%or_err_Ok).
  rewrite resolve_schedule in Hb. congruence.
Qed.

Lemma marked_superseded d f cur t :
  marked d f t → cur ≠ t → superseded f d t (Some cur) = true.
Proof using Names.
  intros [x Hx] Hne. unfold superseded, exists_. rewrite resolve_name, resolve_epoch, Hx by done.
  by rewrite bool_decide_eq_false_2.
Qed.

(** * What an attempt does *)

(** Staging changes nothing about the other epochs. *)
Lemma staged_epochs d f f' t x :
  touched [epoch_key f d t] f f' → t ∉ x.2 → in_epochs d f x → in_epochs d f' x.
Proof using Names.
  intros Ht Hnew [(text & s & Hf & Hr) Ho Hm]. pose proof Ht as [[Hc _] Hkeep].
  split; [|done|].
  - exists text, s. split; [|done]. rewrite (schedule_key_cwd _ _ _ Hc), (touched_file _ _ _ _ Ht); [done|].
    intros key ->%list_elem_of_singleton. eapply (far_from_epoch f d t _ ["phone"; "schedule.json"]); [|done].
    set_solver.
  - intros t' Ht'. unfold marked. rewrite (epoch_key_cwd _ _ _ _ Hc), Hkeep; [by apply Hm|].
    intros key ->%list_elem_of_singleton. apply far_epochs. by intros <-.
Qed.

(** A write of one file removes none. *)
Lemma write_private_grows p bytes f r f' k :
  write_private p bytes f = (r, f') → is_Some (node_at f k) → is_Some (node_at f' k).
Proof using.
  intros (_ & _ & Hk & Hp)%write_private_run.
  assert (∀ dirs, node_kept f f' dirs k → is_Some (node_at f k) → is_Some (node_at f' k)) as Hkept
    by (intros dirs [->|(-> & _)] [x Hx]; done).
  destruct (decide (k = resolve f p)) as [->|Hne]; [|by eapply Hkept, Hk].
  destruct Hp as [->|[_ Hp]]; [done|by eapply Hkept].
Qed.

Lemma write_json_grows `{Json A} p (a : A) f r f' k :
  write_json p a f = (r, f') → is_Some (node_at f k) → is_Some (node_at f' k).
Proof using.
  unfold write_json, pure, mbind, M_bind.
  destruct (to_vec_pretty a) as [bytes|]; simpl; [|by intros [= _ <-]]. apply write_private_grows.
Qed.

(** The work of an operation, whatever its outcome. *)
Definition calm d {A} (m : M (World B) A) : Prop :=
  ∀ w r w', m w = (r, w') → quiet d (w_fs w) (w_fs w').

Lemma calm_ret d {A} (a : A) : calm d (mret a).
Proof using. by intros w r w' [= _ <-]. Qed.

Lemma calm_bind d {A C} (m : M (World B) A) (g : A → M (World B) C) :
  calm d m → (∀ a, calm d (g a)) → calm d (a ← m; g a).
Proof using.
  intros Hm Hg w r w'. unfold mbind, M_bind.
  destruct (m w) as [[a|e|] w1] eqn:Hrun; apply Hm in Hrun; [|by intros [= _ <-]..].
  intros Hr%Hg. by etrans.
Qed.

Lemma calm_write d p s `{Json A} (a : A) :
  is_name s → (∀ f, ¬ near (resolve f p ++ [s]) (schedule_key f d)) →
  calm d (at_fs (write_json (join p s) a)).
Proof using.
  intros Hs Hfar w r w'. unfold at_fs.
  destruct (write_json (join p s) a (w_fs w)) as [r1 f1] eqn:Hw. intros [= _ <-]. cbn [w_fs].
  pose proof (write_json_touches _ _ _ _ _ _ Hs Hw) as Ht. pose proof Ht as [[Hc _] _].
  split; [done| |].
  - apply (touched_file _ _ _ _ Ht). by intros key ->%list_elem_of_singleton.
  - intros t. unfold marked. rewrite (epoch_key_cwd _ _ _ _ Hc). by eapply write_json_grows.
Qed.

Lemma calm_marker d t : calm d (at_fs (write_json (join (epoch_dir_of d t) "activated.json") true)).
Proof using Names.
  apply calm_write; [done|]. intros f. rewrite resolve_epoch. apply far_epoch_schedule.
Qed.

Lemma calm_limits d m e : calm d (at_fs (set_policy_limits d m e)).
Proof using Names.
  intros w r w'. unfold at_fs.
  destruct (set_policy_limits d m e (w_fs w)) as [r1 f1] eqn:Hs. intros [= _ <-]. cbn [w_fs].
  unfold set_policy_limits, get, pure in Hs. unfold mbind at 1, M_bind at 1 in Hs.
  unfold mbind at 1, M_bind at 1 in Hs.
  destruct (load_config (w_fs w) d) as [c|err|]; [|by injection Hs as _ <-..].
  unfold mbind, M_bind in Hs.
  destruct (write_json (config_path (w_fs w) d) (set_limits m e c) (w_fs w)) as [r2 f2] eqn:Hw.
  assert (f1 = f2) as -> by (destruct r2; by injection Hs as _ <-).
  assert (∃ s, s ∈ ["anzen.json"; "vault.json"] ∧ config_path (w_fs w) d = join d s) as (s & Hin & Hp).
  { unfold config_path. repeat case_match; eexists; (split; [|reflexivity]); set_solver. }
  rewrite Hp in Hw.
  apply (calm_write d d s (set_limits m e c)) with (w := w) (r := r2)
    (w' := Build_World f2 (w_rng w) (w_db w) (w_chain w)).
  - by repeat (apply elem_of_cons in Hin as [->|Hin]); [..|apply not_elem_of_nil in Hin].
  - intros f. unfold schedule_key. by apply far_config.
  - unfold at_fs. by rewrite Hw.
Qed.
(** A run of a sequence went through its first part or stopped in it. *)
Lemma M_bind_run {S A C} (m : M S A) (g : A → M S C) s r s' :
  (a ← m; g a) s = (r, s') →
  (∃ r1, m s = (r1, s')) ∨ (∃ a s1, m s = (Ok a, s1) ∧ g a s1 = (r, s')).
Proof using.
  unfold mbind, M_bind. destruct (m s) as [[a|e|] s1] eqn:Hm.
  - intros Hg. right. by exists a, s1.
  - intros [= _ <-]. left. by eexists.
  - intros [= _ <-]. left. by eexists.
Qed.

Context `{Text : !JsonLaws Schedule}.

(** A new schedule is on disk after its write, or the old one still is. *)
Lemma write_schedule_run d t schedule w r w' :
  at_fs (write_json (join d SCHEDULE_FILE) schedule) w = (r, w') →
  schedule_version schedule = 5%N → schedule_rollover_txid schedule = txid_to_string t →
  (∀ t', marked d (w_fs w) t' → marked d (w_fs w') t') ∧
  (quiet d (w_fs w) (w_fs w') ∨ recorded d (w_fs w') t).
Proof using Names Text.
  unfold at_fs. destruct (write_json _ schedule (w_fs w)) as [r1 f1] eqn:Hw.
  intros [= _ <-] Hv Hid. cbn [w_fs].
  assert (∀ t', marked d (w_fs w) t' → marked d f1 t') as Hgrow.
  { intros t' Ht'. pose proof Hw as Hw'%write_json_run. destruct Hw' as [[Hc _] _].
    unfold marked. rewrite (epoch_key_cwd _ _ _ _ Hc). exact (write_json_grows _ _ _ _ _ _ Hw Ht'). }
  split; [done|]. unfold write_json, pure in Hw. unfold mbind at 1, M_bind at 1 in Hw.
  destruct (to_vec_pretty schedule) as [text|] eqn:Htext; simpl in Hw; [|injection Hw as _ <-; by left].
  apply write_private_files in Hw as ([Hc _] & _ & _ & Hfile). rewrite resolve_schedule in Hfile.
  destruct Hfile as [Hfile|[_ Hfile]]; [right|left; split; [exact Hc|exact Hfile|exact Hgrow]].
  exists text, schedule. rewrite (schedule_key_cwd _ _ _ Hc), Hid.
  split_and!; [done|by apply json_round_trip|done|apply txid_round_trip].
Qed.

(** Either the schedule on disk is as before, or it is the new one and the epoch
    that it replaces is marked. *)
Lemma activate_schedule_run d t cur m schedule w r w' :
  activate_schedule d (epoch_dir_of d t) (Some cur) t m schedule w = (r, w') →
  schedule_version schedule = 5%N → schedule_rollover_txid schedule = txid_to_string t →
  quiet d (w_fs w) (w_fs w') ∨
  (recorded d (w_fs w') t ∧ (cur ≠ t → marked d (w_fs w') cur) ∧
   ∀ t', marked d (w_fs w) t' → marked d (w_fs w') t').
Proof using Names Text.
  intros Hrun Hv Hid. unfold activate_schedule in Hrun.
  apply M_bind_run in Hrun as [(r1 & Hfirst)|([] & w1 & Hfirst & Hrun)].
  { left. revert Hfirst. case_bool_decide; [by intros [= _ <-]|]. apply calm_marker. }
  assert (quiet d (w_fs w) (w_fs w1)) as Hq.
  { revert Hfirst. case_bool_decide; [by intros [= <-]|]. apply calm_marker. }
  assert (cur ≠ t → marked d (w_fs w1) cur) as Hcur.
  { intros Hne. destruct (write_previous_Ok d t (Some cur) w _ w1 Hfirst) as (_ & _ & Hp).
    destruct (Hp cur eq_refl Hne) as [x Hx]. unfold marked.
    rewrite (epoch_key_cwd _ _ _ _ (qt_cwd _ _ _ Hq)). unfold file_at in Hx. by destruct (node_at _ _). }
  assert (∀ r2 w2, at_fs (write_json (join d SCHEDULE_FILE) schedule) w1 = (r2, w2) →
    quiet d (w_fs w2) (w_fs w') → quiet d (w_fs w) (w_fs w') ∨
    (recorded d (w_fs w') t ∧ (cur ≠ t → marked d (w_fs w') cur) ∧
     ∀ t', marked d (w_fs w) t' → marked d (w_fs w') t')) as Hthen.
  { intros r2 w2 Hw Hq2. destruct (write_schedule_run _ _ _ _ _ _ Hw Hv Hid) as [Hm [Hq1|Hrec]].
    - left. by do 2 (etrans; [done|]).
    - right. split_and!; [by eapply quiet_recorded| |].
      + intros Hne. by apply (qt_markers _ _ _ Hq2), Hm, Hcur.
      + intros t' Ht'. by apply (qt_markers _ _ _ Hq2), Hm, (qt_markers _ _ _ Hq). }
  apply M_bind_run in Hrun as [(r1 & Hw)|([] & w2 & Hw & Hrun)]; [by eapply Hthen|].
  eapply Hthen; [exact Hw|]. eapply calm_bind; [apply calm_limits| |exact Hrun].
  intros c. apply calm_marker.
Qed.

(** * The phone follows the automaton *)

Lemma attempt_epochs d b w r w' x :
  activate_policy d b w = (r, w') → in_epochs d (w_fs w) x →
  ∃ y, rtc epoch_step x y ∧ in_epochs d (w_fs w') y.
Proof using Names Text.
  intros Hrun Hx. destruct x as [cur R]. pose proof (ie_current _ _ _ Hx) as Hcur. simpl in Hcur.
  assert (∀ t previous, previous_epoch_of (w_fs w) d = Ok previous →
    superseded (w_fs w) d t previous = false → previous = Some cur ∧ t ∉ R) as Hnew.
  { intros t previous ->%(recorded_previous _ _ _ _ Hcur) Hs. split; [done|]. intros Ht.
    rewrite marked_superseded in Hs; [done|by eapply ie_replaced|].
    intros ->. by apply (ie_other _ _ _ Hx). }
  apply activate_cases in Hrun as
    [(t & Ht & _ & _ & Hs)|(c' & m & tx & schedule & previous & w1 & r0 & Ha & Ht & Hact & _)].
  - exists (cur, R). split; [done|]. destruct Hs as [->|(previous & Hp & Hs)]; [done|].
    destruct (Hnew t previous Hp Hs) as [_ Hfresh]. by eapply staged_epochs.
  - destruct (Hnew _ _ (ar_previous _ _ _ _ _ _ _ _ _ Ha) (ar_current _ _ _ _ _ _ _ _ _ Ha)) as [-> Hfresh].
    destruct (ar_phone _ _ _ _ _ _ _ _ _ Ha) as (phone & _ & [Hv Hid]%stage_epoch_schedule).
    apply (staged_epochs _ _ _ _ (cur, R) Ht Hfresh) in Hx.
    apply activate_schedule_run in Hact as [Hq|(Hrec & Hold & Hm)]; [| |done..].
    + exists (cur, R). split; [done|]. by eapply quiet_epochs.
    + destruct (decide (cur = compute_txid tx)) as [Heq|Hne].
      * rewrite <-Heq in Hrec. exists (cur, R). split; [done|]. split; [done|apply Hx|].
        intros t' Ht'. by apply Hm, (ie_replaced _ _ _ Hx).
      * exists (compute_txid tx, {[cur]} ∪ R). split; [by apply rtc_once, epoch_renewed|].
        split; [done| |].
        -- simpl. intros [Heq%elem_of_singleton|Hin]%elem_of_union; [by apply Hne|by apply Hfresh].
        -- simpl. intros t' [->%elem_of_singleton|Hin]%elem_of_union; [by apply Hold|].
           by apply Hm, (ie_replaced _ _ _ Hx).
Qed.

Lemma history_epochs d w w' x :
  rtc (phone_step d) w w' → in_epochs d (w_fs w) x →
  ∃ y, rtc epoch_step x y ∧ in_epochs d (w_fs w') y.
Proof using Names Text.
  intros Hrun. revert x. induction Hrun as [w|w w1 w' Hstep _ IH]; intros x Hx; [by exists x|].
  assert (∃ z, rtc epoch_step x z ∧ in_epochs d (w_fs w1) z) as (z & Hxz & Hz).
  { destruct Hstep as [b w r w1 Hrun|w w1 Hq]; [by eapply attempt_epochs|].
    exists x. split; [done|by eapply quiet_epochs]. }
  destruct (IH z Hz) as (y & Hzy & Hy). exists y. split; [by etrans|done].
Qed.

(** C8: Over the phone's whole life, whatever activations are tried, wherever
    they fail and however often they are tried again, with any work between them
    that leaves the schedule and the epochs' markers, the disk follows an
    automaton that only ever moves on to an epoch it has not replaced: the active
    epoch stays active or is replaced for good, what was replaced stays replaced,
    and activating any batch whose rollover is that of a replaced epoch is
    refused before anything is written or sent. *)
Theorem epochs_never_return d w w' x :
  in_epochs d (w_fs w) x → rtc (phone_step d) w w' →
  ∃ y, rtc epoch_step x y ∧ in_epochs d (w_fs w') y ∧
    x.2 ⊆ y.2 ∧ (y.1 = x.1 ∨ x.1 ∈ y.2) ∧
    ∀ b m p tx r w2,
      load_manifest (w_fs w') b = Ok m → read_psbt (w_fs w') (join b (psbt_file (rollover m))) = Ok p →
      finalize_vault_psbt p = Ok tx → compute_txid tx ∈ y.2 →
      activate_policy d b w' = (r, w2) → w2 = w' ∧ ∀ s, r ≠ Ok s.
Proof using Names Text.
  intros Hx Hrun. destruct (history_epochs _ _ _ _ Hrun Hx) as (y & Hsteps & Hy).
  destruct (epoch_run_monotone _ _ Hsteps) as [Hsub Hkept].
  exists y. split_and!; [done..|]. intros b m p tx r w2 Hm Hp Htx Hin Hact.
  apply (superseded_refused _ _ _ _ _ _ _ _ Hact Hm Hp Htx).
  intros previous ->%(recorded_previous _ _ _ _ (ie_current _ _ _ Hy)).
  apply marked_superseded; [by apply (ie_replaced _ _ _ Hy)|].
  intros Heq. apply (ie_other _ _ _ Hy). by rewrite Heq.
Qed.
End history.
