(* ===== verification/PhoneBroadcast.v ===== *)
(** What the phone sends: only the transactions of the active schedule, each
    with the phone's own signature on its connector and nothing else added. *)

From S2P Require Import Prelude Bitcoin Types Keys Policy Transactions FileSystem Storage Crypto Social Ceremony CeremonyValidate CeremonySound Recovery RecoveryFacts HotWallet Phone PhonePaths PhoneActivation.

Section broadcasts.
Context `{Laws : BitcoinLaws, !KeyLib, !BdkLib, !TxidText, CryptoLib, Json VaultConfig,
          !Json DeviceFile, Json PublicDeviceFile, Json BatchManifest, Json Schedule,
          Json PolicyPackage, JsonVec PolicyPackage, Json EncryptedTransaction,
          Json EncryptedEmergencyTransaction, Json EncryptedBlob, Json Transaction, Json bool}.
Context {B : Type} `{!Blockchain B}.
Implicit Types (w : World B) (d : Path).

(** A scheduled PSBT with the phone's signature on input 1, its connector, and
    the transaction it finalises to. *)
Record scheduled (config : VaultConfig) (schedule : Schedule) (phone : DeviceKeys)
    (c : ConnectorState) (id : string) (tx : Transaction) (p : Psbt) : Prop := {
  sc_id : txid_to_string (compute_txid (unsigned_tx p)) = id;
  sc_connector : ∃ i, input (unsigned_tx p) !! 1 = Some i ∧
    previous_output i = connector_outpoint c;
  sc_value : (value <$> (inputs p !! 1 ≫= witness_utxo)) = Some (value_sats c);
  sc_signed : ∃ controller leaf p', controller_policy config = Ok controller ∧
    validate_schedule_controller schedule controller = Ok tt ∧
    controller_leaf controller PhonePath = Ok leaf ∧
    signed (cleaf_hash leaf) (vault_keypair phone) [1] p p' ∧ finalize_vault_psbt p' = Ok tx;
  sc_effect : same_effect tx (unsigned_tx p);
}.

Lemma ensure_connector_Ok p c u :
  ensure_connector_input p c = Ok u →
  (∃ i, input (unsigned_tx p) !! 1 = Some i ∧ previous_output i = connector_outpoint c) ∧
  (value <$> (inputs p !! 1 ≫= witness_utxo)) = Some (value_sats c).
Proof.
  unfold ensure_connector_input. intros Hb%bail_if_Ok.
  apply orb_false_iff in Hb as [Hprev Hval]. rewrite negb_decide_false in Hprev, Hval. split; [|done].
  apply fmap_Some in Hprev as (i & Hi & Hp). by exists i.
Qed.

Lemma decrypt_psbt_id phone purpose id blob p :
  decrypt_psbt phone purpose id blob = Ok p → txid_to_string (compute_txid (unsigned_tx p)) = id.
Proof.
  unfold decrypt_psbt. intros (bytes & _ & Hr)%bind_Ok.
  apply bind_Ok in Hr as ([] & _ & Hr). apply bind_Ok in Hr as (q & _ & Hr).
  by apply bind_Ok in Hr as ([] & Hid%bail_neg & [= <-]).
Qed.

Lemma complete_scheduled config schedule phone c id p tx :
  txid_to_string (compute_txid (unsigned_tx p)) = id →
  complete_with_controller config schedule phone c p = Ok tx →
  scheduled config schedule phone c id tx p.
Proof.
  intros Hid. unfold complete_with_controller. intros (u & [Hc Hv]%ensure_connector_Ok & Hr)%bind_Ok.
  apply bind_Ok in Hr as (controller & Hcon & Hr). apply bind_Ok in Hr as ([] & Hs & Hr).
  apply bind_Ok in Hr as (p' & (leaf & Hleaf & Hsig)%sign_controller_psbt_Ok & Ht).
  split; try done.
  - by exists controller, leaf, p'.
  - pose proof Ht as He%finalize_vault_psbt_effect. by destruct Hsig as [(-> & _) _].
Qed.

(** The configuration and the key of a run that gets past [open_phone]. *)
Definition phone_opened d w (config : VaultConfig) (phone : DeviceKeys) : Prop :=
  load_config (w_fs w) d = Ok config ∧
  bitcoin_network config = Ok (backend_network (w_chain w)) ∧
  load_device_keys (w_fs w) d PHONE_DEVICE_FILE = Ok phone.

Lemma open_phone_Ok d w config phone w' :
  open_phone d w = (Ok (config, phone), w') ↔ phone_opened d w config phone ∧ w' = w.
Proof.
  unfold open_phone, phone_opened. split.
  - intros Hrun. apply M_bind_Ok in Hrun as (c & ? & [= Hc <-] & Hrun).
    apply M_bind_Ok in Hrun as (u & w1 & Hn & Hrun).
    pose proof Hn as Hw%network_reads. subst w1. apply ensure_network_Ok in Hn.
    apply M_bind_Ok in Hrun as (k & ? & [= Hk <-] & [[= <- <-] ->]%mret_Ok). done.
  - intros [(Hc & Hn & Hk) ->]. apply M_bind_Ok. exists config, w. split; [by unfold with_fs; rewrite Hc|].
    apply M_bind_Ok. exists (), w. split.
    { unfold ensure_backend_network. rewrite Hn. simpl. by rewrite bool_decide_eq_true_2. }
    apply M_bind_Ok. exists phone, w. split; [by unfold with_fs; rewrite Hk|]. done.
Qed.

Lemma at_chain_Ok {A} (m : M B A) w a w' :
  at_chain m w = (Ok a, w') ↔
  ∃ c, m (w_chain w) = (Ok a, c) ∧ w' = Build_World (w_fs w) (w_rng w) (w_db w) c.
Proof. unfold at_chain. destruct (m (w_chain w)) as [x c]. naive_solver. Qed.

Lemma find_entry_Ok schedule s e :
  find_entry schedule s = Ok e → e ∈ schedule_entries schedule ∧ entry_step e = s.
Proof.
  unfold find_entry. intros [Hin Hs%bool_decide_eq_true]%or_err_Ok%find_some.
  split; [by apply list_elem_of_In|done].
Qed.

(** What a successful broadcast did: it sent one scheduled transaction, which
    the backend took, and wrote nothing. *)
Definition sent d w schedule (c : ConnectorState) (id : string) (t : Txid) w' : Prop :=
  ∃ config phone tx p, phone_opened d w config phone ∧
    scheduled config schedule phone c id tx p ∧
    broadcast tx (w_chain w) = (Ok t, w_chain w') ∧ w_fs w' = w_fs w.

Lemma emergency_sent d schedule config phone kind w t w' file id c e :
  phone_opened d w config phone → emergency_of schedule = Ok e →
  emergency_artifact e kind = Ok (file, id, c) →
  broadcast_emergency_transaction d schedule config phone kind w = (Ok t, w') →
  sent d w schedule c id t w' ∧ txid_to_string t = id.
Proof.
  intros Hopen He Hf. unfold broadcast_emergency_transaction. intros Hrun.
  apply M_bind_Ok in Hrun as (e' & ? & [He' ->]%pure_Ok & Hrun). rewrite He in He'. injection He' as <-.
  apply M_bind_Ok in Hrun as (x & ? & [Hx ->]%pure_Ok & Hrun). rewrite Hf in Hx. injection Hx as <-.
  apply M_bind_Ok in Hrun as (artifact & ? & [= _ <-] & Hrun).
  apply M_bind_Ok in Hrun as ([] & ? & [Hb%bail_if_Ok ->]%pure_Ok & Hrun).
  rewrite !orb_false_iff, !negb_decide_false in Hb. destruct Hb as [[_ _] Hid].
  apply M_bind_Ok in Hrun as (p & ? & [Hp%decrypt_psbt_id ->]%pure_Ok & Hrun). rewrite Hid in Hp.
  apply M_bind_Ok in Hrun as (tx & ? & [Htx ->]%pure_Ok & Hrun).
  apply M_bind_Ok in Hrun as (t' & ? & (ch & Hb & ->)%at_chain_Ok & Hrun).
  apply M_bind_Ok in Hrun as ([] & ? & [->%bail_neg ->]%pure_Ok & [<- ->]%mret_Ok).
  split; [|done]. exists config, phone, tx, p. split_and!; [done|by apply complete_scheduled|done|done].
Qed.

(** C12: The phone only broadcasts what the active schedule holds.  A monthly
    broadcast sends the entry's authorization and an emergency broadcast the
    trigger or the withdrawal: the transaction's id is the scheduled one, its
    second input spends the scheduled connector at the scheduled value, the
    phone's signature on that input is all that was added, and no file changes. *)
Theorem broadcasts_follow_schedule d w t w' :
  (∀ s, broadcast_monthly d s Authorization w = (Ok t, w') →
   ∃ schedule e, load_schedule (w_fs w) d = Ok schedule ∧ e ∈ schedule_entries schedule ∧
     entry_step e = s ∧
     sent d w schedule (entry_connector e) (entry_authorization_txid e) t w') ∧
  (initiate_emergency_access d w = (Ok t, w') →
   ∃ schedule e, load_schedule (w_fs w) d = Ok schedule ∧
     schedule_emergency_access schedule = Some e ∧
     sent d w schedule (es_trigger_connector e) (es_trigger_txid e) t w' ∧
     txid_to_string t = es_trigger_txid e) ∧
  (withdraw_emergency_access d w = (Ok t, w') →
   ∃ schedule e, load_schedule (w_fs w) d = Ok schedule ∧
     schedule_emergency_access schedule = Some e ∧
     sent d w schedule (es_withdrawal_connector e) (es_withdrawal_txid e) t w' ∧
     txid_to_string t = es_withdrawal_txid e).
Proof.
  split_and!.
  - intros s Hrun. unfold broadcast_monthly in Hrun.
    apply M_bind_Ok in Hrun as (schedule & ? & [= Hs <-] & Hrun).
    apply M_bind_Ok in Hrun as (e & ? & [[He Hst]%find_entry_Ok ->]%pure_Ok & Hrun).
    apply M_bind_Ok in Hrun as ([config phone] & ? & [Hopen ->]%open_phone_Ok & Hrun).
    rewrite bool_decide_eq_false_2 in Hrun by done.
    apply M_bind_Ok in Hrun as (artifact & ? & [= _ <-] & Hrun).
    apply M_bind_Ok in Hrun as ([] & ? & [Hb%bail_if_Ok ->]%pure_Ok & Hrun).
    rewrite !orb_false_iff, !negb_decide_false in Hb. destruct Hb as [_ Hid].
    apply M_bind_Ok in Hrun as (p & ? & [Hp%decrypt_psbt_id ->]%pure_Ok & Hrun). rewrite Hid in Hp.
    apply M_bind_Ok in Hrun as (tx & ? & [Htx ->]%pure_Ok & Hrun).
    apply at_chain_Ok in Hrun as (ch & Hbr & ->).
    exists schedule, e. split_and!; [done..|]. exists config, phone, tx, p.
    split_and!; [done|by apply complete_scheduled|done|done].
  - intros Hrun. unfold initiate_emergency_access in Hrun.
    apply M_bind_Ok in Hrun as (schedule & ? & [= Hs <-] & Hrun).
    apply M_bind_Ok in Hrun as (e & ? & [He ->]%pure_Ok & Hrun).
    apply M_bind_Ok in Hrun as ([config phone] & ? & [Hopen ->]%open_phone_Ok & Hrun).
    cbn [fst snd] in Hrun. eapply emergency_sent in Hrun as [Hsent Hid]; [|exact Hopen|exact He|reflexivity].
    apply or_err_Ok in He. by exists schedule, e.
  - intros Hrun. unfold withdraw_emergency_access in Hrun.
    apply M_bind_Ok in Hrun as (schedule & ? & [= Hs <-] & Hrun).
    apply M_bind_Ok in Hrun as ([config phone] & ? & [Hopen ->]%open_phone_Ok & Hrun).
    destruct (emergency_of schedule) as [e|msg|] eqn:He.
    + cbn [fst snd] in Hrun. eapply emergency_sent in Hrun as [Hsent Hid]; [|exact Hopen|exact He|reflexivity].
      apply or_err_Ok in He. by exists schedule, e.
    + unfold broadcast_emergency_transaction in Hrun. rewrite He in Hrun. discriminate Hrun.
    + unfold emergency_of in He. by apply or_err_not_Panic in He.
Qed.
End broadcasts.
