(* ===== verification/PhoneArtifacts.v ===== *)
(** The encrypted artifacts of an epoch: where activation puts them, that
    nothing it writes later replaces them, and that they decrypt to the PSBTs
    of the approved batch. *)

From S2P Require Import Prelude Bitcoin Types Keys Policy Transactions FileSystem Storage Crypto Social Ceremony CeremonyValidate CeremonySound CeremonyBuild Recovery HotWallet Phone PhonePaths PhoneActivation.
From Stdlib Require Import Ascii.

(** * Relative paths as text *)

Lemma split_path_text names :
  names ≠ [] → Forall is_name names → split_slash (path_text (Normal <$> names)) = names.
Proof.
  induction names as [|x [|y names] IH]; [done|..]; intros _ [Hx Hl]%Forall_cons_iff; csimpl.
  - apply split_slash_free, Hx.
  - change (split_slash (x +:+ "/" +:+ path_text (Normal <$> y :: names)) = x :: y :: names).
    rewrite split_slash_app by apply Hx. by rewrite IH.
Qed.

Lemma omap_segment_names names : Forall is_name names → omap segment_component names = Normal <$> names.
Proof. induction 1 as [|x names Hx _ IH]; [done|]. csimpl. by rewrite segment_of_name, IH. Qed.

Lemma components_text names :
  names ≠ [] → Forall is_name names → components (path_text (Normal <$> names)) = Normal <$> names.
Proof.
  intros Hne Hn. unfold components. rewrite split_path_text by done.
  destruct names as [|x names]; [done|]. apply Forall_cons_iff in Hn as [Hx Hn].
  pose proof Hx as (_ & H1 & H2 & H3). rewrite !bool_decide_eq_false_2 by done.
  rewrite segment_of_name by done. by rewrite omap_segment_names.
Qed.

Lemma is_absolute_text x names : is_name x → is_absolute (path_text (Normal <$> x :: names)) = false.
Proof.
  intros Hx. destruct names as [|y names]; csimpl; [by apply is_absolute_name|].
  rewrite is_absolute_app by apply Hx. by apply is_absolute_name.
Qed.

Lemma strip_prefix_app base p : strip_prefix base (base ++ p) = Some p.
Proof. induction base as [|c base IH]; [done|]. simpl. by rewrite bool_decide_eq_true_2. Qed.

Lemma join_text d names :
  names ≠ [] → Forall is_name names → join d (path_text (Normal <$> names)) = d ++ (Normal <$> names).
Proof.
  intros Hne Hn. unfold join. rewrite components_text by done.
  destruct names as [|x names]; [done|]. rewrite is_absolute_text by (by apply Forall_cons_iff in Hn as [? _]).
  f_equal. generalize (x :: names). intros l. induction l as [|y l IH]; [done|]. csimpl.
  rewrite filter_cons_True by done. by rewrite IH.
Qed.

Section artifacts.
Context `{Laws : BitcoinLaws, !KeyLib, !BdkLib, !TxidText, CL : CryptoLaws, Json VaultConfig,
          !Json DeviceFile, Json PublicDeviceFile, Json BatchManifest, Json Schedule,
          Json PolicyPackage, JsonVec PolicyPackage, Json EncryptedTransaction,
          Json EncryptedEmergencyTransaction, Json EncryptedBlob, Json Transaction, Json bool}.
Context {B : Type} `{!Blockchain B} `{Names : !TxidTextLaws}.
Implicit Types (w : World B) (d : Path) (t : Txid).

(** What the schedule says of a file's place leads back to it. *)
Lemma relative_round_trip d t s file :
  is_name s → relative_to d (join (epoch_dir_of d t) s) = Ok file →
  join d file = join (epoch_dir_of d t) s.
Proof using Names.
  intros Hs. pose proof (txid_name t) as Ht.
  assert (join (epoch_dir_of d t) s
    = d ++ (Normal <$> ["phone"; "transactions"; txid_to_string t; s])) as ->.
  { unfold epoch_dir_of. rewrite !join_name by done. unfold join. simpl.
    by rewrite <-!app_assoc. }
  unfold relative_to. rewrite strip_prefix_app. cbn [or_err mbind result_bind].
  intros [= <-].
  apply (join_text d ["phone"; "transactions"; txid_to_string t; s]); [done|].
  by repeat (apply Forall_cons_iff; split).
Qed.

(** * Steps that keep a file *)

Definition keeps (f0 : FS) (k : Key) {A} (m : M (World B) A) : Prop :=
  ∀ w r w', same_env f0 (w_fs w) → m w = (r, w') →
    same_env f0 (w_fs w') ∧ file_at (w_fs w') k = file_at (w_fs w) k.

Lemma keeps_pure f0 k {A} (r : result A) : keeps f0 k (pure r).
Proof. intros w r' w' He [= <- <-]. done. Qed.
Lemma keeps_ret f0 k {A} (a : A) : keeps f0 k (mret a).
Proof. apply (keeps_pure f0 k (Ok a)). Qed.
Lemma keeps_with_fs f0 k {A} (g : FS → result A) : keeps f0 k (with_fs g).
Proof. intros w r w' He [= <- <-]. done. Qed.
Lemma keeps_at_rng f0 k {A} (m : M Rng A) : keeps f0 k (at_rng m).
Proof. intros w r w' He. unfold at_rng. destruct (m (w_rng w)). by intros [= <- <-]. Qed.
Lemma keeps_bind f0 k {A C} (m : M (World B) A) (g : A → M (World B) C) :
  keeps f0 k m → (∀ a, keeps f0 k (g a)) → keeps f0 k (a ← m; g a).
Proof.
  intros Hm Hg w r w' He. unfold mbind, M_bind. destruct (m w) as [[a|e|] w1] eqn:Hrun.
  - intros Hrun2. destruct (Hm _ _ _ He Hrun) as [He1 Hf1].
    destruct (Hg a w1 r w' He1 Hrun2) as [He2 Hf2]. split; [done|congruence].
  - intros [= <- <-]. by eapply Hm.
  - intros [= <- <-]. by eapply Hm.
Qed.

Lemma keeps_write_json f0 k `{Json A} p s (a : A) :
  is_name s → ¬ near (resolve f0 p ++ [s]) k → keeps f0 k (at_fs (write_json (join p s) a)).
Proof.
  intros Hs Hk w r w' He. unfold at_fs.
  destruct (write_json (join p s) a (w_fs w)) as [r' f'] eqn:Hw. intros [= <- <-].
  apply write_json_touches in Hw; [|done]. cbn [w_fs].
  split; [by eapply same_env_touched|]. apply (touched_file _ _ _ _ Hw).
  intros key ->%list_elem_of_singleton. by rewrite (resolve_env _ _ _ He).
Qed.

(** * Artifacts *)

Definition allowance_file (n : N) : string :=
  "allowance-" +:+ two_digits n +:+ "-" +:+ transaction_kind_name Authorization +:+ ".json".
Definition artifact_key (f : FS) d t (n : N) : Key := epoch_key f d t ++ [allowance_file n].

Lemma is_name_allowance n : is_name (allowance_file n).
Proof using. apply (allowance_name n Authorization). Qed.

Lemma allowance_file_inj n m :
  (n ≤ 255)%N → (m ≤ 255)%N → allowance_file n = allowance_file m → n = m.
Proof using. intros Hn Hm Heq%app_string_inj%app_string_inj_r. by apply two_digits_inj. Qed.

(** Other names of the epoch's directory are not near an artifact. *)
Lemma far_artifact f d t n s : s ≠ allowance_file n → ¬ near (epoch_key f d t ++ [s]) (artifact_key f d t n).
Proof using. intros Hs. by apply (not_near_names _ s (allowance_file n) [] []). Qed.

Lemma not_allowance c s n : c ≠ "a"%char → String c s ≠ allowance_file n.
Proof using. intros Hc [= ? _]. done. Qed.

Definition txid_of (p : Psbt) : string := txid_to_string (compute_txid (unsigned_tx p)).

Record artifact_at (f : FS) d t (phone : DeviceKeys) (n : N) (p : Psbt) : Prop := {
  aa_file : ∃ blob text,
    to_vec_pretty {| artifact_version := 3; artifact_step := n; artifact_kind := Authorization;
                     artifact_txid := txid_of p; encrypted_psbt := blob |} = Some text ∧
    file_at f (artifact_key f d t n) = Some text ∧
    decrypt (seed phone) (transaction_purpose n Authorization (txid_of p)) blob
      = Ok (bytes_of (psbt_to_string p));
}.

Lemma artifact_kept f f' d t phone n p :
  same_env f f' → file_at f' (artifact_key f d t n) = file_at f (artifact_key f d t n) →
  artifact_at f d t phone n p → artifact_at f' d t phone n p.
Proof using.
  intros [Hc _] Hf [(blob & text & Ht & Hfile & Hd)]. split. exists blob, text.
  assert (artifact_key f' d t n = artifact_key f d t n) as Hk
    by (unfold artifact_key, epoch_key, resolve; by rewrite Hc).
  rewrite Hk, Hf. done.
Qed.

(** The file, read as the broadcast reads it. *)
Lemma artifact_read `{!JsonLaws EncryptedTransaction} f d t phone n p :
  no_read_fault f → psbt_wf p → artifact_at f d t phone n p →
  ∃ a, read_json f (join (epoch_dir_of d t) (allowance_file n)) = Ok a ∧
    artifact_version a = 3%N ∧ artifact_step a = n ∧ artifact_kind a = Authorization ∧
    artifact_txid a = txid_of p ∧
    decrypt_psbt phone (transaction_purpose n Authorization (artifact_txid a)) (artifact_txid a)
      (encrypted_psbt a) = Ok p.
Proof using Laws Names.
  intros Hn Hwf [(blob & text & Ht & Hf & Hd)]. eexists. split.
  { eapply read_json_of; [done|exact Ht|].
    rewrite resolve_name, resolve_epoch by apply is_name_allowance. exact Hf. }
  simpl. split_and!; [done..|]. unfold decrypt_psbt. rewrite Hd. simpl.
  rewrite utf8_plain by (apply visible_plain, psbt_text). simpl.
  rewrite string_of_bytes, psbt_round_trip by done. simpl. by rewrite bool_decide_eq_true_2.
Qed.

(** * Staging *)

Definition staged_entry d t (a : AllowanceStep) (p : Psbt) (e : ScheduleEntry) : Prop :=
  entry_step e = step a ∧ entry_connector e = connector a ∧
  entry_authorization_txid e = txid_of p ∧
  join d (entry_authorization_file e) = join (epoch_dir_of d t) (allowance_file (step a)).

Lemma stage_allowance_Ok d t b phone a w e w' :
  stage_allowance (B:=B) d (epoch_dir_of d t) b phone a w = (Ok e, w') →
  ∃ p, read_psbt (w_fs w) (join b (psbt_file (authorization a))) = Ok p ∧
    staged_entry d t a p e ∧ artifact_at (w_fs w') d t phone (step a) p.
Proof using CL Names.
  unfold stage_allowance. intros Hrun.
  apply M_bind_Ok in Hrun as (p & ? & [= Hp <-] & Hrun). exists p. split; [done|].
  apply M_bind_Ok in Hrun as ([] & w1 & Hw & Hrun). fold (allowance_file (step a)) in *.
  apply M_bind_Ok in Hrun as (file & ? & [Hfile ->]%pure_Ok & [<- ->]%mret_Ok).
  split.
  - split_and!; [done..|]. apply relative_round_trip; [apply is_name_allowance|exact Hfile].
  - unfold write_encrypted_transaction in Hw.
    apply M_bind_Ok in Hw as (blob & w2 & Hblob & (f & Hwr & ->)%at_fs_Ok).
    unfold at_rng in Hblob. destruct (encrypt _ _ _ _) as [rb g] eqn:Henc.
    injection Hblob as -> <-. apply encrypt_Ok in Henc as (Hd & _).
    apply write_name_Ok in Hwr as [[He _] (text & Htext & Hf)]; [|apply is_name_allowance].
    rewrite resolve_epoch in Hf. split. exists blob, text. cbn [w_fs] in *.
    split_and!; [done| |done].
    rewrite <-Hf. f_equal. unfold artifact_key, epoch_key, resolve. by destruct He as [-> _].
Qed.

Lemma keeps_stage_allowance f0 d t b phone a k :
  ¬ near (artifact_key f0 d t (step a)) k →
  keeps f0 k (stage_allowance (B:=B) d (epoch_dir_of d t) b phone a).
Proof using Names.
  intros Hk. unfold stage_allowance. apply keeps_bind; [apply keeps_with_fs|]. intros p.
  apply keeps_bind.
  { apply keeps_bind; [apply keeps_at_rng|]. intros blob.
    apply keeps_write_json; [apply is_name_allowance|]. by rewrite resolve_epoch. }
  intros _. apply keeps_bind; [apply keeps_pure|]. intros file. apply keeps_ret.
Qed.

Lemma keeps_stage_allowances f0 d t b phone l k :
  Forall (λ a, ¬ near (artifact_key f0 d t (step a)) k) l →
  keeps f0 k (stage_allowances (B:=B) d (epoch_dir_of d t) b phone l).
Proof using Names.
  induction 1 as [|a l Ha _ IH]; [apply keeps_ret|]. simpl.
  apply keeps_bind; [by apply keeps_stage_allowance|]. intros e.
  apply keeps_bind; [done|]. intros r. apply keeps_ret.
Qed.

Lemma keeps_stage_emergency f0 d t b phone x n :
  keeps f0 (artifact_key f0 d t n) (stage_emergency (B:=B) d (epoch_dir_of d t) b phone x).
Proof using Names.
  assert (∀ kind t' p, keeps f0 (artifact_key f0 d t n) (write_encrypted_emergency_transaction (B:=B)
    (emergency_transaction_path (epoch_dir_of d t) kind (txid_to_string t')) (seed phone) kind p)) as Hw.
  { intros kind t' p. apply keeps_bind; [apply keeps_at_rng|]. intros blob.
    apply keeps_write_json; [apply emergency_name|]. rewrite resolve_epoch.
    apply far_artifact. by apply not_allowance. }
  unfold stage_emergency.
  apply keeps_bind; [apply keeps_with_fs|]. intros tp. apply keeps_bind; [apply keeps_with_fs|]. intros wp.
  apply keeps_bind; [apply Hw|]. intros _. apply keeps_bind; [apply Hw|]. intros _.
  apply keeps_bind; [apply keeps_pure|]. intros tf. apply keeps_bind; [apply keeps_pure|]. intros wf.
  apply keeps_ret.
Qed.

Lemma keeps_stage_option f0 d t b phone (x : option EmergencyAccessPolicy) n :
  keeps f0 (artifact_key f0 d t n)
    (match x with
     | Some e => s ← stage_emergency (B:=B) d (epoch_dir_of d t) b phone e; mret (Some s)
     | None => mret None
     end).
Proof using Names.
  destruct x; [|apply keeps_ret].
  apply keeps_bind; [apply keeps_stage_emergency|]. intros s. apply keeps_ret.
Qed.
End artifacts.
