(* ===== verification/PhoneRoundTrip.v ===== *)
(** From activation to broadcast: every authorization of an activated batch
    is broadcast from what the activation stored. *)

From S2P Require Import Prelude Bitcoin Types Keys Policy Transactions FileSystem Storage Crypto Social Ceremony CeremonyValidate CeremonySound CeremonyBuild Recovery HotWallet Phone PhonePaths PhoneActivation PhoneBroadcast PhoneArtifacts.

Section round_trip.
Context `{Laws : BitcoinLaws, !KeyLib, !BdkLib, !TxidText, CL : CryptoLaws, Json VaultConfig,
          !Json DeviceFile, Json PublicDeviceFile, Json BatchManifest, Json Schedule,
          Json PolicyPackage, JsonVec PolicyPackage, Json EncryptedTransaction,
          Json EncryptedEmergencyTransaction, Json EncryptedBlob, Json Transaction, Json bool}.
Context {B : Type} `{!Blockchain B} `{Names : !TxidTextLaws}.
Implicit Types (w : World B) (d : Path) (t : Txid).

(** The PSBT of an allowance lies outside the epoch's directory. *)
Definition apart (f : FS) d t (b : Path) (a : AllowanceStep) : Prop :=
  ¬ near (epoch_key f d t) (resolve f (join b (psbt_file (authorization a)))).

(** An allowance of the batch with its entry and its stored artifact. *)
Definition stored (f0 f : FS) d t b (phone : DeviceKeys) (a : AllowanceStep) (e : ScheduleEntry)
    : Prop :=
  ∃ p, read_psbt f0 (join b (psbt_file (authorization a))) = Ok p ∧ staged_entry d t a p e ∧
    artifact_at f d t phone (step a) p.

Lemma stored_kept f0 f f' d t b phone a e :
  same_env f f' → file_at f' (artifact_key f d t (step a)) = file_at f (artifact_key f d t (step a)) →
  stored f0 f d t b phone a e → stored f0 f' d t b phone a e.
Proof using. intros He Hf (p & Hp & Hs & Ha). exists p. split_and!; [done|done|]. by eapply artifact_kept. Qed.

Lemma artifact_key_env f f' d t n : same_env f f' → artifact_key f' d t n = artifact_key f d t n.
Proof using. intros [Hc _]. unfold artifact_key, epoch_key, resolve. by rewrite Hc. Qed.

Lemma read_psbt_touched keys f f' p :
  touched keys f f' → (∀ key, key ∈ keys → ¬ near key (resolve f p)) → read_psbt f' p = read_psbt f p.
Proof using. intros Ht Hk. unfold read_psbt, read_to_string. by rewrite (read_touched _ _ _ _ Ht Hk). Qed.

Lemma stage_allowances_Ok f0 d t b phone l : ∀ w es w',
  touched [epoch_key f0 d t] f0 (w_fs w) →
  Forall (apart f0 d t b) l → NoDup (step <$> l) → Forall (λ a, (step a ≤ 255)%N) l →
  stage_allowances (B:=B) d (epoch_dir_of d t) b phone l w = (Ok es, w') →
  Forall2 (stored f0 (w_fs w') d t b phone) l es.
Proof using CL Names.
  induction l as [|a l IH]; intros w es w' Ht Hap Hnd Hle Hrun.
  { apply mret_Ok in Hrun as [<- _]. constructor. }
  apply Forall_cons_iff in Hap as [Ha Hap]. apply Forall_cons_iff in Hle as [Hla Hle].
  rewrite fmap_cons in Hnd. apply NoDup_cons in Hnd as [Hni Hnd]. simpl in Hrun.
  apply M_bind_Ok in Hrun as (e & w1 & Hr1 & Hrun). apply M_bind_Ok in Hrun as (r & w2 & Hr2 & Hrun).
  apply mret_Ok in Hrun as [<- ->].
  pose proof Ht as [He _].
  assert (touched [epoch_key f0 d t] (w_fs w) (w_fs w1)) as Ht1.
  { assert (writes_only f0 [epoch_key f0 d t] (stage_allowances (B:=B) d (epoch_dir_of d t) b phone [a])) as Hwo
      by (apply wo_stage_allowances, resolve_epoch).
    destruct (Hwo w (Ok [e]) w1 He) as [Htt _]; [|done]. simpl. unfold mbind, M_bind. by rewrite Hr1. }
  assert (same_env f0 (w_fs w1)) as He1 by (by eapply same_env_touched).
  constructor.
  - apply stage_allowance_Ok in Hr1 as (p & Hp & Hst & Hart).
    assert (same_env f0 (w_fs w2) ∧ file_at (w_fs w2) (artifact_key f0 d t (step a))
      = file_at (w_fs w1) (artifact_key f0 d t (step a))) as [He2 Hf].
    { eapply (keeps_stage_allowances f0 d t b phone l); [|exact He1|exact Hr2].
      rewrite Forall_forall in Hle |- *. intros a' Hin. apply far_artifact.
      intros Heq%allowance_file_inj; [|by apply Hle|done]. apply Hni. rewrite <-Heq.
      by apply list_elem_of_fmap_2. }
    exists p. split_and!; [|done|].
    + rewrite <-Hp. symmetry. apply (read_psbt_touched _ _ _ _ Ht).
      by intros key ->%list_elem_of_singleton.
    + eapply artifact_kept; [|rewrite (artifact_key_env _ _ _ _ _ He1); exact Hf|exact Hart].
      destruct He1, He2. split; congruence.
  - eapply IH; [|done|done|done|exact Hr2]. by eapply touched_trans.
Qed.

(** The phases of the staging, with what each leaves of the disk. *)
Lemma stage_epoch_phases d t b phone m tx w schedule w' :
  t = compute_txid tx → stage_epoch d (epoch_dir_of d t) b phone m tx w = (Ok schedule, w') →
  ∃ w5 w6 w7,
    touched [epoch_key (w_fs w) d t] (w_fs w) (w_fs w5) ∧
    stage_allowances d (epoch_dir_of d t) b phone (allowances m) w5 = (Ok (schedule_entries schedule), w6) ∧
    touched [epoch_key (w_fs w) d t] (w_fs w) (w_fs w6) ∧
    match emergency_access m with
    | Some e => s ← stage_emergency d (epoch_dir_of d t) b phone e; mret (Some s)
    | None => mret None
    end w6 = (Ok (schedule_emergency_access schedule), w7) ∧
    touched [epoch_key (w_fs w) d t] (w_fs w) (w_fs w7) ∧
    at_fs (write_json (join (epoch_dir_of d t) "schedule.json") schedule) w7 = (Ok tt, w') ∧
    schedule_controller_descriptor schedule = controller_descriptor m ∧
    schedule_controller_address schedule = controller_address m ∧
    schedule_connector_value_sats schedule = connector_value_sats m.
Proof using Names.
  intros Heq. unfold stage_epoch. intros Hrun. set (f0 := w_fs w) in *.
  assert (resolve f0 (epoch_dir_of d t) = epoch_key f0 d t) as Hkey by apply resolve_epoch.
  assert (∀ A (m : M (World B) A) w1 a w2, writes_only f0 [epoch_key f0 d t] m →
    touched [epoch_key f0 d t] f0 (w_fs w1) → m w1 = (Ok a, w2) → touched [epoch_key f0 d t] f0 (w_fs w2)) as Hgo.
  { intros A m' w1 a w2 Hwo Ht Hr. eapply touched_trans; [exact Ht|]. by eapply Hwo; [apply Ht|]. }
  apply M_bind_Ok in Hrun as (pk & w1 & Hr1 & Hrun). apply (Hgo _ _ w) in Hr1; [|apply wo_with_fs|apply touched_refl].
  apply M_bind_Ok in Hrun as (by_ & w2 & Hr2 & Hrun). apply Hgo in Hr2; [|apply wo_pure|done].
  apply M_bind_Ok in Hrun as (bl & w3 & Hr3 & Hrun). apply Hgo in Hr3; [|apply wo_at_rng|done].
  apply M_bind_Ok in Hrun as (? & w4 & Hr4 & Hrun). apply Hgo in Hr4; [|by apply wo_write_below|done].
  apply M_bind_Ok in Hrun as (? & w5 & Hr5 & Hrun). apply Hgo in Hr5; [|by apply wo_write_below|done].
  apply M_bind_Ok in Hrun as (es & w6 & Hr6 & Hrun). pose proof Hr6 as Hst.
  apply Hgo in Hr6; [|by apply wo_stage_allowances|done].
  apply M_bind_Ok in Hrun as (em & w7 & Hr7 & Hrun). pose proof Hr7 as Hem.
  apply Hgo in Hr7; [| |done].
  2: { destruct (emergency_access m); [|apply wo_ret].
       apply wo_bind; [by apply wo_stage_emergency|]. intros s. apply wo_ret. }
  apply M_bind_Ok in Hrun as ([] & w8 & Hr8 & [<- ->]%mret_Ok).
  by exists w5, w6, w7.
Qed.

Lemma keeps_schedule_copy f0 d t k (s : Schedule) :
  ¬ near (epoch_key f0 d t ++ ["schedule.json"]) k →
  keeps f0 k (at_fs (B:=B) (write_json (join (epoch_dir_of d t) "schedule.json") s)).
Proof using Names. intros Hk. apply keeps_write_json; [done|]. by rewrite resolve_epoch. Qed.

Lemma stage_epoch_stored d t b phone m tx w schedule w' :
  t = compute_txid tx →
  Forall (apart (w_fs w) d t b) (allowances m) → NoDup (step <$> allowances m) →
  Forall (λ a, (step a ≤ 255)%N) (allowances m) →
  stage_epoch d (epoch_dir_of d t) b phone m tx w = (Ok schedule, w') →
  Forall2 (stored (w_fs w) (w_fs w') d t b phone) (allowances m) (schedule_entries schedule) ∧
  schedule_controller_descriptor schedule = controller_descriptor m ∧
  schedule_controller_address schedule = controller_address m ∧
  schedule_connector_value_sats schedule = connector_value_sats m.
Proof using CL Names.
  intros Heq Hap Hnd Hle (w5 & w6 & w7 & Ht5 & Hst & Ht6 & Hr7 & _ & Hr8 & Hctl)%stage_epoch_phases; [|done].
  set (f0 := w_fs w) in *. split; [|done].
  apply (stage_allowances_Ok f0) in Hst; [|done..]. pose proof Ht6 as [He6 _].
  eapply Forall2_impl; [exact Hst|]. intros a e Hae.
  assert (same_env f0 (w_fs w7) ∧ file_at (w_fs w7) (artifact_key f0 d t (step a))
    = file_at (w_fs w6) (artifact_key f0 d t (step a))) as [He7 Hf7].
  { exact (keeps_stage_option f0 d t b phone (emergency_access m) (step a) w6 _ w7 He6 Hr7). }
  assert (same_env f0 (w_fs w') ∧ file_at (w_fs w') (artifact_key f0 d t (step a))
    = file_at (w_fs w7) (artifact_key f0 d t (step a))) as [He8 Hf8].
  { eapply keeps_schedule_copy; [|exact He7|exact Hr8]. apply far_artifact. by apply not_allowance. }
  eapply stored_kept; [| |exact Hae].
  - destruct He6, He8. split; congruence.
  - rewrite (artifact_key_env _ _ _ _ _ He6). congruence.
Qed.

(** * The allowances of an accepted batch *)

(** An allowance's number, its PSBT, and the connector this spends. *)
Definition numbered f (b : Path) (n : nat) (a : AllowanceStep) : Prop :=
  step a = N.of_nat (n + 1) ∧ n + 1 ≤ 255 ∧
  ∃ p, read_psbt f (join b (psbt_file (authorization a))) = Ok p ∧ psbt_wf p ∧
    ensure_connector_input p (connector a) = Ok tt.

(** A child of the rollover spends the connector that it is validated for. *)
Lemma child_connector p v o c cs (x : BatchTransaction) (u : ConnectorState) :
  child_of p v o c cs x → connector_outpoint u = c → value_sats u = CONNECTOR_VALUE_SATS →
  ensure_connector_input p u = Ok tt.
Proof using.
  intros [_ _ (s0 & s1 & Hin) (x0 & x1 & Hxs & _ & Hw & _) _ _] Hc Hv.
  unfold ensure_connector_input. rewrite Hin, Hxs. simpl. rewrite Hw. simpl.
  rewrite Hc, Hv. rewrite !bool_decide_eq_true_2 by done. done.
Qed.

Lemma accepted_numbered config m f b policy controller delay l : ∀ n e,
  (∀ c, expected_connector e = Some c → value_sats c = CONNECTOR_VALUE_SATS) →
  accepted_chain config m f b policy controller delay n l e →
  ∀ i a, l !! i = Some a → numbered f b (n + i) a.
Proof using Laws.
  induction l as [|a l IH]; intros n e Hv Hc i x Hx; [done|].
  destruct Hc as (o & prevout & c & p & -> & Hs & Hc). destruct i as [|i].
  - injection Hx as <-. rewrite Nat.add_0_r. destruct Hs as [Hn Hd [Hsrc Hcon] Hr Hch Htm Ha Hx Hf].
    split; [apply Hn|]. split; [apply Hn|]. exists p.
    split; [done|]. split; [by eapply read_psbt_wf|]. rewrite Hcon.
    by apply (child_connector _ _ _ _ _ _ c Hch), Hv.
  - rewrite Nat.add_succ_r, <-Nat.add_succ_l. eapply IH; [|exact Hc|exact Hx].
    intros c'. unfold next_expected. destruct (has_next m n); by intros [= <-].
Qed.

Lemma batch_numbered config m f b policy i a :
  validate_batch config m f b = Ok policy → allowances m !! i = Some a → numbered f b i a.
Proof using Laws.
  intros (controller & p & vouts & couts & delay & Hb)%validate_batch_Ok.
  eapply (accepted_numbered _ _ _ _ _ _ _ _ 0); [|apply (ab_chain _ _ _ _ _ _ _ _ _ _ Hb)].
  intros c. unfold chain_start. destruct (m_has_allowances m); by intros [= <-].
Qed.

Lemma numbered_steps f b (l : list AllowanceStep) :
  (∀ i a, l !! i = Some a → numbered f b i a) →
  NoDup (step <$> l) ∧ Forall (λ a, (step a ≤ 255)%N) l.
Proof using.
  intros Hl. split.
  - apply NoDup_alt. intros i j n. rewrite !list_lookup_fmap, !fmap_Some.
    intros (a & Ha & ->) (a' & Ha' & Heq).
    destruct (Hl _ _ Ha) as (Hs1 & _). destruct (Hl _ _ Ha') as (Hs2 & _). lia.
  - apply Forall_lookup. intros i a Ha. destruct (Hl _ _ Ha) as (Hs1 & Hs2 & _). lia.
Qed.

(** The entry that the phone finds for a step is the one of its allowance. *)
Lemma find_staged f0 f d t b phone schedule (l : list AllowanceStep) a :
  NoDup (step <$> l) → Forall2 (stored f0 f d t b phone) l (schedule_entries schedule) → a ∈ l →
  ∃ e, find_entry schedule (step a) = Ok e ∧ stored f0 f d t b phone a e.
Proof using.
  unfold find_entry. intros Hnd Hf Hin. revert Hnd Hin. induction Hf as [|a' e l es Hae Hf IH].
  { by intros _ ?%not_elem_of_nil. }
  rewrite fmap_cons, NoDup_cons. intros [Hni Hnd] Hin. pose proof Hae as (p & _ & (Hst & _) & _).
  simpl. apply elem_of_cons in Hin as [->|Hin].
  - exists e. by rewrite bool_decide_eq_true_2.
  - rewrite bool_decide_eq_false_2; [by apply IH|].
    rewrite Hst. intros Heq. apply Hni. rewrite Heq. by apply list_elem_of_fmap_2.
Qed.

(** * After the activation *)

(** No write after acceptance is near another file of the epoch. *)
Lemma completed_keeps_file d t previous f1 f5 m schedule s :
  s ≠ "activated.json"%string → completed d t previous f1 f5 m schedule →
  same_env f1 f5 ∧ file_at f5 (epoch_key f1 d t ++ [s]) = file_at f1 (epoch_key f1 d t ++ [s]).
Proof using Names.
  intros Hs Hc. pose proof (cp_touched _ _ _ _ _ _ _ Hc) as Ht. split; [apply Ht|].
  apply (touched_file _ _ _ _ Ht). intros key [Hk|Hk]%elem_of_app.
  - destruct previous as [t'|]; simpl in Hk; [|by apply not_elem_of_nil in Hk].
    case_bool_decide as Hd; simpl in Hk; [by apply not_elem_of_nil in Hk|].
    apply list_elem_of_singleton in Hk as ->. intros Hn%near_app. revert Hn. by apply far_epochs.
  - repeat (apply elem_of_cons in Hk as [->|Hk]); [..|by apply not_elem_of_nil in Hk].
    + apply far_schedule_epoch.
    + unfold epoch_key. rewrite <-app_assoc. apply far_config. in_list.
    + unfold epoch_key. rewrite <-app_assoc. apply far_config. in_list.
    + apply (not_near_names _ "activated.json" s [] []). done.
Qed.
Lemma completed_keeps_artifacts d t previous f1 f5 m schedule n :
  completed d t previous f1 f5 m schedule →
  same_env f1 f5 ∧ file_at f5 (artifact_key f1 d t n) = file_at f1 (artifact_key f1 d t n).
Proof using Names. apply completed_keeps_file. discriminate. Qed.

Lemma completed_keys d t previous f1 f5 m schedule :
  completed d t previous f1 f5 m schedule →
  load_device_keys f5 d PHONE_DEVICE_FILE = load_device_keys f1 d PHONE_DEVICE_FILE.
Proof using Names.
  intros Hc. pose proof (cp_touched _ _ _ _ _ _ _ Hc) as Ht.
  unfold load_device_keys, load_device, read_json.
  rewrite (read_touched _ _ _ _ Ht); [done|]. rewrite resolve_device.
  assert (∀ t' l, ¬ near (epoch_key f1 d t' ++ l) (device_key f1 d)) as He.
  { intros t' l Hn%near_app. revert Hn. apply (far_from_epoch _ _ _ _ ["phone"; "device.json"]); [|done]. in_list. }
  intros key [Hk|Hk]%elem_of_app.
  - destruct previous as [t'|]; simpl in Hk; [|by apply not_elem_of_nil in Hk].
    case_bool_decide as Hd; simpl in Hk; [by apply not_elem_of_nil in Hk|].
    apply list_elem_of_singleton in Hk as ->. apply He.
  - repeat (apply elem_of_cons in Hk as [->|Hk]); [..|by apply not_elem_of_nil in Hk].
    + rewrite schedule_key_snoc. unfold device_key.
      change ["phone"; "device.json"] with (["phone"] ++ ["device.json"]). rewrite app_assoc.
      by apply (not_near_names _ "schedule.json" "device.json" [] []).
    + apply far_config. in_list.
    + apply far_config. in_list.
    + apply He.
Qed.

Lemma completed_load `{!JsonLaws VaultConfig} d t previous f1 f5 m schedule :
  no_read_fault f1 → completed d t previous f1 f5 m schedule →
  ∃ c0, load_config f1 d = Ok c0 ∧
    load_config f5 d = Ok (set_limits (monthly_limit_sats m) (emergency_access_limit_sats m) c0).
Proof using Names.
  intros Hn Hc. destruct (cp_config _ _ _ _ _ _ _ Hc) as (c0 & f3 & f4 & s & Hl & Hs & He & Hex & Hw & Ht).
  exists c0. split; [done|]. transitivity (load_config f4 d).
  - apply (load_config_touched _ _ _ _ Ht). intros key ->%list_elem_of_singleton.
    apply write_private_files in Hw as ((Hc4 & _) & _).
    assert (resolve f4 d = resolve f1 d) as -> by (unfold resolve; rewrite Hc4; by destruct He as [-> _]).
    unfold epoch_key. rewrite <-app_assoc. split; apply far_config'; in_list.
  - eapply load_written; [|exact Hex|exact Hs|exact Hw]. intros k. destruct He as [_ ->]. apply Hn.
Qed.

(** Writing in an epoch's directory leaves the configuration and the key. *)
Lemma unmoved_config d t f f' :
  touched [epoch_key f d t] f f' → load_config f' d = load_config f d.
Proof using.
  intros Ht. apply (load_config_touched _ _ _ _ Ht). intros key ->%list_elem_of_singleton.
  split; [eapply (far_from_epoch _ _ _ _ ["anzen.json"])|eapply (far_from_epoch _ _ _ _ ["vault.json"])];
    (done || in_list).
Qed.
Lemma unmoved_keys d t f f' :
  touched [epoch_key f d t] f f' →
  load_device_keys f' d PHONE_DEVICE_FILE = load_device_keys f d PHONE_DEVICE_FILE.
Proof using.
  intros Ht. unfold load_device_keys, load_device, read_json. rewrite (read_touched _ _ _ _ Ht); [done|].
  intros key ->%list_elem_of_singleton. rewrite resolve_device.
  apply (far_from_epoch _ _ _ _ ["phone"; "device.json"]); [|done]. in_list.
Qed.

(** Broadcasting leaves the backend on its network. *)
Definition network_fixed : Prop :=
  ∀ tx (c c' : B) r, broadcast tx c = (r, c') → backend_network c' = backend_network c.

Lemma M_step {S A C} (m : M S A) (g : A → M S C) s a s1 :
  m s = (Ok a, s1) → (x ← m; g x) s = g a s1.
Proof. unfold mbind, M_bind. by intros ->. Qed.

(** The phone's part in a broadcast: its signature on the connector. *)
Definition phone_completes (controller : ControllerPolicy) (phone : DeviceKeys) (p : Psbt)
    : result Transaction :=
  psbt ← exec (sign_controller_psbt_inputs controller PhonePath (vault_keypair phone) [1]) p;
  finalize_vault_psbt psbt.

(** A broadcast of a stored allowance. *)
Lemma broadcast_stored `{!JsonLaws EncryptedTransaction} d t b phone schedule config controller a f0 w p e :
  no_read_fault (w_fs w) → load_schedule (w_fs w) d = Ok schedule →
  find_entry schedule (step a) = Ok e → phone_opened d w config phone →
  read_psbt f0 (join b (psbt_file (authorization a))) = Ok p → psbt_wf p →
  staged_entry d t a p e → artifact_at (w_fs w) d t phone (step a) p →
  ensure_connector_input p (connector a) = Ok tt → controller_policy config = Ok controller →
  validate_schedule_controller schedule controller = Ok tt →
  broadcast_monthly d (step a) Authorization w =
    (tx ← pure (phone_completes controller phone p); at_chain (broadcast tx)) w.
Proof.
  intros Hn Hs He Hopen Hp Hwf (Hst & Hcon & Hid & Hfile) Hart Hin Hctl Hval.
  destruct (artifact_read _ _ _ _ _ _ Hn Hwf Hart) as (x & Hx & Hv & Hstep & Hk & Ht & Hd).
  unfold broadcast_monthly.
  rewrite (M_step _ _ _ schedule w) by (unfold with_fs; by rewrite Hs).
  rewrite (M_step _ _ _ e w) by (unfold pure; by rewrite He).
  rewrite (M_step _ _ _ (config, phone) w) by (by apply open_phone_Ok).
  rewrite bool_decide_eq_false_2 by done.
  rewrite (M_step _ _ _ x w) by (unfold with_fs; by rewrite Hfile, Hx).
  rewrite (M_step _ _ _ tt w).
  2: { unfold pure. rewrite Hv, Hstep, Hk, Ht, Hid. by rewrite !bool_decide_eq_true_2. }
  rewrite (M_step _ _ _ p w) by (unfold pure; by rewrite Hd).
  unfold complete_with_controller, phone_completes.
  rewrite Hcon, Hin. cbn [mbind result_bind]. rewrite Hctl. cbn [mbind result_bind].
  rewrite Hval. done.
Qed.

(** The phone after an activation, at any time at which its files are as the
    activation left them and the backend is on the network: what was staged in
    [w1] is on the disk of [w2], and the phone opens with the vault's
    controller. *)
Record activated d b (w w1 w2 : World B) m phone schedule tx before controller config : Prop := {
  av_staged : stage_epoch d (epoch_dir_of d (compute_txid tx)) b phone m tx w = (Ok schedule, w1);
  av_batch : ∃ policy, validate_batch before m (w_fs w) b = Ok policy;
  av_before : load_config (w_fs w) d = Ok before ∧ controller_policy before = Ok controller;
  av_config : load_config (w_fs w2) d = Ok config ∧ controller_policy config = Ok controller;
  av_opened : phone_opened d w2 config phone;
  av_schedule : load_schedule (w_fs w2) d = Ok schedule;
  av_controller : validate_schedule_controller schedule controller = Ok tt;
  av_reads : no_read_fault (w_fs w2);
  av_env : same_env (w_fs w1) (w_fs w2);
  av_files : ∀ s, s ≠ "activated.json"%string →
    file_at (w_fs w2) (epoch_key (w_fs w1) d (compute_txid tx) ++ [s])
    = file_at (w_fs w1) (epoch_key (w_fs w1) d (compute_txid tx) ++ [s]);
}.

Lemma activation_leaves `{!JsonLaws VaultConfig, !JsonLaws Schedule} d b w schedule w' m phone w2 :
  no_read_fault (w_fs w) → load_manifest (w_fs w) b = Ok m →
  load_device_keys (w_fs w) d PHONE_DEVICE_FILE = Ok phone →
  activate_policy d b w = (Ok schedule, w') →
  w_fs w2 = w_fs w' → backend_network (w_chain w2) = backend_network (w_chain w) →
  ∃ tx w1 before controller config,
    activated d b w w1 w2 m phone schedule tx before controller config.
Proof.
  intros Hn Hm Hphone (c' & m' & tx & previous & w1 & Ha & Ht & Hc & _ & Hv & _)%activate_Ok Hfs Hnet.
  destruct Ha as [(config & Hcfg & Hbn & policy & Hval) Hm' (phone' & Hphone' & Hst) _ _ _ _].
  assert (m' = m) as -> by congruence. assert (phone' = phone) as -> by congruence.
  unfold validate_approved_batch in Hval. apply bind_Ok in Hval as ([] & _ & Hval).
  apply bind_Ok in Hval as (pol & Hb & _).
  pose proof Hst as (? & ? & ? & _ & _ & _ & _ & _ & _ & Hd1 & Hd2 & Hd3)%stage_epoch_phases; [|done].
  assert (no_read_fault (w_fs w1)) as Hn1 by (intros k; destruct Ht as [[_ ->] _]; apply Hn).
  destruct (completed_keeps_file _ _ _ _ _ _ _ "schedule.json" ltac:(done) Hc) as [He5 _].
  destruct (completed_schedule _ _ _ _ _ _ _ Hn1 Hc Hv) as [Hload _].
  destruct (completed_load _ _ _ _ _ _ _ Hn1 Hc) as (c0 & Hc0 & Hc5).
  rewrite (unmoved_config _ _ _ _ Ht) in Hc0. assert (c0 = config) as -> by congruence.
  pose proof Hb as (controller & rp & vouts & couts & delay & Hacc)%validate_batch_Ok.
  pose proof (ab_controller _ _ _ _ _ _ _ _ _ _ Hacc) as Hctl.
  destruct (mf_controller _ _ _ (ab_manifest _ _ _ _ _ _ _ _ _ _ Hacc)) as (Hm1 & Hm2 & Hm3).
  set (config' := set_limits _ _ _) in Hc5. exists tx, w1, config, controller, config'.
  rewrite <-Hfs in *. split; [done|by eexists|done|done| |done| | |done|].
  - split_and!; [done| |].
    + by rewrite Hnet.
    + by rewrite (completed_keys _ _ _ _ _ _ _ Hc), (unmoved_keys _ _ _ _ Ht).
  - unfold validate_schedule_controller. rewrite Hd1, Hd2, Hd3, Hm1, Hm2, Hm3.
    by rewrite !bool_decide_eq_true_2.
  - intros k. destruct He5 as [_ ->]. apply Hn1.
  - intros s Hs. by apply (completed_keeps_file _ _ _ _ _ _ _ s Hs Hc).
Qed.

(** A broadcast of an allowance then. *)
Lemma allowance_broadcast_run `{!JsonLaws VaultConfig, !JsonLaws Schedule,
    !JsonLaws EncryptedTransaction} d b w schedule w' m phone a w2 :
  no_read_fault (w_fs w) →
  load_manifest (w_fs w) b = Ok m →
  load_device_keys (w_fs w) d PHONE_DEVICE_FILE = Ok phone →
  (∀ t, Forall (apart (w_fs w) d t b) (allowances m)) →
  activate_policy d b w = (Ok schedule, w') → a ∈ allowances m →
  w_fs w2 = w_fs w' → backend_network (w_chain w2) = backend_network (w_chain w) →
  ∃ p controller before config,
    read_psbt (w_fs w) (join b (psbt_file (authorization a))) = Ok p ∧
    load_config (w_fs w) d = Ok before ∧ controller_policy before = Ok controller ∧
    load_config (w_fs w') d = Ok config ∧ controller_policy config = Ok controller ∧
    broadcast_monthly d (step a) Authorization w2 =
      (tx ← pure (phone_completes controller phone p); at_chain (broadcast tx)) w2.
Proof.
  intros Hn Hm Hphone Hap Hrun Hin Hfs Hnet.
  destruct (activation_leaves d b w schedule w' m phone w2)
    as (tx & w1 & before & controller & config & [Hst [policy Hb] [Hbef Hctl] [Hcfg Hctl'] Hopen Hload Hval Hn2 He Hkeep]);
    [done..|].
  pose proof (λ i x, batch_numbered _ _ _ _ _ i x Hb) as Hnum.
  destruct (numbered_steps _ _ _ Hnum) as [Hnd Hle].
  destruct (stage_epoch_stored _ _ _ _ _ _ _ _ _ eq_refl (Hap _) Hnd Hle Hst) as (Hf & _).
  destruct (find_staged _ _ _ _ _ _ _ _ _ Hnd Hf Hin) as (e & Hfind & p & Hp & Hstaged & Hart).
  apply list_elem_of_lookup in Hin as (i & Hi). destruct (Hnum _ _ Hi) as (_ & _ & p' & Hp' & Hwf & Hens).
  assert (p' = p) as -> by congruence.
  exists p, controller, before, config. rewrite <-Hfs. split_and!; [done..|].
  eapply broadcast_stored; try done. eapply artifact_kept; [exact He|by apply Hkeep|exact Hart].
Qed.

(** What an activation stores is enough to use the policy.  Once a batch
    is activated, a broadcast of any of its allowances goes through to the
    backend with the approved PSBT, completed by the phone's key under the
    vault's controller: the schedule, the encrypted artifact, the configuration
    and the key are all found again, whatever the allowance's number, and the
    batch directory is not read. *)
Theorem activated_allowances_broadcast `{!JsonLaws VaultConfig, !JsonLaws Schedule,
    !JsonLaws EncryptedTransaction} d b w schedule w' m phone a :
  network_fixed → no_read_fault (w_fs w) →
  load_manifest (w_fs w) b = Ok m →
  load_device_keys (w_fs w) d PHONE_DEVICE_FILE = Ok phone →
  (∀ t, Forall (apart (w_fs w) d t b) (allowances m)) →
  activate_policy d b w = (Ok schedule, w') → a ∈ allowances m →
  ∃ p controller config,
    read_psbt (w_fs w) (join b (psbt_file (authorization a))) = Ok p ∧
    load_config (w_fs w') d = Ok config ∧ controller_policy config = Ok controller ∧
    broadcast_monthly d (step a) Authorization w' =
      (tx ← pure (phone_completes controller phone p); at_chain (broadcast tx)) w'.
Proof.
  intros Hnet Hn Hm Hphone Hap Hrun Hin.
  pose proof Hrun as (c' & m' & tx & previous & w1 & Ha & _ & _ & Hch & _)%activate_Ok.
  destruct (allowance_broadcast_run d b w schedule w' m phone a w') as
    (p & controller & before & config & Hp & _ & _ & Hl & Hctl & Hb); [done..| |by exists p, controller, config].
  rewrite Hch. apply (Hnet _ _ _ _ (ar_accepted _ _ _ _ _ _ _ _ _ Ha)).
Qed.
End round_trip.
