(* ===== verification/PhoneEmergency.v ===== *)
(** The emergency path of an activated policy: its trigger and its withdrawal
    are broadcast from what the activation stored. *)

From S2P Require Import Prelude Bitcoin Types Keys Policy Transactions FileSystem Storage Crypto Social Ceremony CeremonyValidate CeremonySound CeremonyBuild Recovery HotWallet Phone PhonePaths PhoneActivation PhoneBroadcast PhoneArtifacts PhoneRoundTrip.
From Stdlib Require Import Ascii.

Section emergency.
Context `{Laws : BitcoinLaws, !KeyLib, !BdkLib, !TxidText, CL : CryptoLaws, Json VaultConfig,
          !Json DeviceFile, Json PublicDeviceFile, Json BatchManifest, Json Schedule,
          Json PolicyPackage, JsonVec PolicyPackage, Json EncryptedTransaction,
          Json EncryptedEmergencyTransaction, Json EncryptedBlob, Json Transaction, Json bool}.
Context {B : Type} `{!Blockchain B} `{Names : !TxidTextLaws}.
Implicit Types (w : World B) (d b : Path) (t : Txid) (kind : EmergencyTransactionKind)
  (e : EmergencyAccessPolicy) (s : EmergencyAccessSchedule).

(** * The two transactions of the path *)

(** A cancellation has no transaction of its own. *)
Definition presigned kind : Prop := kind = Trigger ∨ kind = Withdrawal.
Definition emergency_transaction e kind : BatchTransaction :=
  match kind with Trigger => trigger e | _ => withdrawal e end.
Definition emergency_connector e kind : ConnectorState :=
  match kind with Trigger => trigger_connector e | _ => withdrawal_connector e end.

Definition emergency_file kind (id : string) : string :=
  "emergency-" +:+ emergency_transaction_kind_name kind +:+ "-" +:+ id +:+ ".json".
Definition emergency_key (f : FS) d t kind (p : Psbt) : Key :=
  epoch_key f d t ++ [emergency_file kind (txid_of p)].

Lemma is_name_emergency kind (p : Psbt) : is_name (emergency_file kind (txid_of p)).
Proof using Names. apply emergency_name. Qed.

Lemma emergency_file_kind id id' : emergency_file Trigger id ≠ emergency_file Withdrawal id'.
Proof using. discriminate. Qed.

(** * Their artifacts *)

Record emergency_at (f : FS) d t (phone : DeviceKeys) kind (p : Psbt) : Prop := {
  ea_file : ∃ blob text,
    to_vec_pretty {| emergency_artifact_version := 2; emergency_artifact_kind := kind;
                     emergency_artifact_txid := txid_of p; emergency_encrypted_psbt := blob |}
      = Some text ∧
    file_at f (emergency_key f d t kind p) = Some text ∧
    decrypt (seed phone) (emergency_transaction_purpose kind (txid_of p)) blob
      = Ok (bytes_of (psbt_to_string p));
}.

Lemma emergency_kept f f' d t phone kind p :
  same_env f f' → file_at f' (emergency_key f d t kind p) = file_at f (emergency_key f d t kind p) →
  emergency_at f d t phone kind p → emergency_at f' d t phone kind p.
Proof using.
  intros [Hc _] Hf [(blob & text & Ht & Hfile & Hd)]. split. exists blob, text.
  assert (emergency_key f' d t kind p = emergency_key f d t kind p) as Hk
    by (unfold emergency_key, epoch_key, resolve; by rewrite Hc).
  rewrite Hk, Hf. done.
Qed.

(** The artifact, read as the broadcast reads it. *)
Lemma emergency_read `{!JsonLaws EncryptedEmergencyTransaction} f d t phone kind p :
  no_read_fault f → psbt_wf p → emergency_at f d t phone kind p →
  ∃ x, read_json f (join (epoch_dir_of d t) (emergency_file kind (txid_of p))) = Ok x ∧
    emergency_artifact_version x = 2%N ∧ emergency_artifact_kind x = kind ∧
    emergency_artifact_txid x = txid_of p ∧
    decrypt_psbt phone (emergency_transaction_purpose kind (emergency_artifact_txid x))
      (emergency_artifact_txid x) (emergency_encrypted_psbt x) = Ok p.
Proof using Laws Names.
  intros Hn Hwf [(blob & text & Ht & Hf & Hd)]. eexists. split.
  { eapply read_json_of; [done|exact Ht|].
    rewrite resolve_name, resolve_epoch by apply is_name_emergency. exact Hf. }
  simpl. split_and!; [done..|]. unfold decrypt_psbt. rewrite Hd. simpl.
  rewrite utf8_plain by (apply visible_plain, psbt_text). simpl.
  rewrite string_of_bytes, psbt_round_trip by done. simpl. by rewrite bool_decide_eq_true_2.
Qed.

(** * Staging *)

Lemma write_emergency_Ok d t sd phone kind p w u w' :
  sd = seed phone →
  write_encrypted_emergency_transaction (B:=B)
    (emergency_transaction_path (epoch_dir_of d t) kind (txid_of p)) sd kind p w = (Ok u, w') →
  same_env (w_fs w) (w_fs w') ∧ emergency_at (w_fs w') d t phone kind p.
Proof using CL Names.
  destruct u. intros -> (blob & w2 & Hblob & (f & Hwr & ->)%at_fs_Ok)%M_bind_Ok.
  unfold at_rng in Hblob. destruct (encrypt _ _ _ _) as [rb g] eqn:Henc.
  injection Hblob as -> <-. apply encrypt_Ok in Henc as (Hd & _).
  apply write_name_Ok in Hwr as [[He _] (text & Htext & Hf)]; [|apply is_name_emergency].
  rewrite resolve_epoch in Hf. cbn [w_fs] in *. split; [done|]. split. exists blob, text.
  split_and!; [done| |done].
  rewrite <-Hf. f_equal. unfold emergency_key, epoch_key, resolve. by destruct He as [-> _].
Qed.

(** What the schedule and the disk hold of one of the two transactions. *)
Definition stored_emergency (f0 f : FS) d t b (phone : DeviceKeys) e s kind : Prop :=
  ∃ p file, read_psbt f0 (join b (psbt_file (emergency_transaction e kind))) = Ok p ∧
    emergency_artifact s kind = Ok (file, txid_of p, emergency_connector e kind) ∧
    join d file = join (epoch_dir_of d t) (emergency_file kind (txid_of p)) ∧
    emergency_at f d t phone kind p.

(** The PSBT of a transaction lies outside the epoch's directory. *)
Definition away (f : FS) d t b (x : BatchTransaction) : Prop :=
  ¬ near (epoch_key f d t) (resolve f (join b (psbt_file x))).

Lemma stage_emergency_Ok f0 d t b phone e w s w' :
  touched [epoch_key f0 d t] f0 (w_fs w) → away f0 d t b (trigger e) → away f0 d t b (withdrawal e) →
  stage_emergency (B:=B) d (epoch_dir_of d t) b phone e w = (Ok s, w') →
  ∀ kind, presigned kind → stored_emergency f0 (w_fs w') d t b phone e s kind.
Proof using CL Names.
  intros Ht Hat Haw Hrun. unfold stage_emergency in Hrun.
  apply M_bind_Ok in Hrun as (pt & ? & [= Hpt <-] & Hrun).
  apply M_bind_Ok in Hrun as (pw & ? & [= Hpw <-] & Hrun).
  fold (txid_of pt) (txid_of pw) in Hrun.
  apply M_bind_Ok in Hrun as ([] & w1 & Hw1 & Hrun). apply M_bind_Ok in Hrun as ([] & w2 & Hw2 & Hrun).
  apply M_bind_Ok in Hrun as (ft & ? & [Hft ->]%pure_Ok & Hrun).
  apply M_bind_Ok in Hrun as (fw & ? & [Hfw ->]%pure_Ok & [<- ->]%mret_Ok).
  apply relative_round_trip in Hft; [|apply is_name_emergency].
  apply relative_round_trip in Hfw; [|apply is_name_emergency].
  pose proof (write_emergency_Ok d t (seed phone) phone Trigger pt w _ w1 eq_refl Hw1) as [He1 Ht1].
  pose proof (write_emergency_Ok d t (seed phone) phone Withdrawal pw w1 _ w2 eq_refl Hw2) as [He2 Ht2].
  rewrite (read_psbt_touched _ _ _ _ Ht) in Hpt by (by intros key ->%list_elem_of_singleton).
  rewrite (read_psbt_touched _ _ _ _ Ht) in Hpw by (by intros key ->%list_elem_of_singleton).
  intros kind [-> | ->].
  - exists pt, ft. split_and!; [done..|]. eapply emergency_kept; [exact He2| |exact Ht1].
    eapply (keeps_bind (w_fs w1) _ (at_rng _)); [apply keeps_at_rng| |by split|exact Hw2].
    intros blob. apply keeps_write_json; [apply is_name_emergency|]. rewrite resolve_epoch.
    by apply (not_near_names _ _ _ [] []).
  - by exists pw, fw.
Qed.

Lemma stage_epoch_emergency d t b phone m tx w schedule w' e :
  t = compute_txid tx → emergency_access m = Some e →
  away (w_fs w) d t b (trigger e) → away (w_fs w) d t b (withdrawal e) →
  stage_epoch d (epoch_dir_of d t) b phone m tx w = (Ok schedule, w') →
  ∃ s, schedule_emergency_access schedule = Some s ∧
    ∀ kind, presigned kind → stored_emergency (w_fs w) (w_fs w') d t b phone e s kind.
Proof using CL Names.
  intros Heq He Hat Haw (w5 & w6 & w7 & _ & _ & Ht6 & Hr7 & Ht7 & Hr8 & _)%stage_epoch_phases; [|done].
  rewrite He in Hr7. apply M_bind_Ok in Hr7 as (s & w7' & Hst & [= Hs ->]).
  exists s. split; [done|]. intros kind Hk.
  destruct (stage_emergency_Ok _ _ _ _ _ _ _ _ _ Ht6 Hat Haw Hst kind Hk) as (p & file & Hp & Hx & Hf & Hart).
  exists p, file. split_and!; [done..|].
  assert (same_env (w_fs w7) (w_fs w') ∧ file_at (w_fs w') (emergency_key (w_fs w7) d t kind p)
    = file_at (w_fs w7) (emergency_key (w_fs w7) d t kind p)) as [He8 Hf8].
  { eapply keeps_schedule_copy; [|by split|exact Hr8].
    by apply (not_near_names _ "schedule.json" _ [] []). }
  by eapply emergency_kept.
Qed.

(** * Broadcasting *)

(** The path of an accepted batch: children of the rollover and the trigger,
    each spending its connector. *)
Lemma batch_emergency config m f b policy e kind :
  validate_batch config m f b = Ok policy → emergency_access m = Some e → presigned kind →
  ∃ controller v o c p, controller_policy config = Ok controller ∧
    read_psbt f (join b (psbt_file (emergency_transaction e kind))) = Ok p ∧
    child_of p v o c (controller_script_of controller) (emergency_transaction e kind) ∧
    connector_outpoint (emergency_connector e kind) = c ∧
    value_sats (emergency_connector e kind) = CONNECTOR_VALUE_SATS.
Proof using Laws.
  intros (controller & p & vouts & couts & delay & Hb)%validate_batch_Ok He Hk.
  pose proof (ab_controller _ _ _ _ _ _ _ _ _ _ Hb) as Hctl.
  destruct (ab_emergency _ _ _ _ _ _ _ _ _ _ Hb) as
    [[_ Hno]|(_ & e' & dl & hot & src & stg & vout & pt & pw & He' & Hem)]; [congruence|].
  rewrite He in He'. injection He' as <-. destruct Hem as [_ (_ & _ & _ & Hsv & _) _ Ht Hw].
  destruct Hk as [-> | ->].
  - exists controller. do 4 eexists. split; [done|]. split; [apply Ht|]. split; [apply Ht|].
    cbn. by rewrite (tr_connector _ _ _ _ _ _ _ _ _ _ Ht).
  - exists controller. do 4 eexists. split; [done|]. split; [apply Hw|]. split; [apply Hw|].
    cbn. by rewrite (tr_next _ _ _ _ _ _ _ _ _ _ Ht).
Qed.

(** The command that broadcasts each of the two. *)
Definition broadcast_emergency kind d : M (World B) Txid :=
  match kind with Trigger => initiate_emergency_access d | _ => withdraw_emergency_access d end.

(** A broadcast of a stored transaction of the path. *)
Lemma broadcast_stored_emergency `{!JsonLaws EncryptedEmergencyTransaction} d t phone schedule config
    controller w p file e s kind :
  presigned kind → no_read_fault (w_fs w) → load_schedule (w_fs w) d = Ok schedule →
  schedule_emergency_access schedule = Some s → phone_opened d w config phone → psbt_wf p →
  emergency_artifact s kind = Ok (file, txid_of p, emergency_connector e kind) →
  join d file = join (epoch_dir_of d t) (emergency_file kind (txid_of p)) →
  emergency_at (w_fs w) d t phone kind p →
  ensure_connector_input p (emergency_connector e kind) = Ok tt →
  controller_policy config = Ok controller →
  validate_schedule_controller schedule controller = Ok tt →
  broadcast_emergency kind d w =
    (tx ← pure (phone_completes controller phone p); r ← at_chain (broadcast tx);
     _ ← pure (bail_if (negb (bool_decide (r = compute_txid (unsigned_tx p))))
                 "chain backend returned an unexpected emergency transaction ID");
     mret (compute_txid (unsigned_tx p))) w.
Proof using Laws Names.
  intros Hpre Hn Hs Hem Hopen Hwf Hart Hfile Hat Hin Hctl Hval.
  destruct (emergency_read _ _ _ _ _ _ Hn Hwf Hat) as (x & Hx & Hv & Hk & Ht & Hd).
  assert (emergency_of schedule = Ok s) as Hof by (unfold emergency_of; by rewrite Hem).
  transitivity (broadcast_emergency_transaction d schedule config phone kind w).
  { assert (open_phone d w = (Ok (config, phone), w)) as Ho by (by apply open_phone_Ok).
    destruct Hpre as [-> | ->]; cbn [broadcast_emergency];
      unfold initiate_emergency_access, withdraw_emergency_access;
      rewrite (M_step _ _ _ schedule w) by (unfold with_fs; by rewrite Hs).
    - rewrite (M_step _ _ _ s w) by (unfold pure; by rewrite Hof). by rewrite (M_step _ _ _ _ _ Ho).
    - by rewrite (M_step _ _ _ _ _ Ho). }
  unfold broadcast_emergency_transaction.
  rewrite (M_step _ _ _ s w) by (unfold pure; by rewrite Hof).
  rewrite (M_step _ _ _ (file, txid_of p, emergency_connector e kind) w) by (unfold pure; by rewrite Hart).
  rewrite (M_step _ _ _ x w) by (unfold with_fs; by rewrite Hfile, Hx).
  rewrite (M_step _ _ _ tt w) by (unfold pure; rewrite Hv, Hk, Ht; by rewrite !bool_decide_eq_true_2).
  rewrite (M_step _ _ _ p w) by (unfold pure; by rewrite Hd).
  unfold complete_with_controller, phone_completes.
  rewrite Hin. cbn [mbind result_bind]. rewrite Hctl. cbn [mbind result_bind]. rewrite Hval. done.
Qed.

(** After an activation, at any time at which the phone's files are as the
    activation left them. *)
Lemma emergency_broadcast_run `{!JsonLaws VaultConfig, !JsonLaws Schedule,
    !JsonLaws EncryptedEmergencyTransaction} d b w schedule w' m phone e kind w2 :
  no_read_fault (w_fs w) → load_manifest (w_fs w) b = Ok m →
  load_device_keys (w_fs w) d PHONE_DEVICE_FILE = Ok phone → emergency_access m = Some e →
  (∀ t, away (w_fs w) d t b (trigger e) ∧ away (w_fs w) d t b (withdrawal e)) →
  activate_policy d b w = (Ok schedule, w') → presigned kind →
  w_fs w2 = w_fs w' → backend_network (w_chain w2) = backend_network (w_chain w) →
  ∃ p controller before,
    read_psbt (w_fs w) (join b (psbt_file (emergency_transaction e kind))) = Ok p ∧
    load_config (w_fs w) d = Ok before ∧ controller_policy before = Ok controller ∧
    broadcast_emergency kind d w2 =
      (tx ← pure (phone_completes controller phone p); r ← at_chain (broadcast tx);
       _ ← pure (bail_if (negb (bool_decide (r = compute_txid (unsigned_tx p))))
                   "chain backend returned an unexpected emergency transaction ID");
       mret (compute_txid (unsigned_tx p))) w2.
Proof using Type*.
  intros Hn Hm Hphone He Haway Hrun Hk Hfs Hnet.
  destruct (activation_leaves d b w schedule w' m phone w2)
    as (tx & w1 & before & controller & config & [Hst [policy Hb] [Hbef Hctl] [Hcfg Hctl'] Hopen Hload Hval Hn2 Henv Hkeep]);
    [done..|].
  destruct (Haway (compute_txid tx)) as [Hat Haw].
  destruct (stage_epoch_emergency _ _ _ _ _ _ _ _ _ _ eq_refl He Hat Haw Hst) as (s & Hs & Hall).
  destruct (Hall kind Hk) as (p & file & Hp & Hx & Hf & Hart).
  destruct (batch_emergency _ _ _ _ _ _ _ Hb He Hk) as (ct & v & o & c & p' & _ & Hp' & Hch & Hc & Hv).
  assert (p' = p) as -> by congruence.
  exists p, controller, before. split_and!; [done..|].
  eapply broadcast_stored_emergency; try done.
  - by eapply read_psbt_wf.
  - eapply emergency_kept; [exact Henv|by apply Hkeep; destruct Hk as [-> | ->]|exact Hart].
  - by eapply child_connector.
Qed.
End emergency.
