(* ===== verification/PhoneComplete.v ===== *)
(** An activation succeeds: an approved batch that a phone's working disk can
    read, and whose rollover the network takes, is activated. *)

From S2P Require Import Prelude Bitcoin Types Keys Policy Transactions FileSystem FsProgress Storage Crypto Social Ceremony CeremonyValidate CeremonySound CeremonyBuild CeremonyTransport Recovery HotWallet Phone PhonePaths PhoneActivation PhoneArtifacts PhoneRoundTrip.

(** [serde_json] fails on no value of the type. *)
Definition serialises (A : Type) `{Json A} : Prop := ∀ a : A, is_Some (to_vec_pretty a).

Section completes.
Context `{Laws : BitcoinLaws, !KeyLib, !BdkLib, !TxidText, CL : CryptoLaws, Json VaultConfig,
          !Json DeviceFile, Json PublicDeviceFile, Json BatchManifest, Json Schedule,
          Json PolicyPackage, JsonVec PolicyPackage, Json EncryptedTransaction,
          Json EncryptedEmergencyTransaction, Json EncryptedBlob, Json Transaction, Json bool}.
Context {B : Type} `{!Blockchain B} `{Names : !TxidTextLaws}.
Implicit Types (w : World B) (d : Path) (f : FS) (t : Txid).

(** * A phone's disk *)

(** Where an activation writes. *)
Definition slot f d (k : Key) : Prop :=
  k = schedule_key f d ∨ k = resolve f d ++ ["anzen.json"] ∨ k = resolve f d ++ ["vault.json"] ∨
  ∃ t x, k = epoch_key f d t ++ [x].

(** A tree without faults, with files only where files go. *)
Record phone_disk f d : Prop := {
  pd_fault : no_fault f;
  pd_tree : tree f;
  pd_way : clear f (resolve f d ++ ["phone"; "transactions"]);
  pd_epochs : ∀ t, is_file f (epoch_key f d t) = false;
  pd_files : ∀ t x, node_at f (epoch_key f d t ++ [x]) ≠ Some Dir;
  pd_schedule : node_at f (schedule_key f d) ≠ Some Dir;
}.

Lemma slot_not_way f d k : slot f d k → ¬ k `prefix_of` resolve f d ++ ["phone"; "transactions"].
Proof using.
  intros [->|[->|[->|(t & x & ->)]]]; unfold schedule_key, epoch_key; rewrite <-?app_assoc;
    intros Hp%prefix_app_inv; simpl in Hp.
  - by apply prefix_cons_inv_2, prefix_cons_inv_1 in Hp.
  - by apply prefix_cons_inv_1 in Hp.
  - by apply prefix_cons_inv_1 in Hp.
  - apply prefix_length in Hp. simpl in Hp. lia.
Qed.

Lemma slot_not_epoch f d k t : slot f d k → k ≠ epoch_key f d t.
Proof using.
  intros [->|[->|[->|(t' & x & ->)]]]; unfold schedule_key, epoch_key; rewrite <-?app_assoc;
    by intros Hk%app_inv_head.
Qed.

(** What is on the way to a slot. *)
Definition way f d (k : Key) : Prop :=
  k `prefix_of` resolve f d ++ ["phone"; "transactions"] ∨ ∃ t, k = epoch_key f d t.

Lemma way_not_slot f d k : way f d k → ¬ slot f d k.
Proof using.
  intros [Hk|[t ->]] Hs; [by eapply slot_not_way|by eapply slot_not_epoch].
Qed.

Lemma way_above f d k t : k `prefix_of` epoch_key f d t → way f d k.
Proof using.
  unfold epoch_key. change ["phone"; "transactions"; txid_to_string t]
    with (["phone"; "transactions"] ++ [txid_to_string t]).
  rewrite app_assoc. intros [->|Hk]%prefix_snoc; [right|by left].
  exists t. unfold epoch_key. by rewrite <-app_assoc.
Qed.

Lemma phone_disk_intro f f' d :
  no_fault f → same_env f f' → tree f' → (∀ k, way f d k → is_file f' k = false) →
  (∀ t x, node_at f' (epoch_key f d t ++ [x]) ≠ Some Dir) →
  node_at f' (schedule_key f d) ≠ Some Dir → phone_disk f' d.
Proof using.
  intros Hn Henv Htree Hway Hfiles Hs. assert (resolve f' d = resolve f d) as Hd by (by apply resolve_env).
  split; unfold schedule_key, epoch_key; rewrite ?Hd; [by eapply no_fault_env|done| | |done|done].
  - intros k Hp. apply Hway. by left.
  - intros t. apply Hway. right. by exists t.
Qed.

Lemma phone_disk_way f d k : phone_disk f d → way f d k → is_file f k = false.
Proof using. intros Hd [Hk|[t ->]]; [by apply (pd_way _ _ Hd)|apply (pd_epochs _ _ Hd)]. Qed.

(** Files put in slots, and directories on the way to them, leave such a disk. *)
Lemma phone_disk_kept f f' d :
  phone_disk f d → same_env f f' → tree f' →
  (∀ k, node_at f' k = node_at f k ∨ (slot f d k ∧ is_file f' k = true) ∨
        (way f d k ∧ node_at f' k = Some Dir)) →
  phone_disk f' d.
Proof using.
  intros Hd Henv Htree Hk.
  assert (∀ k, slot f d k → node_at f k ≠ Some Dir → node_at f' k ≠ Some Dir) as Hslot.
  { intros k Hsl Hnd. destruct (Hk k) as [->|[[_ Hfile]|[Hwk _]]]; [done| |].
    - intros Heq. unfold is_file in Hfile. by rewrite Heq in Hfile.
    - by apply way_not_slot in Hwk. }
  apply (phone_disk_intro f); [apply Hd|done|done| | |].
  - intros k Hwk. destruct (Hk k) as [Heq|[[Hsl _]|[_ Heq]]].
    + unfold is_file. rewrite Heq. by apply (phone_disk_way _ _ _ Hd).
    + by apply way_not_slot in Hwk.
    + unfold is_file. by rewrite Heq.
  - intros t x. apply Hslot; [do 3 right; by exists t, x|apply Hd].
  - apply Hslot; [by left|apply Hd].
Qed.

(** A disk without any epoch. *)
Lemma phone_disk_fresh f d :
  no_fault f → tree f → clear f (resolve f d ++ ["phone"; "transactions"]) →
  node_at f (resolve f d ++ ["phone"; "transactions"]) = None →
  node_at f (schedule_key f d) ≠ Some Dir → phone_disk f d.
Proof using.
  intros Hn Ht Hw Hnone Hs.
  assert (∀ t, node_at f (epoch_key f d t) = None) as Hepoch.
  { intros t. unfold epoch_key. change ["phone"; "transactions"; txid_to_string t]
      with (["phone"; "transactions"] ++ [txid_to_string t]). rewrite app_assoc.
    destruct (node_at f ((resolve f d ++ ["phone"; "transactions"]) ++ [txid_to_string t])) eqn:Hk; [|done].
    apply Ht in Hk. by rewrite Hnone in Hk. }
  split; [done..| | |done].
  - intros t. unfold is_file. by rewrite Hepoch.
  - intros t x Hk. apply Ht in Hk. by rewrite Hepoch in Hk.
Qed.

(** * Writing on it *)

(** A file of an epoch's directory. *)
Lemma write_epoch_ok f d t s `{Json A} (a : A) :
  phone_disk f d → is_name s → serialises A →
  ∃ f', write_json (join (epoch_dir_of d t) s) a f = (Ok tt, f') ∧ phone_disk f' d ∧
    touched [epoch_key f d t] f f'.
Proof using Names.
  intros Hd Hs Hser. destruct (Hser a) as [text Htext].
  destruct (write_private_ok (join (epoch_dir_of d t) s) text f (epoch_key f d t) s)
    as (f' & Hw & He & Ht & Hk).
  - by rewrite resolve_name, resolve_epoch.
  - by rewrite join_name, parent_snoc, resolve_epoch.
  - apply Hd.
  - apply Hd.
  - intros k [Hp|[t' ->]]%way_above; [by apply (pd_way _ _ Hd)|apply (pd_epochs _ _ Hd)].
  - apply Hd.
  - assert (write_json (join (epoch_dir_of d t) s) a f = (Ok tt, f')) as Hrun by (apply write_json_inv; eauto).
    exists f'. split; [done|]. split.
    + eapply phone_disk_kept; [done..|]. intros k. rewrite Hk. case_decide as Hx.
      * right. left. split; [do 3 right; by exists t, s|]. unfold is_file.
        rewrite Hk, decide_True; done.
      * case_decide as Hp; [|by left]. right. right. split; [by eapply way_above|done].
    + apply write_json_touches in Hrun; [|done]. rewrite resolve_epoch in Hrun.
      destruct Hrun as [? Hrun]. split; [done|]. intros k Hfar. apply Hrun.
      intros key ->%list_elem_of_singleton Hnear. by eapply Hfar, near_app; [left|].
Qed.

(** The active schedule. *)
Lemma write_schedule_ok f d (schedule : Schedule) :
  phone_disk f d → serialises Schedule →
  ∃ f', write_json (join d SCHEDULE_FILE) schedule f = (Ok tt, f') ∧ phone_disk f' d ∧
    touched [schedule_key f d] f f'.
Proof using.
  intros Hd Hser. destruct (Hser schedule) as [text Htext]. rewrite schedule_path.
  destruct (write_private_ok (join (join d "phone") "schedule.json") text f (resolve f d ++ ["phone"])
    "schedule.json") as (f' & Hw & He & Ht & Hk).
  - by rewrite resolve_name, resolve_phone.
  - by rewrite join_name, parent_snoc, resolve_phone.
  - apply Hd.
  - apply Hd.
  - intros k Hp. apply (pd_way _ _ Hd). etrans; [exact Hp|]. rewrite (app_assoc _ ["phone"] ["transactions"]).
    by eexists.
  - rewrite <-schedule_key_snoc. apply Hd.
  - assert (write_json (join (join d "phone") "schedule.json") schedule f = (Ok tt, f')) as Hrun
      by (apply write_json_inv; eauto).
    exists f'. split; [done|]. rewrite <-schedule_key_snoc in Hk. split.
    + eapply phone_disk_kept; [done..|]. intros k. rewrite Hk. case_decide as Hx.
      * right. left. split; [by left|]. unfold is_file. rewrite Hk, decide_True; done.
      * case_decide as Hp; [|by left]. right. right. split; [left|done].
        etrans; [exact Hp|]. rewrite (app_assoc _ ["phone"] ["transactions"]). by eexists.
    + apply write_json_touches in Hrun; [|done]. by rewrite resolve_phone, <-schedule_key_snoc in Hrun.
Qed.

(** The configuration that is in use. *)
Lemma set_limits_ok f d config m e :
  phone_disk f d → serialises VaultConfig → load_config f d = Ok config →
  ∃ f', set_policy_limits d m e f = (Ok (set_limits m e config), f') ∧ phone_disk f' d ∧
    same_env f f'.
Proof using.
  intros Hd Hser Hl. destruct (Hser (set_limits m e config)) as [text Htext].
  assert (∃ s, (s = "anzen.json" ∨ s = "vault.json") ∧ is_name s ∧ config_path f d = join d s)
    as (s & Hin & Hname & Hp).
  { unfold config_path. repeat case_match; eexists; (split; [|split; [|reflexivity]]); auto; done. }
  assert (resolve f (config_path f d) = resolve f d ++ [s]) as Hkey by (by rewrite Hp, resolve_name).
  pose proof Hl as Hread. unfold load_config, read_json in Hread.
  apply bind_Ok in Hread as (old & [_ Hfile]%read_Ok & _). rewrite Hkey in Hfile.
  destruct (overwrite_ok (config_path f d) text f (resolve f d) s old) as (f' & Hw & He & Ht & Hk);
    [done|by rewrite Hp, join_name, parent_snoc|apply Hd..|done|].
  exists f'. split; [|split; [|done]].
  - unfold set_policy_limits. apply M_bind_Ok. exists f, f. split; [done|].
    apply M_bind_Ok. exists config, f. split; [by apply pure_Ok|].
    apply M_bind_Ok. exists tt, f'. split; [|done]. apply write_json_inv. eauto.
  - eapply phone_disk_kept; [done..|]. intros k. rewrite Hk. case_decide as Hx; [|by left].
    right. left. split; [|unfold is_file; by rewrite Hk, decide_True].
    subst k. unfold slot. destruct Hin as [->| ->]; auto.
Qed.

(** * Staging *)

(** What the libraries document of values of ordinary size: sealing under a key
    and a nonce of the right lengths does not fail, and neither does [serde_json]
    on data without maps of other keys than strings. *)
Record total_libraries : Prop := {
  tl_seal : ∀ k n p, length k = 32 → length n = 24 → is_Some (aead_encrypt k n p);
  tl_schedule : serialises Schedule;
  tl_config : serialises VaultConfig;
  tl_allowance : serialises EncryptedTransaction;
  tl_emergency : serialises EncryptedEmergencyTransaction;
  tl_blob : serialises EncryptedBlob;
  tl_transaction : serialises Transaction;
  tl_bool : serialises bool;
  tl_package : ∀ x : PolicyPackage, is_Some (to_vec x);
}.
Context (Total : total_libraries).

Lemma encrypt_ok sd purpose pt r : ∃ x r', encrypt sd purpose pt r = (Ok x, r').
Proof using CL Total.
  unfold encrypt. destruct (derive_key_total sd purpose) as (k & Hk & Hl). rewrite Hk.
  pose proof (fill_bytes_length 24 r) as Hlen.
  unfold draw, pure, mbind, M_bind.
  destruct (fill_bytes 24 r) as [n r']. simpl in Hlen.
  destruct (tl_seal Total k n pt Hl Hlen) as [c ->]. simpl. by do 2 eexists.
Qed.

Section staging.
Context (f0 : FS) (d b : Path) (t : Txid).

(** Work in the epoch's directory that succeeds. *)
Definition runs {A} (m : M (World B) A) : Prop :=
  ∀ w, phone_disk (w_fs w) d → touched [epoch_key f0 d t] f0 (w_fs w) →
    ∃ a w', m w = (Ok a, w') ∧ phone_disk (w_fs w') d ∧ touched [epoch_key f0 d t] f0 (w_fs w').

Lemma runs_ret {A} (a : A) : runs (mret a).
Proof using. intros w Hd Ht. by exists a, w. Qed.

Lemma runs_pure {A} (r : result A) : is_Ok r → runs (pure r).
Proof using. intros [a ->] w Hd Ht. by exists a, w. Qed.

Lemma runs_bind {A C} (m : M (World B) A) (g : A → M (World B) C) :
  runs m → (∀ a, runs (g a)) → runs (a ← m; g a).
Proof using.
  intros Hm Hg w Hd Ht. destruct (Hm w Hd Ht) as (a & w1 & Hm1 & Hd1 & Ht1).
  destruct (Hg a w1 Hd1 Ht1) as (c & w2 & Hm2 & Hd2 & Ht2). exists c, w2.
  split; [|done]. apply M_bind_Ok. eauto.
Qed.

Lemma runs_encrypt sd purpose pt : runs (at_rng (encrypt sd purpose pt)).
Proof using CL Total.
  intros w Hd Ht. destruct (encrypt_ok sd purpose pt (w_rng w)) as (x & r & Hx).
  unfold at_rng. rewrite Hx. by do 2 eexists.
Qed.

Lemma runs_write s `{Json A} (a : A) :
  is_name s → serialises A → runs (at_fs (write_json (join (epoch_dir_of d t) s) a)).
Proof using Names.
  intros Hs Hser w Hd Ht.
  destruct (write_epoch_ok (w_fs w) d t s a Hd Hs Hser) as (f' & Hw & Hd' & Ht').
  unfold at_fs. rewrite Hw. do 2 eexists. split; [done|]. split; [done|]. cbn [w_fs].
  eapply touched_trans; [exact Ht|].
  assert (epoch_key (w_fs w) d t = epoch_key f0 d t) as <-; [|done].
  destruct Ht as [He _]. unfold epoch_key. by rewrite (resolve_env _ _ _ He).
Qed.

(** A file of the batch, out of the way of the epoch. *)
Definition readable (s : string) : Prop :=
  is_Ok (read_psbt f0 (join b s)) ∧ ¬ near (epoch_key f0 d t) (resolve f0 (join b s)).

Lemma runs_read s : readable s → runs (with_fs (λ f, read_psbt f (join b s))).
Proof using.
  intros [[p Hp] Hn] w Hd Ht. exists p, w. split; [|done]. unfold with_fs.
  rewrite (read_psbt_touched _ _ _ _ Ht), Hp; [done|]. by intros key ->%list_elem_of_singleton.
Qed.

Lemma relative_ok s : is_name s → is_Ok (relative_to d (join (epoch_dir_of d t) s)).
Proof using Names.
  intros Hs. unfold epoch_dir_of. rewrite join_name by done. rewrite join_name by apply txid_name.
  unfold join at 1. simpl. rewrite <-!app_assoc. unfold relative_to. rewrite strip_prefix_app. by eexists.
Qed.

Lemma runs_allowances phone l :
  Forall (λ a, readable (psbt_file (authorization a))) l →
  runs (stage_allowances d (epoch_dir_of d t) b phone l).
Proof using CL Total Names.
  induction 1 as [|a l Ha _ IH]; [apply runs_ret|]. simpl.
  apply runs_bind; [|intros e; apply runs_bind; [done|intros es; apply runs_ret]].
  unfold stage_allowance. apply runs_bind; [by apply runs_read|]. intros p.
  apply runs_bind.
  { apply runs_bind; [apply runs_encrypt|]. intros x. apply runs_write; [apply allowance_name|apply Total]. }
  intros _. apply runs_bind; [apply runs_pure, relative_ok, allowance_name|]. intros file. apply runs_ret.
Qed.

Lemma runs_emergency phone e :
  readable (psbt_file (trigger e)) → readable (psbt_file (withdrawal e)) →
  runs (stage_emergency d (epoch_dir_of d t) b phone e).
Proof using CL Total Names.
  intros Htr Hwi. unfold stage_emergency.
  apply runs_bind; [by apply runs_read|]. intros p. apply runs_bind; [by apply runs_read|]. intros q.
  assert (∀ kind r, runs (write_encrypted_emergency_transaction (B:=B)
    (emergency_transaction_path (epoch_dir_of d t) kind (txid_to_string (compute_txid (unsigned_tx r))))
    (seed phone) kind r)) as Hwrite.
  { intros kind r. apply runs_bind; [apply runs_encrypt|]. intros x.
    apply runs_write; [apply emergency_name|apply Total]. }
  apply runs_bind; [apply Hwrite|]. intros _. apply runs_bind; [apply Hwrite|]. intros _.
  apply runs_bind; [apply runs_pure, relative_ok, emergency_name|]. intros tf.
  apply runs_bind; [apply runs_pure, relative_ok, emergency_name|]. intros wf. apply runs_ret.
Qed.

(** A batch that can be read, all of it out of the way of the epoch. *)
Record readable_batch (m : BatchManifest) : Prop := {
  rb_manifest : load_manifest f0 b = Ok m;
  rb_apart : ¬ near (epoch_key f0 d t) (resolve f0 (join b "manifest.json"));
  rb_files : Forall readable (batch_names m);
}.

Lemma runs_package m : readable_batch m → runs (with_fs (λ f, package_from_batch f b)).
Proof using.
  intros [Hm Hap Hall] w Hd Ht.
  destruct (package_exists (w_fs w) b m) as (pkg & Hpkg & _).
  - rewrite <-Hm. unfold load_manifest, read_json. rewrite (read_touched _ _ _ _ Ht); [done|].
    by intros key ->%list_elem_of_singleton.
  - unfold batch_names in Hall. apply (Forall_fmap psbt_file) in Hall. eapply Forall_impl; [exact Hall|]. intros tr [[p Hp] Hn].
    exists p. rewrite (read_psbt_touched _ _ _ _ Ht); [done|]. by intros key ->%list_elem_of_singleton.
  - exists pkg, w. split; [|done]. unfold with_fs. by rewrite Hpkg.
Qed.

Lemma runs_stage phone m tx :
  readable_batch m → runs (stage_epoch d (epoch_dir_of d t) b phone m tx).
Proof using CL Total Names.
  intros Hb. pose proof (rb_files _ Hb) as Hall. unfold batch_names, manifest_transactions in Hall.
  rewrite fmap_cons, fmap_app in Hall. apply Forall_cons_iff in Hall as [_ [Hallow Hem]%Forall_app].
  unfold stage_epoch. apply runs_bind; [by eapply runs_package|]. intros pkg.
  apply runs_bind.
  { apply runs_pure. destruct (tl_package Total pkg) as [x ->]. by eexists. }
  intros bytes. apply runs_bind; [apply runs_encrypt|]. intros x.
  apply runs_bind; [apply runs_write; [done|apply Total]|]. intros _. apply runs_bind; [apply runs_write; [done|apply Total]|]. intros _.
  apply runs_bind; [apply runs_allowances|].
  { rewrite <-list_fmap_compose in Hallow. by apply (Forall_fmap (psbt_file ∘ authorization)) in Hallow. }
  intros es. apply runs_bind.
  { destruct (emergency_access m) as [e|]; [|apply runs_ret].
    apply Forall_cons_iff in Hem as [Htr [Hwi _]%Forall_cons_iff].
    apply runs_bind; [by apply runs_emergency|]. intros s. apply runs_ret. }
  intros em. apply runs_bind; [apply runs_write; [done|apply Total]|]. intros _. apply runs_ret.
Qed.
End staging.

(** * Activating *)

Lemma activate_schedule_ok d t previous m schedule config w :
  phone_disk (w_fs w) d → load_config (w_fs w) d = Ok config →
  ∃ w', activate_schedule d (epoch_dir_of d t) previous t m schedule w = (Ok tt, w').
Proof using Laws CL Names Total.
  intros Hd Hl.
  assert (∃ w1, match previous with
    | Some t' => if bool_decide (t' = t) then mret tt
                 else at_fs (write_json (join (epoch_dir_of d t') "activated.json") true)
    | None => mret tt
    end w = (Ok tt, w1) ∧ phone_disk (w_fs w1) d ∧ load_config (w_fs w1) d = Ok config)
    as (w1 & Hw1 & Hd1 & Hl1).
  { destruct previous as [t'|]; [case_bool_decide|]; [by exists w| |by exists w].
    destruct (write_epoch_ok (w_fs w) d t' "activated.json" true Hd) as (f' & Hw & Hd' & Ht);
      [done|apply Total|].
    unfold at_fs. rewrite Hw. eexists. split; [done|]. split; [done|]. cbn [w_fs].
    by rewrite (unmoved_config _ _ _ _ Ht). }
  destruct (write_schedule_ok (w_fs w1) d schedule Hd1 (tl_schedule Total)) as (f2 & Hw2 & Hd2 & Ht2).
  assert (load_config f2 d = Ok config) as Hl2.
  { rewrite <-Hl1. apply (load_config_touched _ _ _ _ Ht2). intros key ->%list_elem_of_singleton.
    unfold schedule_key. split; apply far_config'; [left|right; left]. }
  destruct (set_limits_ok f2 d config (monthly_limit_sats m) (emergency_access_limit_sats m) Hd2 (tl_config Total) Hl2)
    as (f3 & Hw3 & Hd3 & _).
  destruct (write_epoch_ok f3 d t "activated.json" true Hd3) as (f4 & Hw4 & _); [done|apply Total|].
  unfold activate_schedule. eexists.
  apply M_bind_Ok. exists tt, w1. split; [done|].
  apply M_bind_Ok. eexists tt, _. split; [apply at_fs_Ok; eauto|].
  apply M_bind_Ok. eexists _, _. split; [apply at_fs_Ok; eauto|].
  apply at_fs_Ok. eauto.
Qed.

(** The run of such an activation. *)
Lemma activation_run d b w config m policy phone p tx previous c' :
  phone_disk (w_fs w) d → load_config (w_fs w) d = Ok config →
  bitcoin_network config = Ok (backend_network (w_chain w)) →
  load_manifest (w_fs w) b = Ok m → validate_approved_batch config m (w_fs w) b = Ok policy →
  (∀ s, s ∈ "manifest.json"%string :: batch_names m → ∀ t,
     ¬ near (epoch_key (w_fs w) d t) (resolve (w_fs w) (join b s))) →
  load_device_keys (w_fs w) d PHONE_DEVICE_FILE = Ok phone →
  read_psbt (w_fs w) (join b (psbt_file (rollover m))) = Ok p → finalize_vault_psbt p = Ok tx →
  previous_epoch_of (w_fs w) d = Ok previous →
  superseded (w_fs w) d (compute_txid tx) previous = false →
  broadcast tx (w_chain w) = (Ok (compute_txid tx), c') →
  ∃ schedule w', activate_policy d b w = (Ok schedule, w').
Proof using Laws CL Total Names.
  intros Hd Hl Hnet Hm Hval Hap Hphone Hp Htx Hprev Hsup Hbr.
  assert (readable_batch (w_fs w) d b (compute_txid tx) m) as Hb.
  { split; [done|by apply Hap; left|]. apply Forall_fmap, Forall_forall. intros tr Htr.
    split; [|by apply Hap; right; apply list_elem_of_fmap_2].
    apply validate_approved_batch_Ok in Hval as (_ & _ & _ & pk & hk & _ & _ & Hall).
    rewrite Forall_forall in Hall. specialize (Hall tr Htr). unfold validate_approved_transaction in Hall.
    apply bind_Ok in Hall as (q & Hq & _). by exists q. }
  destruct (runs_stage (w_fs w) d b (compute_txid tx) phone m tx Hb w Hd (touched_refl _ _))
    as (schedule & w1 & Hst & Hd1 & Ht1).
  pose proof Hst as Hch. apply (wo_stage_epoch (w_fs w) _ d _ b phone m tx (resolve_epoch _ _ _)) in Hch as [_ Hch]; [|done].
  set (w2 := Build_World (w_fs w1) (w_rng w1) (w_db w1) c').
  destruct (activate_schedule_ok d (compute_txid tx) previous m schedule config w2) as [w3 Hact];
    [done|by rewrite <-Hl; apply (unmoved_config _ _ _ _ Ht1)|].
  assert (activate_policy d b w = (Ok schedule, w3)) as Hrun.
  { unfold activate_policy.
    rewrite (M_step _ _ _ config w) by (unfold with_fs; by rewrite Hl).
    rewrite (M_step _ _ _ tt w) by (unfold ensure_backend_network; rewrite Hnet; simpl;
      by rewrite bool_decide_eq_true_2).
    rewrite (M_step _ _ _ m w) by (unfold with_fs; by rewrite Hm).
    rewrite (M_step _ _ _ policy w) by (unfold with_fs; by rewrite Hval).
    rewrite (M_step _ _ _ phone w) by (unfold with_fs; by rewrite Hphone).
    rewrite (M_step _ _ _ p w) by (unfold with_fs; by rewrite Hp).
    rewrite (M_step _ _ _ tx w) by (unfold pure; by rewrite Htx). cbv zeta.
    rewrite (M_step _ _ _ previous w) by (unfold with_fs; by rewrite Hprev).
    rewrite (M_step _ _ _ tt w) by (unfold with_fs; unfold superseded in Hsup; by rewrite Hsup).
    rewrite (M_step _ _ _ schedule w1) by exact Hst.
    rewrite (M_step _ _ _ (compute_txid tx) w2) by (unfold at_chain; by rewrite Hch, Hbr).
    rewrite (M_step _ _ _ tt w2) by (unfold pure; by rewrite bool_decide_eq_true_2).
    by rewrite (M_step _ _ _ tt w3). }
  by exists schedule, w3.
Qed.

(** C7: Activation succeeds.  With libraries that encode and seal without
    failure, on a working disk of the phone (it may hold what an earlier attempt
    left), a batch that
    passes the final validation, can be read, and lies out of the way of the
    phone's epochs, whose rollover finalises, is not of a superseded epoch, and
    is taken by the network, is activated: the schedule that is returned is the
    active one, it is of that rollover, and the backend is as the broadcast left
    it. *)
Theorem activation_completes `{!JsonLaws Schedule} d b w config m policy phone p tx previous c' :
  phone_disk (w_fs w) d → load_config (w_fs w) d = Ok config →
  bitcoin_network config = Ok (backend_network (w_chain w)) →
  load_manifest (w_fs w) b = Ok m → validate_approved_batch config m (w_fs w) b = Ok policy →
  (∀ s, s ∈ "manifest.json"%string :: batch_names m → ∀ t,
     ¬ near (epoch_key (w_fs w) d t) (resolve (w_fs w) (join b s))) →
  load_device_keys (w_fs w) d PHONE_DEVICE_FILE = Ok phone →
  read_psbt (w_fs w) (join b (psbt_file (rollover m))) = Ok p → finalize_vault_psbt p = Ok tx →
  previous_epoch_of (w_fs w) d = Ok previous →
  superseded (w_fs w) d (compute_txid tx) previous = false →
  broadcast tx (w_chain w) = (Ok (compute_txid tx), c') →
  ∃ schedule w', activate_policy d b w = (Ok schedule, w') ∧
    load_schedule (w_fs w') d = Ok schedule ∧
    schedule_rollover_txid schedule = txid_to_string (compute_txid tx) ∧ w_chain w' = c'.
Proof using Laws CL Names Total.
  intros Hd Hl Hnet Hm Hval Hap Hphone Hp Htx Hprev Hsup Hbr.
  destruct (activation_run d b w config m policy phone p tx previous c') as (schedule & w3 & Hrun); [done..|].
  exists schedule, w3. split; [done|].
  apply activate_Ok in Hrun as (c2 & m2 & tx2 & previous2 & w4 & Ha & Ht4 & Hc & Hch3 & Hv & Hid).
  assert (tx2 = tx ∧ c2 = c') as [-> ->].
  { destruct Ha as [_ Hm2 _ (p2 & Hp2 & Htx2) _ _ Hbr2].
    rewrite Hm in Hm2. injection Hm2 as <-. rewrite Hp in Hp2. injection Hp2 as <-.
    rewrite Htx in Htx2. injection Htx2 as <-. rewrite Hbr in Hbr2. by injection Hbr2 as <-. }
  split_and!; [|done|done]. eapply completed_schedule; [|exact Hc|done].
  apply no_fault_reads. destruct Ht4 as [He4 _]. eapply no_fault_env; [exact He4|apply Hd].
Qed.
End completes.
