(* ===== verification/PhoneWorkspace.v ===== *)
(** The phone's workspace for an approved package: unpacking it leaves a phone's
    disk as activation needs it. *)

From S2P Require Import Prelude Bitcoin Types Keys Policy Transactions FileSystem FsProgress Storage Crypto Social Ceremony CeremonyValidate CeremonySound CeremonyBuild ColdWallet ColdWalletFacts CeremonyTransport CeremonyWorkspace CeremonyApproval CeremonyComplete Recovery HotWallet Phone PhonePaths PhoneActivation PhoneArtifacts PhoneRoundTrip PhoneComplete.

(** * What unpacking touches *)

Lemma near_sym k k' : near k k' → near k' k.
Proof. intros [Hk|Hk]; [by right|by left]. Qed.

Lemma near_below (K : Key) l k : k `prefix_of` K ++ l → near K k.
Proof.
  intros Hk. destruct (prefix_weak_total K k (K ++ l)) as [Hp|Hp]; [by apply prefix_app_r|done|..];
    [by left|by right].
Qed.

Section unpacking.
Context `{BitcoinLib, !KeyLib, !Json BatchManifest}.
Implicit Types (f : FS) (d : Path) (K : Key).

Lemma remove_dir_all_touches d f r f' :
  resolve f d ≠ [] → remove_dir_all d f = (r, f') → touched [resolve f d] f f'.
Proof.
  intros Hne. unfold remove_dir_all, get, put, pure, mbind, M_bind. simpl.
  destruct (bail_if _ _) as [[]|e|]; [|intros [= _ <-]; apply touched_refl..].
  intros [= _ <-]. split; [done|]. intros [|x k] Hk; [done|]. unfold node_at. simpl.
  rewrite map_lookup_filter. destruct (nodes f !! (x :: k)) as [nd|]; [|done]. simpl.
  rewrite option_guard_True; [done|]. simpl. intros Hx. eapply Hk; [left|]. left. rewrite <-Hx.
  apply prefix_take.
Qed.

Lemma reset_workspace_touches d f r f' :
  resolve f d ≠ [] → reset_workspace d f = (r, f') → touched [resolve f d] f f'.
Proof.
  intros Hne. unfold reset_workspace, get, mbind, M_bind.
  destruct (exists_ f d); [by apply remove_dir_all_touches|]. intros [= _ <-]. apply touched_refl.
Qed.

(** A file below a directory. *)
Lemma write_below_touches d s (names : list string) bytes f r f' :
  is_absolute s = false → components s = Normal <$> names → names ≠ [] →
  write_private (join d s) bytes f = (r, f') → touched [resolve f d] f f'.
Proof.
  intros Ha Hc Hne Hw. destruct (snoc_names names Hne) as (l & x & ->).
  apply write_private_run in Hw as (He & _ & Hk & _). split; [done|]. intros k Hfar.
  specialize (Hfar _ (list_elem_of_here _ _)).
  rewrite (resolve_join _ _ _ _ Ha Hc), (parent_join _ _ _ _ _ Ha Hc) in Hk.
  assert (k ≠ resolve f d ++ l ++ [x]) as Hne' by (intros ->; apply Hfar; left; by apply prefix_app_r).
  destruct (Hk k Hne') as [Heq|(_ & _ & [_ Hp]%elem_prefixes)]; [done|].
  destruct Hfar. by eapply near_below.
Qed.

Lemma write_package_touches d e f r f' :
  names_of e.1 ≠ [] → write_package_psbt d e f = (r, f') → touched [resolve f d] f f'.
Proof.
  destruct e as [s psbt]. intros Hne. unfold write_package_psbt, pure, mbind, M_bind.
  destruct (is_absolute s || negb (forallb is_normal (components s))) eqn:Hs; simpl;
    [intros [= _ <-]; apply touched_refl|].
  apply orb_false_iff in Hs as [Ha Hn%negb_false_iff].
  apply (write_below_touches d s (names_of s)); [done|by apply safe_components|done].
Qed.

Lemma write_all_touches d l f r f' :
  Forall (λ e, names_of e.1 ≠ []) l → for_eachM (write_package_psbt d) l f = (r, f') →
  touched [resolve f d] f f'.
Proof.
  intros Hall. revert f. induction Hall as [|e l He _ IH]; intros f; simpl.
  { intros [= _ <-]. apply touched_refl. }
  unfold mbind, M_bind. destruct (write_package_psbt d e f) as [r1 f1] eqn:Hw.
  apply write_package_touches in Hw; [|done].
  destruct r1 as [u|err|]; [|by intros [= _ <-]..].
  intros Hr%IH. rewrite (touched_resolve _ _ _ _ Hw) in Hr. by eapply touched_trans.
Qed.

(** A package of ordinary names, unpacked. *)
Lemma materialize_touches pkg d f f' :
  (∀ n, n ∈ batch_names (package_manifest pkg) → names_of n ≠ []) →
  materialize_policy_package pkg d f = (Ok tt, f') → touched [resolve f d] f f'.
Proof.
  intros Hnames Hm. unfold materialize_policy_package in Hm.
  apply M_bind_Ok in Hm as (? & ? & [_ ->]%pure_Ok & Hm).
  apply M_bind_Ok in Hm as (? & f0 & Hempty & Hm).
  assert (f0 = f) as -> by (by apply empty_batch_dir_same in Hempty).
  apply M_bind_Ok in Hm as ([] & ? & [Hdom%bail_if_Ok%negb_false_iff%bool_decide_eq_true ->]%pure_Ok & Hm).
  apply M_bind_Ok in Hm as ([] & f1 & Hdir & Hm).
  apply M_bind_Ok in Hm as ([] & f2 & Hman & Hall).
  assert (touched [resolve f d] f f1) as Ht1.
  { unfold create_dir_all, get, mbind, M_bind in Hdir.
    apply create_key_run in Hdir as (He & _ & Hk). split; [done|]. intros k Hfar.
    destruct (Hk k) as [Heq|(_ & _ & [_ Hp]%elem_prefixes)]; [done|].
    destruct (Hfar _ (list_elem_of_here _ _)). by right. }
  assert (touched [resolve f d] f1 f2) as Ht2.
  { apply write_json_inv in Hman as (text & _ & Hw). rewrite <-(touched_resolve _ _ _ _ Ht1).
    by eapply (write_below_touches d "manifest.json" ["manifest.json"]). }
  pose proof (touched_trans _ _ _ _ Ht1 Ht2) as Ht.
  eapply touched_trans; [exact Ht|]. rewrite <-(touched_resolve _ _ _ _ Ht).
  eapply write_all_touches; [|exact Hall]. apply Forall_forall. intros e He%elem_of_entries.
  apply Hnames. assert (e.1 ∈ dom (psbts pkg)) as Hin by (apply elem_of_dom; by eexists).
  rewrite Hdom in Hin. by apply elem_of_list_to_set in Hin.
Qed.

Lemma unpacked_touches pkg d f f' :
  resolve f d ≠ [] → (∀ n, n ∈ batch_names (package_manifest pkg) → names_of n ≠ []) →
  unpacked pkg d f f' → touched [resolve f d] f f'.
Proof.
  intros Hne Hnames (f1 & Hr & Hm). apply reset_workspace_touches in Hr; [|done].
  apply materialize_touches in Hm; [|done]. rewrite (touched_resolve _ _ _ _ Hr) in Hm.
  by eapply touched_trans.
Qed.
End unpacking.

(** * The disk beside the workspace *)

Section aside.
Context `{BitcoinLib, !KeyLib, !BdkLib, !TxidText, CryptoLib, Json VaultConfig, !Json DeviceFile,
          Json PublicDeviceFile, Json BatchManifest, Json Schedule, Json PolicyPackage,
          JsonVec PolicyPackage, Json EncryptedTransaction, Json EncryptedEmergencyTransaction,
          Json EncryptedBlob, Json Transaction, Json bool} `{Names : !TxidTextLaws}.
Implicit Types (f : FS) (d A : Path).

(** The names that activation reads and writes. *)
Definition phone_names : list (list string) :=
  [["phone"; "transactions"]; ["phone"; "schedule.json"]; ["phone"; "device.json"];
   ["anzen.json"]; ["vault.json"]].

(** A workspace out of their way. *)
Definition aside f d A : Prop :=
  ∀ l, l ∈ phone_names → ¬ near (resolve f A) (resolve f d ++ l).

Lemma aside_below f d A l l' :
  aside f d A → l ∈ phone_names → ¬ near (resolve f A) (resolve f d ++ l ++ l').
Proof using.
  intros Ha Hl Hn. apply (Ha l Hl), near_sym. apply near_sym in Hn. rewrite app_assoc in Hn.
  by eapply near_app.
Qed.

Lemma aside_epoch f d A t l : aside f d A → ¬ near (resolve f A) (epoch_key f d t ++ l).
Proof using.
  intros Ha. unfold epoch_key. rewrite <-app_assoc.
  apply (aside_below f d A ["phone"; "transactions"] (txid_to_string t :: l) Ha). left.
Qed.

Lemma aside_slot f d A k : aside f d A → slot f d k → ¬ near (resolve f A) k.
Proof using.
  intros Ha [->|[->|[->|(t & x & ->)]]]; [| | |by apply aside_epoch].
  - apply (Ha ["phone"; "schedule.json"]). right. left.
  - apply (Ha ["anzen.json"]). do 3 right. left.
  - apply (Ha ["vault.json"]). do 4 right. left.
Qed.

(** The disk is still one to activate on. *)
Lemma phone_disk_beside f f' d A :
  phone_disk f d → aside f d A → touched [resolve f A] f f' → tree f' →
  node_at f' (resolve f A) = Some Dir → phone_disk f' d.
Proof using.
  intros Hd Ha [Henv Hkeep] Htree Hdir.
  assert (∀ k, ¬ near (resolve f A) k → node_at f' k = node_at f k) as Hsame.
  { intros k Hk. apply Hkeep. by intros key ->%list_elem_of_singleton. }
  apply (phone_disk_intro f); [apply Hd|done|done| | |].
  - intros k Hwk. destruct (decide (k `prefix_of` resolve f A)) as [Hp|Hp].
    + unfold is_file. destruct (decide (k = resolve f A)) as [->|Hne]; [by rewrite Hdir|].
      by rewrite (tree_above f' (resolve f A) k Dir).
    + unfold is_file. rewrite Hsame; [by apply (phone_disk_way _ _ _ Hd)|].
      intros [Hn|Hn]; [|done]. destruct Hwk as [Hk|[t ->]].
      * apply (Ha ["phone"; "transactions"]); [left|]. left. by etrans.
      * apply (aside_epoch f d A t [] Ha). rewrite app_nil_r. by left.
  - intros t x. rewrite Hsame; [apply Hd|by apply aside_epoch].
  - rewrite Hsame; [apply Hd|]. eapply aside_slot; [done|by left].
Qed.

(** What activation reads of the phone is as before. *)
Lemma beside_config f f' d A :
  aside f d A → touched [resolve f A] f f' → load_config f' d = load_config f d.
Proof using.
  intros Ha Ht. apply (load_config_touched _ _ _ _ Ht). intros key ->%list_elem_of_singleton.
  split; [apply (Ha ["anzen.json"]); do 3 right; left|apply (Ha ["vault.json"]); do 4 right; left].
Qed.

Lemma beside_keys f f' d A :
  aside f d A → touched [resolve f A] f f' →
  load_device_keys f' d PHONE_DEVICE_FILE = load_device_keys f d PHONE_DEVICE_FILE.
Proof using.
  intros Ha Ht. unfold load_device_keys, load_device, read_json. rewrite (read_touched _ _ _ _ Ht); [done|].
  intros key ->%list_elem_of_singleton. rewrite resolve_device. apply (Ha ["phone"; "device.json"]).
  do 2 right. left.
Qed.

Lemma beside_previous f f' d A :
  aside f d A → touched [resolve f A] f f' → previous_epoch_of f' d = previous_epoch_of f d.
Proof using.
  intros Ha Ht. unfold previous_epoch_of, load_schedule, read_json.
  assert (∀ key, key ∈ [resolve f A] → ¬ near key (schedule_key f d)) as Hfar.
  { intros key ->%list_elem_of_singleton. apply (Ha ["phone"; "schedule.json"]). right. left. }
  rewrite (read_touched _ _ _ _ Ht) by (by rewrite resolve_schedule).
  unfold is_file. rewrite (touched_resolve _ _ _ _ Ht), resolve_schedule. destruct Ht as [_ Hk].
  by rewrite Hk.
Qed.

Lemma beside_superseded f f' d A t previous :
  aside f d A → touched [resolve f A] f f' → superseded f' d t previous = superseded f d t previous.
Proof using Names.
  intros Ha Ht. unfold superseded. rewrite (exists_touched _ _ _ _ Ht); [done|].
  intros key ->%list_elem_of_singleton. rewrite resolve_name, resolve_epoch by done. by apply aside_epoch.
Qed.
End aside.
