(* ===== verification/Lifecycle.v ===== *)
(** A policy's whole life: what the phone proposes is approved by the hardware
    wallet, activated by the phone, and every month's authorization goes out. *)

From S2P Require Import Prelude Bitcoin Types Keys Policy Transactions Signable FileSystem FsProgress Storage Crypto Social Ceremony CeremonyValidate CeremonySound CeremonyBuild CeremonyTheorems ColdWallet ColdWalletFacts CeremonyTransport CeremonyWorkspace CeremonyApproval CeremonyComplete Recovery RecoveryFacts HotWallet Phone PhonePaths PhoneActivation PhoneBroadcast PhoneArtifacts PhoneRoundTrip PhoneEmergency PhoneComplete PhoneWorkspace.

(** * What both devices have approved

    A transaction of an approved batch needs nothing but the phone's key on its
    connector. *)

Section spends.
Context `{Laws : BitcoinLaws, !KeyLib}.
Context (policy : VaultPolicy) (controller : ControllerPolicy) (phone hww : XOnlyPublicKey).
Implicit Types (p q : Psbt) (d : DefiniteDescriptor) (t : BatchTransaction).

(** An input that has what its descriptor's leaf asks for: a vault output with
    both keys' signatures, or a connector with the phone's. *)
Definition vault_ready p i : Prop :=
  ∃ d leaf, vault_definite_descriptor policy = Ok d ∧ vault_leaf policy Cooperative = Ok leaf ∧
    described d p i ∧ has_sig (leaf_hash leaf) phone p i ∧ has_sig (leaf_hash leaf) hww p i.
Definition connector_ready p i : Prop :=
  ∃ d leaf, controller_definite_descriptor controller = Ok d ∧
    controller_leaf controller PhonePath = Ok leaf ∧
    described d p i ∧ has_sig (cleaf_hash leaf) phone p i.

(** What miniscript documents of the inputs of a vault.  The descriptor records
    the phone's key with the leaf that it signs; the message of a taproot input
    exists when every input states the output it spends; and a PSBT whose inputs
    are all ready is finalised and extracted, with nothing but witnesses added. *)
Record finishes : Prop := {
  fs_records : ∀ d leaf q i q' y, controller_definite_descriptor controller = Ok d →
    controller_leaf controller PhonePath = Ok leaf →
    update_input_with_descriptor q i d = Some q' → inputs q' !! i = Some y →
    ∃ o, tap_key_origins y !! phone = Some o ∧ cleaf_hash leaf ∈ o;
  fs_message : ∀ p i x o lh, validate_default_sighashes p = Ok tt → Forall (λ x, is_Some (witness_utxo x)) (inputs p) →
    inputs p !! i = Some x → witness_utxo x = Some o →
    script_pubkey o = address_script_pubkey (controller_address_of controller) →
    ∃ m, sighash_msg p i lh = Some (TapSighash m);
  fs_complete : ∀ p, validate_default_sighashes p = Ok tt → (∀ i, i < length (inputs p) → vault_ready p i ∨ connector_ready p i) →
    ∃ q tx, finalize_mut p = Some q ∧ extract q = Some tx ∧
      compute_txid tx = compute_txid (unsigned_tx p);
}.
Context (Hfin : finishes).

Lemma finalize_ready p :
  validate_default_sighashes p = Ok tt →
  (∀ i, i < length (inputs p) → vault_ready p i ∨ connector_ready p i) →
  ∃ tx, finalize_vault_psbt p = Ok tx ∧ compute_txid tx = compute_txid (unsigned_tx p).
Proof using Hfin.
  intros Hd Hall. destruct (fs_complete Hfin p Hd Hall) as (q & tx & Hq & Htx & Hid).
  exists tx. split; [|done]. unfold finalize_vault_psbt. rewrite Hd. simpl. rewrite Hq. simpl. by rewrite Htx.
Qed.

Lemma sign_controller_complete path kp ids p leaf :
  validate_default_sighashes p = Ok tt → controller_leaf controller path = Ok leaf →
  Forall (signable (cleaf_hash leaf) kp p) ids →
  ∃ q, exec (sign_controller_psbt_inputs controller path kp ids) p = Ok q.
Proof using Laws.
  intros Hd Hl Hall.
  assert (∃ q, sign_controller_psbt_inputs controller path kp ids p = (Ok tt, q)) as [q Hq].
  { unfold sign_controller_psbt_inputs, get, pure, mbind, M_bind. rewrite Hd, Hl.
    by apply (sign_inputs_complete (cleaf_hash leaf) _ _ _ _ kp ids p). }
  exists q. apply exec_Ok. by exists tt.
Qed.

(** A child of the rollover, approved by both devices: the phone's key on its
    connector completes it. *)
Lemma child_completes p prevout o c t kp dd leaf cd cleaf :
  child_of p prevout o c (controller_script_of controller) t →
  validate_default_sighashes p = Ok tt → phone = x_only_public_key kp →
  vault_definite_descriptor policy = Ok dd → vault_leaf policy Cooperative = Ok leaf →
  described dd p 0 → has_sig (leaf_hash leaf) phone p 0 → has_sig (leaf_hash leaf) hww p 0 →
  controller_definite_descriptor controller = Ok cd → described cd p 1 →
  controller_leaf controller PhonePath = Ok cleaf →
  ∃ tx, (q ← exec (sign_controller_psbt_inputs controller PhonePath kp [1]) p;
         finalize_vault_psbt q) = Ok tx ∧ compute_txid tx = compute_txid (unsigned_tx p).
Proof using Hfin Laws.
  intros [_ _ _ (x0 & x1 & Hx & Hw0 & Hw1 & _) _ _] Hd Hkp Hdd Hl Hdesc Hp Hh Hcd Hcdesc Hcl.
  destruct (sign_controller_complete PhonePath kp [1] p cleaf Hd Hcl) as [q Hq].
  { apply Forall_singleton. destruct Hcdesc as (r & r' & x & y & Hu & Hy & Hx1 & Ho).
    destruct (fs_records Hfin _ _ _ _ _ _ Hcd Hcl Hu Hy) as (or & Hor & Hin).
    destruct (fs_message Hfin p 1 x1 (connector_output (controller_script_of controller)) (cleaf_hash cleaf) Hd) as [m Hm];
      [rewrite Hx; by repeat constructor|by rewrite Hx|exact Hw1|done|].
    exists x, m, or. rewrite Ho, <-Hkp. done. }
  pose proof Hq as Hs. apply sign_controller_psbt_Ok in Hs as (leaf' & Hl' & Hs).
  rewrite Hcl in Hl'. injection Hl' as <-. pose proof Hs as [Hsame _].
  destruct (finalize_ready q) as (tx & Htx & Hid).
  - by rewrite <-(validate_default_same p q).
  - intros i Hi. rewrite <-(same_but_sigs_length p q), Hx in Hi by done. simpl in Hi.
    destruct i as [|[|i]]; [left|right|lia].
    + exists dd, leaf. split_and!; [done|done|by eapply described_same|by eapply signed_keeps_sig..].
    + exists cd, cleaf. split_and!; [done|done|by eapply described_same|].
      rewrite Hkp. eapply signed_has_sig; [exact Hs|left].
  - exists tx. split; [apply bind_Ok; by exists q|]. rewrite Hid. by destruct Hsame as [-> _].
Qed.
End spends.

(** * From the proposal to the broadcasts *)

Section lifecycle.
Context `{Laws : BitcoinLaws, !KeyLib, !KeyLaws, !BdkLib, !TxidText, CL : CryptoLaws,
          Json VaultConfig, !JsonLaws VaultConfig, !Json DeviceFile, Json PublicDeviceFile,
          Json BatchManifest, !JsonLaws BatchManifest, Json Schedule, !JsonLaws Schedule,
          Json PolicyPackage, JsonVec PolicyPackage, Json EncryptedTransaction,
          !JsonLaws EncryptedTransaction, Json EncryptedEmergencyTransaction,
          !JsonLaws EncryptedEmergencyTransaction, Json EncryptedBlob,
          Json Transaction, Json bool}.
Context {B : Type} `{!Blockchain B} `{Names : !TxidTextLaws} {Hot : Type} `{!HotAddressProvider Hot}.
Implicit Types (w : World B) (f : FS) (d : Path) (P : Proposal) (m : BatchManifest).

(** A vault whose two devices have their keys, with libraries that behave as
    documented for its policies. *)
Record working_vault (config : VaultConfig) (policy : VaultPolicy) (controller : ControllerPolicy)
    (phone hww : DeviceKeys) : Prop := {
  wv_policy : (n ← bitcoin_network config; from_descriptor_for_network (vault_descriptor config) n)
              = Ok policy;
  wv_controller : controller_policy config = Ok controller;
  wv_phone : vault_pubkey phone = x_only_public_key (vault_keypair phone);
  wv_hww : key_to_string (vault_pubkey hww) = hww_vault_pubkey config;
  wv_records : records_cosigner policy (vault_pubkey hww);
  wv_finalises : finalises policy controller (vault_pubkey phone) (vault_pubkey hww);
  wv_finishes : finishes policy controller (vault_pubkey phone) (vault_pubkey hww);
  wv_manifest : ∀ x : BatchManifest, is_Some (to_vec_pretty x);
  wv_total : total_libraries;
}.

(** ** The workspace *)

Lemma aside_env f f' d A : same_env f f' → aside f d A → aside f' d A.
Proof using. intros He Ha l Hl. rewrite !(resolve_env _ _ _ He). by apply Ha. Qed.

Lemma workspace_far f d A s t :
  aside f d A → safe s → ¬ near (epoch_key f d t) (resolve f (join A s)).
Proof using.
  intros Ha Hs Hn. rewrite resolve_safe in Hn by done. apply near_sym, near_app in Hn.
  apply (aside_epoch f d A t [] Ha). by rewrite app_nil_r.
Qed.

(** ** The rollover *)

Lemma rollover_finalises P config m policy controller hww F dir f A :
  finishes policy controller (x_only_public_key (vault_keypair (p_phone P))) (vault_pubkey hww) →
  p_policy P = policy → p_controller P = controller →
  validate_batch config m f A = Ok policy → both_signed P hww m F dir f A (rollover m) →
  ∃ p q tx, read_psbt F (join dir (psbt_file (rollover m))) = Ok p ∧
    read_psbt f (join A (psbt_file (rollover m))) = Ok q ∧ finalize_vault_psbt q = Ok tx ∧
    compute_txid tx = compute_txid (unsigned_tx p).
Proof using Laws.
  intros Hfin <- <- (c & q0 & vo & co & delay & Hb)%validate_batch_Ok
    (p & q & Hp & Hq & Hsame & Hd & [(leaf & Hl & Hps) (dd & Hdd & Hdesc) _] & (leaf' & Hl' & Hhs) & Hcon).
  rewrite Hl in Hl'. injection Hl' as <-. destruct (Hcon eq_refl) as [(cl & Hcl & Hcs) (cd & Hcd & Hcdesc)].
  pose proof (ab_read _ _ _ _ _ _ _ _ _ _ Hb) as Hq0. rewrite Hq in Hq0. injection Hq0 as <-.
  pose proof (ro_partition _ _ _ _ _ _ (ab_rollover _ _ _ _ _ _ _ _ _ _ Hb)) as Hpart.
  pose proof (read_psbt_wf _ _ _ Hq) as [Hlen _].
  destruct (finalize_ready _ _ _ _ Hfin q Hd) as (tx & Htx & Hid).
  { intros i Hi. assert (i ∈ rollover_vault_indexes m ++ rollover_controller_indexes m) as Hin.
    { rewrite Hpart. apply elem_of_seq. lia. }
    rewrite Forall_forall in Hps, Hdesc, Hhs, Hcs, Hcdesc.
    apply elem_of_app in Hin as [Hv|Hc]; [left|right].
    - exists dd, leaf. split_and!; auto.
    - exists cd, cl. split_and!; auto. }
  exists p, q, tx. split_and!; [done..|]. rewrite Hid. by destruct Hsame as [-> _].
Qed.

(** ** The children of the rollover *)

Lemma accepted_children config m f dir policy controller delay l : ∀ i e,
  accepted_chain config m f dir policy controller delay i l e → ∀ a, a ∈ l →
  ∃ o v c p, read_psbt f (join dir (psbt_file (authorization a))) = Ok p ∧
    child_of p v o c (controller_script_of controller) (authorization a).
Proof using Laws.
  induction l as [|a0 l IH]; [by intros i e _ a ?%not_elem_of_nil|].
  intros i e (o & v & c & p & _ & Hs & Hc) a [->|Ha]%elem_of_cons; [|by eapply IH].
  exists o, v, (connector_outpoint c), p. split; apply Hs.
Qed.

(** A child of the rollover that both devices have approved: the phone's key
    completes what it proposed. *)
Lemma approved_child P m policy controller cl hww F dir f A (x : BatchTransaction) q v o c :
  finishes policy controller (x_only_public_key (vault_keypair (p_phone P))) (vault_pubkey hww) →
  p_policy P = policy → p_controller P = controller → controller_leaf controller PhonePath = Ok cl →
  both_signed P hww m F dir f A x → read_psbt f (join A (psbt_file x)) = Ok q →
  child_of q v o c (controller_script_of controller) x →
  ∃ p tx, read_psbt F (join dir (psbt_file x)) = Ok p ∧
    phone_completes controller (p_phone P) q = Ok tx ∧ compute_txid tx = compute_txid (unsigned_tx p).
Proof using Laws.
  intros Hfin <- <- Hcl
    (p & q' & Hp & Hq' & Hsame & Hd & [(leaf & Hl & Hps) (dd & Hdd & Hdesc) (cd & Hcd & Hcdesc)]
     & (leaf' & Hl' & Hhs) & _) Hq Hch.
  rewrite Hl in Hl'. injection Hl' as <-. rewrite Hq in Hq'. injection Hq' as <-.
  pose proof (child_indexes _ _ _ _ _ _ Hch) as [Hvi Hci].
  rewrite Hvi in Hps, Hdesc, Hhs. rewrite Hci in Hcdesc. cbn in Hps, Hdesc, Hhs, Hcdesc.
  rewrite Forall_singleton in Hps, Hdesc, Hhs, Hcdesc.
  destruct (child_completes _ _ _ _ Hfin q v o c x (vault_keypair (p_phone P)) dd leaf cd cl)
    as (tx & Htx & Hid); [done..|].
  exists p, tx. split_and!; [done..|]. rewrite Hid. by destruct Hsame as [-> _].
Qed.

(** ** The approved batch on the phone *)

(** The phone's disk [f] with the workspace [A], where the batch proposed in
    [dir] of [F] is unpacked as both devices have signed it. *)
Record approved_on_phone config policy controller phone hww m F dir A d f P : Prop := {
  ap_disk : phone_disk f d;
  ap_aside : aside f d A;
  ap_config : load_config f d = Ok config;
  ap_keys : load_device_keys f d PHONE_DEVICE_FILE = Ok phone;
  ap_manifest : load_manifest f A = Ok (set_hww_approved m);
  ap_valid : validate_approved_batch config (set_hww_approved m) f A = Ok policy;
  ap_proposal : p_policy P = policy ∧ p_controller P = controller ∧ p_phone P = phone;
  ap_safe : ∀ s, s ∈ "manifest.json"%string :: batch_names m → safe s;
  ap_signed : ∀ t, t ∈ manifest_transactions m → both_signed P hww m F dir f A t;
}.

Lemma unpacked_disk pkg m f f' d A :
  phone_disk f d → aside f d A → resolve f A ≠ [] → package_manifest pkg = set_hww_approved m →
  fits (batch_names m) → room (resolve f' A) (batch_names m) f' →
  load_manifest f' A = Ok (set_hww_approved m) → unpacked pkg A f f' →
  touched [resolve f A] f f' ∧ phone_disk f' d.
Proof using.
  intros Hd Has Hne Hpm Hfits Hroom Hman Hun.
  assert (touched [resolve f A] f f') as Ht.
  { apply (unpacked_touches pkg); [done| |done]. rewrite Hpm. intros n Hn.
    apply (fits_names _ _ Hfits). by right. }
  split; [done|]. apply (phone_disk_beside f f' d A); [done..|apply Hroom|].
  rewrite <-(touched_resolve _ _ _ _ Ht). unfold load_manifest, read_json in Hman.
  apply bind_Ok in Hman as (text & [_ Hfile]%read_Ok & _).
  rewrite resolve_safe, names_manifest in Hfile by done. unfold file_at in Hfile.
  destruct (node_at f' (resolve f' A ++ ["manifest.json"])) eqn:Hnode; [|done].
  by apply (rm_tree _ _ _ Hroom) in Hnode.
Qed.

Lemma approved_rollover config policy controller phone hww m F dir A d f P :
  working_vault config policy controller phone hww →
  approved_on_phone config policy controller phone hww m F dir A d f P →
  ∃ p q tx, read_psbt F (join dir (psbt_file (rollover m))) = Ok p ∧
    read_psbt f (join A (psbt_file (rollover m))) = Ok q ∧ finalize_vault_psbt q = Ok tx ∧
    compute_txid tx = compute_txid (unsigned_tx p).
Proof using Laws.
  intros Hv [_ _ _ _ _ Hval (HpolP & HctlP & HphP) _ Hall].
  pose proof (proj1 (validate_approved_batch_Ok _ _ _ _ _) Hval) as (_ & _ & Hvalid & _).
  eapply (rollover_finalises P config (set_hww_approved m)); [|exact HpolP|exact HctlP|exact Hvalid|].
  - rewrite HphP, <-(wv_phone _ _ _ _ _ Hv). apply Hv.
  - apply Hall. left.
Qed.

Lemma approved_leaf config policy controller phone hww m F dir A d f P :
  approved_on_phone config policy controller phone hww m F dir A d f P →
  ∃ cl, controller_leaf controller PhonePath = Ok cl.
Proof using.
  intros [_ _ _ _ _ _ (_ & HctlP & _) _ Hall].
  destruct (Hall (rollover m)) as (p & q & _ & _ & _ & _ & _ & _ & Hcon); [left|].
  destruct (Hcon eq_refl) as [(cl & Hcl & _) _]. exists cl. by rewrite <-HctlP.
Qed.

Lemma approved_chain config policy m f A controller a :
  validate_approved_batch config m f A = Ok policy → controller_policy config = Ok controller →
  a ∈ allowances m →
  ∃ o v c q, read_psbt f (join A (psbt_file (authorization a))) = Ok q ∧
    child_of q v o c (controller_script_of controller) (authorization a).
Proof using Laws.
  intros (_ & _ & Hvalid & _)%validate_approved_batch_Ok Hctl Ha.
  apply validate_batch_Ok in Hvalid as (c & p & vo & co & delay & Hb).
  pose proof (ab_controller _ _ _ _ _ _ _ _ _ _ Hb) as Hctl'. rewrite Hctl in Hctl'. injection Hctl' as <-.
  apply (accepted_children _ _ _ _ _ _ _ _ _ _ (ab_chain _ _ _ _ _ _ _ _ _ _ Hb) a Ha).
Qed.

(** It is activated when the network takes its rollover. *)
Lemma approved_activates config policy controller phone hww m F dir A d w P previous c q tx :
  working_vault config policy controller phone hww →
  approved_on_phone config policy controller phone hww m F dir A d (w_fs w) P →
  bitcoin_network config = Ok (backend_network (w_chain w)) →
  previous_epoch_of (w_fs w) d = Ok previous →
  read_psbt (w_fs w) (join A (psbt_file (rollover m))) = Ok q → finalize_vault_psbt q = Ok tx →
  superseded (w_fs w) d (compute_txid tx) previous = false →
  broadcast tx (w_chain w) = (Ok (compute_txid tx), c) →
  ∃ schedule w1, activate_policy d A w = (Ok schedule, w1).
Proof using Laws CL Names.
  intros Hv [Hdisk Has Hcfg Hkeys Hman Hval _ Hsafe _] Hnet Hprev Hq Htx Hsup Hbr.
  eapply (activation_run (wv_total _ _ _ _ _ Hv)); try done.
  intros s Hs t. apply workspace_far; [done|by apply Hsafe].
Qed.

(** A step of the phone that hands the backend a proposed transaction,
    completed, and answers as the backend does (unless this names another
    transaction). *)
Definition sends F dir (x : BatchTransaction) (act : M (World B) Txid) w : Prop :=
  ∃ p tx, read_psbt F (join dir (psbt_file x)) = Ok p ∧
    compute_txid tx = compute_txid (unsigned_tx p) ∧
    ∀ r c, broadcast tx (w_chain w) = (r, c) → (∀ t, r = Ok t → t = compute_txid tx) →
      act w = (r, Build_World (w_fs w) (w_rng w) (w_db w) c).

(** Once it is activated, any of its authorizations is broadcast. *)
Lemma approved_broadcasts config policy controller phone hww m F dir A d w P schedule w1 a w2 :
  working_vault config policy controller phone hww →
  approved_on_phone config policy controller phone hww m F dir A d (w_fs w) P →
  activate_policy d A w = (Ok schedule, w1) → a ∈ allowances m → w_fs w2 = w_fs w1 →
  backend_network (w_chain w2) = backend_network (w_chain w) →
  sends F dir (authorization a) (broadcast_monthly d (step a) Authorization) w2.
Proof using Type*.
  intros Hv Hap Hrun Ha Hfs2 Hnet2. pose proof (approved_leaf _ _ _ _ _ _ _ _ _ _ _ _ Hap) as [cl Hcl].
  destruct Hap as [Hdisk Has Hcfg Hkeys Hman Hval (HpolP & HctlP & HphP) Hsafe Hall].
  assert (∀ a', a' ∈ allowances m → authorization a' ∈ manifest_transactions m) as Hin.
  { intros a' Ha'. right. apply elem_of_app. left. by apply list_elem_of_fmap_2. }
  destruct (allowance_broadcast_run d A w schedule w1 (set_hww_approved m) phone a w2)
    as (q & controller2 & before & config2 & Hq & Hbef & Hctl2 & _ & _ & Hbc); [|done..| |done|done|done|done|].
  { apply no_fault_reads, Hdisk. }
  { intros t. apply Forall_forall. intros a' Ha'. apply workspace_far; [done|].
    apply Hsafe. right. by apply (list_elem_of_fmap_2 psbt_file), Hin. }
  rewrite Hcfg in Hbef. injection Hbef as <-. rewrite (wv_controller _ _ _ _ _ Hv) in Hctl2.
  injection Hctl2 as <-.
  destruct (approved_chain config policy (set_hww_approved m) (w_fs w) A controller a)
    as (o & v & c & q' & Hq' & Hch); [done|apply Hv|done|].
  rewrite Hq in Hq'. injection Hq' as <-.
  destruct (approved_child P m policy controller cl hww F dir (w_fs w) A (authorization a) q v o c)
    as (p & tx & Hp & Hc & Hid); [|done|done|done|by apply Hall, Hin|done|done|].
  { rewrite HphP, <-(wv_phone _ _ _ _ _ Hv). apply Hv. }
  exists p, tx. split; [done|]. split; [done|]. intros r ch Hbr _.
  rewrite Hbc, <-HphP, Hc. unfold mbind, M_bind, pure, at_chain. by rewrite Hbr.
Qed.

(** So are the trigger and the withdrawal of its emergency path. *)
Lemma approved_emergency config policy controller phone hww m F dir A d w P schedule w1 e kind w2 :
  working_vault config policy controller phone hww →
  approved_on_phone config policy controller phone hww m F dir A d (w_fs w) P →
  activate_policy d A w = (Ok schedule, w1) → emergency_access m = Some e → presigned kind →
  w_fs w2 = w_fs w1 → backend_network (w_chain w2) = backend_network (w_chain w) →
  sends F dir (emergency_transaction e kind) (broadcast_emergency kind d) w2.
Proof using Type*.
  intros Hv Hap Hrun He Hk Hfs2 Hnet2. pose proof (approved_leaf _ _ _ _ _ _ _ _ _ _ _ _ Hap) as [cl Hcl].
  destruct Hap as [Hdisk Has Hcfg Hkeys Hman Hval (HpolP & HctlP & HphP) Hsafe Hall].
  assert (trigger e ∈ manifest_transactions m ∧ withdrawal e ∈ manifest_transactions m) as [Ht Hw].
  { unfold manifest_transactions. rewrite He.
    split; right; apply elem_of_app; right; [left|right; left]. }
  assert (∀ x, x ∈ manifest_transactions m → ∀ t, away (w_fs w) d t A x) as Haway.
  { intros x Hx t. apply workspace_far; [done|]. apply Hsafe. right. by apply (list_elem_of_fmap_2 psbt_file). }
  destruct (emergency_broadcast_run d A w schedule w1 (set_hww_approved m) phone e kind w2)
    as (q & controller2 & before & Hq & Hbef & Hctl2 & Hbc); [|done..| |done|done|done|done|].
  { apply no_fault_reads, Hdisk. }
  { intros t. split; by apply Haway. }
  rewrite Hcfg in Hbef. injection Hbef as <-. rewrite (wv_controller _ _ _ _ _ Hv) in Hctl2.
  injection Hctl2 as <-.
  pose proof (proj1 (validate_approved_batch_Ok _ _ _ _ _) Hval) as (_ & _ & Hvalid & _).
  destruct (batch_emergency config (set_hww_approved m) (w_fs w) A policy e kind)
    as (controller2 & v & o & c & q' & Hctl2 & Hq' & Hch & _); [done..|].
  rewrite (wv_controller _ _ _ _ _ Hv) in Hctl2. injection Hctl2 as <-.
  rewrite Hq in Hq'. injection Hq' as <-.
  destruct (approved_child P m policy controller cl hww F dir (w_fs w) A (emergency_transaction e kind) q v o c)
    as (p & tx & Hp & Hc & Hid); [|done|done|done|by apply Hall; destruct kind|done|done|].
  { rewrite HphP, <-(wv_phone _ _ _ _ _ Hv). apply Hv. }
  exists p, tx. split; [done|]. split; [done|]. intros r ch Hbr Hr.
  rewrite Hbc, <-HphP, Hc. unfold mbind, M_bind, pure, at_chain. rewrite Hbr.
  destruct r as [t|msg|]; [|done|done]. rewrite (Hr t eq_refl).
  assert (compute_txid (unsigned_tx q) = compute_txid tx) as ->.
  { destruct (Hall (emergency_transaction e kind)) as (p' & q' & Hp' & Hq' & [Htx _] & _); [by destruct kind|].
    rewrite Hp in Hp'. injection Hp' as <-. rewrite Hq in Hq'. injection Hq' as <-. by rewrite Hid, Htx. }
  by rewrite bool_decide_eq_true_2.
Qed.

(** The phone's world with another disk. *)
Definition with_disk f w : World B := Build_World f (w_rng w) (w_db w) (w_chain w).

(** What the ceremony leaves on the phone. *)
Lemma ceremony_leaves config policy controller phone hww
    us cs now limits dir f (h : Hot) m F h' data G R f0 d A :
  working_vault config policy controller phone hww →
  no_read_fault f → hot_on_network config → (N.of_nat (length us + length cs) < 4294967296)%N →
  build_policy_proposal_with_connectors config us cs now limits dir phone (f, h) = (Ok m, (F, h')) →
  usable G R → load_device_keys G data HWW_DEVICE_FILE = Ok hww →
  ¬ resolve G R `prefix_of` resolve G (join data HWW_DEVICE_FILE) →
  phone_disk f0 d → load_config f0 d = Ok config →
  load_device_keys f0 d PHONE_DEVICE_FILE = Ok phone →
  aside f0 d A → clear f0 (resolve f0 A) → resolve f0 A ≠ [] →
  ∃ pkg pkg' G2 G3 f2 P,
    package_from_batch F dir = Ok pkg ∧ unpacked pkg R G G2 ∧
    approve_policy_for_config data config R G2 = (Ok (set_hww_approved m), G3) ∧
    package_from_batch G3 R = Ok pkg' ∧ unpacked pkg' A f0 f2 ∧ touched [resolve f0 A] f0 f2 ∧
    approved_on_phone config policy controller phone hww m F dir A d f2 P.
Proof using Type*.
  intros [Hpol Hctl Hph Hhw Hrec Hfl Hfin Hjson Total] Hnf Hhot Hlen Hb Hus Hdev Hout Hdisk Hcfg Hkeys
    Has Hclear Hne.
  destruct (ceremony_run config policy controller phone hww Hpol Hctl Hph Hhw Hrec Hfl Hjson
    us cs now limits dir f h m F h' data G R f0 A) as (P & pkg & pkg' & G2 & G3 & f2 & Hpkg & Hun
    & Happ & Hpkg' & Hun2 & Hman & Hval & Hpm & Hho & Hfits & Henv & Hroom & Hboth); [done..| |].
  { split; [apply Hdisk|]. split; [apply Hdisk|done]. }
  destruct (unpacked_disk pkg' m f0 f2 d A) as [Ht Hdisk2]; [done..|].
  exists pkg, pkg', G2, G3, f2, P. do 6 (split; [done|]). split; [done|by eapply aside_env| | |done|done| | |].
  - rewrite <-Hcfg. by apply (beside_config _ _ _ _ Has).
  - rewrite <-Hkeys. by apply (beside_keys _ _ _ _ Has).
  - destruct (handed_over_policies config policy controller phone Hpol Hctl m F dir P Hho).
    by destruct (ho_phone _ _ _ _ _ _ Hho).
  - intros s [->|Hs]%elem_of_cons; [apply safe_manifest|]. pose proof (fit_safe _ Hfits) as Hall.
    rewrite Forall_forall in Hall. by apply Hall.
  - by rewrite Forall_forall in Hboth.
Qed.

End lifecycle.
