(* ===== verification/ToyPhone.v ===== *)
(** A concrete phone: a wallet that reveals numbered addresses, a backend
    that takes every transaction, and the hardware wallet's approved batch of
    [ColdWalletWitness] put on its disk and activated. *)

From S2P Require Import Prelude Bitcoin Toy Types Keys Policy Transactions FileSystem Storage Crypto Social SocialFacts Ceremony CeremonyValidate CeremonyBuild ToyCeremony Recovery RecoveryFacts ColdWallet ColdWalletWitness HotWallet Phone PhonePaths.
From Stdlib Require Import Ascii.

(** * Transaction ids in decimal *)

Definition digit_value (c : ascii) : N := (N_of_ascii c - 48)%N.
Fixpoint parse_decimal (acc : N) (s : string) : N :=
  match s with
  | EmptyString => acc
  | String c s' => parse_decimal (10 * acc + digit_value c) s'
  end.

Lemma digit_value_char x : (x < 10)%N → digit_value (pretty_N_char x) = x.
Proof.
  intros Hx.
  assert (Forall (λ x, digit_value (pretty_N_char x) = x) (N.of_nat <$> seq 0 10)) as Hall
    by repeat constructor.
  rewrite Forall_forall in Hall. apply Hall. apply list_elem_of_fmap.
  exists (N.to_nat x). rewrite N2Nat.id, elem_of_seq. split; [done|lia].
Qed.

Lemma parse_pretty_go x : ∀ s, parse_decimal 0 (pretty_N_go x s) = parse_decimal x s.
Proof.
  induction (N.lt_wf_0 x) as [x _ IH]; intros s.
  destruct (decide (0 < x)%N) as [Hx|Hx].
  - rewrite pretty_N_go_step, IH by (done || by apply N.div_lt). simpl.
    rewrite digit_value_char by (by apply N.mod_lt). f_equal.
    rewrite (N.div_mod x 10) at 3 by done. lia.
  - assert (x = 0%N) as -> by lia. done.
Qed.

Lemma parse_pretty (n : N) : parse_decimal 0 (pretty n) = n.
Proof.
  unfold pretty, pretty_N. case_decide; [by subst|]. apply (parse_pretty_go n EmptyString).
Qed.

#[export] Instance toy_txid_text : TxidText := {
  txid_from_str s := Some (parse_decimal 0 s : Txid);
}.
#[export] Instance toy_txid_laws : TxidTextLaws.
Proof.
  split; intros t; cbn.
  - by rewrite parse_pretty.
  - split; [apply pretty_slash_free|]. set (s := (pretty (t : N) : string)).
    pose proof (parse_pretty t) as Hp.
    assert (parse_decimal 0 s = t) as Hs by done.
    split_and!; intros Heq.
    + assert (s = pretty t) as Hst by done. rewrite Heq in Hst.
      assert (t = 0%N) as -> by (by rewrite <-Hs, Heq). discriminate Hst.
    + rewrite Heq in Hs. simpl in Hs. vm_compute in Hs. subst t. discriminate Heq.
    + rewrite Heq in Hs. vm_compute in Hs. subst t. discriminate Heq.
Qed.

(** * Encodings of the phone's files *)

Definition kind_code (k : TransactionKind) : bool := match k with Authorization => true | _ => false end.
Definition of_kind_code (b : bool) : TransactionKind := if b then Authorization else Revocation.
#[export] Instance ser_TransactionKind : Toy.Ser TransactionKind.
Proof. refine (Toy.ser_inj kind_code of_kind_code _). by intros []. Defined.
Definition emergency_kind_code (k : EmergencyTransactionKind) : N :=
  match k with Trigger => 0 | Withdrawal => 1 | Cancellation => 2 end.
Definition of_emergency_kind_code (n : N) : EmergencyTransactionKind :=
  match n with 0%N => Trigger | 1%N => Withdrawal | _ => Cancellation end.
#[export] Instance ser_EmergencyTransactionKind : Toy.Ser EmergencyTransactionKind.
Proof. refine (Toy.ser_inj emergency_kind_code of_emergency_kind_code _). by intros []. Defined.
#[export] Instance ser_EncryptedTransaction : Toy.Ser EncryptedTransaction.
Proof.
  refine (Toy.ser_inj (B:=N * N * TransactionKind * string * EncryptedBlob)
    (λ a, (artifact_version a, artifact_step a, artifact_kind a, artifact_txid a, encrypted_psbt a))
    (λ '(a, b, c, d, e), Build_EncryptedTransaction a b c d e) _).
  by intros [].
Defined.
#[export] Instance ser_EncryptedEmergencyTransaction : Toy.Ser EncryptedEmergencyTransaction.
Proof.
  refine (Toy.ser_inj (B:=N * EmergencyTransactionKind * string * EncryptedBlob)
    (λ a, (emergency_artifact_version a, emergency_artifact_kind a, emergency_artifact_txid a,
           emergency_encrypted_psbt a))
    (λ '(a, b, c, d), Build_EncryptedEmergencyTransaction a b c d) _).
  by intros [].
Defined.
#[export] Instance ser_ScheduleEntry : Toy.Ser ScheduleEntry.
Proof.
  refine (Toy.ser_inj (B:=N * string * string * string * ConnectorState * option ConnectorState)
    (λ e, (entry_step e, entry_hot_address e, entry_authorization_file e,
           entry_authorization_txid e, entry_connector e, entry_next_connector e))
    (λ '(a, b, c, d, e, f), {| entry_step := a; entry_hot_address := b;
       entry_authorization_file := c; entry_authorization_txid := d; entry_connector := e;
       entry_next_connector := f |}) _).
  by intros [].
Defined.
#[export] Instance ser_EmergencyAccessSchedule : Toy.Ser EmergencyAccessSchedule.
Proof.
  refine (Toy.ser_inj (B:=N * N * string * string * string * string * string * ConnectorState
      * ConnectorState)
    (λ e, (es_amount_sats e, es_delay_seconds e, es_hot_address e, es_trigger_file e,
           es_trigger_txid e, es_withdrawal_file e, es_withdrawal_txid e, es_trigger_connector e,
           es_withdrawal_connector e))
    (λ '(a, b, c, d, e, f, g, h, i), {| es_amount_sats := a; es_delay_seconds := b;
       es_hot_address := c; es_trigger_file := d; es_trigger_txid := e; es_withdrawal_file := f;
       es_withdrawal_txid := g; es_trigger_connector := h; es_withdrawal_connector := i |}) _).
  by intros [].
Defined.
#[export] Instance ser_Schedule : Toy.Ser Schedule.
Proof.
  refine (Toy.ser_inj (B:=N * string * string * string * N * N * N * N * list ScheduleEntry
      * option EmergencyAccessSchedule)
    (λ s, (schedule_version s, schedule_rollover_txid s, schedule_controller_descriptor s,
           schedule_controller_address s, schedule_connector_value_sats s,
           schedule_monthly_limit_sats s, schedule_monthly_delay_seconds s,
           schedule_emergency_access_limit_sats s, schedule_entries s,
           schedule_emergency_access s))
    (λ '(a, b, c, d, e, f, g, h, i, j), {| schedule_version := a; schedule_rollover_txid := b;
       schedule_controller_descriptor := c; schedule_controller_address := d;
       schedule_connector_value_sats := e; schedule_monthly_limit_sats := f;
       schedule_monthly_delay_seconds := g; schedule_emergency_access_limit_sats := h;
       schedule_entries := i; schedule_emergency_access := j |}) _).
  by intros [].
Defined.
#[export] Instance ser_PolicyPackage : Toy.Ser PolicyPackage.
Proof.
  refine (Toy.ser_inj (B:=N * string * BatchManifest * gmap string string)
    (λ p, (package_version p, package_kind p, package_manifest p, psbts p))
    (λ '(a, b, c, d), {| package_version := a; package_kind := b; package_manifest := c;
       psbts := d |}) _).
  by intros [].
Defined.

(** * The wallet and the network *)

(** The database counts the revealed addresses. *)
#[export] Instance toy_bdk : BdkLib := {|
  Db := N;
  BdkWallet := N;
  connection_open _ := Some ();
  load_wallet _ _ _ := λ d, (Ok (Some d), d);
  create_wallet _ _ _ := λ d, (Ok d, d);
  persist w := λ _, (Ok w, w);
  reveal_next_address _ w := ("r-hot-" +:+ pretty w : Address, (w + 1)%N);
  get_utxo _ _ := false;
  balance _ := (0, 0)%N;
  calculate_fee _ _ := None;
  can_add_utxo _ _ := false;
  finish _ := λ w, (Err "no funds", w);
  wallet_sign _ p := Some (p, true);
  create_marker_table := λ d, (Ok tt, d);
  discovered _ := Some false;
  set_discovered := λ d, (Ok tt, d);
  clear_discovered := λ d, (Ok tt, d);
|}.

(** The transactions that the backend has taken, the latest first. *)
#[export] Instance toy_chain : Blockchain (list Transaction) := {|
  backend_network _ := Regtest;
  chain_tip := λ b, (Err "no tip", b);
  scan_vault _ := λ b, (Ok [], b);
  scan_connectors _ := λ b, (Ok [], b);
  broadcast tx := λ b, (Ok (compute_txid tx), tx :: b);
  sync_hot_wallet := λ s, (Ok tt, s);
|}.

(** * An activation *)

Definition toy_world (f : FS) : World (list Transaction) := Build_World f 5%N 0%N [].
Definition toy_activation : result Schedule * World (list Transaction) := Eval vm_compute in
  activate_policy toy_dir toy_batch_dir (toy_world toy_approved_fs).
