(* ===== verification/PhoneWitness.v ===== *)
(** The phone's theorems at the concrete phone of [ToyPhone]. *)

From S2P Require Import Prelude Bitcoin Toy Types Keys Policy Transactions FileSystem FsProgress Storage Crypto Social SocialFacts Ceremony CeremonyValidate CeremonyBuild ToyCeremony CeremonyTransport Recovery RecoveryFacts ColdWallet ColdWalletWitness HotWallet Phone PhonePaths PhoneActivation PhoneHistory PhoneBroadcast PhoneArtifacts PhoneRoundTrip PhoneComplete ToyPhone.

Definition toy_schedule : Schedule :=
  ltac:(let r := eval cbv delta [toy_activation] in toy_activation in
        match r with (Ok ?s, _) => exact s end).
Definition toy_active : World (list Transaction) :=
  ltac:(let r := eval cbv delta [toy_activation] in toy_activation in
        match r with (_, ?w) => exact w end).

Lemma toy_activates :
  activate_policy toy_dir toy_batch_dir (toy_world toy_approved_fs) = (Ok toy_schedule, toy_active).
Proof. vm_cast_no_check (eq_refl toy_activation). Qed.

Lemma toy_disk_reads : no_read_fault (w_fs (toy_world toy_approved_fs)).
Proof. intros k. discriminate. Qed.

Lemma activation_waits_for_network_witness :
  activate_policy toy_dir toy_batch_dir (toy_world toy_approved_fs) = (Ok toy_schedule, toy_active) ∧
  ∃ c' m tx schedule previous w1, accepted_rollover toy_dir toy_batch_dir (toy_world toy_approved_fs)
    c' m tx schedule previous w1.
Proof.
  split; [exact toy_activates|].
  destruct (activation_waits_for_network _ _ _ _ _ toy_activates) as [Ha|[Hno _]]; [exact Ha|].
  destruct (Hno toy_schedule eq_refl).
Defined.

(** A disk whose active schedule is of another epoch. *)
Definition toy_old_schedule : Schedule :=
  {| schedule_version := 5; schedule_rollover_txid := "7"; schedule_controller_descriptor := "";
     schedule_controller_address := ""; schedule_connector_value_sats := 1000;
     schedule_monthly_limit_sats := 0; schedule_monthly_delay_seconds := 0;
     schedule_emergency_access_limit_sats := 0; schedule_entries := [];
     schedule_emergency_access := None |}.
Definition toy_renewing_fs : FS := Eval vm_compute in
  set_nodes (<[["data"; "phone"; "schedule.json"] := File (Toy.to_text toy_old_schedule)]>
               (nodes toy_approved_fs)) toy_approved_fs.
Definition toy_renewal : result Schedule * World (list Transaction) := Eval vm_compute in
  activate_policy toy_dir toy_batch_dir (toy_world toy_renewing_fs).
Definition toy_renewed : World (list Transaction) :=
  ltac:(let r := eval cbv delta [toy_renewal] in toy_renewal in
        match r with (_, ?w) => exact w end).

(** A first activation replaces the old epoch; a second one of the same batch
    leaves it replaced. *)
Definition toy_epochs : Epochs := ((7%N : Txid), ∅).
Definition toy_again : result Schedule * World (list Transaction) := Eval vm_compute in
  activate_policy toy_dir toy_batch_dir toy_renewed.
Definition toy_repeated : World (list Transaction) :=
  ltac:(let r := eval cbv delta [toy_again] in toy_again in
        match r with (_, ?w) => exact w end).

Definition toy_now : result (option Txid) := Eval vm_compute in
  previous_epoch_of (w_fs toy_repeated) toy_dir.
Lemma toy_now_renewed : previous_epoch_of (w_fs toy_repeated) toy_dir
  = Ok (Some (default toy_epochs.1 (match toy_now with Ok t => t | _ => None end))).
Proof. vm_compute. reflexivity. Qed.

Lemma epochs_never_return_witness :
  in_epochs toy_dir toy_renewing_fs toy_epochs ∧
  rtc (phone_step toy_dir) (toy_world toy_renewing_fs) toy_repeated ∧
  ∃ y, in_epochs toy_dir (w_fs toy_repeated) y ∧ y.1 ≠ toy_epochs.1 ∧ toy_epochs.1 ∈ y.2.
Proof.
  assert (in_epochs toy_dir toy_renewing_fs toy_epochs) as Hold.
  { apply recorded_epochs. exists (Toy.to_text toy_old_schedule), toy_old_schedule.
    split_and!; vm_compute; reflexivity. }
  assert (activate_policy toy_dir toy_batch_dir (toy_world toy_renewing_fs)
    = (Ok toy_schedule, toy_renewed)) as Ha by (vm_cast_no_check (eq_refl toy_renewal)).
  assert (activate_policy toy_dir toy_batch_dir toy_renewed = (fst toy_again, toy_repeated)) as Hb
    by (vm_cast_no_check (eq_refl toy_again)).
  assert (rtc (phone_step toy_dir) (toy_world toy_renewing_fs) toy_repeated) as Hrun.
  { eapply rtc_l; [eapply attempt; exact Ha|]. eapply rtc_once, attempt; exact Hb. }
  split; [exact Hold|]. split; [exact Hrun|].
  destruct (epochs_never_return toy_dir (toy_world toy_renewing_fs) toy_repeated toy_epochs
    Hold Hrun) as (y & _ & Hy & _ & [Heq|Hin] & _).
  - exfalso. pose proof (recorded_previous _ _ _ _ (ie_current _ _ _ Hy) toy_now_renewed) as Hnow.
    rewrite Heq in Hnow. discriminate.
  - exists y. split; [exact Hy|]. split; [|exact Hin].
    intros Heq. apply (ie_other _ _ _ Hy). rewrite Heq. exact Hin.
Defined.

(** * A broadcast *)

Definition toy_broadcast : result Txid * World (list Transaction) := Eval vm_compute in
  broadcast_monthly toy_dir 1 Authorization toy_active.
Definition toy_sent_txid : Txid :=
  ltac:(let r := eval cbv delta [toy_broadcast] in toy_broadcast in
        match r with (Ok ?t, _) => exact t end).
Definition toy_sent : World (list Transaction) :=
  ltac:(let r := eval cbv delta [toy_broadcast] in toy_broadcast in
        match r with (_, ?w) => exact w end).

Lemma broadcasts_follow_schedule_witness :
  broadcast_monthly toy_dir 1 Authorization toy_active = (Ok toy_sent_txid, toy_sent) ∧
  length (w_chain toy_sent) = 2 ∧
  ∃ schedule e, load_schedule (w_fs toy_active) toy_dir = Ok schedule ∧
    e ∈ schedule_entries schedule ∧ entry_step e = 1%N.
Proof.
  assert (broadcast_monthly toy_dir 1 Authorization toy_active = (Ok toy_sent_txid, toy_sent)) as Hb
    by (vm_cast_no_check (eq_refl toy_broadcast)).
  split; [exact Hb|]. split; [reflexivity|].
  destruct (proj1 (broadcasts_follow_schedule toy_dir toy_active toy_sent_txid toy_sent) 1%N Hb)
    as (schedule & e & Hs & He & Hn & _).
  exists schedule, e. split; [exact Hs|]. split; [exact He|exact Hn].
Defined.

Definition toy_approved_manifest : BatchManifest := ColdWallet.set_hww_approved toy_proposed_manifest.
Definition toy_allowance : AllowanceStep := Eval vm_compute in
  match allowances toy_approved_manifest with a :: _ => a | [] => {|
    step := 0; step_delay_seconds := 0; step_delay_sequence := 0; chain_value_sats := 0;
    step_hot_address := ""; connector := {| connector_outpoint := toy_outpoint 0; value_sats := 0 |};
    next_connector := None; authorization := rollover toy_approved_manifest |} end.

(** The batch is not on the disk of the phone's epochs. *)
Lemma toy_apart t : Forall (apart (w_fs (toy_world toy_approved_fs)) toy_dir t toy_batch_dir)
  (allowances toy_approved_manifest).
Proof.
  assert (allowances toy_approved_manifest = [toy_allowance]) as -> by (vm_compute; reflexivity).
  apply Forall_cons_iff. split; [|constructor]. unfold apart.
  assert (resolve (w_fs (toy_world toy_approved_fs)) (join toy_batch_dir (psbt_file (authorization toy_allowance)))
    = "b" :: drop 1 (resolve (w_fs (toy_world toy_approved_fs)) (join toy_batch_dir (psbt_file (authorization toy_allowance)))))
    as -> by (vm_compute; reflexivity).
  apply (not_near_names [] "data" "b"). discriminate.
Qed.

Lemma toy_approved_loads :
  load_manifest (w_fs (toy_world toy_approved_fs)) toy_batch_dir = Ok toy_approved_manifest.
Proof. vm_cast_no_check (eq_refl (Ok toy_approved_manifest)). Qed.

Lemma activated_allowances_broadcast_witness :
  activate_policy toy_dir toy_batch_dir (toy_world toy_approved_fs) = (Ok toy_schedule, toy_active) ∧
  ∃ p controller, read_psbt toy_approved_fs (join toy_batch_dir (psbt_file (authorization toy_allowance))) = Ok p ∧
    broadcast_monthly toy_dir (step toy_allowance) Authorization toy_active =
      (tx ← pure (phone_completes controller toy_phone_device p); at_chain (broadcast tx)) toy_active.
Proof.
  split; [exact toy_activates|].
  assert (load_device_keys (w_fs (toy_world toy_approved_fs)) toy_dir PHONE_DEVICE_FILE = Ok toy_phone_device) as Hk
    by (vm_cast_no_check (eq_refl (Ok toy_phone_device))).
  assert (toy_allowance ∈ allowances toy_approved_manifest) as Hin
    by (apply list_elem_of_lookup; exists 0%nat; vm_compute; reflexivity).
  assert (network_fixed (B:=list Transaction)) as Hnet by (intros tx c c' r _; reflexivity).
  destruct (activated_allowances_broadcast toy_dir toy_batch_dir _ toy_schedule toy_active
    toy_approved_manifest toy_phone_device toy_allowance Hnet toy_disk_reads toy_approved_loads Hk
    toy_apart toy_activates Hin) as (p & controller & config & Hp & _ & _ & Hb).
  exists p, controller. split; [exact Hp|exact Hb].
Defined.

(** * An activation succeeds *)

Lemma toy_total : total_libraries.
Proof. split; intros; by eexists. Qed.

Lemma toy_phone_disk : phone_disk toy_approved_fs toy_dir.
Proof.
  apply phone_disk_fresh.
  - intros k. reflexivity.
  - apply tree_of_b. vm_compute. reflexivity.
  - apply clear_of_b. vm_compute. reflexivity.
  - vm_compute. reflexivity.
  - vm_compute. discriminate.
Qed.

Lemma toy_batch_apart s t : s ∈ "manifest.json"%string :: batch_names toy_approved_manifest →
  ¬ near (epoch_key toy_approved_fs toy_dir t) (resolve toy_approved_fs (join toy_batch_dir s)).
Proof.
  assert (Forall (λ s, head (resolve toy_approved_fs (join toy_batch_dir s)) = Some "b"%string)
    ("manifest.json"%string :: batch_names toy_approved_manifest)) as Hall
    by (apply (bool_decide_eq_true_1 _); vm_compute; reflexivity).
  intros Hs. rewrite Forall_forall in Hall. specialize (Hall s Hs).
  destruct (resolve toy_approved_fs (join toy_batch_dir s)) as [|x l]; [discriminate|].
  injection Hall as ->. apply (not_near_names [] "data" "b"). discriminate.
Qed.

Definition toy_found {A} (r : result A) (a : A) : A := match r with Ok x => x | _ => a end.
Definition toy_phone_config : VaultConfig := Eval vm_compute in
  toy_found (load_config toy_approved_fs toy_dir) toy_config.
Definition toy_batch_check : result VaultPolicy := Eval vm_compute in
  validate_approved_batch toy_phone_config toy_approved_manifest toy_approved_fs toy_batch_dir.
Definition toy_batch_policy : VaultPolicy :=
  ltac:(let r := eval cbv delta [toy_batch_check] in toy_batch_check in
        match r with Ok ?x => exact x end).
Definition toy_rollover_read : result Psbt := Eval vm_compute in
  read_psbt toy_approved_fs (join toy_batch_dir (psbt_file (rollover toy_approved_manifest))).
Definition toy_rollover_psbt : Psbt :=
  ltac:(let r := eval cbv delta [toy_rollover_read] in toy_rollover_read in
        match r with Ok ?x => exact x end).
Definition toy_rollover_final : result Transaction := Eval vm_compute in
  finalize_vault_psbt toy_rollover_psbt.
Definition toy_rollover_tx : Transaction :=
  ltac:(let r := eval cbv delta [toy_rollover_final] in toy_rollover_final in
        match r with Ok ?x => exact x end).

Lemma activation_completes_witness :
  validate_approved_batch toy_phone_config toy_approved_manifest toy_approved_fs toy_batch_dir
    = Ok toy_batch_policy ∧
  ∃ schedule w', activate_policy toy_dir toy_batch_dir (toy_world toy_approved_fs) = (Ok schedule, w') ∧
    load_schedule (w_fs w') toy_dir = Ok schedule ∧ w_chain w' = [toy_rollover_tx].
Proof.
  assert (load_config toy_approved_fs toy_dir = Ok toy_phone_config) as Hl
    by (vm_cast_no_check (eq_refl (Ok toy_phone_config))).
  assert (bitcoin_network toy_phone_config = Ok (backend_network (B:=list Transaction) [])) as Hnet
    by (vm_compute; reflexivity).
  assert (validate_approved_batch toy_phone_config toy_approved_manifest toy_approved_fs toy_batch_dir
    = Ok toy_batch_policy) as Hval by (vm_cast_no_check (eq_refl toy_batch_check)).
  assert (load_device_keys toy_approved_fs toy_dir PHONE_DEVICE_FILE = Ok toy_phone_device) as Hk
    by (vm_cast_no_check (eq_refl (Ok toy_phone_device))).
  assert (read_psbt toy_approved_fs (join toy_batch_dir (psbt_file (rollover toy_approved_manifest)))
    = Ok toy_rollover_psbt) as Hp by (vm_cast_no_check (eq_refl toy_rollover_read)).
  assert (finalize_vault_psbt toy_rollover_psbt = Ok toy_rollover_tx) as Htx
    by (vm_cast_no_check (eq_refl toy_rollover_final)).
  assert (previous_epoch_of toy_approved_fs toy_dir = Ok None) as Hprev by (vm_compute; reflexivity).
  assert (superseded toy_approved_fs toy_dir (compute_txid toy_rollover_tx) None = false) as Hsup
    by (vm_compute; reflexivity).
  split; [exact Hval|].
  destruct (activation_completes toy_total toy_dir toy_batch_dir (toy_world toy_approved_fs)
    toy_phone_config toy_approved_manifest toy_batch_policy toy_phone_device toy_rollover_psbt
    toy_rollover_tx None [toy_rollover_tx] toy_phone_disk Hl Hnet toy_approved_loads Hval
    (λ s Hs t, toy_batch_apart s t Hs) Hk Hp Htx Hprev Hsup eq_refl)
    as (schedule & w' & Hrun & Hload & _ & Hch).
  exists schedule, w'. split; [exact Hrun|]. split; [exact Hload|exact Hch].
Defined.
