(* ===== verification/LifecycleWitness.v ===== *)
(** The whole life of a policy at a concrete vault: the one initialised in
    [Storage], whose phone works on the disk that the ceremony starts from. *)

From S2P Require Import Prelude Bitcoin Toy Types Keys Policy Transactions Signable FileSystem FsProgress Storage Crypto Social SocialFacts Ceremony CeremonyValidate CeremonySound CeremonyBuild ToyCeremony CeremonyTheorems Recovery RecoveryFacts ColdWallet ColdWalletFacts ColdWalletWitness CeremonyTransport CeremonyWorkspace CeremonyApproval CeremonyComplete CeremonyWitness HotWallet Phone PhonePaths PhoneActivation PhoneBroadcast PhoneArtifacts PhoneRoundTrip PhoneEmergency PhoneComplete PhoneWorkspace Lifecycle ToyPhone PhoneWitness.

(** * The toy library finishes what is ready *)

Lemma toy_records_phone d leaf q i q' y :
  controller_definite_descriptor toy_own_controller = Ok d →
  controller_leaf toy_own_controller PhonePath = Ok leaf →
  update_input_with_descriptor q i d = Some q' → inputs q' !! i = Some y →
  ∃ o, tap_key_origins y !! vault_pubkey toy_phone_device = Some o ∧ cleaf_hash leaf ∈ o.
Proof.
  intros ->%toy_connectors ->%toy_cleaf Hu Hy.
  rewrite (toy_update_origins _ _ _ _ _ Hu Hy).
  assert (bool_decide (toy_own_cleaf ∈ default [] (toy_origins toy_own_connectors !! vault_pubkey toy_phone_device))
          = true) as Hin%bool_decide_eq_true by (vm_compute; reflexivity).
  destruct (toy_origins toy_own_connectors !! vault_pubkey toy_phone_device) as [o|] eqn:Ho.
  - by exists o.
  - by apply not_elem_of_nil in Hin.
Qed.

Lemma toy_extract_txid t p : toy_extract p = Some t → toy_txid t = toy_txid (unsigned_tx p).
Proof. intros [= <-]. unfold toy_txid. cbn. by rewrite list_fmap_bind. Qed.

Lemma toy_finishes :
  finishes toy_own_policy toy_own_controller (vault_pubkey toy_phone_device) (vault_pubkey toy_hww_device).
Proof.
  split.
  - exact toy_records_phone.
  - intros p i x o lh _ _ Hx Ho _. cbn. unfold toy_sighash. rewrite Hx. cbn. rewrite Ho. cbn. by eexists.
  - intros p _ Hall. destruct (toy_extract p) as [tx|] eqn:Htx; [|discriminate].
    exists p, tx. split; [|split; [done|by apply toy_extract_txid]]. cbn. unfold toy_finalize.
    enough (forallb toy_input_complete (inputs p) = true) as -> by done.
    apply forallb_forall. intros x [i Hx]%list_elem_of_In%list_elem_of_lookup.
    destruct (Hall i) as [(d & leaf & Hd & Hl & Hdesc & Hp & Hh)|(d & leaf & Hd & Hl & Hdesc & Hp)];
      [by eapply lookup_lt_Some| |].
    + destruct (toy_vault_complete p i d leaf) as (x' & Hx' & Hc); [done..|]. congruence.
    + destruct (toy_connector_complete p i d leaf) as (x' & Hx' & Hc); [done..|]. congruence.
Qed.

Lemma toy_working :
  working_vault toy_config toy_own_policy toy_own_controller toy_phone_device toy_hww_device.
Proof.
  split.
  - vm_cast_no_check (eq_refl (Ok toy_own_policy)).
  - vm_cast_no_check (eq_refl (Ok toy_own_controller)).
  - reflexivity.
  - vm_compute. reflexivity.
  - exact toy_records.
  - exact toy_finalises.
  - exact toy_finishes.
  - intros x. by eexists.
  - exact toy_total.
Qed.

(** * The phone and its workspace *)

Definition toy_activation_dir : Path := join toy_dir "phone/policy-activation".

Lemma toy_initialized_disk : phone_disk toy_initialized toy_dir.
Proof.
  apply phone_disk_fresh.
  - intros k. reflexivity.
  - apply tree_of_b. vm_compute. reflexivity.
  - apply clear_of_b. vm_compute. reflexivity.
  - vm_compute. reflexivity.
  - vm_compute. discriminate.
Qed.

Lemma toy_aside : aside toy_initialized toy_dir toy_activation_dir.
Proof.
  assert (Forall (λ l, ¬ near (resolve toy_initialized toy_activation_dir) (resolve toy_initialized toy_dir ++ l))
    phone_names) as Hall.
  { apply (bool_decide_eq_true_1 _). vm_compute. reflexivity. }
  intros l Hl. rewrite Forall_forall in Hall. by apply Hall.
Qed.

(** * A proposal of one month and an emergency path *)

Definition toy_whole : result BatchManifest * (FS * N) := Eval vm_compute in
  build_policy_proposal_with_connectors toy_config [toy_utxo 3 34000 1] [] 1700000000 toy_limits
    toy_batch_dir toy_phone_device (toy_initialized, 0%N).
Definition toy_whole_manifest : BatchManifest :=
  ltac:(let r := eval cbv delta [toy_whole] in toy_whole in
        match r with (Ok ?m, _) => exact m end).
Definition toy_whole_fs : FS :=
  ltac:(let r := eval cbv delta [toy_whole] in toy_whole in
        match r with (_, (?f, _)) => exact f end).
Definition toy_whole_allowance : AllowanceStep :=
  ltac:(let r := eval vm_compute in (allowances toy_whole_manifest) in
        match r with ?a :: _ => exact a end).
Definition toy_whole_emergency : EmergencyAccessPolicy :=
  ltac:(let r := eval vm_compute in (emergency_access toy_whole_manifest) in
        match r with Some ?e => exact e end).

(** The toy backend takes whatever is sent. *)
Lemma toy_sends F dir x act (w : World (list Transaction)) :
  sends F dir x act w → ∃ t w', act w = (Ok t, w') ∧ w_fs w' = w_fs w.
Proof.
  intros (p & tx & _ & _ & Hact). exists (compute_txid tx), (Build_World (w_fs w) (w_rng w) (w_db w) (tx :: w_chain w)).
  split; [|reflexivity].
  apply Hact; [reflexivity|]. by intros t [= <-].
Qed.

