(* ===== verification/Vanity.v ===== *)
(** Setting up a phone ([hot_wallet/mod.rs]): plain and vanity
    initialisation.  The vanity search runs in threads that share three atomic
    words and a channel; it is a step relation on the threads, whose
    interleaving is arbitrary. *)

From S2P Require Import Prelude Bitcoin Types Keys Policy FileSystem Storage Crypto Ceremony HotWallet.
From Stdlib Require Import Ascii.

(** * The target *)

Definition CHARSET : string := "qpzry9x8gf2tvdw0s3jn54khce6mua7l".

(** [str::find] of a character. *)
Fixpoint find_char (c : ascii) (s : string) : option N :=
  match s with
  | EmptyString => None
  | String x s' => if bool_decide (x = c) then Some 0%N else N.succ <$> find_char c s'
  end.

Record VanityTarget := { target_value : N; bit_count : N }.

Definition shl_u32 (x n : N) : N := (N.shiftl x n mod 4294967296)%N.

Fixpoint suffix_value (value : N) (suffix : string) : result N :=
  match suffix with
  | EmptyString => Ok value
  | String c suffix' =>
      digit ← or_err (find_char c CHARSET) "not a lowercase Bech32 character";
      suffix_value (N.lor (shl_u32 value 5) digit) suffix'
  end.

Definition target_new (suffix : string) : result VanityTarget :=
  let len := String.length suffix in
  _ ← bail_if (bool_decide (len = 0) || bool_decide (6 < len))
        "vanity suffix must contain between one and six Bech32 characters";
  value ← suffix_value 0 suffix;
  mret {| target_value := value; bit_count := as_u32 (len * 5) |}.

(** [u32::from_be_bytes]. *)
Definition from_be_bytes (bytes : list N) : N := foldl (λ acc b, 256 * acc + b)%N 0%N bytes.

Definition target_matches (t : VanityTarget) (output_key : list N) : bool :=
  bool_decide (N.shiftr (from_be_bytes (take 4 output_key)) (32 - bit_count t) = target_value t).

(** * The search *)

Definition KEY_INDEXES : N := 2147483648.
Definition REPORT_INTERVAL : N := 1000000.
Definition BATCH : N := 4096.

(** Where a worker is in its loop; [Stop] and [Send] carry its result. *)
Inductive Phase :=
  | AtLoop | AtTry | AtHit | AtMiss
  | AtReport (total : N) | AtExchange (total previous : N) | AtNext
  | AtStop (message : result N) | AtSend (message : result N)
  | AtFlush | AtEnd.

Record Worker := {
  worker_index : N;
  pending_attempts : N;
  phase : Phase;
}.
Definition at_phase (w : Worker) (p : Phase) : Worker :=
  {| worker_index := worker_index w; pending_attempts := pending_attempts w; phase := p |}.
Definition with_pending (w : Worker) (n : N) : Worker :=
  {| worker_index := worker_index w; pending_attempts := n; phase := phase w |}.

(** The atomics, the channel and the reports made so far. *)
Record Shared := {
  stopped : bool;
  attempts : N;
  last_report : N;
  channel : list (result N);
  reports : list N;
}.
Definition set_stopped (s : Shared) : Shared :=
  {| stopped := true; attempts := attempts s; last_report := last_report s;
     channel := channel s; reports := reports s |}.
Definition add_attempts (n : N) (s : Shared) : Shared :=
  {| stopped := stopped s; attempts := (attempts s + n) mod 18446744073709551616;
     last_report := last_report s; channel := channel s; reports := reports s |}%N.
Definition send (m : result N) (s : Shared) : Shared :=
  {| stopped := stopped s; attempts := attempts s; last_report := last_report s;
     channel := channel s ++ [m]; reports := reports s |}.
Definition set_report (total : N) (s : Shared) : Shared :=
  {| stopped := stopped s; attempts := attempts s; last_report := total;
     channel := channel s; reports := reports s ++ [total] |}.

Section search.
(** The test of one index: the derived key's address matches, does not, or the
    derivation fails. *)
Context (stride : N) (try_index : N → result bool).

(** One atomic action of a worker.  The loads are relaxed: a worker may miss a
    [stopped] that is set already, and read any earlier [last_report]. *)
Inductive worker_step : Shared → Worker → Shared → Worker → Prop :=
  | step_continue s w : phase w = AtLoop → (worker_index w < KEY_INDEXES)%N →
      worker_step s w s (at_phase w AtTry)
  | step_exhausted s w : phase w = AtLoop → (KEY_INDEXES ≤ worker_index w)%N →
      worker_step s w s (at_phase w AtFlush)
  | step_interrupted s w : phase w = AtLoop → (worker_index w < KEY_INDEXES)%N → stopped s = true →
      worker_step s w s (at_phase w AtFlush)
  | step_hit s w : phase w = AtTry → try_index (worker_index w) = Ok true →
      worker_step s w s (at_phase (with_pending w (pending_attempts w + 1)) AtHit)
  | step_miss s w : phase w = AtTry → try_index (worker_index w) = Ok false →
      worker_step s w s (at_phase (with_pending w (pending_attempts w + 1)) AtMiss)
  | step_error s w e : phase w = AtTry → try_index (worker_index w) = Err e →
      worker_step s w s (at_phase w (AtStop (Err e)))
  | step_count_hit s w : phase w = AtHit →
      worker_step s w (add_attempts (pending_attempts w) s) (at_phase w (AtStop (Ok (worker_index w))))
  | step_first s w m : phase w = AtStop m → stopped s = false →
      worker_step s w (set_stopped s) (at_phase w (AtSend m))
  | step_late s w m : phase w = AtStop m → stopped s = true →
      worker_step s w s (at_phase w AtEnd)
  | step_send s w m : phase w = AtSend m →
      worker_step s w (send m s) (at_phase w AtEnd)
  | step_batch s w : phase w = AtMiss → pending_attempts w = BATCH →
      worker_step s w (add_attempts (pending_attempts w) s)
        (at_phase (with_pending w 0) (AtReport (attempts s + pending_attempts w)))
  | step_no_batch s w : phase w = AtMiss → pending_attempts w ≠ BATCH →
      worker_step s w s (at_phase w AtNext)
  | step_quiet s w total previous : phase w = AtReport total →
      (total - previous < REPORT_INTERVAL)%N → worker_step s w s (at_phase w AtNext)
  | step_due s w total previous : phase w = AtReport total →
      (REPORT_INTERVAL ≤ total - previous)%N →
      worker_step s w s (at_phase w (AtExchange total previous))
  | step_exchanged s w total previous : phase w = AtExchange total previous →
      last_report s = previous → worker_step s w (set_report total s) (at_phase w AtNext)
  | step_not_exchanged s w total previous : phase w = AtExchange total previous →
      last_report s ≠ previous → worker_step s w s (at_phase w AtNext)
  | step_next s w : phase w = AtNext →
      worker_step s w s
        {| worker_index := worker_index w + stride; pending_attempts := pending_attempts w;
           phase := AtLoop |}
  | step_flush s w : phase w = AtFlush → pending_attempts w ≠ 0%N →
      worker_step s w (add_attempts (pending_attempts w) s) (at_phase w AtEnd)
  | step_nothing s w : phase w = AtFlush → pending_attempts w = 0%N →
      worker_step s w s (at_phase w AtEnd).

(** The scope: the shared state and its workers, one of which acts. *)
Definition Scope : Type := Shared * list Worker.

Inductive scope_step : Scope → Scope → Prop :=
  | scope_step_at s s' ws k w w' : ws !! k = Some w → worker_step s w s' w' →
      scope_step (s, ws) (s', <[k:=w']> ws).

Definition spawned (worker_count : nat) : Scope :=
  ({| stopped := false; attempts := 0; last_report := 0; channel := []; reports := [] |},
   (λ k, {| worker_index := N.of_nat k; pending_attempts := 0; phase := AtLoop |})
     <$> seq 0 worker_count).

(** The scope is left when every worker has ended. *)
Definition joined (c : Scope) : Prop := Forall (λ w, phase w = AtEnd) c.2.

(** [receiver.recv()??] once the senders are gone. *)
Definition received (c : Scope) : result N :=
  match channel c.1 with
  | m :: _ => m
  | [] => Err "vanity search ended without finding a matching key"
  end.
End search.

(** What a search can return, with the attempts counted: some interleaving of
    the workers ends so. *)
Definition search_outcome (worker_count : nat) (try_index : N → result bool)
    (r : result N) (n : N) : Prop :=
  ∃ c, rtc (scope_step (N.of_nat worker_count) try_index) (spawned worker_count) c ∧ joined c ∧
    r = received c ∧ n = attempts c.1.

(** * The phone *)

(** The bytes of an output key, as [to_x_only_public_key().serialize()]. *)
Class TweakedLib `{BitcoinTypes} := { tweaked_serialize : TweakedPublicKey → list N }.

Definition VANITY_SUFFIX : string := "vault".

Record VanityInitialization := {
  vanity_device : InitializedDevice;
  vanity_vault_address : string;
  vanity_attempts : N;
  vanity_worker_count : nat;
}.

Definition vanity_address_prefix (network : Network) : result string :=
  match network with
  | Bitcoin => Ok "bc1pvault"
  | Regtest => Ok "bcrt1pvault"
  | _ => Err "vanity initialization is unsupported on this network"
  end.

Section vanity.
Context `{BitcoinLib, !KeyLib, !BdkLib, !TweakedLib, CryptoLib, Json VaultConfig,
          !Json DeviceFile, Json PublicDeviceFile} {B : Type}.

Record VanityPhoneKey := {
  vanity_phone : DeviceKeys;
  vanity_key_address : string;
  vanity_key_attempts : N;
  vanity_key_worker_count : nat;
}.

Definition ensure_phone_is_uninitialized (f : FS) (data_dir : Path) : result unit :=
  bail_if (exists_ f (join data_dir PHONE_DEVICE_FILE)) "phone already initialized".

Definition persist_phone (data_dir : Path) (network : Network) (phone : DeviceKeys)
    : M (World B) InitializedDevice :=
  _ ← with_fs (λ f, ensure_phone_is_uninitialized f data_dir);
  let words := mnemonic_to_string (mnemonic phone) in
  _ ← at_fs (write_json (join data_dir PHONE_DEVICE_FILE)
        {| device_kind := "phone"; device_network := network_name network;
           device_mnemonic := words; device_vault_key_index := vault_key_index phone |});
  _ ← open_hot data_dir;
  mret {| initialized_mnemonic := words; initialized_vault_pubkey := key_to_string (vault_pubkey phone);
          initialized_vault_key_index := vault_key_index phone |}.

Definition phone_initialize (data_dir : Path) (network : Network)
    : M (World B) InitializedDevice :=
  _ ← pure (validate_supported_network network);
  entropy ← at_rng (draw 32);
  phone ← pure (generate_for_network entropy network);
  persist_phone data_dir network phone.

(** One pass of the worker's loop: the key of an index and its address. *)
Definition try_index (target : VanityTarget) (template : VaultAddressTemplate) (parent : Xpriv)
    (index : N) : result bool :=
  '(_, _, phone_pubkey) ← derive_vault_key_from_parent parent (index mod 4294967296);
  mret (target_matches target (tweaked_serialize (output_key template phone_pubkey))).

Definition expected_prefix (network : Network) (suffix : string) : result string :=
  match network with
  | Bitcoin => Ok ("bc1p" +:+ suffix)
  | Regtest => Ok ("bcrt1p" +:+ suffix)
  | _ => Err "vanity initialization is unsupported on this network"
  end.

(** The threads' result, given the counters of the interleaving that ran. *)
Definition Search : Type := nat → (N → result bool) → result N * N.

Definition grind_vanity_phone_key (search : Search) (network : Network)
    (hww_pubkey : XOnlyPublicKey) (suffix : string) (worker_count : nat)
    : M (World B) VanityPhoneKey :=
  _ ← pure (validate_supported_network network);
  _ ← pure (bail_if (bool_decide (worker_count = 0))
              "vanity search requires at least one worker thread");
  target ← pure (target_new suffix);
  entropy ← at_rng (draw 32);
  base_phone ← pure (generate_for_network entropy network);
  parent ← pure (vault_parent_xpriv base_phone);
  template ← pure (template_new hww_pubkey);
  let found := search worker_count (try_index target template parent) in
  winning_index ← pure found.1;
  phone ← pure (with_vault_key_index base_phone winning_index);
  let address := template_address template (vault_pubkey phone) network in
  prefix ← pure (expected_prefix network suffix);
  _ ← pure (bail_if (negb (String.prefix prefix (address_to_string address)))
              "vanity search result did not reproduce the requested address prefix");
  mret {| vanity_phone := phone; vanity_key_address := address_to_string address;
          vanity_key_attempts := found.2; vanity_key_worker_count := worker_count |}.

Definition initialize_vanity_with_suffix (search : Search) (data_dir : Path)
    (network : Network) (suffix : string) (worker_count : nat)
    : M (World B) VanityInitialization :=
  _ ← pure (validate_supported_network network);
  _ ← with_fs (λ f, ensure_phone_is_uninitialized f data_dir);
  _ ← pure (bail_if (bool_decide (worker_count = 0))
              "vanity search requires at least one worker thread");
  _ ← with_fs (λ f, bail_if (negb (exists_ f (join data_dir HWW_DEVICE_FILE)))
        "initialize the HWW before using phone init --vanity");
  public_hww ← with_fs (λ f, with_context (load_public_device f data_dir HWW_PUBLIC_FILE)
                               "initialize the HWW before using phone init --vanity");
  _ ← pure (bail_if (negb (bool_decide (public_version public_hww = 1%N))
                     || negb (bool_decide (public_kind public_hww = "hww-public-key")))
              "unsupported HWW public metadata");
  hww_network ← pure (public_bitcoin_network public_hww);
  _ ← pure (bail_if (negb (bool_decide (hww_network = network)))
              "phone and HWW must use the same network");
  hww_pubkey ← pure (parsed_vault_pubkey public_hww);
  vanity ← grind_vanity_phone_key search network hww_pubkey suffix worker_count;
  device ← persist_phone data_dir network (vanity_phone vanity);
  mret {| vanity_device := device; vanity_vault_address := vanity_key_address vanity;
          vanity_attempts := vanity_key_attempts vanity;
          vanity_worker_count := vanity_key_worker_count vanity |}.

Definition initialize_vanity (search : Search) (available_parallelism : nat) (data_dir : Path)
    (network : Network) : M (World B) VanityInitialization :=
  initialize_vanity_with_suffix search data_dir network VANITY_SUFFIX available_parallelism.
End vanity.
