(* ===== verification/VanitySearch.v ===== *)
(** The vanity search, whatever the interleaving of its threads: it ends, one
    result at most is sent, and the result is a matching index unless there is
    none.  And its target: comparing the leading bits of an output key is
    comparing the leading characters of its address. *)

From S2P Require Import Prelude Bitcoin Types Keys Policy FileSystem Storage Crypto Ceremony HotWallet Vanity.
From stdpp Require Import relations.
From Stdlib Require Import Ascii.

Section search.
Context (n : nat) (try : N → result bool).
Implicit Types (s : Shared) (w : Worker) (c : Scope).

Local Abbreviation step := (scope_step (N.of_nat n) try).

(** A result that the search may report. *)
Definition good (m : result N) : Prop :=
  match m with
  | Ok i => (i < KEY_INDEXES)%N ∧ try i = Ok true
  | Err e => ∃ i, (i < KEY_INDEXES)%N ∧ try i = Err e
  | Panic => False
  end.

(** The indexes of worker [k], one stride apart, up to the one it is at. *)
Definition index_at (k q : nat) : N := N.of_nat (k + q * n).
Definition passed (k : nat) w : Prop :=
  ∃ q, worker_index w = index_at k q ∧ ∀ q', q' < q → try (index_at k q') = Ok false.

Definition phase_ok s w : Prop :=
  match phase w with
  | AtLoop => True
  | AtTry => (worker_index w < KEY_INDEXES)%N
  | AtHit => (worker_index w < KEY_INDEXES)%N ∧ try (worker_index w) = Ok true
  | AtMiss | AtReport _ | AtExchange _ _ | AtNext =>
      (worker_index w < KEY_INDEXES)%N ∧ try (worker_index w) = Ok false
  | AtStop m => good m
  | AtSend m => good m ∧ stopped s = true
  | AtFlush | AtEnd => stopped s = true ∨ (KEY_INDEXES ≤ worker_index w)%N
  end.

(** How far an action is from the end of its pass. *)
Definition rank (p : Phase) : N :=
  match p with
  | AtLoop => 9 | AtTry => 8 | AtHit => 7 | AtMiss => 7 | AtReport _ => 6 | AtExchange _ _ => 5
  | AtNext => 4 | AtStop _ => 3 | AtSend _ => 2 | AtFlush => 2 | AtEnd => 0
  end.

(** Each action, by cases on the rule. *)
Ltac by_rule :=
  match goal with H : worker_step _ _ _ _ _ _ |- _ => destruct H end;
  repeat match goal with
  | H : phase ?w = _ |- _ => rewrite H in *
  end;
  cbn [at_phase with_pending worker_index phase pending_attempts stopped channel set_stopped
       add_attempts send set_report rank] in *.

Lemma step_mono s w s' w' :
  worker_step (N.of_nat n) try s w s' w' → stopped s = true → stopped s' = true.
Proof. intros Hw Hs. by_rule; done. Qed.

Lemma phase_ok_mono s s' w : (stopped s = true → stopped s' = true) → phase_ok s w → phase_ok s' w.
Proof. unfold phase_ok. destruct (phase w); naive_solver. Qed.

Lemma step_phase s w s' w' :
  worker_step (N.of_nat n) try s w s' w' → phase_ok s w → phase_ok s' w'.
Proof. intros Hw Hok. unfold phase_ok in *. by_rule; naive_solver. Qed.

Lemma step_passed k s w s' w' :
  worker_step (N.of_nat n) try s w s' w' → phase_ok s w → passed k w → passed k w'.
Proof.
  intros Hw Hok (q & Hq & Hp).
  assert (worker_index w' = worker_index w ∨
    phase w = AtNext ∧ worker_index w' = (worker_index w + N.of_nat n)%N) as [Heq|[Hn Heq]].
  { by_rule; naive_solver. }
  - exists q. by rewrite Heq.
  - exists (S q). split; [unfold index_at in *; lia|]. intros q' Hlt.
    destruct (decide (q' = q)) as [->|Hne]; [|apply Hp; lia].
    unfold phase_ok in Hok. rewrite Hn in Hok. rewrite <-Hq. apply Hok.
Qed.

(** ** The messages *)

Definition sending w : option (result N) :=
  match phase w with AtSend m => Some m | _ => None end.
Definition messages c : list (result N) := channel c.1 ++ omap sending c.2.

Lemma step_messages s w s' w' :
  worker_step (N.of_nat n) try s w s' w' → phase_ok s w →
  (stopped s' = stopped s ∧ channel s' = channel s ∧ sending w = None ∧ sending w' = None) ∨
  (∃ m, good m ∧ stopped s = false ∧ stopped s' = true ∧ channel s' = channel s ∧
     sending w = None ∧ sending w' = Some m) ∨
  (∃ m, stopped s' = stopped s ∧ channel s' = channel s ++ [m] ∧
     sending w = Some m ∧ sending w' = None).
Proof. intros Hw Hok. unfold sending, phase_ok in *. by_rule; naive_solver. Qed.

Record scope_ok c : Prop := {
  so_length : length c.2 = n;
  so_workers : ∀ k w, c.2 !! k = Some w → phase_ok c.1 w ∧ passed k w;
  so_messages : if stopped c.1 then ∃ m, good m ∧ messages c = [m] else messages c = [];
}.

Lemma omap_insert (ws : list Worker) k w w' :
  ws !! k = Some w → ∃ l1 l2, ∀ x, x = w ∨ x = w' →
    omap sending (<[k:=x]> ws) = l1 ++ option_list (sending x) ++ l2.
Proof.
  intros Hk. exists (omap sending (take k ws)), (omap sending (drop (S k) ws)). intros x _.
  rewrite insert_take_drop by (by eapply lookup_lt_Some).
  rewrite omap_app. simpl. by destruct (sending x).
Qed.

Lemma scope_ok_step c c' : scope_ok c → step c c' → scope_ok c'.
Proof.
  intros [Hl Hw Hm] Hstep. destruct Hstep as [s s' ws k w w' Hk Hs]. cbn in *.
  destruct (Hw k w Hk) as [Hok Hp]. split; cbn.
  - by rewrite length_insert.
  - intros j x [(-> & <- & _)|[Hne Hx]]%list_lookup_insert_Some.
    + split; [by eapply step_phase|by eapply step_passed].
    + destruct (Hw j x Hx) as [Hox Hpx]. split; [|done].
      eapply phase_ok_mono; [|exact Hox]. by eapply step_mono.
  - destruct (omap_insert ws k w w' Hk) as (l1 & l2 & Hom).
    unfold messages in *. cbn in *. rewrite (Hom w') by auto.
    rewrite <-(list_insert_id ws k w Hk), (Hom w) in Hm by auto.
    destruct (step_messages _ _ _ _ Hs Hok) as [(-> & -> & H1 & H2)|[(m & Hg & H0 & -> & -> & H1 & H2)|(m & -> & -> & H1 & H2)]];
      rewrite H1 in Hm; rewrite H2; cbn in *.
    + done.
    + rewrite H0 in Hm. exists m. split; [done|].
      apply app_eq_nil in Hm as [-> [-> ->]%app_eq_nil]. done.
    + destruct (stopped s).
      * destruct Hm as (m' & Hg & Hm). exists m'. split; [done|].
        apply app_eq_unit in Hm as [[-> Hm]|[-> Hm]].
        -- apply app_eq_unit in Hm as [[-> Hm]|[-> Hm]]; [|discriminate].
           injection Hm as -> ->. done.
        -- apply app_eq_nil in Hm as [_ Hm]. discriminate.
      * apply app_eq_nil in Hm as [_ [_ Hm]%app_eq_nil]. discriminate.
Qed.

Lemma scope_ok_spawned : scope_ok (spawned n).
Proof.
  split; cbn.
  - by rewrite length_fmap, length_seq.
  - intros k w. rewrite list_lookup_fmap, fmap_Some. intros (x & [-> Hx]%lookup_seq & ->).
    split; [done|]. exists 0. split; [|lia]. unfold index_at. cbn. lia.
  - unfold messages. cbn. induction (seq 0 n) as [|k l IH]; [done|exact IH].
Qed.

Lemma scope_ok_reachable c : rtc step (spawned n) c → scope_ok c.
Proof.
  generalize (scope_ok_spawned). generalize (spawned n). intros c0 H0 Hr. revert H0.
  induction Hr as [|x y z Hxy _ IH]; [done|]. intros H0. apply IH. by eapply scope_ok_step.
Qed.

(** ** Termination *)

Definition work w : N := (10 * (KEY_INDEXES - worker_index w) + rank (phase w))%N.
Definition total_work c : N := sumN (work <$> c.2).

Lemma step_work s w s' w' :
  0 < n → worker_step (N.of_nat n) try s w s' w' → phase_ok s w → (work w' < work w)%N.
Proof. intros Hn Hw Hok. unfold work, phase_ok, KEY_INDEXES in *. by_rule; lia. Qed.

Lemma sum_insert (ws : list Worker) k w w' :
  ws !! k = Some w →
  (sumN (work <$> <[k:=w']> ws) + work w = sumN (work <$> ws) + work w')%N.
Proof.
  revert k. induction ws as [|x ws IH]; intros [|k] Hk; [done..| |]; simpl in Hk.
  - injection Hk as ->. change (<[0:=w']> (w :: ws)) with (w' :: ws). rewrite !sumN_fmap_cons. lia.
  - specialize (IH k Hk). change (<[S k:=w']> (x :: ws)) with (x :: <[k:=w']> ws).
    rewrite !sumN_fmap_cons. lia.
Qed.

Lemma scope_work c c' : 0 < n → scope_ok c → step c c' → (total_work c' < total_work c)%N.
Proof.
  intros Hn Hok Hstep. destruct Hstep as [s s' ws k w w' Hk Hs].
  destruct (so_workers _ Hok k w Hk) as [Hp _]. pose proof (step_work _ _ _ _ Hn Hs Hp) as Hlt.
  pose proof (sum_insert ws k w w' Hk) as Hsum. unfold total_work. cbn [snd]. lia.
Qed.

Lemma steps_work steps c c' :
  0 < n → scope_ok c → nsteps step steps c c' → (N.of_nat steps + total_work c' ≤ total_work c)%N.
Proof.
  intros Hn Hok Hs. revert Hok. induction Hs as [c|steps c1 c2 c3 H12 _ IH]; intros Hok; [lia|].
  pose proof (scope_work _ _ Hn Hok H12) as Hlt. specialize (IH (scope_ok_step _ _ Hok H12)). lia.
Qed.

Lemma spawned_work : (total_work (spawned n) ≤ N.of_nat n * 21474836489)%N.
Proof.
  unfold total_work, spawned. cbn [snd]. rewrite <-list_fmap_compose.
  assert (∀ l, (sumN ((work ∘ λ k, {| worker_index := N.of_nat k; pending_attempts := 0; phase := AtLoop |}) <$> l)
    ≤ N.of_nat (length l) * 21474836489)%N) as Hl.
  { induction l as [|k l IH]; [done|]. rewrite fmap_cons.
    change (sumN (?x :: ?r)) with (x + sumN r)%N. simpl length. unfold compose at 1, work at 1.
    cbn [worker_index phase rank]. unfold KEY_INDEXES. lia. }
  rewrite <-(length_seq n 0) at 2. apply Hl.
Qed.

(** ** Progress and results *)

Lemma worker_progress s w :
  (∀ i, (i < KEY_INDEXES)%N → try i ≠ Panic) → phase_ok s w → phase w ≠ AtEnd →
  ∃ s' w', worker_step (N.of_nat n) try s w s' w'.
Proof.
  intros Htry Hok He. unfold phase_ok in Hok. destruct (phase w) eqn:Hp; [..|done].
  - destruct (decide (worker_index w < KEY_INDEXES)%N) as [Hlt|Hge].
    + eexists _, _. by apply step_continue.
    + eexists _, _. apply step_exhausted; [done|lia].
  - destruct (try (worker_index w)) as [[]|e|] eqn:Ht.
    + eexists _, _. by apply step_hit.
    + eexists _, _. by apply step_miss.
    + eexists _, _. by eapply step_error.
    + by apply Htry in Ht.
  - eexists _, _. by apply step_count_hit.
  - destruct (decide (pending_attempts w = BATCH)).
    + eexists _, _. by apply step_batch.
    + eexists _, _. by apply step_no_batch.
  - destruct (decide (total - 0 < REPORT_INTERVAL)%N).
    + eexists _, _. by eapply step_quiet.
    + eexists _, _. eapply (step_due _ _ _ _ _ 0); [done|lia].
  - destruct (decide (last_report s = previous)).
    + eexists _, _. by eapply step_exchanged.
    + eexists _, _. by eapply step_not_exchanged.
  - eexists _, _. by apply step_next.
  - destruct (stopped s) eqn:Hs.
    + eexists _, _. by eapply step_late.
    + eexists _, _. by eapply step_first.
  - eexists _, _. by eapply step_send.
  - destruct (decide (pending_attempts w = 0%N)).
    + eexists _, _. by apply step_nothing.
    + eexists _, _. by apply step_flush.
Qed.

#[local] Instance Phase_end_dec w : Decision (phase w = AtEnd).
Proof. destruct (phase w); (by left) || by right. Defined.

Lemma scope_progress c :
  (∀ i, (i < KEY_INDEXES)%N → try i ≠ Panic) → scope_ok c → joined c ∨ ∃ c', step c c'.
Proof.
  intros Htry Hok. destruct (decide (Forall (λ w, phase w = AtEnd) c.2)) as [|Hno]; [by left|].
  right. apply not_Forall_Exists in Hno; [|apply _].
  apply Exists_exists in Hno as (w & Hin & Hne). apply list_elem_of_lookup in Hin as (k & Hk).
  destruct (so_workers _ Hok k w Hk) as [Hp _].
  destruct (worker_progress c.1 w Htry Hp Hne) as (s' & w' & Hs).
  exists (s', <[k:=w']> c.2). destruct c as [s ws]. by eapply scope_step_at.
Qed.

Lemma one_message c : scope_ok c → length (channel c.1) ≤ 1.
Proof.
  intros Hok. pose proof (so_messages _ Hok) as Hm. unfold messages in Hm.
  assert (length (channel c.1 ++ omap sending c.2) ≤ 1) as Hl.
  { destruct (stopped c.1); [destruct Hm as (m & _ & ->)|rewrite Hm]; simpl; lia. }
  rewrite length_app in Hl. lia.
Qed.

Lemma joined_messages c : joined c → messages c = channel c.1.
Proof.
  unfold joined, messages. intros Hj. assert (omap sending c.2 = []) as ->; [|by rewrite app_nil_r].
  induction Hj as [|w l Hw _ IH]; [done|]. cbn. unfold sending at 1. by rewrite Hw.
Qed.

Lemma joined_passed c i :
  0 < n → scope_ok c → joined c → stopped c.1 = false → (i < KEY_INDEXES)%N → try i = Ok false.
Proof.
  intros Hn Hok Hj Hs Hi. set (k := N.to_nat i mod n). set (q := N.to_nat i / n).
  assert (N.to_nat i = k + q * n) as Heq.
  { unfold k, q. pose proof (Nat.div_mod (N.to_nat i) n). lia. }
  destruct (lookup_lt_is_Some_2 c.2 k) as [w Hw].
  { rewrite (so_length _ Hok). apply Nat.mod_upper_bound. lia. }
  destruct (so_workers _ Hok k w Hw) as [Hp (q' & Hq & Hpass)].
  assert (phase w = AtEnd) as He.
  { unfold joined in Hj. rewrite Forall_lookup in Hj. by eapply Hj. }
  unfold phase_ok in Hp. rewrite He, Hs in Hp. destruct Hp as [|Hge]; [done|].
  replace i with (index_at k q) by (unfold index_at; lia). apply Hpass.
  unfold index_at in Hq. apply Nat.nle_gt. intros Hle.
  assert (k + q' * n ≤ k + q * n) by (apply Nat.add_le_mono_l, Nat.mul_le_mono_r, Hle). lia.
Qed.

Lemma joined_received c :
  0 < n → scope_ok c → joined c →
  good (received c) ∨
  (∀ i, (i < KEY_INDEXES)%N → try i = Ok false) ∧
  received c = Err "vanity search ended without finding a matching key".
Proof.
  intros Hn Hok Hj. pose proof (so_messages _ Hok) as Hm. rewrite joined_messages in Hm by done.
  unfold received. destruct (stopped c.1) eqn:Hs.
  - destruct Hm as (m & Hg & ->). by left.
  - rewrite Hm. right. split; [|done]. intros i. by apply (joined_passed c).
Qed.
End search.

(** C30: The vanity search ends and is complete, however its threads
    interleave and whatever stale values their relaxed loads return.  There is
    a bound on the number of actions of all workers together; until every
    worker has ended, some worker can act; and then at most one message was
    sent, and the result is an index below [2^31] whose address matches, the
    error of some derivation, or, when no index at all matches, the error that
    says so. *)
Theorem vanity_search_terminates n try :
  0 < n → (∀ i, (i < KEY_INDEXES)%N → try i ≠ Panic) →
  (∀ steps c, nsteps (scope_step (N.of_nat n) try) steps (spawned n) c →
     (N.of_nat steps ≤ N.of_nat n * 21474836489)%N) ∧
  (∀ c, rtc (scope_step (N.of_nat n) try) (spawned n) c →
     length (channel c.1) ≤ 1 ∧ (joined c ∨ ∃ c', scope_step (N.of_nat n) try c c')) ∧
  (∀ r a, search_outcome n try r a →
     match r with
     | Ok i => (i < KEY_INDEXES)%N ∧ try i = Ok true
     | Err e => (∃ i, (i < KEY_INDEXES)%N ∧ try i = Err e) ∨
         (∀ i, (i < KEY_INDEXES)%N → try i = Ok false) ∧
         e = "vanity search ended without finding a matching key"
     | Panic => False
     end).
Proof.
  intros Hn Htry. split_and!.
  - intros steps c Hs. pose proof (steps_work _ _ _ _ _ Hn (scope_ok_spawned n try) Hs) as Hw.
    pose proof (spawned_work n) as Hb. lia.
  - intros c Hc%scope_ok_reachable. split; [by apply (one_message n try)|].
    by apply (scope_progress n try).
  - intros r a (c & Hc & Hj & -> & _).
    destruct (joined_received n try c Hn (scope_ok_reachable _ _ _ Hc) Hj) as [Hg|[Hno ->]].
    + unfold good in Hg. destruct (received c); naive_solver.
    + by right.
Qed.

Lemma vanity_search_terminates_witness :
  (∀ i, (i < KEY_INDEXES)%N → (λ i, Ok (i =? 5)%N : result bool) i ≠ Panic) ∧
  ∀ c, rtc (scope_step 2 (λ i, Ok (i =? 5)%N)) (spawned 2) c →
    length (channel c.1) ≤ 1 ∧ (joined c ∨ ∃ c', scope_step 2 (λ i, Ok (i =? 5)%N) c c').
Proof.
  assert (∀ i, (i < KEY_INDEXES)%N → (λ i, Ok (i =? 5)%N : result bool) i ≠ Panic) as Ht
    by (intros i _; discriminate).
  split; [exact Ht|].
  exact (proj1 (proj2 (vanity_search_terminates 2 (λ i, Ok (i =? 5)%N) ltac:(lia) Ht))).
Defined.

(** * The address, by BIP173 and BIP350

    The 32 bytes of the key in groups of five bits, the last one padded with
    zeros, each as a character. *)

Definition charset_char (d : N) : ascii := default "q"%char (String.get (N.to_nat d) CHARSET).
Definition bech32_digit (bytes : list N) (i : nat) : N :=
  (from_be_bytes bytes * 16 / 2 ^ N.of_nat (255 - 5 * i) mod 32)%N.
Definition bech32_from (bytes : list N) (checksum : string) (i : nat) : string :=
  foldr (λ j s, String (charset_char (bech32_digit bytes j)) s) checksum (seq i (52 - i)).

(** The human-readable part, the separator and the version's character. *)
Definition p2tr_text (network : Network) (bytes : list N) (checksum : string) : string :=
  match network with Bitcoin => "bc1p" | _ => "bcrt1p" end +:+ bech32_from bytes checksum 0.

(** * Characters *)

Lemma find_char_spec c d :
  find_char c CHARSET = Some d → (d < 32)%N ∧ charset_char d = c.
Proof.
  assert (∀ c, match find_char c CHARSET with
               | Some d => bool_decide (d < 32)%N && bool_decide (charset_char d = c)
               | None => true end = true) as Hall.
  { clear. intros [[] [] [] [] [] [] [] []]; vm_compute; reflexivity. }
  specialize (Hall c). destruct (find_char c CHARSET); [|done]. intros [= <-].
  by apply andb_true_iff in Hall as [?%bool_decide_eq_true ?%bool_decide_eq_true].
Qed.

Lemma find_charset_char d : (d < 32)%N → find_char (charset_char d) CHARSET = Some d.
Proof.
  intros Hd. assert (Forall (λ d, find_char (charset_char d) CHARSET = Some d) (N.of_nat <$> seq 0 32)) as Hall.
  { apply (bool_decide_unpack _). vm_compute. exact I. }
  rewrite Forall_forall in Hall. apply Hall. apply list_elem_of_fmap.
  exists (N.to_nat d). rewrite N2Nat.id, elem_of_seq. split; [done|lia].
Qed.

(** * Bits *)

Lemma shl_lor v d : (v < 2 ^ 27)%N → (d < 32)%N → N.lor (shl_u32 v 5) d = (32 * v + d)%N.
Proof.
  intros Hv Hd. unfold shl_u32. rewrite N.shiftl_mul_pow2. change (2 ^ 5)%N with 32%N.
  rewrite N.mod_small by (change (2 ^ 27)%N with 134217728%N in Hv; lia).
  rewrite (N.mul_comm v). symmetry. change 32%N with (2 ^ 5)%N in *. apply N.bits_inj. intros i.
  rewrite N.lor_spec, N.mul_comm.
  destruct (N.lt_ge_cases i 5) as [Hi|Hi].
  - rewrite N.mul_pow2_bits_low by done. simpl.
    rewrite <-(N.mod_pow2_bits_low (v * 2 ^ 5 + d) 5 i) by done.
    rewrite N.add_comm, N.Div0.mod_add. by rewrite N.mod_small.
  - rewrite N.mul_pow2_bits_high by done.
    replace i with (i - 5 + 5)%N by lia. rewrite N.add_sub.
    rewrite <-(N.div_pow2_bits (v * 2 ^ 5 + d) 5), <-(N.div_pow2_bits d 5).
    rewrite N.add_comm, N.div_add by done. rewrite (N.div_small d) by done.
    by rewrite N.bits_0, orb_false_r, N.add_0_l.
Qed.

Lemma from_be_bytes_app l1 l2 :
  from_be_bytes (l1 ++ l2) = (from_be_bytes l1 * 256 ^ N.of_nat (length l2) + from_be_bytes l2)%N.
Proof.
  unfold from_be_bytes. rewrite foldl_app. generalize (foldl (λ acc b, 256 * acc + b)%N 0%N l1).
  induction l2 as [|b l2 IH] using rev_ind; intros x; [simpl; lia|].
  rewrite !foldl_app, length_app, Nat.add_1_r, Nat2N.inj_succ, N.pow_succ_r'. simpl. rewrite IH. lia.
Qed.

Lemma from_be_bytes_bound l :
  Forall (λ b, b < 256)%N l → (from_be_bytes l < 256 ^ N.of_nat (length l))%N.
Proof.
  induction l as [|b l IH] using rev_ind; [done|]. rewrite Forall_app. intros [Hl Hb%Forall_cons_iff].
  rewrite from_be_bytes_app, length_app, Nat.add_1_r, Nat2N.inj_succ, N.pow_succ_r'.
  specialize (IH Hl). destruct Hb as [Hb _]. unfold from_be_bytes at 2. simpl.
  revert IH. generalize (from_be_bytes l) (256 ^ N.of_nat (length l))%N. intros x y Hx. lia.
Qed.

(** The first [i] groups as a number. *)
Definition top (x : N) (i : nat) : N := (x / 2 ^ N.of_nat (256 - 5 * i))%N.

Lemma top_succ bytes i :
  i < 50 → top (from_be_bytes bytes) (S i) = (32 * top (from_be_bytes bytes) i + bech32_digit bytes i)%N.
Proof.
  intros Hi. unfold top, bech32_digit. generalize (from_be_bytes bytes). intros x.
  assert (x * 16 / 2 ^ N.of_nat (255 - 5 * i) = x / 2 ^ N.of_nat (256 - 5 * S i))%N as ->.
  { replace (N.of_nat (255 - 5 * i)) with (N.of_nat (256 - 5 * S i) + 4)%N by lia.
    rewrite N.pow_add_r. change (2 ^ 4)%N with 16%N. by rewrite N.Div0.div_mul_cancel_r. }
  replace (N.of_nat (256 - 5 * i)) with (N.of_nat (256 - 5 * S i) + 5)%N by lia.
  rewrite N.pow_add_r, <-N.Div0.div_div. change (2 ^ 5)%N with 32%N. apply N.div_mod. done.
Qed.

(** * Suffixes *)

Lemma suffix_step value c suffix v :
  suffix_value value (String c suffix) = Ok v ↔
  ∃ d, find_char c CHARSET = Some d ∧ suffix_value (N.lor (shl_u32 value 5) d) suffix = Ok v.
Proof. simpl. rewrite bind_Ok. setoid_rewrite or_err_Ok. done. Qed.

Lemma bech32_from_step bytes checksum i :
  i < 52 → bech32_from bytes checksum i =
    String (charset_char (bech32_digit bytes i)) (bech32_from bytes checksum (S i)).
Proof. intros Hi. unfold bech32_from. by replace (52 - i) with (S (52 - S i)) by lia. Qed.

Lemma prefix_step c s x t :
  String.prefix (String c s) (String x t) = bool_decide (x = c) && String.prefix s t.
Proof.
  simpl. destruct (ascii_dec c x) as [->|Hne]; [by rewrite bool_decide_eq_true_2|].
  by rewrite bool_decide_eq_false_2.
Qed.

Lemma pow_mono i : i ≤ 5 → (2 ^ N.of_nat (5 * i) ≤ 2 ^ 27)%N.
Proof. intros Hi. apply N.pow_le_mono_r; lia. Qed.

Lemma suffix_value_bound suffix : ∀ value i v,
  suffix_value value suffix = Ok v → (value < 2 ^ N.of_nat (5 * i))%N → i + String.length suffix ≤ 6 →
  (v < 2 ^ N.of_nat (5 * (i + String.length suffix)))%N.
Proof.
  induction suffix as [|c suffix IH]; intros value i v; [intros [= <-]; by rewrite Nat.add_0_r|].
  intros (d & [Hd _]%find_char_spec & Hs)%suffix_step Hv Hi. simpl in Hi.
  pose proof (pow_mono i) as Hp. rewrite shl_lor in Hs by lia.
  replace (i + String.length (String c suffix)) with (S i + String.length suffix) by (simpl; lia).
  eapply IH; [exact Hs| |lia].
  replace (N.of_nat (5 * S i)) with (N.of_nat (5 * i) + 5)%N by lia. rewrite N.pow_add_r.
  change (2 ^ 5)%N with 32%N. revert Hv Hd. generalize (2 ^ N.of_nat (5 * i))%N. intros m Hv Hd. lia.
Qed.

Lemma suffix_matches bytes checksum suffix : ∀ value i v,
  suffix_value value suffix = Ok v → (value < 2 ^ N.of_nat (5 * i))%N → i + String.length suffix ≤ 6 →
  bool_decide (top (from_be_bytes bytes) (i + String.length suffix) = v) =
  bool_decide (top (from_be_bytes bytes) i = value) &&
  String.prefix suffix (bech32_from bytes checksum i).
Proof.
  induction suffix as [|c suffix IH]; intros value i v.
  { intros [= <-] _ _. rewrite Nat.add_0_r. simpl. destruct (bech32_from _ _ _); by rewrite andb_true_r. }
  intros (d & Hf & Hs)%suffix_step Hv Hi. simpl in Hi. pose proof Hf as [Hd Hc]%find_char_spec.
  pose proof (pow_mono i) as Hp. rewrite shl_lor in Hs by lia.
  replace (i + String.length (String c suffix)) with (S i + String.length suffix) by (simpl; lia).
  erewrite IH; [|exact Hs| |lia].
  - rewrite (bech32_from_step bytes checksum i), prefix_step, andb_assoc, top_succ by lia. f_equal.
    assert (bech32_digit bytes i < 32)%N as Hb by (by apply N.mod_lt).
    rewrite <-bool_decide_and. apply bool_decide_ext. split.
    + intros Heq. assert (top (from_be_bytes bytes) i = value ∧ bech32_digit bytes i = d) as [-> ->] by lia.
      done.
    + intros [-> Hch]. apply (f_equal (λ x, find_char x CHARSET)) in Hch.
      rewrite find_charset_char, Hf in Hch by done. by injection Hch as ->.
  - replace (N.of_nat (5 * S i)) with (N.of_nat (5 * i) + 5)%N by lia. rewrite N.pow_add_r.
    change (2 ^ 5)%N with 32%N. revert Hv Hd. generalize (2 ^ N.of_nat (5 * i))%N. intros m Hv Hd. lia.
Qed.

Lemma target_new_Ok suffix t :
  target_new suffix = Ok t ↔
  1 ≤ String.length suffix ≤ 6 ∧ suffix_value 0 suffix = Ok (target_value t) ∧
  bit_count t = N.of_nat (String.length suffix * 5).
Proof.
  unfold target_new. rewrite bind_Ok. setoid_rewrite bail_if_Ok. setoid_rewrite bind_Ok.
  setoid_rewrite orb_false_iff. setoid_rewrite bool_decide_eq_false.
  assert (String.length suffix ≤ 6 → as_u32 (String.length suffix * 5) = N.of_nat (String.length suffix * 5)) as Hu.
  { intros Hl. unfold as_u32. apply N.mod_small. lia. }
  split.
  - intros ([] & [Ha Hb] & v & Hv & [= <-]). cbn [target_value bit_count]. rewrite Hu by lia.
    split_and!; [lia|lia|done|done].
  - intros (Hl & Hv & Hb). exists (). split; [lia|]. exists (target_value t). split; [done|].
    rewrite Hu by lia. destruct t. cbn in *. by subst.
Qed.

(** The four bytes that are compared hold the first groups. *)
Lemma first_bits bytes k :
  length bytes = 32 → Forall (λ b, b < 256)%N bytes → k ≤ 6 →
  N.shiftr (from_be_bytes (take 4 bytes)) (32 - N.of_nat (k * 5)) = top (from_be_bytes bytes) k.
Proof.
  intros Hl Hb Hk. rewrite N.shiftr_div_pow2. unfold top. rewrite <-(take_drop 4 bytes) at 2.
  rewrite from_be_bytes_app, length_drop, Hl.
  assert (from_be_bytes (drop 4 bytes) < 256 ^ N.of_nat (32 - 4))%N as Hr.
  { pose proof (from_be_bytes_bound (drop 4 bytes)) as Hd. rewrite length_drop, Hl in Hd.
    apply Hd. by apply Forall_drop. }
  change (N.of_nat (32 - 4)) with 28%N in *. change (256 ^ 28)%N with (2 ^ 224)%N in *.
  replace (N.of_nat (256 - 5 * k)) with (224 + (32 - N.of_nat (k * 5)))%N by lia.
  rewrite N.pow_add_r, <-N.Div0.div_div. f_equal.
  rewrite N.div_add_l by done. by rewrite (N.div_small (from_be_bytes _)), N.add_0_r.
Qed.

(** C34: The bit comparison of the vanity search is the comparison of address
    texts.  A suffix that is accepted fits the 32 bits compared; and for every
    output key, the target matches its bytes exactly when the key's Taproot
    address, as BIP173 and BIP350 write it, starts with the expected prefix,
    whatever its checksum. *)
Theorem vanity_match_is_prefix network suffix target prefix bytes checksum :
  target_new suffix = Ok target → expected_prefix network suffix = Ok prefix →
  length bytes = 32 → Forall (λ b, b < 256)%N bytes →
  (5 ≤ bit_count target ≤ 30)%N ∧ (target_value target < 2 ^ bit_count target)%N ∧
  target_matches target bytes = String.prefix prefix (p2tr_text network bytes checksum).
Proof.
  intros (Hl & Hv & Hbc)%target_new_Ok Hpre Hlen Hb. split; [lia|]. split.
  { rewrite Hbc, Nat.mul_comm. apply (suffix_value_bound suffix 0 0); [exact Hv|done|simpl; lia]. }
  unfold target_matches. rewrite Hbc, first_bits by (done || lia).
  rewrite (suffix_matches bytes checksum suffix 0 0) by (done || simpl; lia).
  rewrite bool_decide_eq_true_2.
  - unfold p2tr_text. destruct network; try discriminate Hpre; injection Hpre as <-; reflexivity.
  - unfold top. apply N.div_small. pose proof (from_be_bytes_bound bytes Hb) as Hbd.
    rewrite Hlen in Hbd. exact Hbd.
Qed.

(** The first bytes of a key whose address starts with [bc1pqpzry9...]. *)
Definition toy_vanity_bytes : list N := [0; 68; 50; 20; 199; 66; 84; 182]%N ++ replicate 24 9%N.
Lemma vanity_match_is_prefix_witness :
  target_new "qpzry9" = Ok {| target_value := 1117317; bit_count := 30 |} ∧
  target_matches {| target_value := 1117317; bit_count := 30 |} toy_vanity_bytes = true ∧
  String.prefix "bc1pqpzry9" (p2tr_text Bitcoin toy_vanity_bytes "qqqqqq") = true.
Proof.
  assert (target_new "qpzry9" = Ok {| target_value := 1117317; bit_count := 30 |}) as Ht
    by (vm_compute; reflexivity).
  assert (target_matches {| target_value := 1117317; bit_count := 30 |} toy_vanity_bytes = true) as Hm
    by (vm_compute; reflexivity).
  split; [exact Ht|]. split; [exact Hm|].
  destruct (vanity_match_is_prefix Bitcoin "qpzry9" _ "bc1pqpzry9" toy_vanity_bytes "qqqqqq" Ht eq_refl
    eq_refl ltac:(apply (bool_decide_unpack _); vm_compute; exact I)) as (_ & _ & Heq).
  rewrite <-Heq. exact Hm.
Defined.
