(* ===== verification/Rotation.v ===== *)
(** Rotating the phone's key ([hot_wallet/rotation.rs]): the proposal with its
    pending key, and the activation that archives both generations, moves the
    coins and replaces the phone's files. *)

From S2P Require Import Prelude Bitcoin Types Keys Policy Transactions FileSystem Storage Crypto Social Ceremony CeremonyValidate Recovery ColdWallet HotWallet Phone Vanity.

(** * The database's files

    The SQLite database and its side files are files of their own; the state
    [Db] of the others is theirs together.  A rename takes one away. *)
Class DbFiles `{BdkLib} := {
  (* [Connection::open_in_memory]. *)
  open_in_memory : Db;
  DbFile : Type;
  db_file_exists : string → Db → bool;
  db_rename : string → M Db DbFile;
}.

(** The phone's world with the database files that were archived. *)
Record RotationWorld `{DbFiles, CryptoLib} (B : Type) := {
  rw_world : World B;
  rw_archived : list (Path * DbFile);
}.
Arguments rw_world {_ _ _ _ _} w : rename.
Arguments rw_archived {_ _ _ _ _} w : rename.
Arguments Build_RotationWorld {_ _ _ _ _} _ _ : rename.

Record RotationContext `{BitcoinLib, !KeyLib} := {
  context_old_config : VaultConfig;
  context_utxos : list VaultUtxo;
  context_old_phone : DeviceKeys;
}.

Record VanityPhoneRotation `{BitcoinTypes} := {
  vanity_package : PhoneRotationPackage;
  rotation_attempts : N;
  rotation_worker_count : nat;
  resumed : bool;
}.

Record RotationResult `{BitcoinTypes} := {
  rotation_result_sweep : SweepResult;
  controller_revocation_txid : option Txid;
  hot_wallet_sweep_txid : option Txid;
  rotation_old_address : string;
  rotation_new_address : string;
  new_phone_mnemonic : string;
  renewed_schedule : option Schedule;
}.

Section rotation.
Context `{BitcoinLib, !KeyLib, !BdkLib, !DbFiles, !TxidText, !TweakedLib, CryptoLib,
          !Json VaultConfig, !Json DeviceFile, !Json PublicDeviceFile, !Json BatchManifest,
          !Json Schedule, !Json PolicyPackage, !JsonVec PolicyPackage,
          !Json EncryptedTransaction, !Json EncryptedEmergencyTransaction,
          !Json EncryptedBlob, !Json Transaction, !Json bool, !Json CloudRecoveryBackup}.
Context {B : Type} `{!Blockchain B}.

(** ** A wallet in memory *)

Definition ephemeral (keys : DeviceKeys) : result HotWallet :=
  match open_or_create_with_keys keys open_in_memory with
  | (Ok w, d) => Ok {| wallet := w; db := d |}
  | (Err e, _) => Err e
  | (Panic, _) => Panic
  end.

(** A call on a local wallet. *)
Definition call {A} (m : M HotWallet A) (h : HotWallet) : result (A * HotWallet) :=
  match m h with
  | (Ok a, h') => Ok (a, h')
  | (Err e, _) => Err e
  | (Panic, _) => Panic
  end.
Definition at_fs_local {A} (h : HotWallet) (m : M (FS * HotWallet) A) : M (World B) A := λ w,
  let '(r, (f, _)) := m (w_fs w, h) in (r, Build_World f (w_rng w) (w_db w) (w_chain w)).

Definition proposal_workspace (data_dir : Path) : Path :=
  join data_dir "phone/rotation-policy-proposal".
Definition activation_workspace (data_dir : Path) : Path :=
  join data_dir "phone/rotation-policy-activation".

(** ** Proposing *)

Definition build_renewed_policy (now : Z) (data_dir : Path) (old_config new_config : VaultConfig)
    (new_phone : DeviceKeys) (sweep : CooperativeSweepPackage) : M (World B) PolicyPackage :=
  sweep_psbt ← pure (or_err (psbt_from_str (sweep_psbt sweep)) "invalid rotation sweep PSBT");
  sweep_output ← pure (or_err (head (output (unsigned_tx sweep_psbt)))
                         "rotation sweep has no output");
  let virtual_utxo :=
    {| utxo_outpoint := new_outpoint (compute_txid (unsigned_tx sweep_psbt)) 0;
       utxo_txout := sweep_output; confirmation_height := 0 |} in
  let workspace := proposal_workspace data_dir in
  _ ← at_fs (reset_workspace workspace);
  addresses ← pure (ephemeral new_phone);
  _ ← at_fs_local addresses (build_policy_proposal new_config [virtual_utxo] now
        {| limits_monthly_limit_sats := config_monthly_limit_sats old_config;
           limits_emergency_access_limit_sats := config_emergency_access_limit_sats old_config |}
        workspace new_phone);
  package ← with_fs (λ f, package_from_batch f workspace);
  _ ← at_fs (reset_workspace workspace);
  mret package.

Definition load_rotation_context (data_dir : Path) : M (World B) RotationContext :=
  old_config ← with_fs (λ f, load_config f data_dir);
  _ ← ensure_backend_network old_config;
  utxos ← at_chain (scan_vault old_config);
  old_phone ← with_fs (λ f, load_device_keys f data_dir PHONE_DEVICE_FILE);
  mret {| context_old_config := old_config; context_utxos := utxos;
          context_old_phone := old_phone |}.

Definition build_phone_rotation (now : Z) (data_dir : Path) (context : RotationContext)
    (new_phone : DeviceKeys) : M (World B) PhoneRotationPackage :=
  let old_config := context_old_config context in
  network ← pure (bitcoin_network old_config);
  hww_pubkey ← pure (or_err (key_from_str (hww_vault_pubkey old_config)) "malformed public key");
  new_policy ← pure (vault_new_for_network (vault_pubkey new_phone) hww_pubkey network);
  new_config ← pure (rotated_config old_config new_phone new_policy);
  _ ← at_fs (write_json (join data_dir PENDING_PHONE_ROTATION_FILE)
        {| device_kind := "pending-phone-rotation"; device_network := config_network old_config;
           device_mnemonic := mnemonic_to_string (mnemonic new_phone);
           device_vault_key_index := vault_key_index new_phone |});
  sweep ← pure (Recovery.create_cooperative_sweep old_config (context_utxos context)
                  (vault_address_of new_policy) (context_old_phone context));
  renewed ← (if bool_decide (config_monthly_limit_sats old_config = 0%N)
                && bool_decide (config_emergency_access_limit_sats old_config = 0%N)
             then mret None
             else policy ← build_renewed_policy now data_dir old_config new_config new_phone sweep;
                  mret (Some policy));
  mret {| rotation_version := 1; rotation_kind := "phone-key-rotation";
          old_vault_descriptor := vault_descriptor old_config;
          new_phone_vault_pubkey := key_to_string (vault_pubkey new_phone);
          new_vault_descriptor := vault_descriptor_string new_policy;
          new_vault_address := address_to_string (vault_address_of new_policy);
          rotation_monthly_limit_sats := config_monthly_limit_sats old_config;
          rotation_emergency_access_limit_sats := config_emergency_access_limit_sats old_config;
          rotation_sweep := sweep; renewed_policy := renewed; cloud_recovery_backup := None |}.

Definition create_phone_rotation (now : Z) (data_dir : Path) : M (World B) PhoneRotationPackage :=
  context ← load_rotation_context data_dir;
  network ← pure (bitcoin_network (context_old_config context));
  entropy ← at_rng (draw 32);
  new_phone ← pure (generate_for_network entropy network);
  build_phone_rotation now data_dir context new_phone.

Definition load_pending_vanity_phone (f : FS) (data_dir : Path) (old_config : VaultConfig)
    (hww_pubkey : XOnlyPublicKey) (suffix : string) : result (option (DeviceKeys * string)) :=
  let pending_path := join data_dir PENDING_PHONE_ROTATION_FILE in
  if negb (exists_ f pending_path) then Ok None else
  network ← bitcoin_network old_config;
  pending ← (read_json f pending_path : result DeviceFile);
  _ ← bail_when (Ok (negb (bool_decide (device_kind pending = "pending-phone-rotation")))
                 ||? (n ← device_bitcoin_network pending; !!= (n = network)))
        "existing pending phone rotation is invalid for this vault";
  phone ← parse_for_network_at_index (device_mnemonic pending) network
            (device_vault_key_index pending);
  policy ← vault_new_for_network (vault_pubkey phone) hww_pubkey network;
  prefix ← expected_prefix network suffix;
  let address := address_to_string (vault_address_of policy) in
  _ ← bail_if (negb (String.prefix prefix address))
        "a non-vanity phone rotation is already pending; finish it before starting a vanity rotation";
  mret (Some (phone, address)).

Definition create_vanity_phone_rotation_with_suffix (search : Search) (now : Z) (data_dir : Path)
    (suffix : string) (worker_count : nat) : M (World B) VanityPhoneRotation :=
  context ← load_rotation_context data_dir;
  let old_config := context_old_config context in
  network ← pure (bitcoin_network old_config);
  hww_pubkey ← pure (or_err (key_from_str (hww_vault_pubkey old_config)) "malformed public key");
  pending ← with_fs (λ f, load_pending_vanity_phone f data_dir old_config hww_pubkey suffix);
  found ← match pending with
          | Some (phone, address) => mret (phone, address, 0%N, 0, true)
          | None =>
              v ← grind_vanity_phone_key search network hww_pubkey suffix worker_count;
              mret (vanity_phone v, vanity_key_address v, vanity_key_attempts v,
                    vanity_key_worker_count v, false)
          end;
  let '(new_phone, expected_address, attempts, actual_worker_count, resumed) := found in
  package ← build_phone_rotation now data_dir context new_phone;
  _ ← pure (bail_if (negb (bool_decide (new_vault_address package = expected_address)))
              "vanity rotation address changed while building its proposal");
  mret {| vanity_package := package; rotation_attempts := attempts;
          rotation_worker_count := actual_worker_count; resumed := resumed |}.

Definition create_vanity_phone_rotation (search : Search) (available_parallelism : nat) (now : Z)
    (data_dir : Path) : M (World B) VanityPhoneRotation :=
  create_vanity_phone_rotation_with_suffix search now data_dir VANITY_SUFFIX
    available_parallelism.

(** ** Archives *)

Definition rotation_archive (data_dir : Path) (txid : Txid) : Path :=
  join (join data_dir "history") ("rotation-" +:+ txid_to_string txid).

(** One of the old phone's files, where it exists. *)
Definition preserve_file (data_dir archive : Path) (relative : string) : M (World B) unit :=
  found ← with_fs (λ f, Ok (exists_ f (join data_dir relative)));
  if (found : bool) then
    bytes ← with_fs (λ f, read f (join data_dir relative));
    at_fs (write_private (join archive relative) bytes)
  else mret tt.

Definition preserve_rotation_keys (data_dir archive : Path) (old_config new_config : VaultConfig)
    (pending : DeviceFile) (backup : CloudRecoveryBackup) : M (World B) unit :=
  _ ← at_fs (write_json (join archive CONFIG_FILE) old_config);
  _ ← preserve_file data_dir archive PHONE_DEVICE_FILE;
  _ ← preserve_file data_dir archive PHONE_BACKUP_FILE;
  let replacement := join archive "replacement" in
  _ ← at_fs (write_json (join replacement CONFIG_FILE) new_config);
  _ ← at_fs (write_json (join replacement PHONE_DEVICE_FILE) pending);
  at_fs (write_json (join replacement PHONE_BACKUP_FILE) backup).

Definition on_world {A} (m : M (World B) A) : M (RotationWorld B) A := λ w,
  let '(r, w') := m (rw_world w) in (r, Build_RotationWorld w' (rw_archived w)).

(** One name of the old epoch: a file or directory, or one of the database's
    files. *)
Definition archive_path (data_dir archive : Path) (relative : string) : M (World B) unit :=
  found ← with_fs (λ f, Ok (exists_ f (join data_dir relative)));
  if (found : bool) then
    _ ← at_fs (create_dir_all (parent (join archive relative)));
    at_fs (rename (join data_dir relative) (join archive relative))
  else mret tt.
Definition archive_db_file (archive : Path) (relative : string) : M (RotationWorld B) unit := λ w,
  if negb (db_file_exists relative (w_db (rw_world w))) then (Ok tt, w) else
  match on_world (at_fs (create_dir_all (parent (join archive relative)))) w with
  | (Ok _, w) =>
      match db_rename relative (w_db (rw_world w)) with
      | (Ok file, d) =>
          (Ok tt, Build_RotationWorld
             (Build_World (w_fs (rw_world w)) (w_rng (rw_world w)) d (w_chain (rw_world w)))
             (rw_archived w ++ [(join archive relative, file)]))
      | (Err e, d) =>
          (Err "failed to archive obsolete state", Build_RotationWorld
             (Build_World (w_fs (rw_world w)) (w_rng (rw_world w)) d (w_chain (rw_world w)))
             (rw_archived w))
      | (Panic, d) => (Panic, w)
      end
  | failed => failed
  end.

Definition archive_old_epoch (data_dir : Path) (old_config : VaultConfig) (txid : Txid)
    : M (RotationWorld B) unit :=
  let archive := rotation_archive data_dir txid in
  _ ← on_world (at_fs (create_dir_all archive));
  _ ← on_world (at_fs (write_json (join archive CONFIG_FILE) old_config));
  _ ← on_world (archive_path data_dir archive SCHEDULE_FILE);
  _ ← on_world (archive_path data_dir archive "phone/transactions");
  _ ← on_world (archive_path data_dir archive DEFAULT_BATCH_DIR);
  _ ← archive_db_file archive "phone/hot-wallet.sqlite-wal";
  _ ← archive_db_file archive "phone/hot-wallet.sqlite-shm";
  archive_db_file archive "phone/hot-wallet.sqlite".

(** ** Activating *)

(** The renewed policy's addresses, in order, are the wallet's next ones. *)
Fixpoint next_addresses_are (expected : list string) (msg : string) : M HotWallet unit :=
  match expected with
  | [] => mret tt
  | a :: expected' =>
      address ← hot_next_receive_address;
      _ ← pure (bail_if (negb (bool_decide (address_to_string address = a))) msg);
      next_addresses_are expected' msg
  end.
Definition hot_addresses (emergency_msg allowance_msg : string) (renewed : PolicyPackage)
    : M HotWallet unit :=
  _ ← match emergency_access (package_manifest renewed) with
      | Some e => next_addresses_are [emergency_hot_address e] emergency_msg
      | None => mret tt
      end;
  next_addresses_are (step_hot_address <$> allowances (package_manifest renewed)) allowance_msg.

Definition validate_rotation_hot_addresses (new_phone : DeviceKeys) (renewed : PolicyPackage)
    : result unit :=
  addresses ← ephemeral new_phone;
  _ ← call (hot_addresses
              "renewed emergency access does not use the new phone's address sequence"
              "renewed allowance policy does not use the new phone's address sequence" renewed)
        addresses;
  mret tt.

(** The renewed policy, laid out in a workspace and validated. *)
Definition check_renewed_policy (data_dir : Path) (old_config new_config : VaultConfig)
    (new_phone : DeviceKeys) (sweep : CooperativeSweepPackage) (policy : PolicyPackage)
    : M (World B) unit :=
  let workspace := activation_workspace data_dir in
  _ ← pure (bail_if (negb (hww_approved (package_manifest policy)))
              "HWW approval is missing from the renewed vault policy");
  _ ← at_fs (reset_workspace workspace);
  _ ← at_fs (materialize_policy_package policy workspace);
  _ ← with_fs (λ f, validate_approved_batch new_config (package_manifest policy) f workspace);
  _ ← pure (validate_rotation_policy_binding old_config new_config sweep policy);
  pure (validate_rotation_hot_addresses new_phone policy).

(** What a prepared rotation goes on with. *)
Record Prepared := {
  prepared_old_config : VaultConfig;
  prepared_new_config : VaultConfig;
  prepared_new_phone : DeviceKeys;
  prepared_old_phone : DeviceKeys;
  prepared_backup : CloudRecoveryBackup;
  prepared_pending : DeviceFile;
  prepared_archive : Path;
}.

(** The checks, and both generations in the archive. *)
Definition prepare_rotation (data_dir : Path) (package : PhoneRotationPackage)
    : M (World B) Prepared :=
  validated ← with_fs (λ f, validate_phone_rotation f data_dir package);
  let '(old_config, new_config, new_phone) := validated in
  _ ← ensure_backend_network old_config;
  old_phone ← with_fs (λ f, load_device_keys f data_dir PHONE_DEVICE_FILE);
  backup ← pure (or_err (cloud_recovery_backup package)
                   "HWW-approved phone backup is missing from the rotation package");
  _ ← pure (bail_if (negb (sweep_hww_approved (rotation_sweep package)))
              "HWW approval is missing from the rotation package");
  pending ← with_fs (λ f, read_json f (join data_dir PENDING_PHONE_ROTATION_FILE)
                          : result DeviceFile);
  _ ← match renewed_policy package with
      | Some policy => check_renewed_policy data_dir old_config new_config new_phone
                         (rotation_sweep package) policy
      | None => mret tt
      end;
  psbt ← pure (or_err (psbt_from_str (sweep_psbt (rotation_sweep package))) "invalid PSBT");
  let archive := rotation_archive data_dir (compute_txid (unsigned_tx psbt)) in
  _ ← preserve_rotation_keys data_dir archive old_config new_config pending backup;
  mret {| prepared_old_config := old_config; prepared_new_config := new_config;
          prepared_new_phone := new_phone; prepared_old_phone := old_phone;
          prepared_backup := backup; prepared_pending := pending; prepared_archive := archive |}.

(** The everyday wallet's coins go to the new phone. *)
Definition sweep_hot_wallet (data_dir archive : Path) (hot_destination : Address)
    : M (World B) (option Txid) :=
  old_hot ← open_hot data_dir;
  synced ← at_hot_chain old_hot sync_hot_wallet;
  swept ← at_hot synced.2 (build_sweep (address_script_pubkey hot_destination));
  match (swept.1 : option Transaction) with
  | Some transaction =>
      _ ← at_fs (write_json (join archive "hot-wallet-sweep.json") transaction);
      let expected := compute_txid transaction in
      actual ← at_chain (broadcast transaction);
      _ ← pure (bail_if (negb (bool_decide (actual = expected)))
                  "chain backend returned an unexpected hot sweep transaction ID");
      mret (Some expected)
  | None => mret None
  end.

(** The old epoch's connectors are spent to the new phone's wallet. *)
Definition revoke_old_controllers (old_config : VaultConfig) (old_phone : DeviceKeys)
    (replacement_wallet : HotWallet) : M (World B) (option (Address * Txid)) :=
  old_connectors ← at_chain (scan_connectors old_config);
  if bool_decide (old_connectors = []) then mret None else
  destination ← pure (call next_change_address replacement_wallet);
  phone_pubkey ← pure (or_err (key_from_str (phone_vault_pubkey old_config)) "malformed public key");
  hww_pubkey ← pure (or_err (key_from_str (hww_vault_pubkey old_config)) "malformed public key");
  network ← pure (bitcoin_network old_config);
  controller ← pure (controller_new_for_network phone_pubkey hww_pubkey network);
  built ← pure (build_controller_revocation_psbt old_connectors
                  (address_script_pubkey destination.1) DEFAULT_FEE_RATE_SAT_VB controller);
  psbt ← pure (exec (sign_controller_psbt_inputs controller PhonePath (vault_keypair old_phone)
                       (seq 0 (length (inputs built.1)))) built.1);
  transaction ← pure (finalize_vault_psbt psbt);
  let expected := compute_txid transaction in
  actual ← at_chain (broadcast transaction);
  _ ← pure (bail_if (negb (bool_decide (actual = expected)))
              "chain backend returned an unexpected controller revocation transaction ID");
  mret (Some (destination.1, expected)).

(** The phone's files become those of the new generation. *)
Definition replace_phone_files (data_dir : Path) (p : Prepared) : M (World B) unit :=
  let new_config := prepared_new_config p in
  _ ← at_fs (write_json (join data_dir CONFIG_FILE) new_config);
  _ ← at_fs (write_json (join data_dir PHONE_DEVICE_FILE)
        {| device_kind := "phone"; device_network := config_network new_config;
           device_mnemonic := device_mnemonic (prepared_pending p);
           device_vault_key_index := device_vault_key_index (prepared_pending p) |});
  at_fs (write_json (join data_dir PHONE_BACKUP_FILE) (prepared_backup p)).

(** The new phone's wallet must reveal the addresses that were used. *)
Definition check_new_wallet (data_dir : Path) (hot_destination : Address)
    (revoked : option (Address * Txid)) (renewed : option PolicyPackage) : M (World B) unit :=
  hot ← open_hot data_dir;
  _ ← at_hot hot (
    change ← next_change_address;
    _ ← pure (bail_if (negb (bool_decide (address_to_string change
                                          = address_to_string hot_destination)))
                "hot sweep destination does not match the replacement phone wallet");
    _ ← match revoked with
        | Some (expected, _) =>
            change ← next_change_address;
            pure (bail_if (negb (bool_decide (address_to_string change = address_to_string expected)))
                    "replacement controller change does not match the new phone wallet")
        | None => mret tt
        end;
    match renewed with
    | Some policy =>
        hot_addresses "renewed emergency access does not match the new phone address sequence"
          "renewed allowance policy does not match the new phone address sequence" policy
    | None => mret tt
    end);
  mret tt.

Definition finish_rotation (data_dir : Path) (renewed : option PolicyPackage)
    : M (World B) (option Schedule) :=
  schedule ← match renewed with
             | Some _ => s ← activate_policy data_dir (activation_workspace data_dir); mret (Some s)
             | None => mret None
             end;
  _ ← at_fs (reset_workspace (activation_workspace data_dir));
  let pending_path := join data_dir PENDING_PHONE_ROTATION_FILE in
  found ← with_fs (λ f, Ok (exists_ f pending_path));
  _ ← (if (found : bool) then at_fs (remove_file pending_path) else mret tt);
  mret schedule.

(** From the prepared rotation on: the coins, the archive, the files. *)
Definition complete_rotation (data_dir : Path) (package : PhoneRotationPackage) (p : Prepared)
    : M (RotationWorld B) RotationResult :=
  replacement_wallet ← pure (ephemeral (prepared_new_phone p));
  destination ← pure (call next_change_address replacement_wallet);
  let '(hot_destination, replacement_wallet) := (destination : Address * HotWallet) in
  hot_sweep ← on_world (sweep_hot_wallet data_dir (prepared_archive p) hot_destination);
  revoked ← on_world (revoke_old_controllers (prepared_old_config p) (prepared_old_phone p)
                        replacement_wallet);
  sweep ← on_world (broadcast_cooperative_sweep_for_config (prepared_old_config p)
                      (rotation_sweep package));
  _ ← archive_old_epoch data_dir (prepared_old_config p) (result_txid sweep);
  _ ← on_world (replace_phone_files data_dir p);
  _ ← on_world (check_new_wallet data_dir hot_destination revoked (renewed_policy package));
  schedule ← on_world (finish_rotation data_dir (renewed_policy package));
  mret {| rotation_result_sweep := sweep; controller_revocation_txid := snd <$> revoked;
          hot_wallet_sweep_txid := hot_sweep;
          rotation_old_address := vault_address (prepared_old_config p);
          rotation_new_address := vault_address (prepared_new_config p);
          new_phone_mnemonic := device_mnemonic (prepared_pending p);
          renewed_schedule := schedule |}.

Definition activate_phone_rotation (data_dir : Path) (package : PhoneRotationPackage)
    : M (RotationWorld B) RotationResult :=
  p ← on_world (prepare_rotation data_dir package);
  complete_rotation data_dir package p.
End rotation.
