(* ===== verification/Preserve.v ===== *)
(** Steps that leave a file with its content: the lemmas that follow a run of
    file-system calls and say that one file is still what it was. *)

From S2P Require Import Prelude Bitcoin Types Keys Policy Transactions FileSystem Storage Crypto Social Ceremony CeremonyValidate CeremonyBuild Recovery ColdWallet HotWallet Phone PhonePaths PhoneActivation Rotation.

(** * Steps on a state with files *)

Section preserves.
Context {S : Type} (fs : S → FS).

(** A step of the process of [f0] keeps the content [s] of the file [k]. *)
Definition preserves (f0 : FS) (k : Key) (s : string) {A} (m : M S A) : Prop :=
  ∀ w r w', same_env f0 (fs w) → m w = (r, w') →
    same_env f0 (fs w') ∧ (file_at (fs w) k = Some s → file_at (fs w') k = Some s).

Context (f0 : FS) (k : Key) (s : string).

Lemma pres_pure {A} (r : result A) : preserves f0 k s (pure r).
Proof. by intros w r' w' He [= <- <-]. Qed.
Lemma pres_ret {A} (a : A) : preserves f0 k s (mret a).
Proof. by intros w r' w' He [= <- <-]. Qed.
Lemma pres_bind {A C} (m : M S A) (g : A → M S C) :
  preserves f0 k s m → (∀ a, preserves f0 k s (g a)) → preserves f0 k s (a ← m; g a).
Proof.
  intros Hm Hg w r w' He. unfold mbind, M_bind. destruct (m w) as [[a|e|] w1] eqn:Hrun.
  - intros Hrun2. destruct (Hm _ _ _ He Hrun) as [He1 Hf1].
    destruct (Hg a w1 r w' He1 Hrun2) as [He2 Hf2]. split; [done|]. by intros ?%Hf1%Hf2.
  - intros [= <- <-]. by eapply Hm.
  - intros [= <- <-]. by eapply Hm.
Qed.
Lemma pres_get_bind {C} (g : S → M S C) :
  (∀ a, preserves f0 k s (g a)) → preserves f0 k s (a ← get; g a).
Proof. intros Hg. apply pres_bind; [by intros w r w' He [= <- <-]|done]. Qed.
Lemma pres_for_each {A} (g : A → M S unit) l :
  Forall (λ a, preserves f0 k s (g a)) l → preserves f0 k s (for_eachM g l).
Proof. induction 1; simpl; [apply pres_ret|]. by apply pres_bind. Qed.
End preserves.

(** * Calls on files *)

Section files.
Context (f0 : FS) (k : Key) (s : string).
Local Abbreviation pres := (preserves id f0 k s).

Lemma pres_create_dir_all p : pres (create_dir_all p).
Proof.
  intros f r f' He. unfold create_dir_all, get, mbind, M_bind.
  intros (Henv & _ & Hk)%create_key_run. split; [destruct He, Henv; split; cbn in *; congruence|].
  intros Hf. rewrite <-Hf. by apply (node_kept_file _ _ _ _ (Hk k)).
Qed.

Lemma pres_write_private p bytes :
  k ≠ resolve f0 p ∨ bytes = s → pres (write_private p bytes).
Proof.
  intros Hk f r f' He. unfold id in *. intros (Henv & _ & Ho & Hw)%write_private_files.
  split; [destruct He, Henv; split; cbn in *; congruence|]. intros Hf. cbn in *.
  rewrite <-(resolve_env _ _ p He) in Hk.
  destruct (decide (k = resolve f p)) as [->|Hne]; [|by rewrite Ho].
  destruct Hk as [Hk|<-]; [done|]. destruct Hw as [Hw|[_ Hw]]; [done|]. by rewrite Hw.
Qed.

Lemma pres_write_json `{Json A} p (a : A) :
  k ≠ resolve f0 p ∨ to_vec_pretty a = Some s → pres (write_json p a).
Proof.
  intros Hk. unfold write_json. destruct (to_vec_pretty a) as [bytes|] eqn:Ha; simpl.
  - intros f r f' He Hrun. eapply (pres_write_private p bytes); [|exact He|exact Hrun].
    destruct Hk as [Hk|[= ->]]; [by left|by right].
  - by intros f r f' He [= <- <-].
Qed.

Lemma below_prefix a x : below a x = true ↔ a `prefix_of` x.
Proof.
  unfold below. rewrite bool_decide_eq_true. split.
  - intros <-. apply prefix_take.
  - intros [l ->]. apply take_app_length.
Qed.

Lemma filter_kept (P : Key * Node → Prop) `{!∀ e, Decision (P e)} (n : gmap Key Node) x :
  (∀ nd, P (x, nd)) → filter P n !! x = n !! x.
Proof.
  intros HP. rewrite map_lookup_filter. destruct (n !! x); simpl; [|done].
  by rewrite option_guard_True.
Qed.

Lemma file_at_nodes f : k ≠ [] → file_at f k = match nodes f !! k with Some (File c) => Some c | _ => None end.
Proof. by destruct k. Qed.

Lemma pres_remove_dir_all p : below (resolve f0 p) k = false → pres (remove_dir_all p).
Proof.
  intros Hk f r f' He. unfold id in *. unfold remove_dir_all, get, pure, put, mbind, M_bind. simpl.
  destruct (_ || _); simpl; [by intros [= <- <-]|]. intros [= <- <-]. split; [exact He|].
  destruct (decide (k = [])) as [->|Hne]; [done|]. cbn. rewrite !file_at_nodes by done. cbn.
  rewrite (resolve_env _ _ p He). intros Hf. rewrite filter_kept; [exact Hf|].
  intros nd. cbn. unfold below in Hk. by apply bool_decide_eq_false in Hk.
Qed.

Lemma pres_reset_workspace p : below (resolve f0 p) k = false → pres (reset_workspace p).
Proof.
  intros Hk. apply pres_get_bind. intros f. destruct (exists_ f p); [by apply pres_remove_dir_all|].
  apply pres_ret.
Qed.

Lemma pres_remove_file p : k ≠ resolve f0 p → pres (remove_file p).
Proof.
  intros Hk f r f' He. unfold id in *. unfold remove_file, get, pure, put, mbind, M_bind. simpl.
  destruct (_ || _); simpl; [by intros [= <- <-]|]. intros [= <- <-]. split; [exact He|].
  destruct (decide (k = [])) as [->|Hne]; [done|]. cbn. rewrite !file_at_nodes by done. cbn.
  rewrite (resolve_env _ _ p He), lookup_delete_ne by done. done.
Qed.

Lemma moved_lookup a b n x :
  below a x = false → below b x = false → moved a b n !! x = n !! x.
Proof.
  intros Ha Hb. unfold moved. rewrite lookup_union_r.
  - rewrite filter_kept; [done|]. intros nd. exact Ha.
  - apply not_elem_of_list_to_map. rewrite <-list_fmap_compose. intros Hin.
    apply list_elem_of_fmap in Hin as ([y nd] & -> & _). cbn in Hb.
    assert (below b (b ++ drop (length a) y) = true) as Ht by (apply below_prefix; by eexists).
    congruence.
Qed.

Lemma pres_rename p q :
  below (resolve f0 p) k = false → below (resolve f0 q) k = false → pres (rename p q).
Proof.
  intros Hp Hq f r f' He. unfold id in *. unfold rename, get, pure, put, mbind, M_bind. simpl.
  destruct (rename_fails _ _ _); simpl; [by intros [= <- <-]|]. intros [= <- <-]. split; [exact He|].
  destruct (decide (k = [])) as [->|Hne]; [done|]. cbn. rewrite !file_at_nodes by done. cbn.
  rewrite !(resolve_env _ _ _ He), moved_lookup by done. done.
Qed.

Lemma join_normal p t :
  is_absolute t = false → forallb is_normal (components t) = true →
  ∃ names, resolve f0 (join p t) = resolve f0 p ++ names.
Proof.
  intros Ha Hn. assert (∃ names, components t = Normal <$> names) as [names Hc].
  { revert Hn. generalize (components t). intros l. induction l as [|c l IH]; [by exists []|].
    simpl. intros [Hc Hl]%andb_true_iff. destruct (IH Hl) as [names ->].
    destruct c; try discriminate Hc. by exists (name :: names). }
  exists names. by apply resolve_join.
Qed.

Lemma pres_materialize `{BitcoinTypes, !Json BatchManifest} p b :
  below (resolve f0 b) k = false → pres (materialize_policy_package p b).
Proof.
  intros Hk.
  assert (∀ names, k ≠ resolve f0 b ++ names) as Hne.
  { intros names ->. assert (below (resolve f0 b) (resolve f0 b ++ names) = true) as Ht
      by (apply below_prefix; by eexists). congruence. }
  unfold materialize_policy_package. apply pres_bind; [apply pres_pure|]. intros _.
  apply pres_bind.
  { apply pres_get_bind. intros f. destruct (exists_ f b); [apply pres_pure|apply pres_ret]. }
  intros _. cbv zeta. apply pres_bind; [apply pres_pure|]. intros _.
  apply pres_bind; [apply pres_create_dir_all|]. intros _.
  apply pres_bind.
  { apply pres_write_json. left. rewrite (resolve_join f0 b "manifest.json" ["manifest.json"]) by done.
    apply Hne. }
  intros _. apply pres_for_each. apply Forall_true. intros [relative psbt]. unfold write_package_psbt.
  intros f r f' He. unfold pure, mbind, M_bind.
  destruct (is_absolute relative || negb (forallb is_normal (components relative))) eqn:Hu; simpl;
    [by intros [= <- <-]|].
  apply orb_false_iff in Hu as [Ha Hn%negb_false_iff].
  intros Hrun. eapply pres_write_private; [left|exact He|exact Hrun].
  destruct (join_normal b relative Ha Hn) as [names ->]. apply Hne.
Qed.
End files.

(** * Calls on the phone's world *)

Section world.
Context `{BitcoinLib, !KeyLib, !BdkLib, CryptoLib, !Json DeviceFile} {B : Type}.
Context (f0 : FS) (k : Key) (s : string).
Local Abbreviation pres := (preserves (@w_fs _ _ _ B) f0 k s).

Lemma pres_at_fs {A} (m : M FS A) : preserves id f0 k s m → pres (at_fs m).
Proof.
  intros Hm w r w' He. unfold at_fs. destruct (m (w_fs w)) as [r' f'] eqn:Hrun.
  intros [= <- <-]. by eapply Hm.
Qed.
Lemma pres_with_fs {A} (g : FS → result A) : pres (with_fs g).
Proof. by intros w r w' He [= <- <-]. Qed.
Lemma pres_at_rng {A} (m : M Rng A) : pres (at_rng m).
Proof. intros w r w' He. unfold at_rng. destruct (m _). by intros [= <- <-]. Qed.
Lemma pres_at_chain {A} (m : M B A) : pres (at_chain m).
Proof. intros w r w' He. unfold at_chain. destruct (m _). by intros [= <- <-]. Qed.
Lemma pres_at_hot {A} bw (m : M HotWallet A) : pres (at_hot bw m).
Proof. intros w r w' He. unfold at_hot. destruct (m _). by intros [= <- <-]. Qed.
Lemma pres_at_hot_chain {A} bw (m : M (HotWallet * B) A) : pres (at_hot_chain bw m).
Proof. intros w r w' He. unfold at_hot_chain. destruct (m _) as [? [? ?]]. by intros [= <- <-]. Qed.

Lemma pres_open_hot d : pres (open_hot d).
Proof.
  assert (preserves (fst : FS * Db → FS) f0 k s (open_or_create d)) as Ho.
  { unfold open_or_create. apply pres_get_bind. intros st. apply pres_bind; [apply pres_pure|]. intros keys.
    apply pres_bind.
    { intros w r w' He. unfold on_fs. destruct (create_dir_all _ w.1) as [r' f'] eqn:Hrun.
      intros [= <- <-]. by eapply pres_create_dir_all. }
    intros _. apply pres_get_bind. intros st'. apply pres_bind; [apply pres_pure|]. intros _.
    intros w r w' He. unfold on_hot. destruct (open_or_create_with_keys keys w.2) as [r' d'].
    by intros [= <- <-]. }
  intros w r w' He. unfold open_hot. destruct (open_or_create d (w_fs w, w_db w)) as [r' [f' d']] eqn:Hrun.
  intros [= <- <-]. exact (Ho (w_fs w, w_db w) r' (f', d') He Hrun).
Qed.
End world.

(** Following a run of calls. *)
Create HintDb preserve.
#[export] Hint Resolve pres_pure pres_ret pres_with_fs pres_at_rng pres_at_chain pres_at_hot
  pres_at_hot_chain pres_open_hot pres_create_dir_all pres_at_fs : preserve.
Ltac pres_step :=
  match goal with
  | |- preserves _ _ _ _ (_ ← _; _) => apply pres_bind; [|intros ?]
  | |- preserves _ _ _ _ (match ?x with _ => _ end) => destruct x
  | |- _ => solve [auto with preserve]
  end.
