(* ===== verification/RotationFacts.v ===== *)
(** A rotation keeps both generations of the phone's key: once any coin can
    have moved, the old and the new configuration and key are in the archive,
    and no later step of the rotation takes them away. *)

From S2P Require Import Prelude Bitcoin Types Keys Policy Transactions FileSystem Storage Crypto Social Ceremony CeremonyValidate CeremonyBuild Recovery ColdWallet HotWallet Phone PhonePaths PhoneActivation PhoneBroadcast Vanity Rotation Preserve.

(** * Steps that do not reach the backend *)

Section offline.
Context `{BitcoinLib, !KeyLib, !BdkLib, CryptoLib} {B : Type}.

Definition offline {A} (m : M (World B) A) : Prop :=
  ∀ w r w', m w = (r, w') → w_chain w' = w_chain w.

Lemma off_pure {A} (r : result A) : offline (pure r).
Proof. by intros w r' w' [= _ <-]. Qed.
Lemma off_ret {A} (a : A) : offline (mret a).
Proof. by intros w r' w' [= _ <-]. Qed.
Lemma off_with_fs {A} (g : FS → result A) : offline (with_fs g).
Proof. by intros w r' w' [= _ <-]. Qed.
Lemma off_at_fs {A} (m : M FS A) : offline (at_fs m).
Proof. intros w r w'. unfold at_fs. destruct (m _). by intros [= _ <-]. Qed.
Lemma off_bind {A C} (m : M (World B) A) (g : A → M (World B) C) :
  offline m → (∀ a, offline (g a)) → offline (a ← m; g a).
Proof.
  intros Hm Hg w r w'. unfold mbind, M_bind. destruct (m w) as [[a|e|] w1] eqn:Hrun.
  - intros Hr. rewrite (Hg _ _ _ _ Hr). by eapply Hm.
  - intros [= _ <-]. by eapply Hm.
  - intros [= _ <-]. by eapply Hm.
Qed.
End offline.

Section rotation.
Context `{BitcoinLib, !KeyLib, !BdkLib, !DbFiles, !TxidText, !TweakedLib, CryptoLib,
          !Json VaultConfig, !Json DeviceFile, !Json PublicDeviceFile, !Json BatchManifest,
          !Json Schedule, !Json PolicyPackage, !JsonVec PolicyPackage,
          !Json EncryptedTransaction, !Json EncryptedEmergencyTransaction,
          !Json EncryptedBlob, !Json Transaction, !Json bool, !Json CloudRecoveryBackup}.
Context {B : Type} `{!Blockchain B} `{Names : !TxidTextLaws}.
Implicit Types (d : Path) (t : Txid).

(** ** Names *)

Definition history_key (f : FS) d (l : Key) : Key := resolve f d ++ "history" :: l.
Definition archive_name t : string := "rotation-" +:+ txid_to_string t.

Lemma is_name_archive t : is_name (archive_name t).
Proof using Names. apply name_app; [done|simpl; lia|]. by destruct (txid_name t). Qed.

Lemma resolve_archive f d t : resolve f (rotation_archive d t) = history_key f d [archive_name t].
Proof using Names.
  unfold rotation_archive. rewrite resolve_name by apply is_name_archive.
  rewrite (resolve_join f d _ ["history"]) by done. by rewrite <-app_assoc.
Qed.

Lemma resolve_in_archive f d t x names :
  is_absolute x = false → components x = Normal <$> names →
  resolve f (join (rotation_archive d t) x) = history_key f d (archive_name t :: names).
Proof using Names.
  intros Ha Hc. rewrite (resolve_join _ _ _ names), resolve_archive by done.
  unfold history_key. by rewrite <-app_assoc.
Qed.

(** The archived files that the theorem is about. *)
Definition archived_names : list Key :=
  [["anzen.json"]; ["phone"; "device.json"]; ["replacement"; "anzen.json"];
   ["replacement"; "phone"; "device.json"]].
Definition archive_key (f : FS) d t (l : Key) : Key := history_key f d (archive_name t :: l).

Lemma not_history f d x l m : x ≠ "history" → history_key f d m ≠ resolve f d ++ x :: l.
Proof using. intros Hx [=]%app_inv_head. congruence. Qed.

Lemma not_below_history f d x l m : x ≠ "history" → below (resolve f d ++ x :: l) (history_key f d m) = false.
Proof using.
  intros Hx. apply not_true_iff_false. rewrite below_prefix. intros [r Hr].
  unfold history_key in Hr. rewrite <-app_assoc in Hr. apply app_inv_head in Hr. injection Hr. congruence.
Qed.

(** Below a name of the archive, another archived file is not. *)
Lemma not_below_archived f d t t' l p :
  ¬ p `prefix_of` l → below (history_key f d (archive_name t' :: p)) (archive_key f d t l) = false.
Proof using.
  intros Hp. apply not_true_iff_false. rewrite below_prefix. intros [r Hr].
  unfold archive_key, history_key in Hr. rewrite <-app_assoc in Hr. apply app_inv_head in Hr.
  injection Hr as _ ->. apply Hp. by eexists.
Qed.

(** ** Steps outside the archive *)

Section outside.
Context (f0 : FS) (d : Path) (m : Key) (s : string).
Local Abbreviation pres := (preserves (@w_fs _ _ _ B) f0 (history_key f0 d m) s).

Lemma pres_write_names `{Json A} x n names (a : A) :
  is_absolute x = false → components x = Normal <$> n :: names → n ≠ "history" →
  pres (at_fs (write_json (join d x) a)).
Proof using.
  intros Ha Hc Hn. apply pres_at_fs, pres_write_json. left.
  rewrite (resolve_join _ _ _ (n :: names)) by done. by apply not_history.
Qed.

Lemma pres_write_epoch `{Json A} t x (a : A) :
  is_name x → pres (at_fs (write_json (join (epoch_dir_of d t) x) a)).
Proof using Names.
  intros Hx. apply pres_at_fs, pres_write_json. left.
  rewrite resolve_name, resolve_epoch by done. unfold epoch_key. rewrite <-app_assoc.
  by apply not_history.
Qed.

Lemma pres_limits a b : preserves id f0 (history_key f0 d m) s (set_policy_limits d a b).
Proof using.
  unfold set_policy_limits. apply pres_get_bind. intros f.
  apply pres_bind; [apply pres_pure|]. intros c. cbv zeta. apply pres_bind; [|intros; apply pres_ret].
  apply pres_write_json. left. unfold config_path.
  repeat case_match; rewrite ?resolve_current, ?resolve_legacy; by apply not_history.
Qed.

Lemma pres_workspace : preserves id f0 (history_key f0 d m) s (reset_workspace (activation_workspace d)).
Proof using.
  apply pres_reset_workspace. unfold activation_workspace.
  rewrite (resolve_join _ _ _ ["phone"; "rotation-policy-activation"]) by done.
  by apply not_below_history.
Qed.

Lemma pres_stage_allowances t b phone l :
  pres (stage_allowances d (epoch_dir_of d t) b phone l).
Proof using Names.
  induction l as [|a l IH]; [apply pres_ret|]. simpl.
  apply pres_bind; [|intros e; apply pres_bind; [exact IH|intros r; apply pres_ret]].
  unfold stage_allowance. pres_step; [auto with preserve|].
  apply pres_bind.
  { apply pres_bind; [auto with preserve|]. intros blob. apply pres_write_epoch. apply (allowance_name _ Authorization). }
  intros _. repeat pres_step.
Qed.

Lemma pres_stage_emergency t b phone x :
  pres (stage_emergency d (epoch_dir_of d t) b phone x).
Proof using Names.
  unfold stage_emergency. do 2 (pres_step; [auto with preserve|]).
  do 2 (apply pres_bind;
    [apply pres_bind; [auto with preserve|]; intros blob; apply pres_write_epoch, emergency_name|intros _]).
  repeat pres_step.
Qed.

Lemma pres_stage_epoch t b phone mf tx : pres (stage_epoch d (epoch_dir_of d t) b phone mf tx).
Proof using Names.
  unfold stage_epoch. do 3 (pres_step; [auto with preserve|]).
  do 2 (apply pres_bind; [by apply pres_write_epoch|intros _]).
  apply pres_bind; [apply pres_stage_allowances|]. intros entries.
  apply pres_bind; [destruct (emergency_access mf); [apply pres_bind; [apply pres_stage_emergency|]; intros; apply pres_ret|apply pres_ret]|].
  intros em. cbv zeta. apply pres_bind; [by apply pres_write_epoch|]. intros _. apply pres_ret.
Qed.

Lemma pres_activate_schedule t previous u mf schedule :
  pres (activate_schedule d (epoch_dir_of d t) previous u mf schedule).
Proof using Names.
  unfold activate_schedule. apply pres_bind.
  { destruct previous as [t'|]; [|apply pres_ret]. destruct (bool_decide (t' = u)); [apply pres_ret|].
    by apply pres_write_epoch. }
  intros _. apply pres_bind.
  { by apply (pres_write_names SCHEDULE_FILE "phone" ["schedule.json"]). }
  intros _. apply pres_bind; [apply pres_at_fs, pres_limits|]. intros _. by apply pres_write_epoch.
Qed.

Lemma pres_activate b : pres (activate_policy d b).
Proof using Names.
  unfold activate_policy. apply pres_bind; [auto with preserve|]. intros config.
  apply pres_bind; [by intros w r w' He [= <- <-]|]. intros _.
  do 5 (apply pres_bind; [auto with preserve|intros ?]). cbv zeta.
  do 2 (apply pres_bind; [auto with preserve|intros ?]).
  apply pres_bind; [apply pres_stage_epoch|]. intros schedule.
  apply pres_bind; [auto with preserve|]. intros t. apply pres_bind; [auto with preserve|]. intros _.
  apply pres_bind; [apply pres_activate_schedule|]. intros _. apply pres_ret.
Qed.

Lemma pres_finish renewed : pres (finish_rotation d renewed).
Proof using Names.
  unfold finish_rotation. apply pres_bind.
  { destruct renewed; [apply pres_bind; [apply pres_activate|]; intros; apply pres_ret|apply pres_ret]. }
  intros schedule. apply pres_bind; [apply pres_at_fs, pres_workspace|]. intros _. cbv zeta.
  apply pres_bind; [auto with preserve|]. intros found. apply pres_bind; [|intros; apply pres_ret].
  destruct found; [|apply pres_ret]. apply pres_at_fs, pres_remove_file.
  rewrite (resolve_join _ _ _ ["phone"; "pending-rotation.json"]) by done. by apply not_history.
Qed.

Lemma pres_replace p : pres (replace_phone_files d p).
Proof using.
  unfold replace_phone_files. cbv zeta.
  apply pres_bind; [by apply (pres_write_names CONFIG_FILE "anzen.json" [])|]. intros _.
  apply pres_bind; [by apply (pres_write_names PHONE_DEVICE_FILE "phone" ["device.json"])|]. intros _.
  by apply (pres_write_names PHONE_BACKUP_FILE "cloud" ["phone-seed-backup.json"]).
Qed.

Lemma pres_check_wallet a revoked renewed : pres (check_new_wallet d a revoked renewed).
Proof using. unfold check_new_wallet. repeat (apply pres_bind; [auto with preserve|intros ?]). apply pres_ret. Qed.

Lemma pres_revoke config phone h : pres (revoke_old_controllers config phone h).
Proof using.
  unfold revoke_old_controllers. apply pres_bind; [auto with preserve|]. intros cs.
  destruct (bool_decide (cs = [])); [apply pres_ret|].
  do 7 (apply pres_bind; [auto with preserve|intros ?]). cbv zeta.
  do 3 (apply pres_bind; [auto with preserve|intros ?]). apply pres_ret.
Qed.

Lemma pres_broadcast_sweep config p : pres (broadcast_cooperative_sweep_for_config config p).
Proof using.
  unfold broadcast_cooperative_sweep_for_config. apply pres_bind; [auto with preserve|]. intros [tx sw].
  do 2 (apply pres_bind; [auto with preserve|intros ?]). apply pres_ret.
Qed.
End outside.

(** ** Steps in the archive *)

Lemma archive_key_ne f0 d t t' l m : m ≠ l → archive_key f0 d t l ≠ history_key f0 d (archive_name t' :: m).
Proof using. intros Hm [= _ ->]%app_inv_head. done. Qed.

Lemma pres_on_world f0 k s {A} (m : M (World B) A) :
  preserves w_fs f0 k s m → preserves (λ w : RotationWorld B, w_fs (rw_world w)) f0 k s (on_world m).
Proof using.
  intros Hm w r w' He. unfold on_world. destruct (m (rw_world w)) as [r' w1] eqn:Hrun.
  intros [= <- <-]. by eapply Hm.
Qed.

Section inside.
Context (f0 : FS) (d : Path) (t : Txid) (l : Key) (s : string) (old : VaultConfig).
Context (Hl : l ∈ archived_names) (Hold : l = ["anzen.json"] → to_vec_pretty old = Some s).
Local Abbreviation pres := (preserves (@w_fs _ _ _ B) f0 (archive_key f0 d t l) s).

Lemma pres_sweep_hot t' a : pres (sweep_hot_wallet d (rotation_archive d t') a).
Proof.
  unfold sweep_hot_wallet. do 3 (apply pres_bind; [auto with preserve|intros ?]).
  destruct (_ : option Transaction) as [tx|]; [|apply pres_ret]. apply pres_bind.
  { apply pres_at_fs, pres_write_json. left.
    rewrite (resolve_in_archive _ _ _ _ ["hot-wallet-sweep.json"]) by done. apply archive_key_ne.
    intros <-. revert Hl. unfold archived_names. set_solver. }
  intros _. cbv zeta. do 2 (apply pres_bind; [auto with preserve|intros ?]). apply pres_ret.
Qed.

Lemma pres_archive_path t' x n names :
  is_absolute x = false → components x = Normal <$> n :: names → n ≠ "history" →
  ¬ (n :: names) `prefix_of` l → pres (archive_path d (rotation_archive d t') x).
Proof.
  intros Ha Hc Hn Hp. unfold archive_path. apply pres_bind; [auto with preserve|]. intros found.
  destruct found; [|apply pres_ret]. apply pres_bind; [auto with preserve|]. intros _.
  apply pres_at_fs, pres_rename.
  - rewrite (resolve_join _ _ _ (n :: names)) by done. by apply not_below_history.
  - rewrite (resolve_in_archive _ _ _ _ (n :: names)) by done. by apply not_below_archived.
Qed.

Lemma archived_apart p : p ∈ [["phone"; "schedule.json"]; ["phone"; "transactions"]; ["ceremony"; "active"]] →
  ¬ p `prefix_of` l.
Proof.
  intros Hp. assert (Forall (λ p, Forall (λ l, ¬ p `prefix_of` l) archived_names)
    [["phone"; "schedule.json"]; ["phone"; "transactions"]; ["ceremony"; "active"]]) as Hall.
  { apply (bool_decide_unpack _). vm_compute. exact I. }
  rewrite Forall_forall in Hall. specialize (Hall p Hp). rewrite Forall_forall in Hall. by apply Hall.
Qed.

Local Abbreviation rpres := (preserves (λ w : RotationWorld B, w_fs (rw_world w)) f0 (archive_key f0 d t l) s).

Lemma pres_archive_db t' x : rpres (archive_db_file (rotation_archive d t') x).
Proof.
  intros w r w' He. unfold archive_db_file. destruct (negb _); [by intros [= <- <-]|].
  destruct (on_world _ w) as [r1 w1] eqn:Hrun.
  apply (pres_on_world _ _ _ _ (pres_at_fs f0 (archive_key f0 d t l) s _ (pres_create_dir_all _ _ _ _))) in Hrun as [He1 Hf1]; [|done].
  destruct r1 as [u|e|]; [|by intros [= <- <-]|by intros [= <- <-]].
  destruct (db_rename x _) as [[file|e|] d']; by intros [= <- <-].
Qed.

Lemma pres_archive_epoch t' : rpres (archive_old_epoch d old t').
Proof.
  unfold archive_old_epoch. cbv zeta.
  apply pres_bind; [apply pres_on_world; auto with preserve|]. intros _.
  apply pres_bind.
  { apply pres_on_world, pres_at_fs, pres_write_json.
    rewrite (resolve_in_archive _ _ _ _ ["anzen.json"]) by done.
    destruct (decide (l = ["anzen.json"])) as [Heq|Hne]; [right; by apply Hold|left].
    by apply archive_key_ne. }
  intros _.
  apply pres_bind; [apply pres_on_world;
    apply (pres_archive_path _ _ "phone" ["schedule.json"]); (done || apply archived_apart; set_solver)|].
  intros _.
  apply pres_bind; [apply pres_on_world;
    apply (pres_archive_path _ _ "phone" ["transactions"]); (done || apply archived_apart; set_solver)|].
  intros _.
  apply pres_bind; [apply pres_on_world;
    apply (pres_archive_path _ _ "ceremony" ["active"]); (done || apply archived_apart; set_solver)|].
  intros _.
  do 2 (apply pres_bind; [apply pres_archive_db|intros _]). apply pres_archive_db.
Qed.

Lemma pres_after package p :
  prepared_old_config p = old → prepared_archive p = rotation_archive d t →
  rpres (complete_rotation d package p).
Proof.
  intros Hc Ha. unfold complete_rotation. apply pres_bind; [auto with preserve|]. intros h.
  apply pres_bind; [auto with preserve|]. intros [a h']. rewrite Hc, Ha.
  apply pres_bind; [apply pres_on_world, pres_sweep_hot|]. intros swept.
  apply pres_bind; [apply pres_on_world, pres_revoke|]. intros revoked.
  apply pres_bind; [apply pres_on_world, pres_broadcast_sweep|]. intros sweep.
  apply pres_bind; [apply pres_archive_epoch|]. intros _.
  apply pres_bind; [apply pres_on_world, pres_replace|]. intros _.
  apply pres_bind; [apply pres_on_world, pres_check_wallet|]. intros _.
  apply pres_bind; [apply pres_on_world, pres_finish|]. intros sch. apply pres_ret.
Qed.
End inside.

(** ** The preparation *)

Lemma off_reset p : offline (B:=B) (at_fs (reset_workspace p)).
Proof using. apply off_at_fs. Qed.

Lemma off_preserve_file d a x : offline (preserve_file (B:=B) d a x).
Proof using.
  apply off_bind; [apply off_with_fs|]. intros found. destruct found; [|apply off_ret].
  apply off_bind; [apply off_with_fs|]. intros b. apply off_at_fs.
Qed.

Lemma off_prepare d package : offline (prepare_rotation d package).
Proof using.
  unfold prepare_rotation. apply off_bind; [apply off_with_fs|]. intros [[old new] phone].
  apply off_bind; [by intros w r w' [= _ <-]|]. intros _.
  apply off_bind; [apply off_with_fs|]. intros old_phone. apply off_bind; [apply off_pure|]. intros backup.
  apply off_bind; [apply off_pure|]. intros _. apply off_bind; [apply off_with_fs|]. intros pending.
  apply off_bind.
  { destruct (renewed_policy package) as [policy|]; [|apply off_ret]. unfold check_renewed_policy.
    apply off_bind; [apply off_pure|]. intros _. do 2 (apply off_bind; [apply off_at_fs|]; intros _).
    apply off_bind; [apply off_with_fs|]. intros _. apply off_bind; [apply off_pure|]. intros _. apply off_pure. }
  intros _. apply off_bind; [apply off_pure|]. intros psbt. cbv zeta. apply off_bind; [|intros; apply off_ret].
  unfold preserve_rotation_keys. apply off_bind; [apply off_at_fs|]. intros _.
  do 2 (apply off_bind; [apply off_preserve_file|]; intros _). cbv zeta.
  do 2 (apply off_bind; [apply off_at_fs|]; intros _). apply off_at_fs.
Qed.

Lemma resolve_replacement f d t x names :
  is_absolute x = false → components x = Normal <$> names →
  resolve f (join (join (rotation_archive d t) "replacement") x)
    = archive_key f d t ("replacement" :: names).
Proof using Names.
  intros Ha Hc. rewrite (resolve_join _ _ _ names) by done.
  rewrite (resolve_in_archive _ _ _ _ ["replacement"]) by done.
  unfold archive_key, history_key. by rewrite <-app_assoc.
Qed.

(** A step that writes one name of the archive, and leaves its other names and
    the phone's key file. *)
Definition at_name (f0 : FS) d t (w : World B) (l : Key) (s : string) : Prop :=
  file_at (w_fs w) (archive_key f0 d t l) = Some s.
Record adds (f0 : FS) d t (m : Key) (P : string → Prop) (w w' : World B) : Prop := {
  adds_env : same_env f0 (w_fs w');
  adds_file : ∃ s, P s ∧ at_name f0 d t w' m s;
  adds_keeps : ∀ l s, m ≠ l → at_name f0 d t w l s → at_name f0 d t w' l s;
  adds_device : ∀ s, file_at (w_fs w) (device_key f0 d) = Some s →
    file_at (w_fs w') (device_key f0 d) = Some s;
}.

Lemma archive_not_device f0 d t m : device_key f0 d ≠ archive_key f0 d t m.
Proof using. intros Heq. symmetry in Heq. revert Heq. by apply not_history. Qed.

Lemma adds_json f0 d t m `{Json A} p (a : A) (w w' : World B) :
  resolve f0 p = archive_key f0 d t m → same_env f0 (w_fs w) →
  at_fs (write_json p a) w = (Ok tt, w') → adds f0 d t m (λ s, to_vec_pretty a = Some s) w w'.
Proof using.
  intros Hp He Hrun.
  assert (∀ k s, k ≠ resolve f0 p → file_at (w_fs w) k = Some s → file_at (w_fs w') k = Some s) as Hk.
  { intros k s Hne. by eapply (pres_at_fs f0 k s); [apply pres_write_json; left|exact He|exact Hrun]. }
  apply at_fs_Ok in Hrun as (f & Hw & ->). cbn [w_fs] in *.
  apply write_json_run in Hw as (Henv & _ & _ & Hok). split; cbn [w_fs].
  - destruct He, Henv. split; congruence.
  - destruct (Hok eq_refl) as (s & Hs & Hf). exists s. split; [done|].
    rewrite (resolve_env _ _ _ He), Hp in Hf. exact Hf.
  - intros l s Hl. apply Hk. rewrite Hp. by apply archive_key_ne.
  - intros s. apply Hk. rewrite Hp. apply archive_not_device.
Qed.

(** Copying one of the phone's files, byte by byte. *)
Lemma preserve_file_keeps f0 d t x names (w : World B) r w' k s :
  is_absolute x = false → components x = Normal <$> names → k ≠ archive_key f0 d t names →
  same_env f0 (w_fs w) → preserve_file d (rotation_archive d t) x w = (r, w') →
  same_env f0 (w_fs w') ∧ (file_at (w_fs w) k = Some s → file_at (w_fs w') k = Some s).
Proof using Names.
  intros Ha Hc Hk. assert (preserves (@w_fs _ _ _ B) f0 k s (preserve_file d (rotation_archive d t) x)) as Hp;
    [|by apply Hp].
  apply pres_bind; [auto with preserve|]. intros found. destruct found; [|apply pres_ret].
  apply pres_bind; [auto with preserve|]. intros b. apply pres_at_fs, pres_write_private. left.
  by rewrite (resolve_in_archive _ _ _ _ names) by done.
Qed.

Lemma adds_old_device f0 d t (w w' : World B) sd :
  same_env f0 (w_fs w) → file_at (w_fs w) (device_key f0 d) = Some sd →
  preserve_file d (rotation_archive d t) PHONE_DEVICE_FILE w = (Ok tt, w') →
  adds f0 d t ["phone"; "device.json"] (λ s, s = sd) w w'.
Proof using Names.
  intros He Hf Hrun.
  assert (∀ k s, k ≠ archive_key f0 d t ["phone"; "device.json"] → same_env f0 (w_fs w') ∧
    (file_at (w_fs w) k = Some s → file_at (w_fs w') k = Some s)) as Hk.
  { intros k s Hk. by eapply (preserve_file_keeps _ _ _ PHONE_DEVICE_FILE ["phone"; "device.json"]). }
  split.
  - apply (Hk (device_key f0 d) sd). apply archive_not_device.
  - exists sd. split; [done|]. unfold preserve_file in Hrun. unfold at_name.
    assert (resolve (w_fs w) (join d PHONE_DEVICE_FILE) = device_key f0 d) as Hd
      by (rewrite (resolve_env _ _ _ He); apply resolve_device).
    assert (exists_ (w_fs w) (join d PHONE_DEVICE_FILE) = true) as Hex.
    { unfold exists_. rewrite Hd. unfold file_at in Hf. by destruct (node_at _ _). }
    apply M_bind_Ok in Hrun as (found & ? & [= Hfound <-] & Hrun). rewrite Hex in Hfound. subst found.
    apply M_bind_Ok in Hrun as (b & ? & [= [_ Hb]%read_Ok <-] & Hrun). rewrite Hd, Hf in Hb.
    injection Hb as <-. apply at_fs_Ok in Hrun as (f & Hw & ->). cbn [w_fs].
    apply write_private_files in Hw as (_ & _ & _ & Hok).
    rewrite (resolve_env _ _ _ He), (resolve_in_archive _ _ _ _ ["phone"; "device.json"]) in Hok by done.
    destruct Hok as [Hok|[Hok _]]; [exact Hok|done].
  - intros l s Hl. apply Hk. by apply archive_key_ne.
  - intros s. apply Hk. apply archive_not_device.
Qed.

Lemma preserve_keys_Ok f0 d t old new pending backup (w w' : World B) sd :
  same_env f0 (w_fs w) → file_at (w_fs w) (device_key f0 d) = Some sd →
  preserve_rotation_keys d (rotation_archive d t) old new pending backup w = (Ok tt, w') →
  same_env f0 (w_fs w') ∧
  ∃ so sn sp, to_vec_pretty old = Some so ∧ to_vec_pretty new = Some sn ∧
    to_vec_pretty pending = Some sp ∧ at_name f0 d t w' ["anzen.json"] so ∧
    at_name f0 d t w' ["phone"; "device.json"] sd ∧
    at_name f0 d t w' ["replacement"; "anzen.json"] sn ∧
    at_name f0 d t w' ["replacement"; "phone"; "device.json"] sp.
Proof using Names.
  intros He Hf Hrun. unfold preserve_rotation_keys in Hrun. cbv zeta in Hrun.
  apply M_bind_Ok in Hrun as ([] & w1 & Hr1 & Hrun). apply M_bind_Ok in Hrun as ([] & w2 & Hr2 & Hrun).
  apply M_bind_Ok in Hrun as ([] & w3 & Hr3 & Hrun). apply M_bind_Ok in Hrun as ([] & w4 & Hr4 & Hrun).
  apply M_bind_Ok in Hrun as ([] & w5 & Hr5 & Hr6).
  apply (adds_json f0 d t ["anzen.json"]) in Hr1 as [He1 (so & Hso & Ho) K1 D1];
    [|by apply resolve_in_archive|done].
  apply (adds_old_device f0 d t _ _ sd He1) in Hr2 as [He2 (sd' & -> & Hd) K2 _]; [|by apply D1].
  assert (∀ l s, ["cloud"; "phone-seed-backup.json"] ≠ l → same_env f0 (w_fs w3) ∧
    (at_name f0 d t w2 l s → at_name f0 d t w3 l s)) as K3.
  { intros l s Hl. eapply (preserve_file_keeps _ _ _ PHONE_BACKUP_FILE ["cloud"; "phone-seed-backup.json"]);
      [done|done| |exact He2|exact Hr3].
    by apply archive_key_ne. }
  destruct (K3 ["anzen.json"] so ltac:(discriminate)) as [He3 _].
  apply (adds_json f0 d t ["replacement"; "anzen.json"]) in Hr4 as [He4 (sn & Hsn & Hn) K4 _];
    [|by apply (resolve_replacement _ _ _ _ ["anzen.json"])|done].
  apply (adds_json f0 d t ["replacement"; "phone"; "device.json"]) in Hr5 as [He5 (sp & Hsp & Hp) K5 _];
    [|by apply (resolve_replacement _ _ _ _ ["phone"; "device.json"])|done].
  apply (adds_json f0 d t ["replacement"; "cloud"; "phone-seed-backup.json"]) in Hr6 as [He6 _ K6 _];
    [|by apply (resolve_replacement _ _ _ _ ["cloud"; "phone-seed-backup.json"])|done].
  split; [done|]. exists so, sn, sp. split_and!; [done..| | | |].
  - apply K6, K5, K4, K3, K2; (done || discriminate).
  - apply K6, K5, K4, K3; (done || discriminate).
  - apply K6, K5; (done || discriminate).
  - apply K6; (done || discriminate).
Qed.
End rotation.
