(* ===== verification/RotationSafety.v ===== *)
(** The activation of a rotation: no coin can move before both generations of
    the phone are in the archive, and both stay loadable whatever happens. *)

From S2P Require Import Prelude Bitcoin Types Keys Policy Transactions FileSystem Storage Crypto Social Ceremony CeremonyValidate CeremonySound CeremonyBuild Recovery ColdWallet HotWallet Phone PhonePaths PhoneActivation PhoneBroadcast Vanity Rotation Preserve RotationFacts.

Section rotation.
Context `{BitcoinLib, !KeyLib, !BdkLib, !DbFiles, !TxidText, !TweakedLib, CryptoLib,
          !Json VaultConfig, !Json DeviceFile, !Json PublicDeviceFile, !Json BatchManifest,
          !Json Schedule, !Json PolicyPackage, !JsonVec PolicyPackage,
          !Json EncryptedTransaction, !Json EncryptedEmergencyTransaction,
          !Json EncryptedBlob, !Json Transaction, !Json bool, !Json CloudRecoveryBackup}.
Context {B : Type} `{!Blockchain B} `{Names : !TxidTextLaws}
        `{!JsonLaws VaultConfig, !JsonLaws DeviceFile}.
Implicit Types (d : Path) (t : Txid).

(** ** What the preparation leaves *)

Lemma check_renewed_keeps f0 d old new phone sweep policy s :
  preserves (@w_fs _ _ _ B) f0 (device_key f0 d) s (check_renewed_policy d old new phone sweep policy).
Proof using Names.
  assert (below (resolve f0 (activation_workspace d)) (device_key f0 d) = false) as Hb.
  { unfold activation_workspace. rewrite (resolve_join _ _ _ ["phone"; "rotation-policy-activation"]) by done.
    apply not_true_iff_false. rewrite below_prefix. intros [r Hr]. unfold device_key in Hr.
    rewrite <-app_assoc in Hr. apply app_inv_head in Hr. discriminate. }
  unfold check_renewed_policy. apply pres_bind; [auto with preserve|]. intros _.
  apply pres_bind; [by apply pres_at_fs, pres_reset_workspace|]. intros _.
  apply pres_bind; [by apply pres_at_fs, pres_materialize|]. intros _.
  do 2 (apply pres_bind; [auto with preserve|intros ?]). auto with preserve.
Qed.

Definition device_of (pending : DeviceFile) (phone : DeviceKeys) : Prop :=
  (n ← device_bitcoin_network pending;
   parse_for_network_at_index (device_mnemonic pending) n (device_vault_key_index pending)) = Ok phone.

Lemma validated_pending f d package old new phone :
  validate_phone_rotation f d package = Ok (old, new, phone) →
  ∃ pending, read_json f (join d PENDING_PHONE_ROTATION_FILE) = Ok pending ∧ device_of pending phone.
Proof using.
  unfold validate_phone_rotation. intros ([] & _ & Hv)%bind_Ok. apply bind_Ok in Hv as (oc & _ & Hv).
  apply bind_Ok in Hv as ([] & _ & Hv). apply bind_Ok in Hv as (pending & Hp & Hv).
  apply bind_Ok in Hv as (pn & Hpn & Hv). apply bind_Ok in Hv as (on & Hon & Hv).
  apply bind_Ok in Hv as ([] & ->%bail_neg & Hv). apply bind_Ok in Hv as (ph & Hph & Hv).
  exists pending. split; [done|]. unfold device_of. rewrite Hpn. simpl. rewrite Hph. f_equal.
  do 7 apply bind_Ok in Hv as (? & _ & Hv). by apply bind_Ok in Hv as (? & _ & [= _ _ ->]).
Qed.

(** The archive of a prepared rotation. *)
Record prepared (f0 : FS) d (package : PhoneRotationPackage) (p : Prepared) (w1 : World B) : Prop := {
  pr_env : same_env f0 (w_fs w1);
  pr_validated : validate_phone_rotation f0 d package =
    Ok (prepared_old_config p, prepared_new_config p, prepared_new_phone p);
  pr_old_phone : load_device_keys f0 d PHONE_DEVICE_FILE = Ok (prepared_old_phone p);
  pr_archive : ∃ psbt so sd sn sp,
    psbt_from_str (sweep_psbt (rotation_sweep package)) = Some psbt ∧
    prepared_archive p = rotation_archive d (compute_txid (unsigned_tx psbt)) ∧
    to_vec_pretty (prepared_old_config p) = Some so ∧ file_at f0 (device_key f0 d) = Some sd ∧
    to_vec_pretty (prepared_new_config p) = Some sn ∧
    (∃ pending, to_vec_pretty pending = Some sp ∧ device_of pending (prepared_new_phone p)) ∧
    let t := compute_txid (unsigned_tx psbt) in
    at_name f0 d t w1 ["anzen.json"] so ∧ at_name f0 d t w1 ["phone"; "device.json"] sd ∧
    at_name f0 d t w1 ["replacement"; "anzen.json"] sn ∧
    at_name f0 d t w1 ["replacement"; "phone"; "device.json"] sp;
}.

Lemma load_device_text f d x k :
  load_device_keys f d x = Ok k → ∃ s, file_at f (resolve f (join d x)) = Some s.
Proof using.
  unfold load_device_keys, load_device, read_json. intros (file & Hf & _)%bind_Ok.
  apply bind_Ok in Hf as (s & [_ Hf]%read_Ok & _). by exists s.
Qed.

Lemma prepare_Ok d package w p w1 :
  prepare_rotation d package w = (Ok p, w1) → prepared (w_fs w) d package p w1.
Proof using Names.
  unfold prepare_rotation. intros Hrun.
  apply M_bind_Ok in Hrun as ([[old new] phone] & ? & [= Hv <-] & Hrun).
  apply M_bind_Ok in Hrun as ([] & w2 & Hn & Hrun). apply network_reads in Hn as ->.
  apply M_bind_Ok in Hrun as (old_phone & ? & [= Hp <-] & Hrun).
  apply M_bind_Ok in Hrun as (backup & ? & [_ ->]%pure_Ok & Hrun).
  apply M_bind_Ok in Hrun as ([] & ? & [_ ->]%pure_Ok & Hrun).
  apply M_bind_Ok in Hrun as (pending & ? & [= Hpend <-] & Hrun).
  destruct (validated_pending _ _ _ _ _ _ Hv) as (pending' & Hpend' & Hdev).
  rewrite Hpend in Hpend'. injection Hpend' as <-.
  apply M_bind_Ok in Hrun as ([] & w3 & Hck & Hrun).
  apply M_bind_Ok in Hrun as (psbt & ? & [Hpsbt%or_err_Ok ->]%pure_Ok & Hrun). cbv zeta in Hrun.
  apply M_bind_Ok in Hrun as ([] & w4 & Hpre & Hrun). apply mret_Ok in Hrun as [<- ->].
  destruct (load_device_text _ _ _ _ Hp) as [sd Hsd]. rewrite resolve_device in Hsd.
  assert (same_env (w_fs w) (w_fs w3) ∧ file_at (w_fs w3) (device_key (w_fs w) d) = Some sd) as [He3 Hd3].
  { assert (preserves (@w_fs _ _ _ B) (w_fs w) (device_key (w_fs w) d) sd
      (match renewed_policy package with
       | Some policy => check_renewed_policy d old new phone (rotation_sweep package) policy
       | None => mret tt end)) as Hk.
    { destruct (renewed_policy package); [apply check_renewed_keeps|apply pres_ret]. }
    destruct (Hk w (Ok tt) w3 (conj eq_refl eq_refl) Hck) as [He Hf]. split; [done|by apply Hf]. }
  destruct (preserve_keys_Ok (w_fs w) _ _ _ _ _ _ _ _ sd He3 Hd3 Hpre)
    as (He4 & so & sn & sp & Hso & Hsn & Hsp & Hn1 & Hn2 & Hn3 & Hn4).
  split; [done|done|done|]. exists psbt, so, sd, sn, sp. cbn [prepared_archive prepared_old_config
    prepared_new_config prepared_new_phone]. split_and!; [done..| |done|done|done|done]. by exists pending.
Qed.

(** ** Loading a generation *)

Lemma load_config_at f p c s :
  no_read_fault f → to_vec_pretty c = Some s → file_at f (resolve f (join p CONFIG_FILE)) = Some s →
  load_config f p = Ok c.
Proof using JsonLaws0.
  intros Hn Hs Hf. unfold load_config, config_path.
  assert (exists_ f (join p CONFIG_FILE) = true) as ->.
  { unfold exists_. unfold file_at in Hf. by destruct (node_at _ _). }
  by apply (read_json_of f _ c s).
Qed.

Lemma load_device_at f p pending phone s :
  no_read_fault f → to_vec_pretty pending = Some s →
  file_at f (resolve f (join p PHONE_DEVICE_FILE)) = Some s → device_of pending phone →
  load_device_keys f p PHONE_DEVICE_FILE = Ok phone.
Proof using JsonLaws1.
  intros Hn Hs Hf Hd. unfold load_device_keys, load_device. by rewrite (read_json_of f _ pending s).
Qed.

Lemma load_device_copy f f' d p s :
  no_read_fault f → no_read_fault f' → file_at f (resolve f (join d PHONE_DEVICE_FILE)) = Some s →
  file_at f' (resolve f' (join p PHONE_DEVICE_FILE)) = Some s →
  load_device_keys f' p PHONE_DEVICE_FILE = load_device_keys f d PHONE_DEVICE_FILE.
Proof using.
  intros Hn Hn' Hf Hf'. unfold load_device_keys, load_device, read_json.
  rewrite (proj2 (read_Ok f' _ s)), (proj2 (read_Ok f _ s)) by done. done.
Qed.

(** C14: No coin moves in a rotation before both generations of the phone are
    safe.  Whatever fails and wherever the activation stops, either it stopped
    before the first call on the network, or the archive of the rotation holds
    the old configuration and key and the new configuration and key, and each
    can be loaded from it as from a data directory; none of the later steps,
    archiving the old epoch, replacing the files or activating the renewed
    policy, takes them away. *)
Theorem rotation_keeps_both_generations d package (w : RotationWorld B) r w' :
  no_read_fault (w_fs (rw_world w)) → activate_phone_rotation d package w = (r, w') →
  (w_chain (rw_world w') = w_chain (rw_world w) ∧ ∀ x, r ≠ Ok x) ∨
  ∃ old new new_phone old_phone psbt,
    validate_phone_rotation (w_fs (rw_world w)) d package = Ok (old, new, new_phone) ∧
    load_device_keys (w_fs (rw_world w)) d PHONE_DEVICE_FILE = Ok old_phone ∧
    psbt_from_str (sweep_psbt (rotation_sweep package)) = Some psbt ∧
    let f' := w_fs (rw_world w') in
    let archive := rotation_archive d (compute_txid (unsigned_tx psbt)) in
    load_config f' archive = Ok old ∧
    load_device_keys f' archive PHONE_DEVICE_FILE = Ok old_phone ∧
    load_config f' (join archive "replacement") = Ok new ∧
    load_device_keys f' (join archive "replacement") PHONE_DEVICE_FILE = Ok new_phone.
Proof using Names JsonLaws0 JsonLaws1.
  intros Hn. unfold activate_phone_rotation, mbind at 1, M_bind at 1, on_world at 1.
  destruct (prepare_rotation d package (rw_world w)) as [rp w1] eqn:Hprep.
  pose proof (off_prepare _ _ _ _ _ Hprep) as Hoff.
  destruct rp as [p|e|]; [|by intros [= <- <-]; left|by intros [= <- <-]; left].
  intros Hrun. right. apply prepare_Ok in Hprep as [He1 Hv Hp (psbt & so & sd & sn & sp & Hpsbt & Ha & Hso & Hsd & Hsn & (pending & Hsp & Hdev) & Hn1 & Hn2 & Hn3 & Hn4)].
  set (f0 := w_fs (rw_world w)) in *. set (t := compute_txid (unsigned_tx psbt)) in *.
  exists (prepared_old_config p), (prepared_new_config p), (prepared_new_phone p), (prepared_old_phone p), psbt.
  assert (∀ l s, l ∈ archived_names → (l = ["anzen.json"] → to_vec_pretty (prepared_old_config p) = Some s) →
    at_name f0 d t w1 l s → same_env f0 (w_fs (rw_world w')) ∧
    file_at (w_fs (rw_world w')) (archive_key f0 d t l) = Some s) as Hkeep.
  { intros l s Hl Hold Hs. eapply (pres_after f0 d t l s (prepared_old_config p) Hl Hold package p eq_refl Ha) in Hrun;
      [|exact He1]. destruct Hrun as [He Hf]. split; [done|by apply Hf]. }
  assert (Forall (λ l, l ∈ archived_names) archived_names) as Hall
    by (apply (bool_decide_unpack _); vm_compute; exact I).
  unfold archived_names in Hall at 2. repeat rewrite Forall_cons in Hall. destruct Hall as (M1 & M2 & M3 & M4 & _).
  destruct (Hkeep _ so M1 (λ _, Hso) Hn1) as [He' K1].
  destruct (Hkeep _ sd M2 ltac:(discriminate) Hn2) as [_ K2].
  destruct (Hkeep _ sn M3 ltac:(discriminate) Hn3) as [_ K3].
  destruct (Hkeep _ sp M4 ltac:(discriminate) Hn4) as [_ K4].
  assert (no_read_fault (w_fs (rw_world w'))) as Hn' by (intros k; destruct He' as [_ ->]; apply Hn).
  split_and!; [done|done|done|..]; cbv zeta.
  - eapply load_config_at; [done|exact Hso|]. rewrite (resolve_env _ _ _ He').
    by rewrite (resolve_in_archive _ _ _ _ ["anzen.json"]).
  - rewrite <-Hp. eapply load_device_copy; [done|done|rewrite resolve_device; exact Hsd|].
    rewrite (resolve_env _ _ _ He'). by rewrite (resolve_in_archive _ _ _ _ ["phone"; "device.json"]).
  - eapply load_config_at; [done|exact Hsn|]. rewrite (resolve_env _ _ _ He').
    by rewrite (resolve_replacement _ _ _ _ ["anzen.json"]).
  - eapply load_device_at; [done|exact Hsp| |exact Hdev]. rewrite (resolve_env _ _ _ He').
    by rewrite (resolve_replacement _ _ _ _ ["phone"; "device.json"]).
Qed.
End rotation.
