(* ===== verification/RotationComplete.v ===== *)
(** What a rotation that succeeds leaves: the phone is the new generation's,
    and nothing of the old epoch is in use. *)

From S2P Require Import Prelude Bitcoin Types Keys Policy Transactions FileSystem FsProgress Storage Crypto Social Ceremony CeremonyValidate CeremonySound CeremonyBuild Recovery ColdWallet HotWallet Phone PhonePaths PhoneActivation PhoneBroadcast PhoneArtifacts PhoneRoundTrip PhoneWorkspace Vanity Rotation Preserve RotationFacts RotationSafety.

(** * Names that stay away *)

Section gone.
Context {S : Type} (fs : S → FS) (f0 : FS) (k : Key).

(** A step of the process of [f0] after which a name that was free is free. *)
Definition stays_gone {A} (m : M S A) : Prop :=
  ∀ w r w', same_env f0 (fs w) → m w = (r, w') →
    same_env f0 (fs w') ∧ (node_at (fs w) k = None → node_at (fs w') k = None).

Lemma gone_quiet {A} (m : M S A) : (∀ w r w', m w = (r, w') → fs w' = fs w) → stays_gone m.
Proof. intros Hm w r w' He Hr. by rewrite (Hm w r w' Hr). Qed.
Lemma gone_pure {A} (r : result A) : stays_gone (pure r).
Proof. apply gone_quiet. by intros w r' w' [= _ <-]. Qed.
Lemma gone_ret {A} (a : A) : stays_gone (mret a).
Proof. apply gone_quiet. by intros w r' w' [= _ <-]. Qed.
Lemma gone_bind {A C} (m : M S A) (g : A → M S C) :
  stays_gone m → (∀ a, stays_gone (g a)) → stays_gone (a ← m; g a).
Proof.
  intros Hm Hg w r w' He. unfold mbind, M_bind. destruct (m w) as [[a|e|] w1] eqn:Hrun.
  - intros Hrun2. destruct (Hm _ _ _ He Hrun) as [He1 Hf1].
    destruct (Hg a w1 r w' He1 Hrun2) as [He2 Hf2]. split; [done|]. by intros ?%Hf1%Hf2.
  - intros [= <- <-]. by eapply Hm.
  - intros [= <- <-]. by eapply Hm.
Qed.
End gone.

Section files.
Context (f0 : FS) (k : Key).
Local Abbreviation gone := (stays_gone id f0 k).

Lemma gone_kept K f f' :
  ¬ k `prefix_of` K → node_kept f f' (prefixes K) k → node_at f k = None → node_at f' k = None.
Proof. intros Hk [->|(_ & _ & [_ Hp]%elem_prefixes)]; [done|]. by destruct Hk. Qed.

Lemma gone_create_dir_all p : ¬ k `prefix_of` resolve f0 p → gone (create_dir_all p).
Proof.
  intros Hp f r f' He. unfold id in *. unfold create_dir_all, get, mbind, M_bind.
  intros (Henv & _ & Hk)%create_key_run. split; [destruct He, Henv; split; congruence|].
  rewrite <-(resolve_env _ _ p He) in Hp. by apply (gone_kept (resolve f p)).
Qed.

Lemma gone_write_json `{Json A} p s (names : list string) (a : A) :
  is_absolute s = false → components s = Normal <$> names → names ≠ [] →
  ¬ k `prefix_of` resolve f0 p ++ names → gone (write_json (join p s) a).
Proof.
  intros Ha Hc Hne Hk f r f' He. unfold id in *. unfold write_json, pure, mbind, M_bind.
  destruct (to_vec_pretty a) as [bytes|]; simpl; [|by intros [= <- <-]].
  destruct (snoc_names names Hne) as (l & x & ->).
  intros (Henv & _ & Hkept & _)%write_private_run. split; [destruct He, Henv; split; congruence|].
  rewrite <-(resolve_env _ _ p He) in Hk.
  rewrite (resolve_join _ _ _ _ Ha Hc), (parent_join _ _ _ _ _ Ha Hc) in Hkept.
  apply (gone_kept (resolve f p ++ l)).
  - intros Hp. apply Hk. rewrite app_assoc. by apply prefix_app_r.
  - apply Hkept. intros ->. by apply Hk.
Qed.

Lemma gone_rename p q :
  k ≠ [] → ¬ resolve f0 p `prefix_of` k → ¬ resolve f0 q `prefix_of` k → gone (rename p q).
Proof.
  intros Hne Hp Hq f r f' He. unfold id in *. unfold rename, get, pure, put, mbind, M_bind. simpl.
  destruct (rename_fails _ _ _); simpl; [by intros [= <- <-]|]. intros [= <- <-]. split; [exact He|].
  rewrite <-(resolve_env _ _ p He) in Hp. rewrite <-(resolve_env _ _ q He) in Hq.
  destruct k as [|y k']; [done|]. unfold node_at. simpl.
  rewrite moved_lookup; [done|..]; apply not_true_iff_false; by rewrite below_prefix.
Qed.
End files.

(** What is renamed is gone. *)
Lemma renamed_gone p q f u f' :
  resolve f p ≠ [] → ¬ resolve f q `prefix_of` resolve f p →
  rename p q f = (Ok u, f') → node_at f' (resolve f p) = None.
Proof.
  intros Hne Hq. unfold rename, get, pure, put, mbind, M_bind. simpl.
  destruct (rename_fails _ _ _); simpl; [done|]. intros [= _ <-].
  destruct (resolve f p) as [|x l] eqn:Hk; [done|]. unfold node_at. simpl.
  unfold moved. rewrite lookup_union_r.
  - rewrite map_lookup_filter. destruct (nodes f !! (x :: l)); [|done]. simpl.
    rewrite option_guard_False; [done|]. simpl.
    intros Hb. apply not_true_iff_false in Hb. apply Hb. apply below_prefix. done.
  - apply not_elem_of_list_to_map. rewrite <-list_fmap_compose.
    intros ([y nd] & Heq & _)%list_elem_of_fmap. apply Hq. simpl in Heq. rewrite Heq. by eexists.
Qed.

Section rotation.
Context `{BitcoinLib, !KeyLib, !BdkLib, !DbFiles, !TxidText, !TweakedLib, CryptoLib,
          !Json VaultConfig, !Json DeviceFile, !Json PublicDeviceFile, !Json BatchManifest,
          !Json Schedule, !Json PolicyPackage, !JsonVec PolicyPackage,
          !Json EncryptedTransaction, !Json EncryptedEmergencyTransaction,
          !Json EncryptedBlob, !Json Transaction, !Json bool, !Json CloudRecoveryBackup}.
Context {B : Type} `{!Blockchain B} `{Names : !TxidTextLaws}.
Implicit Types (d : Path) (t : Txid) (w : World B).

(** * The old epoch is out of use *)

(** The files of a rotating phone. *)
Definition rotation_fs (w : RotationWorld B) : FS := w_fs (rw_world w).

Section old_epoch.
Context (f0 : FS) (d : Path) (l : list string) (Hl : l ∈ [["phone"; "schedule.json"]; ["phone"; "transactions"]]).
Local Abbreviation k := (resolve f0 d ++ l).
Local Abbreviation gone := (stays_gone (@w_fs _ _ _ B) f0 k).

(** Where the other steps write. *)
Definition elsewhere : list (list string) :=
  [["phone"]; ["anzen.json"]; ["phone"; "device.json"]; ["cloud"; "phone-seed-backup.json"]].

Lemma epoch_elsewhere l' : l' ∈ elsewhere → ¬ k `prefix_of` resolve f0 d ++ l'.
Proof using Hl.
  assert (Forall (λ l, Forall (λ l', ¬ l `prefix_of` l') elsewhere)
    [["phone"; "schedule.json"]; ["phone"; "transactions"]]) as Hall
    by (apply (bool_decide_unpack _); vm_compute; exact I).
  intros Hl' Hp%prefix_app_inv. rewrite Forall_forall in Hall. specialize (Hall l Hl).
  rewrite Forall_forall in Hall. by apply (Hall l').
Qed.

Lemma epoch_not_history m : ¬ k `prefix_of` history_key f0 d m ∧ ¬ history_key f0 d m `prefix_of` k.
Proof using Hl.
  unfold history_key. repeat (apply elem_of_cons in Hl as [->|Hl]); [..|by apply not_elem_of_nil in Hl];
    split; intros Hp%prefix_app_inv; by apply prefix_cons_inv_1 in Hp.
Qed.

Lemma gone_at_fs {A} (m : M FS A) : stays_gone id f0 k m → gone (at_fs m).
Proof using.
  intros Hm w r w' He. unfold at_fs. destruct (m (w_fs w)) as [r' f'] eqn:Hrun.
  intros [= <- <-]. by eapply Hm.
Qed.
Lemma gone_with_fs {A} (g : FS → result A) : gone (with_fs g).
Proof using. apply gone_quiet. by intros w r w' [= _ <-]. Qed.
Lemma gone_at_hot {A} bw (m : M HotWallet A) : gone (at_hot bw m).
Proof using. apply gone_quiet. intros w r w'. unfold at_hot. destruct (m _). by intros [= _ <-]. Qed.

Lemma gone_open_hot : gone (open_hot d).
Proof using Hl.
  assert (stays_gone (fst : FS * Db → FS) f0 k (open_or_create d)) as Ho.
  { unfold open_or_create. apply gone_bind; [apply gone_quiet; by intros w r w' [= _ <-]|]. intros st.
    apply gone_bind; [apply gone_pure|]. intros keys. apply gone_bind.
    { intros w r w' He. unfold on_fs. destruct (create_dir_all _ w.1) as [r' f'] eqn:Hrun.
      intros [= <- <-]. eapply gone_create_dir_all; [|exact He|exact Hrun].
      unfold hot_db_path. rewrite (parent_join _ _ _ ["phone"] "hot-wallet.sqlite") by done.
      apply epoch_elsewhere. left. }
    intros _. apply gone_bind; [apply gone_quiet; by intros w r w' [= _ <-]|]. intros st'.
    apply gone_bind; [apply gone_pure|]. intros _. apply gone_quiet.
    intros w r w'. unfold on_hot. destruct (open_or_create_with_keys keys w.2) as [r' d']. by intros [= _ <-]. }
  intros w r w' He. unfold open_hot. destruct (open_or_create d (w_fs w, w_db w)) as [r' [f' d']] eqn:Hrun.
  intros [= <- <-]. by eapply Ho in Hrun.
Qed.

(** The archive's names. *)
Lemma parent_in_archive t x (names : list string) :
  is_absolute x = false → components x = Normal <$> names → names ≠ [] →
  ∃ m, resolve f0 (parent (join (rotation_archive d t) x)) = history_key f0 d m.
Proof using Names.
  intros Ha Hc Hne. destruct (snoc_names names Hne) as (m & y & ->).
  rewrite (parent_join _ _ _ _ _ Ha Hc), resolve_archive. unfold history_key.
  eexists. by rewrite <-app_assoc.
Qed.

Lemma gone_archive_path t x names :
  is_absolute x = false → components x = Normal <$> names → names ≠ [] → ¬ names `prefix_of` l →
  gone (archive_path d (rotation_archive d t) x).
Proof using Hl Names.
  intros Ha Hc Hne Hp. unfold archive_path. apply gone_bind; [apply gone_with_fs|]. intros found.
  destruct found; [|apply gone_ret]. apply gone_bind.
  - apply gone_at_fs, gone_create_dir_all. destruct (parent_in_archive t x names Ha Hc Hne) as [m ->].
    apply epoch_not_history.
  - intros _. apply gone_at_fs, gone_rename.
    + repeat (apply elem_of_cons in Hl as [->|Hl]); [..|by apply not_elem_of_nil in Hl]; by destruct (resolve f0 d).
    + rewrite (resolve_join _ _ _ _ Ha Hc). by intros ?%prefix_app_inv.
    + rewrite (resolve_in_archive _ _ _ _ _ Ha Hc). apply epoch_not_history.
Qed.

Lemma gone_archive_dir t : gone (at_fs (create_dir_all (rotation_archive d t))).
Proof using Hl Names.
  apply gone_at_fs, gone_create_dir_all. rewrite resolve_archive. apply epoch_not_history.
Qed.

Lemma gone_archive_config t (old : VaultConfig) :
  gone (at_fs (write_json (join (rotation_archive d t) CONFIG_FILE) old)).
Proof using Hl Names.
  apply gone_at_fs, (gone_write_json _ _ _ _ ["anzen.json"]); [done..|].
  rewrite resolve_archive. unfold history_key. rewrite <-app_assoc. apply epoch_not_history.
Qed.

Lemma gone_on_world {A} (m : M (World B) A) : gone m → stays_gone rotation_fs f0 k (on_world m).
Proof using.
  intros Hm w r w' He. unfold on_world. destruct (m (rw_world w)) as [r' w1] eqn:Hrun.
  intros [= <- <-]. by eapply Hm.
Qed.

Lemma gone_archive_db t x names :
  is_absolute x = false → components x = Normal <$> names → names ≠ [] →
  stays_gone rotation_fs f0 k (archive_db_file (rotation_archive d t) x).
Proof using Hl Names.
  intros Ha Hc Hne w r w' He. unfold archive_db_file. destruct (negb _); [by intros [= <- <-]|].
  destruct (on_world _ w) as [r1 w1] eqn:Hrun.
  eapply gone_on_world in Hrun as [He1 Hf1]; [|apply gone_at_fs, gone_create_dir_all|exact He].
  2: { destruct (parent_in_archive t x names Ha Hc Hne) as [m ->]. apply epoch_not_history. }
  destruct r1 as [u|e|]; [|by intros [= <- <-]|by intros [= <- <-]].
  destruct (db_rename x _) as [[file|e|] d']; by intros [= <- <-].
Qed.

Lemma gone_databases t : stays_gone rotation_fs f0 k
  (_ ← archive_db_file (rotation_archive d t) "phone/hot-wallet.sqlite-wal";
   _ ← archive_db_file (rotation_archive d t) "phone/hot-wallet.sqlite-shm";
   archive_db_file (rotation_archive d t) "phone/hot-wallet.sqlite").
Proof using Hl Names.
  apply gone_bind; [by apply (gone_archive_db _ _ ["phone"; "hot-wallet.sqlite-wal"])|]. intros _.
  apply gone_bind; [by apply (gone_archive_db _ _ ["phone"; "hot-wallet.sqlite-shm"])|]. intros _.
  by apply (gone_archive_db _ _ ["phone"; "hot-wallet.sqlite"]).
Qed.

Lemma gone_replace p : gone (replace_phone_files d p).
Proof using Hl.
  unfold replace_phone_files. cbv zeta.
  apply gone_bind; [|intros _; apply gone_bind; [|intros _]]; apply gone_at_fs.
  - apply (gone_write_json _ _ _ _ ["anzen.json"]); [done..|]. apply epoch_elsewhere. right. left.
  - apply (gone_write_json _ _ _ _ ["phone"; "device.json"]); [done..|]. apply epoch_elsewhere.
    do 2 right. left.
  - apply (gone_write_json _ _ _ _ ["cloud"; "phone-seed-backup.json"]); [done..|]. apply epoch_elsewhere.
    do 3 right. left.
Qed.

Lemma gone_check_wallet a revoked renewed : gone (check_new_wallet d a revoked renewed).
Proof using Hl.
  unfold check_new_wallet. apply gone_bind; [apply gone_open_hot|]. intros hot.
  apply gone_bind; [apply gone_at_hot|]. intros _. apply gone_ret.
Qed.
End old_epoch.

(** An entry that is archived leaves its name. *)
Lemma archive_path_gone f0 d t x names w u w' :
  is_absolute x = false → components x = Normal <$> names → names ≠ [] → head names ≠ Some "history"%string →
  same_env f0 (w_fs w) → archive_path d (rotation_archive d t) x w = (Ok u, w') →
  node_at (w_fs w') (resolve f0 d ++ names) = None.
Proof using Names.
  intros Ha Hc Hne Hh He Hrun. unfold archive_path in Hrun.
  apply M_bind_Ok in Hrun as (found & ? & [= Hfound <-] & Hrun).
  rewrite <-(resolve_env _ _ d He), <-(resolve_join _ _ _ _ Ha Hc). destruct found.
  - apply M_bind_Ok in Hrun as ([] & w1 & (f1 & Hf1 & ->)%at_fs_Ok & (f2 & Hf2 & ->)%at_fs_Ok).
    cbn [w_fs] in *. unfold create_dir_all, get, mbind, M_bind in Hf1.
    apply create_key_run in Hf1 as (He1 & _ & _).
    rewrite <-(resolve_env _ _ (join d x) He1). eapply renamed_gone; [| |exact Hf2].
    + rewrite (resolve_join _ _ _ _ Ha Hc). by destruct (resolve f1 d), names.
    + rewrite (resolve_in_archive _ _ _ _ _ Ha Hc), (resolve_join _ _ _ _ Ha Hc). unfold history_key.
      intros Hp%prefix_app_inv. destruct names as [|y names]; [done|].
      apply prefix_cons_inv_1 in Hp. apply Hh. by rewrite Hp.
  - apply mret_Ok in Hrun as [_ ->]. unfold exists_ in Hfound. by destruct (node_at _ _).
Qed.

Lemma on_world_Ok {A} (m : M (World B) A) (w w' : RotationWorld B) a :
  on_world m w = (Ok a, w') → ∃ w1, m (rw_world w) = (Ok a, w1) ∧ rw_world w' = w1.
Proof using. unfold on_world. destruct (m (rw_world w)) as [r w1]. intros [= -> <-]. by exists w1. Qed.

Lemma archived_old_epoch f0 d old t (w w' : RotationWorld B) u :
  same_env f0 (rotation_fs w) → archive_old_epoch d old t w = (Ok u, w') →
  same_env f0 (rotation_fs w') ∧
  ∀ l, l ∈ [["phone"; "schedule.json"]; ["phone"; "transactions"]] →
    node_at (rotation_fs w') (resolve f0 d ++ l) = None.
Proof using Names.
  intros He Hrun. unfold archive_old_epoch in Hrun. cbv zeta in Hrun.
  pose proof (list_elem_of_here ["phone"; "schedule.json"] [["phone"; "transactions"]]) as HS.
  assert (["phone"; "transactions"] ∈ [["phone"; "schedule.json"]; ["phone"; "transactions"]]) as HT
    by (right; left).
  apply M_bind_Ok in Hrun as (? & w1 & R1 & Hrun). apply M_bind_Ok in Hrun as (? & w2 & R2 & Hrun).
  apply M_bind_Ok in Hrun as (? & w3 & R3 & Hrun). apply M_bind_Ok in Hrun as (? & w4 & R4 & Hrun).
  apply M_bind_Ok in Hrun as (? & w5 & R5 & Hrun).
  destruct (gone_on_world f0 d _ _ (gone_archive_dir f0 d _ HS t) _ _ _ He R1) as [He1 _].
  destruct (gone_on_world f0 d _ _ (gone_archive_config f0 d _ HS t old) _ _ _ He1 R2) as [He2 _].
  apply on_world_Ok in R3 as (v3 & R3 & Hv3).
  assert (same_env f0 (w_fs v3)) as He3.
  { eapply (gone_archive_path f0 d _ HT t SCHEDULE_FILE ["phone"; "schedule.json"]); [done|done|done| |exact He2|exact R3].
    by apply (bool_decide_unpack (¬ _)). }
  apply (archive_path_gone f0 d t SCHEDULE_FILE ["phone"; "schedule.json"]) in R3; [|done..].
  rewrite <-Hv3 in He3, R3. pose proof R4 as (v4 & R4' & Hv4)%on_world_Ok.
  destruct (gone_on_world f0 d _ _ (gone_archive_path f0 d _ HS t "phone/transactions" ["phone"; "transactions"]
    eq_refl eq_refl ltac:(done) ltac:(by apply (bool_decide_unpack (¬ _)))) _ _ _ He3 R4) as [He4 Hs4].
  apply (archive_path_gone f0 d t "phone/transactions" ["phone"; "transactions"]) in R4'; [|done..].
  rewrite <-Hv4 in R4'.
  assert (∀ l, l ∈ [["phone"; "schedule.json"]; ["phone"; "transactions"]] →
    ¬ ["ceremony"; "active"] `prefix_of` l) as Hbatch.
  { intros l Hl. repeat (apply elem_of_cons in Hl as [->|Hl]); [..|by apply not_elem_of_nil in Hl];
      by apply (bool_decide_unpack (¬ _)). }
  assert (∀ l, l ∈ [["phone"; "schedule.json"]; ["phone"; "transactions"]] →
    node_at (rotation_fs w4) (resolve f0 d ++ l) = None → same_env f0 (rotation_fs w') ∧
    node_at (rotation_fs w') (resolve f0 d ++ l) = None) as Hrest.
  { intros l Hl Hn.
    assert (stays_gone rotation_fs f0 (resolve f0 d ++ l)
      (on_world (archive_path d (rotation_archive d t) DEFAULT_BATCH_DIR))) as Hb.
    { apply gone_on_world. apply (gone_archive_path f0 d _ Hl t DEFAULT_BATCH_DIR ["ceremony"; "active"]); auto; done. }
    destruct (Hb _ _ _ He4 R5) as [He5 Hn5].
    destruct (gone_databases f0 d _ Hl t _ _ _ He5 Hrun) as [He6 Hn6]. auto. }
  split; [by apply (Hrest _ HS), Hs4|].
  intros l Hl. apply (Hrest l Hl). repeat (apply elem_of_cons in Hl as [->|Hl]); [..|by apply not_elem_of_nil in Hl].
  - by apply Hs4.
  - exact R4'.
Qed.

(** * The new phone's files *)

Section files.
Context `{!JsonLaws VaultConfig, !JsonLaws DeviceFile}.

Definition replacement_device (p : Prepared) : DeviceFile :=
  {| device_kind := "phone"; device_network := config_network (prepared_new_config p);
     device_mnemonic := device_mnemonic (prepared_pending p);
     device_vault_key_index := device_vault_key_index (prepared_pending p) |}.

Lemma validated_replacement f d package old new phone pending :
  validate_phone_rotation f d package = Ok (old, new, phone) →
  read_json f (join d PENDING_PHONE_ROTATION_FILE) = Ok pending →
  (n ← parse_network_name (config_network new);
   parse_for_network_at_index (device_mnemonic pending) n (device_vault_key_index pending)) = Ok phone.
Proof using.
  intros Hv Hpend. unfold validate_phone_rotation in Hv. apply bind_Ok in Hv as ([] & _ & Hv).
  apply bind_Ok in Hv as (oc & _ & Hv).
  apply bind_Ok in Hv as ([] & _ & Hv). apply bind_Ok in Hv as (pd & Hp & Hv).
  rewrite Hpend in Hp. injection Hp as <-.
  apply bind_Ok in Hv as (pn & _ & Hv). apply bind_Ok in Hv as (on & Hon & Hv).
  apply bind_Ok in Hv as ([] & _ & Hv). apply bind_Ok in Hv as (ph & Hph & Hv).
  do 6 apply bind_Ok in Hv as (? & _ & Hv). apply bind_Ok in Hv as (nc & Hnc & Hv).
  apply bind_Ok in Hv as ([] & _ & [= <- <- <-]).
  unfold rotated_config in Hnc. apply bind_Ok in Hnc as ([he hi] & _ & [= <-]).
  cbn [config_network]. unfold bitcoin_network in Hon. rewrite Hon. simpl. exact Hph.
Qed.

Lemma prepare_replacement d package w p w1 :
  prepare_rotation d package w = (Ok p, w1) → device_of (replacement_device p) (prepared_new_phone p).
Proof using.
  unfold prepare_rotation. intros Hrun.
  apply M_bind_Ok in Hrun as ([[old new] phone] & ? & [= Hv <-] & Hrun).
  apply M_bind_Ok in Hrun as ([] & w2 & Hn & Hrun). apply network_reads in Hn as ->.
  apply M_bind_Ok in Hrun as (old_phone & ? & [= _ <-] & Hrun).
  apply M_bind_Ok in Hrun as (backup & ? & [_ ->]%pure_Ok & Hrun).
  apply M_bind_Ok in Hrun as ([] & ? & [_ ->]%pure_Ok & Hrun).
  apply M_bind_Ok in Hrun as (pending & ? & [= Hpend <-] & Hrun).
  apply M_bind_Ok in Hrun as ([] & w3 & _ & Hrun). apply M_bind_Ok in Hrun as (psbt & ? & _ & Hrun).
  cbv zeta in Hrun. apply M_bind_Ok in Hrun as ([] & w4 & _ & [<- _]%mret_Ok).
  exact (validated_replacement _ _ _ _ _ _ _ Hv Hpend).
Qed.

Lemma replaced_files f0 d p w u w' :
  same_env f0 (w_fs w) → replace_phone_files d p w = (Ok u, w') →
  same_env f0 (w_fs w') ∧ ∃ sc sd, to_vec_pretty (prepared_new_config p) = Some sc ∧
    to_vec_pretty (replacement_device p) = Some sd ∧
    file_at (w_fs w') (resolve f0 d ++ ["anzen.json"]) = Some sc ∧
    file_at (w_fs w') (device_key f0 d) = Some sd.
Proof using.
  destruct u. intros He Hrun. unfold replace_phone_files in Hrun. cbv zeta in Hrun.
  apply M_bind_Ok in Hrun as ([] & w1 & (f1 & R1 & ->)%at_fs_Ok & Hrun).
  apply M_bind_Ok in Hrun as ([] & w2 & (f2 & R2 & ->)%at_fs_Ok & (f3 & R3 & ->)%at_fs_Ok).
  cbn [w_fs] in *. fold (replacement_device p) in R2.
  assert (∀ k s f f', same_env f0 f → k ≠ resolve f0 d ++ ["cloud"; "phone-seed-backup.json"] →
    write_json (join d PHONE_BACKUP_FILE) (prepared_backup p) f = (Ok tt, f') →
    same_env f0 f' ∧ (file_at f k = Some s → file_at f' k = Some s)) as Hbackup.
  { intros k s f f' Hef Hk. apply pres_write_json; [|exact Hef]. left.
    by rewrite (resolve_join _ _ _ ["cloud"; "phone-seed-backup.json"]) by done. }
  pose proof R1 as (Hv1 & _ & _ & Hf1)%write_json_run. destruct (Hf1 eq_refl) as (sc & Hsc & Hc). clear Hf1.
  assert (same_env f0 f1) as He1 by (destruct He, Hv1; split; congruence).
  pose proof R2 as (Hv2 & _ & _ & Hf2)%write_json_run. destruct (Hf2 eq_refl) as (sd & Hsd & Hd). clear Hf2.
  assert (same_env f0 f2) as He2 by (destruct He1, Hv2; split; congruence).
  rewrite (resolve_env _ _ _ He), (resolve_join _ _ _ ["anzen.json"]) in Hc by done.
  rewrite (resolve_env _ _ _ He1), resolve_device in Hd.
  assert (file_at f2 (resolve f0 d ++ ["anzen.json"]) = Some sc) as Hc2.
  { eapply (pres_write_json f0 _ sc (join d PHONE_DEVICE_FILE) (replacement_device p)); [left|exact He1|exact R2|exact Hc].
    rewrite resolve_device. unfold device_key. by intros [=]%app_inv_head. }
  destruct (Hbackup (resolve f0 d ++ ["anzen.json"]) sc f2 f3 He2) as [He3 K1]; [by intros [=]%app_inv_head|exact R3|].
  destruct (Hbackup (device_key f0 d) sd f2 f3 He2) as [_ K2]; [by intros [=]%app_inv_head|exact R3|].
  split; [exact He3|]. exists sc, sd. auto.
Qed.

(** * The last phase *)

(** What is read of the phone, when nothing near its names changes. *)
Lemma phone_untouched keys f f' d :
  touched keys f f' →
  (∀ key l, key ∈ keys → l ∈ phone_names → ¬ near key (resolve f d ++ l)) →
  load_config f' d = load_config f d ∧
  load_device_keys f' d PHONE_DEVICE_FILE = load_device_keys f d PHONE_DEVICE_FILE ∧
  load_schedule f' d = load_schedule f d ∧
  ∀ l, l ∈ phone_names → node_at f' (resolve f d ++ l) = node_at f (resolve f d ++ l).
Proof using.
  intros Ht Hk. split_and!.
  - apply (load_config_touched _ _ _ _ Ht). intros key Hin.
    split; (apply Hk; [done|]); [do 3 right; left|do 4 right; left].
  - unfold load_device_keys, load_device, read_json. rewrite (read_touched _ _ _ _ Ht); [done|].
    intros key Hin. rewrite resolve_device. apply (Hk key ["phone"; "device.json"]); [done|]. do 2 right. left.
  - apply (load_schedule_touched _ _ _ _ Ht). intros key Hin.
    apply (Hk key ["phone"; "schedule.json"]); [done|]. right. left.
  - intros l Hl. apply Ht. intros key Hin. by apply Hk.
Qed.

Lemma remove_file_touches p f u f' :
  resolve f p ≠ [] → remove_file p f = (Ok u, f') →
  touched [resolve f p] f f' ∧ node_at f' (resolve f p) = None.
Proof using.
  intros Hne. unfold remove_file, get, pure, put, mbind, M_bind. simpl.
  destruct (_ || _); simpl; [done|]. intros [= _ <-].
  destruct (resolve f p) as [|x l] eqn:Hk; [done|]. split.
  - split; [done|]. intros [|y k] Hfar; [done|]. unfold node_at. simpl.
    rewrite lookup_delete_ne; [done|]. intros Heq. apply (Hfar (x :: l)); [left|]. rewrite Heq. apply near_self.
  - unfold node_at. simpl. apply lookup_delete_eq.
Qed.

Definition last_names : list (list string) :=
  [["phone"; "rotation-policy-activation"]; ["phone"; "pending-rotation.json"]].

Lemma last_far f d key l :
  key ∈ (app (resolve f d) <$> last_names) → l ∈ phone_names → ¬ near key (resolve f d ++ l).
Proof using.
  intros (n & -> & Hn)%list_elem_of_fmap Hl Hnear.
  assert (Forall (λ n, Forall (λ l, ¬ near n l) phone_names) last_names) as Hall
    by (apply (bool_decide_unpack _); vm_compute; exact I).
  rewrite Forall_forall in Hall. specialize (Hall n Hn). rewrite Forall_forall in Hall.
  apply (Hall l Hl). destruct Hnear as [Hp|Hp]; apply prefix_app_inv in Hp; [by left|by right].
Qed.

(** The renewed policy is activated, or there is none; then the workspace and
    the pending key are removed. *)
Lemma finish_Ok d renewed w s w' :
  finish_rotation d renewed w = (Ok s, w') →
  ∃ w1, match s with
        | Some schedule => renewed ≠ None ∧
            activate_policy d (activation_workspace d) w = (Ok schedule, w1)
        | None => renewed = None ∧ w1 = w
        end ∧
    touched (app (resolve (w_fs w1) d) <$> last_names) (w_fs w1) (w_fs w') ∧
    exists_ (w_fs w') (join d PENDING_PHONE_ROTATION_FILE) = false.
Proof using.
  intros Hrun. unfold finish_rotation in Hrun.
  apply M_bind_Ok in Hrun as (s' & w1 & Hact & Hrun).
  apply M_bind_Ok in Hrun as ([] & w2 & (f2 & Hreset & ->)%at_fs_Ok & Hrun). cbv zeta in Hrun.
  apply M_bind_Ok in Hrun as (found & ? & [= Hfound <-] & Hrun).
  apply M_bind_Ok in Hrun as ([] & w3 & Hrem & [<- ->]%mret_Ok). cbn [w_fs] in *.
  exists w1. split.
  { destruct renewed as [policy|].
    - apply M_bind_Ok in Hact as (schedule & w1' & Hact & [<- ->]%mret_Ok). done.
    - by apply mret_Ok in Hact as [<- ->]. }
  apply reset_workspace_touches in Hreset.
  2: { unfold activation_workspace. rewrite (resolve_join _ _ _ ["phone"; "rotation-policy-activation"]) by done.
       by destruct (resolve (w_fs w1) d). }
  unfold activation_workspace in Hreset.
  rewrite (resolve_join _ _ _ ["phone"; "rotation-policy-activation"]) in Hreset by done.
  assert (touched (app (resolve (w_fs w1) d) <$> last_names) (w_fs w1) f2) as Ht.
  { eapply touched_mono; [|exact Hreset]. intros key ->%list_elem_of_singleton. left. }
  assert (∀ f, resolve f (join d PENDING_PHONE_ROTATION_FILE) = resolve f d ++ ["phone"; "pending-rotation.json"])
    as Hpending by (intros f; by apply resolve_join).
  destruct found.
  - apply at_fs_Ok in Hrem as (f3 & Hrem & ->). cbn [w_fs] in *.
    apply remove_file_touches in Hrem as [Ht3 Hgone]; [|rewrite Hpending; by destruct (resolve f2 d)].
    split.
    + eapply touched_trans; [exact Ht|]. eapply touched_mono; [|exact Ht3].
      intros key ->%list_elem_of_singleton. rewrite Hpending, (touched_resolve _ _ _ d Ht). right. left.
    + unfold exists_. by rewrite (touched_resolve _ _ _ _ Ht3), Hgone.
  - apply mret_Ok in Hrem as [_ ->]. done.
Qed.
End files.

(** * The whole rotation *)

Section complete.
Context `{!JsonLaws VaultConfig, !JsonLaws DeviceFile, !JsonLaws Schedule}.

Lemma stage_epoch_limits d e b phone m tx w schedule w' :
  stage_epoch d e b phone m tx w = (Ok schedule, w') →
  schedule_monthly_limit_sats schedule = monthly_limit_sats m ∧
  schedule_emergency_access_limit_sats schedule = emergency_access_limit_sats m.
Proof using.
  unfold stage_epoch. intros Hrun.
  do 7 apply M_bind_Ok in Hrun as (? & ? & _ & Hrun).
  apply M_bind_Ok in Hrun as (? & ? & _ & [<- _]%mret_Ok). done.
Qed.

(** The phone of a generation: its configuration, up to the limits of its
    policy, and its key. *)
Definition generation (f : FS) d (config : VaultConfig) (phone : DeviceKeys) : Prop :=
  load_config f d = Ok config ∧ load_device_keys f d PHONE_DEVICE_FILE = Ok phone.

Definition with_limits (schedule : Schedule) (config : VaultConfig) : VaultConfig :=
  set_limits (schedule_monthly_limit_sats schedule) (schedule_emergency_access_limit_sats schedule) config.

Lemma activated_generation d b w schedule w' config phone :
  no_read_fault (w_fs w) → generation (w_fs w) d config phone →
  activate_policy d b w = (Ok schedule, w') →
  generation (w_fs w') d (with_limits schedule config) phone ∧
  load_schedule (w_fs w') d = Ok schedule.
Proof.
  intros Hn [Hc Hk] (c' & m & tx & previous & w1 & Ha & Ht & Hcomp & _ & Hv & _)%activate_Ok.
  destruct (ar_phone _ _ _ _ _ _ _ _ _ Ha) as (phone' & _ & Hst).
  destruct (stage_epoch_limits _ _ _ _ _ _ _ _ _ Hst) as [Hm He].
  assert (no_read_fault (w_fs w1)) as Hn1 by (intros k; destruct Ht as [[_ ->] _]; apply Hn).
  destruct (completed_load _ _ _ _ _ _ _ Hn1 Hcomp) as (c0 & Hc0 & Hc5).
  rewrite (unmoved_config _ _ _ _ Ht), Hc in Hc0. injection Hc0 as <-.
  split; [split|].
  - unfold with_limits. by rewrite Hm, He.
  - by rewrite (completed_keys _ _ _ _ _ _ _ Hcomp), (unmoved_keys _ _ _ _ Ht).
  - apply (completed_schedule _ _ _ _ _ _ _ Hn1 Hcomp Hv).
Qed.

(** The steps up to the last phase leave the new generation and no epoch. *)
Lemma files_replaced f0 d p t (w1 w2 w3 w4 : RotationWorld B) a revoked renewed u1 u2 u3 :
  no_read_fault f0 → same_env f0 (rotation_fs w1) →
  device_of (replacement_device p) (prepared_new_phone p) →
  archive_old_epoch d (prepared_old_config p) t w1 = (Ok u1, w2) →
  on_world (replace_phone_files d p) w2 = (Ok u2, w3) →
  on_world (check_new_wallet d a revoked renewed) w3 = (Ok u3, w4) →
  same_env f0 (rotation_fs w4) ∧
  generation (rotation_fs w4) d (prepared_new_config p) (prepared_new_phone p) ∧
  ∀ l, l ∈ [["phone"; "schedule.json"]; ["phone"; "transactions"]] →
    node_at (rotation_fs w4) (resolve f0 d ++ l) = None.
Proof.
  intros Hn He Hdev [He2 Hgone]%(archived_old_epoch f0) R2 R3; [|done].
  pose proof R2 as (v3 & R2' & Hv3)%on_world_Ok. pose proof R3 as (v4 & R3' & Hv4)%on_world_Ok.
  apply (replaced_files f0) in R2' as (He3 & sc & sd & Hsc & Hsd & Hc & Hd); [|exact He2].
  assert (∀ k s, preserves (@w_fs _ _ _ B) f0 k s (check_new_wallet d a revoked renewed)) as Hkeep.
  { intros k s. unfold check_new_wallet. repeat (apply pres_bind; [auto with preserve|intros ?]). apply pres_ret. }
  rewrite <-Hv3 in He3, Hc, Hd. fold (rotation_fs w3) in He3, Hc, Hd.
  destruct (Hkeep (resolve f0 d ++ ["anzen.json"]) sc _ _ _ He3 R3') as [He4 Hc4].
  destruct (Hkeep (device_key f0 d) sd _ _ _ He3 R3') as [_ Hd4].
  rewrite <-Hv4 in He4, Hc4, Hd4. fold (rotation_fs w4) in He4, Hc4, Hd4.
  assert (no_read_fault (rotation_fs w4)) as Hn4 by (intros k; destruct He4 as [_ ->]; apply Hn).
  split; [done|]. split; [split|].
  - eapply load_config_at; [done|exact Hsc|].
    rewrite (resolve_join _ _ _ ["anzen.json"]), (resolve_env _ _ _ He4) by done. auto.
  - eapply load_device_at; [done|exact Hsd| |exact Hdev]. rewrite resolve_device.
    unfold device_key. rewrite (resolve_env _ _ _ He4). auto.
  - intros l Hl. destruct (gone_on_world f0 d l _ (gone_replace f0 d l Hl p) _ _ _ He2 R2) as [_ Hg3].
    destruct (gone_on_world f0 d l _ (gone_check_wallet f0 d l Hl a revoked renewed) _ _ _ He3 R3) as [_ Hg4].
    auto.
Qed.

(** Moving the coins leaves the process where it was. *)
Lemma rotation_coins f0 d t old phone h config package a (w1 w2 w3 w4 : RotationWorld B) r2 r3 r4 :
  same_env f0 (rotation_fs w1) →
  on_world (sweep_hot_wallet d (rotation_archive d t) a) w1 = (r2, w2) →
  on_world (revoke_old_controllers old phone h) w2 = (r3, w3) →
  on_world (broadcast_cooperative_sweep_for_config config package) w3 = (r4, w4) →
  same_env f0 (rotation_fs w4).
Proof using Names Json0.
  intros He R2 R3 R4.
  assert (["phone"; "device.json"] ∈ archived_names) as Hl by in_list.
  destruct (pres_on_world f0 _ "" _ (pres_sweep_hot f0 d t _ "" old Hl ltac:(discriminate) t a) _ _ _ He R2) as [He2 _].
  destruct (pres_on_world f0 _ "" _ (pres_revoke f0 d [] "" old phone h) _ _ _ He2 R3) as [He3 _].
  by destruct (pres_on_world f0 _ "" _ (pres_broadcast_sweep f0 d [] "" config package) _ _ _ He3 R4).
Qed.

End complete.
End rotation.
