(* ===== verification/RotationWitness.v ===== *)
(** The rotation theorem at the concrete phone of [ToyPhone], whose rotation
    the hardware wallet of [ColdWalletWitness] approved. *)

From S2P Require Import Prelude Bitcoin Toy Types Keys Policy Transactions FileSystem Storage Crypto Social SocialFacts Ceremony CeremonyValidate CeremonyBuild ToyCeremony Recovery RecoveryFacts ColdWallet ColdWalletWitness HotWallet Phone PhonePaths ToyPhone Vanity Rotation RotationFacts RotationSafety RotationComplete.

(** One database file, which a rename takes with its state. *)
#[export] Instance toy_db_files : DbFiles := {|
  open_in_memory := 0%N : Db;
  DbFile := N;
  db_file_exists x _ := bool_decide (x = "phone/hot-wallet.sqlite");
  db_rename _ := λ d, (Ok d, 0%N : Db);
|}.

#[export] Instance toy_tweaked : TweakedLib := {|
  tweaked_serialize t := replicate 32 ((t : N) mod 256)%N;
|}.

Definition toy_rotation_world : RotationWorld (list Transaction) :=
  Build_RotationWorld (toy_world toy_rotating_backed_up) [].
Definition toy_rotated_run : result RotationResult * RotationWorld (list Transaction) :=
  Eval vm_compute in activate_phone_rotation toy_dir toy_rotation_approved toy_rotation_world.
Definition toy_rotated_world : RotationWorld (list Transaction) :=
  ltac:(let r := eval cbv delta [toy_rotated_run] in toy_rotated_run in
        match r with (_, ?w) => exact w end).
Definition toy_rotation_result : RotationResult :=
  ltac:(let r := eval cbv delta [toy_rotated_run] in toy_rotated_run in
        match r with (Ok ?x, _) => exact x end).

Lemma rotation_keeps_both_generations_witness :
  activate_phone_rotation toy_dir toy_rotation_approved toy_rotation_world
    = (Ok toy_rotation_result, toy_rotated_world) ∧
  length (w_chain (rw_world toy_rotated_world)) = 1 ∧
  ∃ old phone archive, load_config (w_fs (rw_world toy_rotated_world)) archive = Ok old ∧
    load_device_keys (w_fs (rw_world toy_rotated_world)) archive PHONE_DEVICE_FILE = Ok phone.
Proof.
  assert (activate_phone_rotation toy_dir toy_rotation_approved toy_rotation_world
    = (Ok toy_rotation_result, toy_rotated_world)) as Ha by (vm_cast_no_check (eq_refl toy_rotated_run)).
  split; [exact Ha|]. split; [reflexivity|].
  destruct (rotation_keeps_both_generations toy_dir toy_rotation_approved toy_rotation_world
    (Ok toy_rotation_result) toy_rotated_world (λ _, ltac:(discriminate)) Ha)
    as [[_ Hno]|(old & new & np & op & psbt & _ & _ & _ & Hold & Hphone & _)];
    [destruct (Hno toy_rotation_result eq_refl)|].
  exists old, op, (rotation_archive toy_dir (compute_txid (unsigned_tx psbt))).
  split; [exact Hold|exact Hphone].
Defined.

