(* ===== verification/Ledger.v ===== *)
(** The Ledger app ([ledger-app/src/main.rs], [ledger-app/src/benchmark.rs]):
    the device's keys and its signing workload, and the sessions it runs with a
    host or alone.

    The SDK (elliptic curves, key derivation, the transport and the screen) is
    the class [LedgerSdk] on a state [D] of its own.  Every use the app makes of
    it that a host or a user could observe, and every use of the device's key,
    is also recorded, in order, in the log of the world. *)

From S2P Require Import Prelude ColdSigner.

(** * Commands and replies *)

Record ApduHeader := { cla : N; ins : N; p1 : N; p2 : N }.
Definition Command : Type := ApduHeader * list N.

(** [StatusWords], and [Reply] for the codes of the app's own. *)
Inductive StatusWord :=
  | SwOk
  | BadCla
  | BadIns
  | BadP1P2
  | BadLen
  | UserCancelled
  | Reply (code : N).

Inductive DecodedEventType :=
  | Apdu (command : Command)
  | ApduError
  | OtherEvent.

(** The callbacks of the home screen, run while an event is read. *)
Inductive HomeCallback :=
  | start_local_benchmark
  | quit_app.

Definition BENCHMARK_CLA : N := 224.
Definition PREPARE_INS : N := 32.
Definition KEY_DERIVATION_INS : N := 33.
Definition GRAPH_INS : N := 34.
Definition SIGNING_INS : N := 35.
Definition COMPLETE_INS : N := 36.
Definition BENCHMARK_VERSION : N := 3.

Inductive BenchmarkInstruction :=
  | Prepare (rollover_inputs : N)
  | KeyDerivation
  | GraphIns
  | Signing
  | Complete.
#[export] Instance BenchmarkInstruction_eq_dec : EqDecision BenchmarkInstruction.
Proof. solve_decision. Defined.
#[export] Instance StatusWord_eq_dec : EqDecision StatusWord.
Proof. solve_decision. Defined.

(** [BenchmarkInstruction::try_from]. *)
Definition decode (header : ApduHeader) : outcome StatusWord BenchmarkInstruction :=
  if negb (cla header =? BENCHMARK_CLA)%N then Fail BadCla else
  let zero := (p1 header =? 0)%N && (p2 header =? 0)%N in
  if (ins header =? PREPARE_INS)%N && (p2 header =? 0)%N
     && bool_decide (p1 header ∈ [1; 2; 12]%N)
  then Done (Prepare (p1 header))
  else if (ins header =? KEY_DERIVATION_INS)%N && zero then Done KeyDerivation
  else if (ins header =? GRAPH_INS)%N && zero then Done GraphIns
  else if (ins header =? SIGNING_INS)%N && zero then Done Signing
  else if (ins header =? COMPLETE_INS)%N && zero then Done Complete
  else if bool_decide (ins header ∈ [PREPARE_INS; KEY_DERIVATION_INS; GRAPH_INS; SIGNING_INS;
                                     COMPLETE_INS])
  then Fail BadP1P2
  else Fail BadIns.

(** * The SDK *)

Class LedgerSdk (D : Type) := {
  ECPrivateKey : Type;
  make_bip32_path : list N → list N;
  (* [Secp256k1::derive_from]; the chain code is not used. *)
  derive_from : list N → D → ECPrivateKey * D;
  public_key : ECPrivateKey → D → option (list N) * D;
  (* The software SHA-256 of a message; its [Result] is only an error for
     lengths no message here has. *)
  sha2_256 : list N → list N;
  (* The [cx_*_no_throw] calls: an error code, and the buffer they fill. *)
  CX_OK : N;
  cx_ecfp_scalar_mult : list N → list N → D → (N * list N) * D;
  cx_ecfp_add_point : list N → list N → D → (N * list N) * D;
  cx_ecschnorr_sign : ECPrivateKey → list N → D → (N * (list N * nat)) * D;
  (* [try_next_event], with the callback that ran while it was read;
     [next_command], where one ever arrives; and a send that may fail. *)
  sdk_try_next_event : D → (DecodedEventType * option HomeCallback) * D;
  sdk_next_command : D → option Command * D;
  sdk_send : list N → StatusWord → D → bool * D;
  (* [NbglGenericReview::show]: whether the user held to approve. *)
  sdk_review : list (string * string) → string → string → D → bool * D;
  sdk_show : string → D → D;
}.

(** * The world and its log *)

Inductive Effect :=
  (** What the host and the user did. *)
  | Received (c : Command)
  | Pressed
  | Reviewed (fields : list (string * string)) (approved : bool)
  (** What the device did: a reply, with the transport's answer; text on the
      screen; a use of the seed; a signature with the derived key. *)
  | Sent (data : list N) (sw : StatusWord) (delivered : bool)
  | Shown (text : string)
  | Home
  | Derived
  | Signed (message : list N).

(** [START_LOCAL_BENCHMARK] is [start_flag]. *)
Record World (D : Type) := { dev : D; start_flag : bool; log : list Effect }.
Arguments Build_World {D} _ _ _.
Arguments dev {D} _.
Arguments start_flag {D} _.
Arguments log {D} _.

(** The hasher has no state: each digest uses a fresh context. *)
Inductive LedgerSha256 (D : Type) := new_hasher.
Arguments new_hasher {D}.

Section ledger.
Context {D : Type} `{!LedgerSdk D}.

#[export] Instance ledger_sha256 : Sha256 (LedgerSha256 D) := λ parts h,
  (sha2_256 (mjoin parts), h).

(** A call of the SDK, recorded. *)
Definition recorded {E A} (effect : A → list Effect) (f : D → A * D) : SM (World D) E A := λ w,
  let '(a, d) := f (dev w) in
  (Done a, {| dev := d; start_flag := start_flag w; log := log w ++ effect a |}).
Definition quiet {E A} (f : D → A * D) : SM (World D) E A := recorded (λ _, []) f.
Definition show {E} (text : string) : SM (World D) E unit :=
  recorded (λ _, [Shown text]) (λ d, (tt, sdk_show text d)).
Definition send {E} (data : list N) (sw : StatusWord) : SM (World D) E bool :=
  recorded (λ ok, [Sent data sw ok]) (sdk_send data sw).

(** * The benchmark context ([benchmark.rs]) *)

Inductive BenchmarkError :=
  | Graph (e : ColdSigner.BenchmarkError)
  | Crypto
  | SignatureCreation
  | PublicKeyMismatch
  | SignatureCountMismatch.

Definition DM (A : Type) : Type := SM (World D) BenchmarkError A.

(** [?] on the errors of the shared crate, converted by [From]. *)
Definition from_graph {A} (o : outcome ColdSigner.BenchmarkError A) : outcome BenchmarkError A :=
  match o with
  | Done a => Done a
  | Fail e => Fail (Graph e)
  | Abort => Abort
  end.
Definition from_visit {A} (o : outcome (VisitError BenchmarkError) A) : outcome BenchmarkError A :=
  match o with
  | Done a => Done a
  | Fail (ColdSigner.Graph e) => Fail (Graph e)
  | Fail (Callback e) => Fail e
  | Abort => Abort
  end.

(** Code of the shared crate that hashes, on the device's hasher and a state
    of the caller's. *)
Definition hashing {C E A B} (c : C) (f : outcome E A * C → outcome BenchmarkError B)
    (m : SM (LedgerSha256 D * C) E A) : DM B :=
  lift (let '(o, (_, c)) := m (new_hasher, c) in f (o, c)).

Definition cx_ok (error : N) : outcome BenchmarkError unit :=
  if (error =? CX_OK)%N then Done tt else Fail Crypto.

Definition BENCHMARK_PATH : list N := make_bip32_path (ascii_bytes "m/86'/1'/100'/0/2147483647").
Definition FIXED_PHONE_XONLY_PUBLIC_KEY : list N :=
  [121; 190; 102; 126; 249; 220; 187; 172; 85; 160; 98; 149; 206; 135; 11; 7;
   2; 155; 252; 219; 45; 206; 40; 217; 89; 242; 129; 91; 22; 248; 23; 152]%N.
Definition SECP256K1_GENERATOR : list N :=
  4%N :: FIXED_PHONE_XONLY_PUBLIC_KEY ++
  [72; 58; 218; 119; 38; 163; 196; 101; 93; 164; 251; 252; 14; 17; 8; 168;
   253; 23; 180; 72; 166; 133; 84; 25; 156; 71; 208; 143; 251; 16; 212; 184]%N.
Definition BIP341_NUMS_POINT : list N :=
  4%N :: BIP341_NUMS_XONLY ++
  [49; 211; 198; 134; 57; 115; 146; 110; 4; 158; 99; 124; 177; 181; 244; 10;
   54; 218; 194; 138; 241; 118; 105; 104; 195; 12; 35; 19; 243; 163; 137; 4]%N.
Definition FIXED_SIGNING_DIGEST : list N :=
  [86; 226; 221; 117; 173; 143; 200; 201; 248; 245; 140; 42; 223; 116; 95; 211;
   244; 102; 105; 171; 56; 28; 83; 0; 167; 30; 182; 167; 162; 172; 181; 37]%N.

Definition xonly (key : list N) : outcome BenchmarkError (list N) :=
  prefix ← at_index key 0;
  if negb (prefix =? 4)%N then Fail Crypto else
  if bool_decide (33 ≤ length key) then Done (take 32 (drop 1 key)) else Abort.

Definition derive_benchmark_key : DM (ECPrivateKey * list N) :=
  private_key ← recorded (λ _, [Derived]) (derive_from BENCHMARK_PATH);
  key ← quiet (public_key private_key);
  key ← lift (ok_or key Crypto);
  key ← lift (from_graph (normalize_bip340_public_key key));
  mret (private_key, key).

Definition taproot_output_key (tweak : list N) : DM (list N) :=
  multiplied ← quiet (cx_ecfp_scalar_mult SECP256K1_GENERATOR tweak);
  _ ← lift (cx_ok multiplied.1);
  added ← quiet (cx_ecfp_add_point BIP341_NUMS_POINT multiplied.2);
  _ ← lift (cx_ok added.1);
  lift (xonly added.2).

(** [schnorr_sign_derived] and [schnorr_sign_raw]. *)
Definition schnorr_sign (private_key : ECPrivateKey) (message : list N) : DM (list N) :=
  signed ← recorded (λ _, [Signed message]) (cx_ecschnorr_sign private_key message);
  _ ← lift (cx_ok signed.1);
  if bool_decide (signed.2.2 = 64) then mret signed.2.1 else lift (Fail Crypto).

Record BenchmarkContext := {
  config : BenchmarkConfig;
  context_summary : WorkloadSummary;
  hww_private_key : ECPrivateKey;
  hww_public_key : list N;
}.

Definition prepare (rollover_inputs : N) : DM BenchmarkContext :=
  key ← derive_benchmark_key;
  hww_xonly ← lift (xonly key.2);
  policy ← hashing () fst (policy_commitment_new FIXED_PHONE_XONLY_PUBLIC_KEY hww_xonly);
  vault_output_key ← taproot_output_key (pc_output_key_tweak policy);
  controller ← hashing () fst (controller_commitment_new FIXED_PHONE_XONLY_PUBLIC_KEY hww_xonly);
  controller_output_key ← taproot_output_key (cc_output_key_tweak controller);
  config ← hashing () (from_graph ∘ fst) (deterministic rollover_inputs vault_output_key
    controller_output_key (pc_cooperative_leaf_hash policy));
  summary ← lift (from_graph (summary config));
  mret {| config := config; context_summary := summary;
          hww_private_key := key.1; hww_public_key := key.2 |}.

(** [expect] on a key that was checked when the context was made. *)
Definition hww_xonly_public_key {E} (c : BenchmarkContext) : outcome E (list N) :=
  match xonly (hww_public_key c) with
  | Done k => Done k
  | _ => Abort
  end.

Definition benchmark_key_derivation (c : BenchmarkContext) : DM (list N) :=
  key ← derive_benchmark_key;
  if bool_decide (key.2 = hww_public_key c) then lift (xonly key.2)
  else lift (Fail PublicKeyMismatch).

(** The closure's captured variables are the last message hash and the count. *)
Definition count_job (job : SignatureJob) : SM (list N * N) BenchmarkError unit :=
  λ '(last_sighash, generated),
  match add_u8 (E:=BenchmarkError) generated 1 with
  | Done generated' => (Done tt, (sighash job, generated'))
  | _ => (Abort, (sighash job, generated))
  end.

Definition benchmark_graph (c : BenchmarkContext) : DM (list N) :=
  generated ← hashing (replicate 32 0%N, 0%N)
    (λ '(o, s), from_visit (_ ← o; Done s))
    (for_each_signature_job (config c) count_job);
  if bool_decide (generated.2 = summary_signature_jobs (context_summary c))
  then mret generated.1 else lift (Fail SignatureCountMismatch).

Definition benchmark_fixed_digest_signing (c : BenchmarkContext) : DM (list N) :=
  last_signature ← state_loop (λ _ _, λ w,
      match schnorr_sign (hww_private_key c) FIXED_SIGNING_DIGEST w with
      | (Fail _, w') => (Fail SignatureCreation, w')
      | r => r
      end) (replicate 64 0%N) (seq 0 (N.to_nat (summary_signature_jobs (context_summary c))));
  lift (slice_to last_signature 32).

(** * Sessions ([main.rs])

    A function that returns early ends with [Returned]; [Waiting] is a device
    that no further command reaches, [Exited] the user leaving the app. *)
Inductive Exit := Returned | Waiting | Exited.

Definition Session (A : Type) : Type := SM (World D) Exit A.
Definition returning {A} : Session A := lift (Fail Returned).

(** [match f() { Ok(x) => x, Err(error) => { ...; return } }]. *)
Definition or_return {E A} (m : SM (World D) E A) (on_error : E → Session unit) : Session A := λ w,
  match m w with
  | (Done a, w') => (Done a, w')
  | (Fail e, w') => (_ ← on_error e; returning) w'
  | (Abort, w') => (Abort, w')
  end.

Definition reply_and_return {A} (sw : StatusWord) : Session A := _ ← send [] sw; returning.

Definition workload_response (s : WorkloadSummary) (trailing : list N) : list N :=
  [BENCHMARK_VERSION; summary_rollover_inputs s; summary_transactions s;
   summary_signature_jobs s] ++ trailing.

Definition benchmark_failure_reply (error : BenchmarkError) : StatusWord :=
  Reply match error with
        | Graph _ => 28432
        | Crypto => 28433
        | SignatureCreation => 28435
        | PublicKeyMismatch => 28437
        | SignatureCountMismatch => 28438
        end.

Definition next_command : Session Command := λ w,
  let '(c, d) := sdk_next_command (dev w) in
  match c with
  | Some c => (Done c, {| dev := d; start_flag := start_flag w; log := log w ++ [Received c] |})
  | None => (Fail Waiting, {| dev := d; start_flag := start_flag w; log := log w |})
  end.

(** The command it decodes, or the refusal it is answered with. *)
Definition next_expected_command (expected : BenchmarkInstruction) : Session (list N) :=
  c ← next_command;
  match decode c.1 with
  | Done i => if bool_decide (i = expected) then mret c.2 else reply_and_return BadIns
  | Fail sw => reply_and_return sw
  | Abort => lift Abort
  end.

Definition policy_fields : list (string * string) :=
  [("Vault balance", "2.1 BTC"); ("Monthly allowance", "0.1 BTC");
   ("Emergency access", "0.5 BTC"); ("Emergency access delay", "1 week")].
Definition review_benchmark_policy : Session bool :=
  recorded (λ ok, [Reviewed policy_fields ok])
    (sdk_review policy_fields "Approve annual vault policy" "Reject").

Record BenchmarkTimings := { key_derivation_ms : N; graph_ms : N; signing_ms : N }.

(** [u32::from_be_bytes]. *)
Definition be_u32 (bytes : list N) : N := foldl (λ a b, a * 256 + b)%N 0%N bytes.
Definition saturating_add_u32 (a b : N) : N := N.min (a + b) U32_MAX.

(** The twelve bytes of the last command. *)
Definition timings_of (data : list N) : option BenchmarkTimings :=
  if bool_decide (length data = 12) then
    Some {| key_derivation_ms := be_u32 (take 4 data);
            graph_ms := be_u32 (take 4 (drop 4 data));
            signing_ms := be_u32 (take 4 (drop 8 data)) |}
  else None.

Definition newline : string := String (Ascii.ascii_of_nat 10) EmptyString.
Definition complete_message (signatures : N) (timings : option BenchmarkTimings) : string :=
  let blank := newline +:+ newline in
  match timings with
  | Some t =>
      let total := saturating_add_u32 (saturating_add_u32 (key_derivation_ms t) (graph_ms t))
                     (signing_ms t) in
      "Benchmark complete" +:+ blank
      +:+ "Key derivation: " +:+ pretty (key_derivation_ms t) +:+ " ms" +:+ newline
      +:+ "Graph: " +:+ pretty (graph_ms t) +:+ " ms" +:+ newline
      +:+ pretty signatures +:+ " signatures: " +:+ pretty (signing_ms t) +:+ " ms" +:+ newline
      +:+ "Full workload: " +:+ pretty total +:+ " ms"
  | None =>
      "Benchmark complete" +:+ blank +:+ pretty signatures +:+ " signatures created" +:+ blank
      +:+ "Connect the benchmark runner for phase timings."
  end.
Definition show_benchmark_complete (signatures : N) (timings : option BenchmarkTimings)
    : Session unit := show (complete_message signatures timings).

Definition show_local_run_error (error : BenchmarkError) : Session unit :=
  show match error with
       | SignatureCreation => "Hardware signing failed"
       | PublicKeyMismatch => "Derived benchmark key changed"
       | SignatureCountMismatch => "Signature count check failed"
       | Graph _ => "Transaction graph failed"
       | Crypto => "Ledger cryptography failed"
       end.

Definition run_local_benchmark : Session unit :=
  _ ← show "Preparing deterministic vault";
  c ← or_return (prepare 12) (λ _, show "Benchmark preparation failed");
  approved ← review_benchmark_policy;
  if negb (approved : bool) then _ ← show "Benchmark cancelled"; returning else
  _ ← show "Deriving benchmark key";
  _ ← or_return (benchmark_key_derivation c) show_local_run_error;
  _ ← show "Building transaction graph";
  _ ← or_return (benchmark_graph c) show_local_run_error;
  _ ← show "Signing fixed digest";
  _ ← or_return (benchmark_fixed_digest_signing c) show_local_run_error;
  show_benchmark_complete (summary_signature_jobs (context_summary c)) None.

(** One measured phase of a host session: the spinner, the expected command
    with no data, the work and its 36-byte answer. *)
Definition host_phase (expected : BenchmarkInstruction) (ready working : string)
    (s : WorkloadSummary) (work : DM (list N)) : Session unit :=
  _ ← show ready;
  data ← next_expected_command expected;
  if negb (bool_decide (data = [])) then reply_and_return BadLen else
  _ ← show working;
  trailing ← or_return work
    (λ error, _ ← send [] (benchmark_failure_reply error); mret tt);
  delivered ← send (workload_response s trailing) SwOk;
  if (delivered : bool) then mret tt else returning.

Definition handle_host_command (command : Command) : Session unit :=
  if negb (bool_decide (command.2 = [])) then reply_and_return BadLen else
  match decode command.1 with
  | Fail sw => reply_and_return sw
  | Abort => lift Abort
  | Done (Prepare rollover_inputs) =>
      _ ← show "Preparing deterministic vault";
      c ← or_return (prepare rollover_inputs)
        (λ error, _ ← send [] (benchmark_failure_reply error); mret tt);
      approved ← review_benchmark_policy;
      if negb (approved : bool) then reply_and_return UserCancelled else
      let s := context_summary c in
      key ← lift (hww_xonly_public_key c);
      delivered ← send (workload_response s key) SwOk;
      if negb (delivered : bool) then returning else
      _ ← host_phase KeyDerivation "Ready for key derivation" "Deriving benchmark key" s
        (benchmark_key_derivation c);
      _ ← host_phase GraphIns "Ready for transaction graph" "Building transaction graph" s
        (benchmark_graph c);
      _ ← host_phase Signing "Ready for fixed-digest signing" "Signing fixed digest" s
        (benchmark_fixed_digest_signing c);
      _ ← show "Finishing benchmark";
      data ← next_expected_command Complete;
      match timings_of data with
      | None => reply_and_return BadLen
      | Some timings =>
          delivered ← send [BENCHMARK_VERSION] SwOk;
          if negb (delivered : bool) then returning else
          show_benchmark_complete (summary_signature_jobs s) (Some timings)
      end
  | Done _ => reply_and_return BadIns
  end.

(** The early returns of a session end it, not its caller. *)
Definition session (m : Session unit) : Session unit := λ w,
  match m w with
  | (Fail Returned, w') => (Done tt, w')
  | r => r
  end.

Definition set_start (b : bool) : Session unit := λ w,
  (Done tt, {| dev := dev w; start_flag := b; log := log w |}).
Definition start_requested : Session bool := λ w, (Done (start_flag w), w).

(** An event, after the callback that ran while it was read. *)
Definition try_next_event : Session DecodedEventType :=
  e ← recorded (λ '(e, cb),
         (if cb is Some start_local_benchmark then [Pressed] else []) ++
         (if e is Apdu c then [Received c] else [])) sdk_try_next_event;
  _ ← match e.2 with
      | Some start_local_benchmark => set_start true
      | Some quit_app => lift (Fail Exited)
      | None => mret tt
      end;
  mret e.1.

(** The loop of [show_home], for at most [fuel] events. *)
Fixpoint home_loop (fuel : nat) : Session unit :=
  match fuel with
  | 0 => lift (Fail Waiting)
  | S fuel =>
      requested ← start_requested;
      if (requested : bool) then session run_local_benchmark else
      event ← try_next_event;
      match event with
      | Apdu command => session (handle_host_command command)
      | ApduError => _ ← send [] BadLen; home_loop fuel
      | OtherEvent => home_loop fuel
      end
  end.

Definition show_home (fuel : nat) : Session unit :=
  _ ← set_start false;
  _ ← recorded (λ _, [Home]) (λ d, (tt, sdk_show "Anzen" d));
  home_loop fuel.

(** The first rounds of the app's endless loop, with the fuel of each. *)
Definition sample_main (rounds : list nat) : Session unit :=
  state_loop (λ _ fuel, show_home fuel) tt rounds.
End ledger.
