(* ===== verification/LedgerProtocol.v ===== *)
(** The protocol of the Ledger app as an automaton over what the device, the
    host and the user do, and the proof that every run of the app, whatever
    its host, its user and its cryptography answer, follows it. *)

From S2P Require Import Prelude ColdSigner Ledger.

(** * The protocol *)

(** The phases.  [None] stands for the benchmark started on the device. *)
Inductive Phase :=
  | Over
  | AtHome (pressed : bool)
  | Rejecting
  | Preparing (n : option N)
  | Declined (n : option N)
  | Approved (n : option N)
  | Ready (n : N) (k : BenchmarkInstruction)
  | Working (n : N) (k : BenchmarkInstruction) (uses : nat)
  | LocalKey (signatures : nat).

(** What a workload of [n] rollover inputs is announced as. *)
Definition header (n : N) : list N := [BENCHMARK_VERSION; n; TRANSACTION_COUNT; n + 14]%N.

(** The uses of the key a command is answered after. *)
Definition due (n : N) (k : BenchmarkInstruction) : nat :=
  match k with
  | KeyDerivation => 1
  | Signing => N.to_nat (n + 14)
  | _ => 0
  end.

Definition following (k : BenchmarkInstruction) : BenchmarkInstruction :=
  match k with
  | KeyDerivation => GraphIns
  | GraphIns => Signing
  | _ => Complete
  end.

(** The data a command carries. *)
Definition carries (k : BenchmarkInstruction) (data : list N) : bool :=
  match k with
  | Complete => bool_decide (length data = 12)
  | _ => bool_decide (data = [])
  end.

Definition on_received (p : Phase) (c : Command) : option Phase :=
  match p with
  | AtHome _ =>
      match decode c.1 with
      | Done (Prepare n) => Some (if bool_decide (c.2 = []) then Preparing (Some n) else Rejecting)
      | _ => Some Rejecting
      end
  | Ready n k =>
      Some match decode c.1 with
           | Done i => if bool_decide (i = k) && carries k c.2 then Working n k 0 else Rejecting
           | _ => Rejecting
           end
  | _ => None
  end.

Definition on_answer (p : Phase) (data : list N) (delivered : bool) : option Phase :=
  match p with
  | Approved (Some n) =>
      if bool_decide (take 4 data = header n)
      then Some (if delivered then Ready n KeyDerivation else Over) else None
  | Working n Complete _ =>
      if bool_decide (data = [BENCHMARK_VERSION]) then Some Over else None
  | Working n k uses =>
      if bool_decide (take 4 data = header n) && bool_decide (uses = due n k)
      then Some (if delivered then Ready n (following k) else Over) else None
  | _ => None
  end.

Definition on_refusal (p : Phase) (sw : StatusWord) : option Phase :=
  match p with
  | AtHome b => if bool_decide (sw = BadLen) then Some p else None
  | Rejecting | Preparing (Some _) | Working _ _ _ => Some Over
  | Declined (Some _) => if bool_decide (sw = UserCancelled) then Some Over else None
  | _ => None
  end.

Definition next (p : Phase) (e : Effect) : option Phase :=
  match e with
  | Shown _ => Some p
  | Home =>
      match p with
      | Over | Preparing None | Declined None | Approved None | LocalKey _ => Some (AtHome false)
      | _ => None
      end
  | Pressed => match p with AtHome _ => Some (AtHome true) | _ => None end
  | Received c => on_received p c
  | Reviewed fields ok =>
      match p with
      | Preparing n =>
          if bool_decide (fields = policy_fields)
          then Some (if ok then Approved n else Declined n) else None
      | _ => None
      end
  | Sent data sw delivered =>
      if bool_decide (sw = SwOk) then on_answer p data delivered
      else if bool_decide (data = []) then on_refusal p sw else None
  | Derived =>
      match p with
      | AtHome true => Some (Preparing None)
      | Preparing n => Some p
      | Approved None => Some (LocalKey 0)
      | Working n KeyDerivation uses => Some (Working n KeyDerivation (S uses))
      | _ => None
      end
  | Signed message =>
      if bool_decide (message = FIXED_SIGNING_DIGEST) then
        match p with
        | Working n Signing uses => Some (Working n Signing (S uses))
        | LocalKey signatures => Some (LocalKey (S signatures))
        | _ => None
        end
      else None
  end.

Fixpoint run (p : Phase) (l : list Effect) : option Phase :=
  match l with
  | [] => Some p
  | e :: l => p ← next p e; run p l
  end.

Lemma run_app p l l' : run p (l ++ l') = (p ← run p l; run p l').
Proof. revert p. induction l as [|e l IH]; intros p; [done|].
  cbn [app run]. destruct (next p e) as [q|]; [apply IH|done].
Qed.

(** * Code that follows the protocol *)

Section follows.
Context {D : Type} `{!LedgerSdk D}.

(** The flag of the home screen is the phase's. *)
Definition start_ok (w : World D) (p : Phase) : Prop :=
  match p with AtHome b => start_flag w = b | _ => True end.

(** From phase [p]: the log grows by a word of the protocol, and the outcome
    is one that fits the phase it leads to. *)
Definition follows {E A} (p : Phase) (m : SM (World D) E A) (Q : A → Phase → Prop)
    (R : E → Phase → Prop) : Prop := ∀ w, start_ok w p →
  ∃ l p', log (m w).2 = log w ++ l ∧ run p l = Some p' ∧ start_ok (m w).2 p' ∧
    match (m w).1 with
    | Done a => Q a p'
    | Fail e => R e p'
    | Abort => True
    end.

Context {E : Type}.

Lemma follows_lift {A} p (o : outcome E A) (Q : A → Phase → Prop) (R : E → Phase → Prop) :
  match o with Done a => Q a p | Fail e => R e p | Abort => True end → follows p (lift o) Q R.
Proof. intros Ho w Hw. exists [], p. simpl. by rewrite app_nil_r. Qed.

Lemma follows_ret {A} p (a : A) (Q : A → Phase → Prop) (R : E → Phase → Prop) :
  Q a p → follows p (mret a) Q R.
Proof. intros HQ. by apply (follows_lift p (Done a)). Qed.

Lemma follows_bind {A B} p (m : SM (World D) E A) (f : A → SM (World D) E B) Q R :
  follows p m (λ a p', follows p' (f a) Q R) R → follows p (a ← m; f a) Q R.
Proof.
  intros Hm w Hw. unfold mbind, SM_bind. destruct (Hm w Hw) as (l & p1 & Hl & Hr & Hs & Hp).
  destruct (m w) as [[a|e|] w1]; cbn [fst snd] in *; [|by exists l, p1..].
  destruct (Hp w1 Hs) as (l' & p2 & Hl' & Hr' & Hs' & Hp').
  exists (l ++ l'), p2. by rewrite Hl', Hl, app_assoc, run_app, Hr.
Qed.

Lemma follows_mono {A} p (m : SM (World D) E A) (Q Q' : A → Phase → Prop) (R R' : E → Phase → Prop) :
  follows p m Q R → (∀ a q, Q a q → Q' a q) → (∀ e q, R e q → R' e q) → follows p m Q' R'.
Proof.
  intros Hm HQ HR w Hw. destruct (Hm w Hw) as (l & q & Hl & Hr & Hs & Hp).
  exists l, q. split_and!; [done..|]. destruct (m w).1; auto.
Qed.

(** A recorded call, whatever the SDK answers. *)
Lemma follows_recorded {A} p (effect : A → list Effect) f (Q : A → Phase → Prop)
    (R : E → Phase → Prop) :
  (∀ a, ∃ p', run p (effect a) = Some p' ∧
     match p' with AtHome b => p = AtHome b | _ => True end ∧ Q a p') →
  follows p (recorded effect f) Q R.
Proof.
  intros Hp w Hw. unfold recorded. destruct (f (dev w)) as [a d].
  destruct (Hp a) as (p' & Hr & Hs & HQ). exists (effect a), p'.
  split_and!; [done..| |done]. destruct p'; try done. by subst p.
Qed.

Lemma follows_quiet {A} p (f : D → A * D) (Q : A → Phase → Prop) (R : E → Phase → Prop) :
  (∀ a, Q a p) → follows p (quiet f) Q R.
Proof. intros HQ. apply follows_recorded. intros a. exists p. split_and!; [done| |done]. by destruct p. Qed.

Lemma follows_show p text (Q : unit → Phase → Prop) (R : E → Phase → Prop) :
  Q tt p → follows p (show text) Q R.
Proof.
  intros HQ. apply follows_recorded. intros []. exists p.
  split_and!; [done| |done]. by destruct p.
Qed.

Lemma follows_send p data sw (Q : bool → Phase → Prop) (R : E → Phase → Prop) :
  (∀ ok, ∃ p', next p (Sent data sw ok) = Some p' ∧
     match p' with AtHome b => p = AtHome b | _ => True end ∧ Q ok p') →
  follows p (send data sw) Q R.
Proof.
  intros Hp. apply follows_recorded. intros ok. destruct (Hp ok) as (p' & Hn & Hs & HQ).
  exists p'. cbn [run]. by rewrite Hn.
Qed.

Lemma follows_loop {A W} (f : W → A → SM (World D) E W) (I : nat → Phase → Prop)
    (R : E → Phase → Prop) l w p :
  I 0 p → (∀ i w a q, I i q → follows q (f w a) (λ _, I (S i)) R) →
  follows p (state_loop f w l) (λ _, I (length l)) R.
Proof.
  revert I w p. induction l as [|a l IH]; intros I w p Hp Hf; [by apply follows_ret|].
  cbn [state_loop length]. apply follows_bind. eapply follows_mono; [by apply Hf| |done].
  intros w' q Hq. apply (IH (λ i, I (S i))); [done|]. intros i v b r Hr. by apply Hf.
Qed.
End follows.

(** * The device's work *)

Section device.
Context {D : Type} `{!LedgerSdk D}.

(** The phase after a use of the seed. *)
Definition on_derived (p p' : Phase) : Prop :=
  next p Derived = Some p' ∧ match p' with AtHome _ => False | _ => True end.

Lemma follows_derive p p' : on_derived p p' →
  follows p derive_benchmark_key (λ _ q, q = p') (λ _ q, q = p').
Proof.
  intros [Hn Hp]. unfold derive_benchmark_key. apply follows_bind, follows_recorded.
  intros k. exists p'. cbn [run]. rewrite Hn. split; [done|]. split; [by destruct p'|].
  apply follows_bind, follows_quiet. intros key. apply follows_bind, follows_lift.
  destruct key as [key|]; [|done]. cbn [ok_or]. apply follows_bind, follows_lift.
  destruct (normalize_bip340_public_key key); [|done..]. by apply follows_ret.
Qed.

Lemma follows_taproot p tweak :
  follows p (taproot_output_key tweak) (λ _ q, q = p) (λ _ q, q = p).
Proof.
  unfold taproot_output_key. apply follows_bind, follows_quiet. intros a.
  apply follows_bind, follows_lift. destruct (cx_ok a.1); [|done..].
  apply follows_bind, follows_quiet. intros b.
  apply follows_bind, follows_lift. destruct (cx_ok b.1); [|done..].
  apply follows_lift. by destruct (xonly b.2).
Qed.

Lemma deterministic_count {H S} `{Hash : !Sha256 H} n vk ck leaf (s : H * S) cfg s' :
  (deterministic n vk ck leaf : SM (H * S) _ _) s = (Done cfg, s') → rollover_input_count cfg = n.
Proof.
  unfold deterministic. destruct (_ || _); [done|].
  unfold mbind, SM_bind. destruct (fill (fake_utxo n) _ _ s) as [[ins|e|] s1]; [|done..].
  destruct (fill monthly_hot_script _ _ s1) as [[ms|e|] s2]; [|done..].
  destruct (hash_m _ s2) as [[d|e|] s3]; [|done..]. by intros [= <- <-].
Qed.

Lemma prepared_summary cfg n s : n ∈ [1; 2; 12]%N → rollover_input_count cfg = n →
  summary cfg = Done s → ∀ t, take 4 (workload_response s t) = header n ∧
    summary_signature_jobs s = (n + 14)%N.
Proof.
  intros Hn Hc Hs t. unfold summary, add_u8 in Hs. rewrite Hc in Hs.
  assert ((n + 14 <=? 255)%N = true) as Hle by (apply N.leb_le; set_solver by lia).
  rewrite Hle in Hs. injection Hs as <-. by cbn.
Qed.

(** A prepared context announces the inputs it was prepared for. *)
Definition announces (n : N) (c : BenchmarkContext) : Prop :=
  (∀ t, take 4 (workload_response (context_summary c) t) = header n) ∧
  summary_signature_jobs (context_summary c) = (n + 14)%N.

Lemma follows_prepare p p' n : n ∈ [1; 2; 12]%N → on_derived p p' →
  follows p (prepare n) (λ c q, q = p' ∧ announces n c) (λ _ q, q = p').
Proof.
  intros Hn Hp. unfold prepare. apply follows_bind.
  eapply follows_mono; [by apply follows_derive| |done]. intros key q ->.
  apply follows_bind, follows_lift. destruct (xonly key.2) as [x|?|]; [|done..].
  apply follows_bind, follows_lift.
  destruct (policy_commitment_new _ _ _) as [[policy|?|] [? []]]; [|done..].
  cbn [fst]. apply follows_bind. eapply follows_mono; [apply follows_taproot| |done]. intros vk q ->.
  apply follows_bind, follows_lift.
  destruct (controller_commitment_new _ _ _) as [[controller|?|] [? []]]; [|done..].
  cbn [fst]. apply follows_bind. eapply follows_mono; [apply follows_taproot| |done]. intros ck q ->.
  apply follows_bind, follows_lift.
  destruct (deterministic _ _ _ _ _) as [[cfg|?|] [? []]] eqn:Hd; [|done..].
  cbn [fst compose from_graph]. apply follows_bind, follows_lift.
  destruct (summary cfg) as [s|?|] eqn:Hs; [|done..]. apply follows_ret. split; [done|].
  apply deterministic_count in Hd. pose proof (prepared_summary cfg n s Hn Hd Hs) as Hsum.
  split; [intros t; apply Hsum|by apply (Hsum [])].
Qed.

Lemma follows_key_derivation p p' c : on_derived p p' →
  follows p (benchmark_key_derivation c) (λ _ q, q = p') (λ _ q, q = p').
Proof.
  intros Hp. unfold benchmark_key_derivation. apply follows_bind.
  eapply follows_mono; [by apply follows_derive| |done]. intros key q ->.
  case_bool_decide; apply follows_lift; [|done]. by destruct (xonly key.2).
Qed.

Lemma follows_graph p c : follows p (benchmark_graph c) (λ _ q, q = p) (λ _ q, q = p).
Proof.
  unfold benchmark_graph, hashing. apply follows_bind, follows_lift.
  destruct (for_each_signature_job _ _ _) as [o [h s]]. destruct o as [?|[]|]; [|done..].
  cbn. case_bool_decide; [by apply follows_ret|by apply follows_lift].
Qed.

(** One signature of the fixed digest per job. *)
Lemma follows_signing (p : nat → Phase) c :
  (∀ i, next (p i) (Signed FIXED_SIGNING_DIGEST) = Some (p (S i)) ∧
        match p i with AtHome _ => False | _ => True end) →
  follows (p 0) (benchmark_fixed_digest_signing c)
    (λ _ q, q = p (N.to_nat (summary_signature_jobs (context_summary c)))) (λ _ q, ∃ i, q = p i).
Proof.
  intros Hp. unfold benchmark_fixed_digest_signing. apply follows_bind.
  eapply follows_mono;
    [apply (follows_loop _ (λ i q, q = p i) (λ _ q, ∃ i, q = p i)); [done|]| |done].
  - intros i w a q -> v Hv. destruct (Hp i) as [Hn _], (Hp (S i)) as [_ Hh].
    assert (follows (p i) (schnorr_sign (hww_private_key c) FIXED_SIGNING_DIGEST)
      (λ _ q, q = p (S i)) (λ _ q, q = p (S i))) as Hs.
    { unfold schnorr_sign. apply follows_bind, follows_recorded. intros r. exists (p (S i)).
      cbn [run]. rewrite Hn. split; [done|]. split; [by destruct (p (S i))|].
      apply follows_bind, follows_lift. destruct (cx_ok r.1); [|done..].
      case_bool_decide; [by apply follows_ret|by apply follows_lift]. }
    destruct (Hs v Hv) as (l & q & Hl & Hr & Hok & Hq).
    destruct (schnorr_sign _ _ v) as [[s|e|] v']; exists l, q; cbn [fst snd] in *;
      split_and!; try done. by exists (S i).
  - intros sig q ->. rewrite length_seq. apply follows_lift. unfold slice_to.
    by case_bool_decide.
Qed.
End device.
