(* ===== verification/LedgerSession.v ===== *)
(** Every run of the Ledger app is a word of its protocol, and the device's key
    signs nothing but the fixed digest, after an approval on the device. *)

From S2P Require Import Prelude ColdSigner Ledger LedgerProtocol.

Section sessions.
Context {D : Type} `{!LedgerSdk D}.
#[local] Abbreviation Session := (Ledger.Session (D:=D)).

(** A session over: the home screen may come next. *)
Definition final (p : Phase) : Prop := next p Home = Some (AtHome false).
Definition returned (e : Exit) (p : Phase) : Prop := e = Returned → final p.

Lemma follows_returning {A} p (Q : A → Phase → Prop) : final p → follows p (returning : Session A) Q returned.
Proof. intros Hp. apply follows_lift. by intros _. Qed.

Lemma follows_reply {A} p sw (Q : A → Phase → Prop) :
  (∀ ok, next p (Sent [] sw ok) = Some Over) → follows p (reply_and_return sw : Session A) Q returned.
Proof.
  intros Hp. unfold reply_and_return. apply follows_bind, follows_send. intros ok. exists Over.
  split; [apply Hp|]. split; [done|]. by apply follows_returning.
Qed.

Lemma follows_or_return {E A} p (m : SM (World D) E A) on_error (Q : A → Phase → Prop) R :
  follows p m Q R → (∀ e q, R e q → follows q (on_error e) (λ _, final) returned) →
  follows p (or_return m on_error) Q returned.
Proof.
  intros Hm He w Hw. unfold or_return. destruct (Hm w Hw) as (l & q & Hl & Hr & Hs & Hp).
  destruct (m w) as [[a|e|] w1]; cbn [fst snd] in *; [by exists l, q| |by exists l, q].
  assert (follows q (_ ← on_error e; returning : Session A) Q returned) as Hf.
  { apply follows_bind. eapply follows_mono; [by apply He| |done].
    intros [] r Hf. by apply follows_returning. }
  destruct (Hf w1 Hs) as (l' & r & Hl' & Hr' & Hs' & Hp').
  exists (l ++ l'), r. by rewrite Hl', Hl, app_assoc, run_app, Hr.
Qed.

Lemma follows_next_command p (Q : Command → Phase → Prop) :
  (∀ c, ∃ q, on_received p c = Some q ∧ match q with AtHome _ => False | _ => True end ∧ Q c q) →
  (∀ b, p ≠ AtHome b) → follows p (next_command : Session Command) Q returned.
Proof.
  intros Hp Hh w Hw. unfold next_command. destruct (sdk_next_command (dev w)) as [[c|] d].
  - destruct (Hp c) as (q & Hn & Hq & HQ). exists [Received c], q. cbn [run next fst snd log].
    rewrite Hn. split_and!; try done. by destruct q.
  - exists [], p. cbn [fst snd log]. rewrite app_nil_r. split_and!; [done..| |done].
    by destruct p; [|destruct (Hh pressed)|..].
Qed.

Lemma follows_expected n k :
  follows (Ready n k) (next_expected_command k : Session (list N))
    (λ data q, q = if carries k data then Working n k 0 else Rejecting) returned.
Proof.
  unfold next_expected_command. apply follows_bind, follows_next_command; [|done].
  intros c. eexists. split; [done|].
  destruct (decode c.1) as [i|sw|] eqn:Hd.
  - case_bool_decide as Hi; cbn [andb].
    + split; [by destruct (carries k c.2)|]. by apply follows_ret.
    + split; [done|]. by apply follows_reply.
  - split; [done|]. apply follows_reply. intros ok. cbn [next].
    rewrite bool_decide_eq_false_2; [done|]. intros ->. revert Hd. unfold decode.
    by repeat case_match.
  - split; [done|]. by apply follows_lift.
Qed.

(** The three phases that answer with the workload. *)
Definition measured (k : BenchmarkInstruction) : Prop :=
  k = KeyDerivation ∨ k = GraphIns ∨ k = Signing.

Lemma follows_host_phase n k ready working s work : measured k →
  (∀ t, take 4 (workload_response s t) = header n) →
  follows (Working n k 0) work (λ _ q, q = Working n k (due n k)) (λ _ q, ∃ i, q = Working n k i) →
  follows (Ready n k) (host_phase k ready working s work)
    (λ _ q, q = Ready n (following k)) returned.
Proof.
  intros Hk Hs Hwork. unfold host_phase. apply follows_bind, follows_show, follows_bind.
  eapply follows_mono; [apply follows_expected| |done]. intros data q ->.
  assert (carries k data = bool_decide (data = [])) as -> by (by destruct Hk as [->|[->| ->]]).
  case_bool_decide; cbn [negb]; [|by apply follows_reply].
  apply follows_bind, follows_show, follows_bind.
  eapply follows_or_return.
  - eapply follows_mono; [exact Hwork| |done]. intros trailing q ->.
    apply follows_bind, follows_send. intros ok.
    exists (if ok then Ready n (following k) else Over). split.
    { cbn [next]. rewrite bool_decide_eq_true_2 by done.
      destruct Hk as [->|[->| ->]]; cbn [on_answer]; rewrite Hs, !bool_decide_eq_true_2 by done; done. }
    split; [by destruct ok|]. destruct ok; [by apply follows_ret|by apply follows_returning].
  - intros e q [i ->]. apply follows_bind, follows_send. intros ok. exists Over.
    split; [done|]. split; [done|]. by apply follows_ret.
Qed.

(** ** A host's session *)

Lemma follows_host_work n c (rest : Session unit) : announces n c →
  follows (Ready n Complete) rest (λ _, final) returned →
  follows (Ready n KeyDerivation)
    (_ ← host_phase KeyDerivation "Ready for key derivation" "Deriving benchmark key"
       (context_summary c) (benchmark_key_derivation c);
     _ ← host_phase GraphIns "Ready for transaction graph" "Building transaction graph"
       (context_summary c) (benchmark_graph c);
     _ ← host_phase Signing "Ready for fixed-digest signing" "Signing fixed digest"
       (context_summary c) (benchmark_fixed_digest_signing c);
     rest) (λ _, final) returned.
Proof.
  intros [Hh Hj] Hrest. apply follows_bind.
  eapply follows_mono; [apply follows_host_phase; [by left|done|]| |done].
  { eapply follows_mono; [by apply (follows_key_derivation _ (Working n KeyDerivation 1))| |].
    - by intros a q ->.
    - intros e q ->. by exists 1. }
  intros [] q ->. apply follows_bind.
  eapply follows_mono; [apply follows_host_phase; [by right; left|done|]| |done].
  { eapply follows_mono; [apply follows_graph| |].
    - by intros a q ->.
    - intros e q ->. by exists 0. }
  intros [] q ->. apply follows_bind.
  eapply follows_mono; [apply follows_host_phase; [by right; right|done|]| |done].
  { eapply follows_mono; [by apply (follows_signing (Working n Signing))| |done].
    intros a q ->. cbn [due]. by rewrite Hj. }
  by intros [] q ->.
Qed.

Lemma decode_prepare h n : decode h = Done (Prepare n) → n ∈ [1; 2; 12]%N.
Proof.
  unfold decode. repeat case_match; intros [= <-].
  by match goal with H : _ && bool_decide (p1 h ∈ _) = true |- _ =>
    apply andb_prop in H as [_ H%bool_decide_eq_true] end.
Qed.
Lemma decode_refuses h sw : decode h = Fail sw → sw ≠ SwOk.
Proof. unfold decode. repeat case_match; congruence. Qed.

(** A refusal while a command is being handled. *)
Lemma refused p data sw ok : sw ≠ SwOk → data = [] → on_refusal p sw = Some Over →
  next p (Sent data sw ok) = Some Over.
Proof.
  intros Hs -> Hr. cbn [next]. by rewrite bool_decide_eq_false_2, bool_decide_eq_true_2.
Qed.

Lemma follows_finish n s :
  follows (Ready n Complete)
    (_ ← show "Finishing benchmark";
     data ← next_expected_command Complete;
     match timings_of data with
     | None => reply_and_return BadLen
     | Some timings =>
         delivered ← send [BENCHMARK_VERSION] SwOk;
         if negb (delivered : bool) then returning else
         show_benchmark_complete (summary_signature_jobs s) (Some timings)
     end : Session unit) (λ _, final) returned.
Proof.
  apply follows_bind, follows_show, follows_bind.
  eapply follows_mono; [apply follows_expected| |done]. intros data q ->.
  unfold timings_of. cbn [carries]. case_bool_decide; [|by apply follows_reply].
  apply follows_bind, follows_send. intros ok. exists Over. split; [done|]. split; [done|].
  destruct ok; cbn [negb]; [by apply follows_show|by apply follows_returning].
Qed.

Lemma follows_handle b c p : on_received (AtHome b) c = Some p →
  follows p (handle_host_command c : Session unit) (λ _, final) returned.
Proof.
  intros Hp. unfold handle_host_command. cbn [on_received] in Hp.
  case_bool_decide as Hdata; cbn [negb].
  2:{ assert (p = Rejecting) as -> by (destruct (decode c.1) as [[]|?|]; congruence).
      by apply follows_reply. }
  destruct (decode c.1) as [i|sw|] eqn:Hd; [|injection Hp as <-..].
  2:{ apply follows_reply. intros ok. apply refused; [by eapply decode_refuses|done..]. }
  2: by apply follows_lift.
  destruct i as [n| | | |]; injection Hp as <-; [|by apply follows_reply..].
  apply decode_prepare in Hd as Hn. apply follows_bind, follows_show, follows_bind.
  eapply follows_or_return.
  2:{ intros e q Hq. instantiate (1 := λ _ q, q = Preparing (Some n)) in Hq. rewrite Hq.
      apply follows_bind, follows_send. intros ok. exists Over. split; [done|].
      split; [done|]. by apply follows_ret. }
  eapply follows_mono; [by apply (follows_prepare _ (Preparing (Some n)))| |done].
  intros ctx q [-> Ha]. apply follows_bind, follows_recorded. intros ok.
  exists (if ok then Approved (Some n) else Declined (Some n)). split.
  { cbn [run next]. by rewrite bool_decide_eq_true_2. }
  split; [by destruct ok|]. destruct ok; cbn [negb]; [|by apply follows_reply].
  apply follows_bind, follows_lift. unfold hww_xonly_public_key.
  destruct (xonly _) as [key|?|]; [|done..]. apply follows_bind, follows_send. intros ok.
  exists (if ok then Ready n KeyDerivation else Over). split.
  { cbn [next]. rewrite bool_decide_eq_true_2 by done. cbn [on_answer].
    by rewrite (proj1 Ha), bool_decide_eq_true_2. }
  split; [by destruct ok|]. destruct ok; cbn [negb]; [|by apply follows_returning].
  apply follows_host_work; [done|]. apply follows_finish.
Qed.

(** ** The benchmark started on the device *)

Lemma follows_local_error p error : final p →
  follows p (show_local_run_error error : Session unit) (λ _, final) returned.
Proof. intros Hp. by apply follows_show. Qed.

Lemma follows_local :
  follows (AtHome true) (run_local_benchmark : Session unit) (λ _, final) returned.
Proof.
  unfold run_local_benchmark. apply follows_bind, follows_show, follows_bind.
  eapply follows_or_return.
  2:{ intros e q Hq. instantiate (1 := λ _ q, q = Preparing None) in Hq. rewrite Hq.
      by apply follows_show. }
  eapply follows_mono; [apply (follows_prepare _ (Preparing None) 12); [set_solver|done]| |done].
  intros c q [-> Ha]. apply follows_bind, follows_recorded. intros ok.
  exists (if ok then Approved None else Declined None). split.
  { cbn [run next]. by rewrite bool_decide_eq_true_2. }
  split; [by destruct ok|]. destruct ok; cbn [negb].
  2:{ by apply follows_bind, follows_show, follows_returning. }
  apply follows_bind, follows_show, follows_bind.
  eapply follows_or_return.
  2:{ intros e q Hq. instantiate (1 := λ _ q, q = LocalKey 0) in Hq. rewrite Hq.
      by apply follows_local_error. }
  eapply follows_mono; [by apply follows_key_derivation| |done]. intros _ q ->.
  apply follows_bind, follows_show, follows_bind.
  eapply follows_or_return.
  2:{ intros e q Hq. instantiate (1 := λ _ q, q = LocalKey 0) in Hq. rewrite Hq.
      by apply follows_local_error. }
  eapply follows_mono; [by apply follows_graph| |done]. intros _ q ->.
  apply follows_bind, follows_show, follows_bind.
  eapply follows_or_return.
  2:{ intros e q Hq. instantiate (1 := λ _ q, ∃ i, q = LocalKey i) in Hq. destruct Hq as [i ->].
      by apply follows_local_error. }
  eapply follows_mono; [by apply (follows_signing LocalKey)| |done]. intros _ q ->.
  by apply follows_show.
Qed.

(** ** The home screen *)

Lemma follows_session p (m : Session unit) :
  follows p m (λ _, final) returned → follows p (session m) (λ _, final) returned.
Proof.
  intros Hm w Hw. unfold session. destruct (Hm w Hw) as (l & q & Hl & Hr & Hs & Hp).
  destruct (m w) as [[[]|[]|] w1]; exists l, q; split_and!; try done. by apply Hp.
Qed.

Lemma follows_start_requested b :
  follows (AtHome b) (start_requested : Session bool) (λ r q, q = AtHome b ∧ r = b) returned.
Proof. intros w Hw. exists [], (AtHome b). cbn. by rewrite app_nil_r. Qed.

Lemma follows_event b :
  follows (AtHome b) (try_next_event : Session DecodedEventType)
    (λ e q, match e with
            | Apdu c => ∃ b', on_received (AtHome b') c = Some q
            | _ => ∃ b', q = AtHome b'
            end) returned.
Proof.
  intros w Hw. unfold try_next_event, recorded, mbind, SM_bind.
  destruct (sdk_try_next_event (dev w)) as [[e cb] d]. cbn [snd fst].
  pose (b' := match cb with Some start_local_benchmark => true | _ => b end).
  assert (∃ q, (match e with Apdu c => on_received (AtHome b') c | _ => Some (AtHome b') end) = Some q
               ∧ (∀ c b0, e = Apdu c → q ≠ AtHome b0)) as (q & Hq & Hn).
  { destruct e as [c| |]; [|by eexists..]. cbn [on_received].
    destruct (decode c.1) as [[]|?|]; (try case_bool_decide); by eexists. }
  exists ((if cb is Some start_local_benchmark then [Pressed] else []) ++
         (if e is Apdu c then [Received c] else [])), q.
  assert (run (AtHome b) ((if cb is Some start_local_benchmark then [Pressed] else []) ++
         (if e is Apdu c then [Received c] else [])) = Some q) as Hr.
  { rewrite run_app.
    assert (run (AtHome b) (if cb is Some start_local_benchmark then [Pressed] else [])
            = Some (AtHome b')) as -> by (by destruct cb as [[]|]).
    cbn [mbind option_bind]. destruct e; cbn [run next]; [by rewrite Hq|by simplify_eq..]. }
  assert (∀ f, f = b' → start_ok (Build_World d f (log w ++
         (if cb is Some start_local_benchmark then [Pressed] else []) ++
         (if e is Apdu c then [Received c] else []))) q) as Hs.
  { intros f ->. destruct e as [c| |].
    - destruct q; try done. by destruct (Hn c pressed eq_refl).
    - by injection Hq as <-.
    - by injection Hq as <-. }
  assert (match e with Apdu c => ∃ b', on_received (AtHome b') c = Some q
            | _ => ∃ b', q = AtHome b' end) as HQ.
  { destruct e; [by eexists|..]; injection Hq as <-; by eexists. }
  destruct cb as [[]|]; (split; [done|]); (split; [done|]); (split; [|done]); by apply Hs.
Qed.

Lemma follows_home_loop fuel b :
  follows (AtHome b) (home_loop fuel : Session unit) (λ _, final) returned.
Proof.
  revert b. induction fuel as [|fuel IH]; intros b; cbn [home_loop]; [by apply follows_lift|].
  apply follows_bind. eapply follows_mono; [apply follows_start_requested| |done].
  intros r q [-> ->]. destruct b; [apply follows_session, follows_local|].
  apply follows_bind. eapply follows_mono; [apply follows_event| |done].
  intros [c| |] q.
  - intros [b' Hp]. by eapply follows_session, follows_handle.
  - intros [b' ->]. apply follows_bind, follows_send. intros ok. exists (AtHome b').
    split; [done|]. split; [done|apply IH].
  - intros [b' ->]. apply IH.
Qed.

Lemma follows_show_home p fuel : final p →
  follows p (show_home fuel : Session unit) (λ _, final) returned.
Proof.
  intros Hp w _. pose (w1 := Build_World (sdk_show "Anzen" (dev w)) false (log w ++ [Home])).
  destruct (follows_home_loop fuel false w1 eq_refl) as (l & q & Hl & Hr & Hs & Hq).
  exists (Home :: l), q. cbn [run]. rewrite Hp. unfold show_home, set_start, recorded, mbind, SM_bind.
  cbn [fst snd dev start_flag log]. fold w1. rewrite Hl. cbn [w1 log].
  by rewrite <-app_assoc.
Qed.

Lemma follows_app p rounds : final p →
  follows p (sample_main rounds : Session unit) (λ _, final) returned.
Proof.
  intros Hp. unfold sample_main.
  apply (follows_loop _ (λ _, final)); [done|]. intros _ _ fuel q Hq. by apply follows_show_home.
Qed.
End sessions.

(** * Approval before any signature *)

(** The host's commands. *)
Definition commands (l : list Effect) : list (outcome StatusWord BenchmarkInstruction) :=
  omap (λ e, match e with Received c => Some (decode c.1) | _ => None end) l.

(** Since the last approval on the device the host has sent exactly these
    commands, and the home screen has not been shown. *)
Definition approved_since (l : list Effect) (cs : list BenchmarkInstruction) : Prop :=
  ∃ l0 l1, l = l0 ++ (Reviewed policy_fields true :: l1) ∧ (Home ∉ l1) ∧ commands l1 = (Done <$> cs).

(** The commands before one of a session. *)
Definition before (k : BenchmarkInstruction) : list BenchmarkInstruction :=
  match k with
  | GraphIns => [KeyDerivation]
  | Signing => [KeyDerivation; GraphIns]
  | Complete => [KeyDerivation; GraphIns; Signing]
  | _ => []
  end.

Definition phase_ok (l : list Effect) (p : Phase) : Prop :=
  match p with
  | Approved _ | LocalKey _ => approved_since l []
  | Ready _ k => (measured k ∨ k = Complete) ∧ approved_since l (before k)
  | Working _ k _ => (measured k ∨ k = Complete) ∧ approved_since l (before k ++ [k])
  | _ => True
  end.

Lemma approved_since_snoc l cs e :
  approved_since l cs → e ≠ Home → (∀ c, e ≠ Received c) → approved_since (l ++ [e]) cs.
Proof.
  intros (l0 & l1 & -> & Hh & Hc) He Hr. exists l0, (l1 ++ [e]).
  rewrite <-app_assoc. split; [done|]. split; [set_solver|].
  unfold commands. rewrite omap_app. fold (commands l1). rewrite Hc.
  destruct e as [c| | | | | | |]; [by destruct (Hr c)|..]; simpl; by rewrite app_nil_r.
Qed.

Lemma approved_since_received l cs c k :
  approved_since l cs → decode c.1 = Done k → approved_since (l ++ [Received c]) (cs ++ [k]).
Proof.
  intros (l0 & l1 & -> & Hh & Hc) Hd. exists l0, (l1 ++ [Received c]).
  rewrite <-app_assoc. split; [done|]. split; [set_solver|].
  unfold commands. rewrite omap_app. fold (commands l1). rewrite Hc, fmap_app.
  simpl. by rewrite Hd.
Qed.

Lemma phase_ok_step l p e p' : phase_ok l p → next p e = Some p' → phase_ok (l ++ [e]) p'.
Proof.
  intros Hp Hn. destruct e as [c| |fields ok|data sw ok|text| | |m]; cbn [next] in Hn.
  - destruct p as [|b| | | | |n k|n k u|]; cbn [on_received] in Hn; try done.
    + destruct (decode c.1) as [[]|?|]; repeat case_bool_decide; by injection Hn as <-.
    + destruct (decode c.1) as [i|?|] eqn:Hd; [|by injection Hn as <-..].
      case_bool_decide as Hi; [subst i|by injection Hn as <-].
      destruct (carries k c.2); injection Hn as <-; [|done]. destruct Hp as [Hk Hp].
      split; [done|]. by apply approved_since_received.
  - destruct p; simplify_eq; done.
  - destruct p; try done. case_bool_decide; [subst fields|done]. destruct ok; injection Hn as <-; [|done].
    exists l, []. split; [done|]. split; [set_solver|done].
  - assert (∀ cs, approved_since l cs → approved_since (l ++ [Sent data sw ok]) cs) as Hsnoc
      by (intros; by apply approved_since_snoc).
    repeat case_bool_decide; try done.
    + destruct p as [|b| | | |[n|]|n k|n k u|]; cbn [on_answer] in Hn; try done.
      * case_bool_decide; [|done]. injection Hn as <-. destruct ok; [|done].
        split; [by left; left|]. by apply Hsnoc.
      * destruct Hp as [Hk Hp].
        destruct Hk as [[->|[->| ->]]| ->]; repeat case_bool_decide; try done; cbn [andb] in Hn;
          try done; injection Hn as <-; try done; destruct ok; try done;
          (split; [unfold measured; naive_solver|by apply Hsnoc]).
    + destruct p as [| | |[]|[]|[]| | |]; cbn [on_refusal] in Hn; try case_bool_decide; by simplify_eq.
  - injection Hn as <-. destruct p; try done; cbn in *; intuition; by apply approved_since_snoc.
  - by destruct p as [| | |[]|[]|[]| | |]; simplify_eq.
  - destruct p as [|[]| | | |[]| |n []|]; simplify_eq; cbn in *; intuition; try by apply approved_since_snoc.
  - case_bool_decide; [subst m|done]. destruct p as [| | | | | | |n []|]; simplify_eq; cbn in *;
      intuition; by apply approved_since_snoc.
Qed.

Lemma phase_ok_run l0 p l p' : phase_ok l0 p → run p l = Some p' → phase_ok (l0 ++ l) p'.
Proof.
  revert l0 p. induction l as [|e l IH]; intros l0 p Hp Hr.
  - injection Hr as <-. by rewrite app_nil_r.
  - cbn [run] in Hr. destruct (next p e) as [q|] eqn:Hn; [|done].
    replace (l0 ++ e :: l) with ((l0 ++ [e]) ++ l) by by rewrite <-app_assoc.
    eapply IH; [by eapply phase_ok_step|done].
Qed.

(** C19: Whatever its host, its user and its cryptography answer, every run
    of the Ledger app is a word of its protocol: sessions start from the home
    screen, the workload is prepared before the review and announced after its
    approval, the four commands are taken in order, each is answered with the
    announced header after exactly the uses of the key it stands for (one
    derivation; one signature of the fixed digest per job), anything else is
    refused without data, and the app is back home when a session ends. *)
Theorem app_follows_protocol {D} `{!LedgerSdk D} rounds (d : D) flag :
  let '(o, w) := sample_main rounds (Build_World d flag []) in
  ∃ p, run Over (log w) = Some p ∧ (o = Done tt → final p).
Proof.
  destruct (follows_app Over rounds eq_refl (Build_World d flag []) I) as (l & p & Hl & Hr & _ & Hp).
  destruct (sample_main _ _) as [o w]. cbn [fst snd log app] in *. subst l.
  exists p. split; [done|]. by intros ->.
Qed.

(** C18: The device's key signs the fixed digest and nothing else, and only
    after the user approved the benchmark policy on the device since the home
    screen was last shown: the host then sent the key-derivation, graph and
    signing commands, in this order and no other, or none because the benchmark
    was started on the device. *)
Theorem device_signs_after_approval {D} `{!LedgerSdk D} rounds (d : D) flag l1 message l2 :
  log (sample_main rounds (Build_World d flag [])).2 = l1 ++ (Signed message :: l2) →
  message = FIXED_SIGNING_DIGEST ∧
  (approved_since l1 [KeyDerivation; GraphIns; Signing] ∨ approved_since l1 []).
Proof.
  intros Hl.
  destruct (follows_app Over rounds eq_refl (Build_World d flag []) I) as (l & p & Hl' & Hr & _).
  cbn [log app] in Hl'. rewrite Hl' in Hl. subst l.
  rewrite run_app in Hr. destruct (run Over l1) as [q|] eqn:Hq; [|done].
  apply (phase_ok_run []) in Hq; [|done]. cbn [app] in Hq.
  cbn [mbind option_bind run next] in Hr. case_bool_decide as Hm; [|done].
  split; [done|]. destruct q as [| | | | | | |n []|]; try done; [left|right]; [apply Hq|done].
Qed.
