(* ===== verification/LedgerLive.v ===== *)
(** A host that sends the app's five commands in order, to a device whose user
    approves and whose cryptography works, gets five answers: the whole
    workload of the annual graph is run. *)

From S2P Require Import Prelude ColdSigner ColdSignerWriter ColdSignerWalk ColdSignerGraph ColdSignerJobs ColdSignerTheorems Ledger LedgerProtocol LedgerSession.

(** * The documented behaviour of a device that works

    [inbox] is what the host has sent; [raw_key] the point of the benchmark
    path. *)
Class LedgerLaws (D : Type) `{!LedgerSdk D} (inbox : D → list Command) (raw_key : list N) : Prop := {
  digests_are_32_bytes bytes : length (sha2_256 (D:=D) bytes) = 32;
  derivation_is_deterministic d d' :
    (public_key (derive_from (D:=D) (BENCHMARK_PATH (D:=D)) d).1 d').1 = Some raw_key;
  (* No digest is the zero scalar, and no sum below the point at infinity. *)
  multiplication_succeeds bytes d :
    (cx_ecfp_scalar_mult SECP256K1_GENERATOR (sha2_256 (D:=D) bytes) d).1.1 = CX_OK (D:=D);
  addition_succeeds bytes d d' :
    let tweak := (cx_ecfp_scalar_mult SECP256K1_GENERATOR (sha2_256 (D:=D) bytes) d).1.2 in
    (cx_ecfp_add_point BIP341_NUMS_POINT tweak d').1.1 = CX_OK (D:=D) ∧
    ∃ point, (cx_ecfp_add_point BIP341_NUMS_POINT tweak d').1.2 = 4%N :: point ∧ length point = 64;
  signing_succeeds d d' :
    let key := (derive_from (D:=D) (BENCHMARK_PATH (D:=D)) d).1 in
    let answer := (cx_ecschnorr_sign (D:=D) key FIXED_SIGNING_DIGEST d').1 in
    answer.1 = CX_OK (D:=D) ∧ answer.2.2 = 64 ∧ length answer.2.1 = 64;
  sends_succeed data sw d : (sdk_send data sw d).1 = true;
  user_approves fields title reject d : (sdk_review fields title reject d).1 = true;
  commands_arrive d c cs : inbox d = c :: cs →
    (sdk_next_command d).1 = Some c ∧ inbox (sdk_next_command d).2 = cs;
  (* Nothing else takes a command. *)
  inbox_derive path d : inbox (derive_from (D:=D) path d).2 = inbox d;
  inbox_public_key k d : inbox (public_key k d).2 = inbox d;
  inbox_mult p t d : inbox (cx_ecfp_scalar_mult p t d).2 = inbox d;
  inbox_add p q d : inbox (cx_ecfp_add_point p q d).2 = inbox d;
  inbox_sign k m d : inbox (cx_ecschnorr_sign (D:=D) k m d).2 = inbox d;
  inbox_send data sw d : inbox (sdk_send data sw d).2 = inbox d;
  inbox_review fields title reject d : inbox (sdk_review fields title reject d).2 = inbox d;
  inbox_show text d : inbox (sdk_show text d) = inbox d;
}.

(** ** Runs that return *)

Section live.
Context {D : Type} `{!LedgerSdk D} {inbox : D → list Command} {raw_key : list N}.

(** From an inbox [cs], [m] returns with [cs'] left; [P] is what it returns
    and does. *)
Definition returns {E A} (m : SM (World D) E A) (cs cs' : list Command)
    (P : A → list Effect → Prop) : Prop := ∀ w, inbox (dev w) = cs →
  ∃ a w' l, m w = (Done a, w') ∧ log w' = log w ++ l ∧ inbox (dev w') = cs' ∧ P a l.

Section rules.
Context {E : Type}.

Lemma returns_lift {A} (a : A) o cs (P : A → list Effect → Prop) :
  o = Done a → P a [] → returns (lift o : SM (World D) E A) cs cs P.
Proof. intros -> HP w Hw. exists a, w, []. by rewrite app_nil_r. Qed.

Lemma returns_ret {A} (a : A) cs (P : A → list Effect → Prop) :
  P a [] → returns (mret a : SM (World D) E A) cs cs P.
Proof. by apply (returns_lift a (Done a)). Qed.

Lemma returns_bind {A B} (m : SM (World D) E A) (f : A → SM (World D) E B) cs cs1 cs2 P Q :
  returns m cs cs1 P → (∀ a l, P a l → returns (f a) cs1 cs2 (λ b l', Q b (l ++ l'))) →
  returns (a ← m; f a) cs cs2 Q.
Proof.
  intros Hm Hf w Hw. destruct (Hm w Hw) as (a & w1 & l1 & H1 & Hl1 & Hi1 & HP).
  destruct (Hf a l1 HP w1 Hi1) as (b & w2 & l2 & H2 & Hl2 & Hi2 & HQ).
  exists b, w2, (l1 ++ l2). unfold mbind, SM_bind. by rewrite H1, H2, Hl2, Hl1, app_assoc.
Qed.

Lemma returns_mono {A} (m : SM (World D) E A) cs cs' (P P' : A → list Effect → Prop) :
  returns m cs cs' P → (∀ a l, P a l → P' a l) → returns m cs cs' P'.
Proof.
  intros Hm HP w Hw. destruct (Hm w Hw) as (a & w' & l & ? & ? & ? & ?). exists a, w', l. auto.
Qed.

Lemma returns_recorded {A} (effect : A → list Effect) f cs (G : A → Prop)
    (P : A → list Effect → Prop) :
  (∀ d, G (f d).1 ∧ inbox (f d).2 = inbox d) → (∀ a, G a → P a (effect a)) →
  returns (recorded effect f : SM (World D) E A) cs cs P.
Proof.
  intros Hf HP w Hw. unfold recorded. destruct (Hf (dev w)) as [Ha Hi].
  destruct (f (dev w)) as [a d]. cbn [fst snd] in *.
  eexists a, _, (effect a). split; [done|]. split; [done|]. split; [cbn; congruence|auto].
Qed.

(** A loop whose turns each return, with an invariant on what is done. *)
Lemma returns_loop {A W} (f : W → A → SM (World D) E W) (I : nat → W → list Effect → Prop) xs w cs :
  I 0 w [] →
  (∀ i w a l, I i w l → returns (f w a) cs cs (λ w' l', I (S i) w' (l ++ l'))) →
  returns (state_loop f w xs) cs cs (I (length xs)).
Proof.
  intros H0 Hf. assert (∀ xs i w l, I i w l →
    returns (state_loop f w xs) cs cs (λ w' l', I (i + length xs) w' (l ++ l'))) as Hgen.
  { clear w xs H0. induction xs as [|x xs IH]; intros i w l Hi.
    - apply returns_ret. by rewrite app_nil_r, Nat.add_0_r.
    - cbn [state_loop length]. eapply returns_bind; [by apply Hf|]. intros w' l' Hi'.
      eapply returns_mono; [exact (IH (S i) w' (l ++ l') Hi')|]. intros v l2 Hv.
      by rewrite app_assoc, Nat.add_succ_r. }
  exact (Hgen xs 0 w [] H0).
Qed.
End rules.

Context `{Laws : !LedgerLaws D inbox raw_key}.
Context (hww_key : list N) (Hnormal : normalize_bip340_public_key raw_key = Done hww_key).
Context (Hpoint : at_index (E:=BenchmarkError) hww_key 0 = Done 4%N) (Hlen : length hww_key = 65).

#[local] Instance ledger_sha_laws : Sha256Laws (LedgerSha256 D) (sha2_256 (D:=D)).
Proof. split; [done|]. apply digests_are_32_bytes. Qed.

(** ** The cryptographic steps *)

Definition xkey : list N := take 32 (drop 1 hww_key).
Lemma xkey_length : length xkey = 32.
Proof. unfold xkey. rewrite length_take, length_drop. lia. Qed.

Lemma xonly_point key point : key = 4%N :: point → length point = 64 → xonly key = Done (take 32 point).
Proof. intros -> Hl. unfold xonly. cbn -[take]. by rewrite bool_decide_eq_true_2 by lia. Qed.

Lemma xonly_hww : xonly hww_key = Done xkey.
Proof.
  unfold xonly. rewrite Hpoint. cbn -[take drop]. by rewrite bool_decide_eq_true_2 by lia.
Qed.

(** The answer of an SDK call, named. *)
Lemma returns_call {E A} (effect : A → list Effect) f cs (G : A → Prop) :
  (∀ d, G (f d).1 ∧ inbox (f d).2 = inbox d) →
  returns (recorded effect f : SM (World D) E A) cs cs (λ a l, G a ∧ l = effect a).
Proof. intros Hf. by apply (returns_recorded _ _ _ G). Qed.

(** A pure step before the rest. *)
Lemma returns_pure {E A B} (a : A) o (f : A → SM (World D) E B) cs cs' Q :
  o = Done a → returns (f a) cs cs' Q → returns (a ← lift o; f a) cs cs' Q.
Proof.
  intros Ho Hf. eapply returns_bind;
    [apply (returns_lift a _ _ (λ x l, x = a ∧ l = [])); [exact Ho|done]|].
  intros x l [-> ->]. exact Hf.
Qed.

(** A key of the benchmark path. *)
Definition derived (k : ECPrivateKey) : Prop :=
  ∃ d, k = (derive_from (D:=D) (BENCHMARK_PATH (D:=D)) d).1.

Lemma returns_derive cs :
  returns derive_benchmark_key cs cs (λ r l, derived r.1 ∧ r.2 = hww_key ∧ l = [Derived]).
Proof.
  unfold derive_benchmark_key. eapply returns_bind.
  { apply (returns_call _ _ _ derived). intros d.
    split; [by exists d|apply inbox_derive]. }
  intros k l [[d0 ->] ->]. eapply returns_bind.
  { apply (returns_call _ _ _ (λ p, p = Some raw_key)). intros d.
    split; [apply derivation_is_deterministic|apply inbox_public_key]. }
  intros p l [-> ->]. eapply returns_pure; [done|].
  eapply returns_pure; [by rewrite Hnormal|]. apply returns_ret. split; [by exists d0|done].
Qed.

Lemma returns_taproot tweak bytes cs : tweak = sha2_256 (D:=D) bytes →
  returns (taproot_output_key tweak) cs cs (λ k l, length k = 32 ∧ l = []).
Proof.
  intros ->. unfold taproot_output_key, quiet. eapply returns_bind.
  { apply (returns_call _ _ _ (λ r, r.1 = CX_OK (D:=D) ∧ ∃ d,
      r.2 = (cx_ecfp_scalar_mult SECP256K1_GENERATOR (sha2_256 (D:=D) bytes) d).1.2)). intros d.
    split; [split; [apply multiplication_succeeds|by exists d]|apply inbox_mult]. }
  intros r l [[Hr [d0 Hd0]] ->]. rewrite Hd0. eapply returns_pure; [unfold cx_ok; by rewrite Hr, N.eqb_refl|].
  eapply returns_bind.
  { apply (returns_call _ _ _ (λ r, r.1 = CX_OK (D:=D) ∧ ∃ p, r.2 = 4%N :: p ∧ length p = 64)).
    intros d. split; [apply addition_succeeds|apply inbox_add]. }
  intros s l [[Hs (p & Hp & Hl)] ->].
  eapply returns_pure; [unfold cx_ok; by rewrite Hs, N.eqb_refl|].
  eapply returns_lift; [by eapply xonly_point|]. split; [|done]. rewrite length_take. lia.
Qed.

(** The shared crate's hashing returns and has no effect here. *)
Lemma returns_hashing {C E A B F} (c : C) (g : outcome E A * C → outcome BenchmarkError B)
    (m : SM (LedgerSha256 D * C) E A) o c' b (f : B → DM F) cs cs' Q :
  gives m c o c' → g (o, c') = Done b → returns (f b) cs cs' Q →
  returns (b ← hashing c g m; f b) cs cs' Q.
Proof.
  intros Hm Hg Hf. unfold hashing. destruct (Hm new_hasher) as [h Hh].
  eapply returns_pure; [rewrite Hh; exact Hg|exact Hf].
Qed.

(** ** The commitments and the graph *)

Lemma gives_tagged {S E} tag parts (s : S) : length parts ≤ 4 →
  gives (tagged_hash tag parts : SM (LedgerSha256 D * S) E _) s
    (Done (sha2_256 (D:=D) (mjoin (tag :: tag :: parts)))) s.
Proof.
  intros Hp. unfold tagged_hash. rewrite bool_decide_eq_true_2 by done.
  apply (gives_hash (sha2_256 (D:=D))).
Qed.

Lemma gives_tapleaf {S E} script (s : S) : length script < 253 → ∃ d, length d = 32 ∧
  gives (tapleaf_hash script : SM (LedgerSha256 D * S) E _) s (Done d) s.
Proof.
  intros Hs. unfold tapleaf_hash. rewrite bool_decide_eq_true_2 by done.
  eexists. split; [|apply gives_tagged; cbn; lia]. apply digests_are_32_bytes.
Qed.

Lemma gives_tapbranch {S E} a b (s : S) : ∃ d, length d = 32 ∧
  gives (tapbranch_hash a b : SM (LedgerSha256 D * S) E _) s (Done d) s.
Proof.
  unfold tapbranch_hash. destruct (bytes_cmp a b); eexists;
    (split; [|apply gives_tagged; cbn; lia]); apply digests_are_32_bytes.
Qed.

Lemma gives_policy {S E} phone hww (s : S) : length phone = 32 → length hww = 32 → ∃ p,
  length (pc_cooperative_leaf_hash p) = 32 ∧
  (∃ bytes, pc_output_key_tweak p = sha2_256 (D:=D) bytes) ∧
  gives (policy_commitment_new phone hww : SM (LedgerSha256 D * S) E _) s (Done p) s.
Proof.
  intros Hp Hh. unfold policy_commitment_new.
  destruct (gives_tapleaf (E:=E) (cooperative_script phone hww) s) as (leaf & Hleaf & H1).
  { unfold cooperative_script. repeat (rewrite ?length_cons, ?length_app; cbn [length]). lia. }
  destruct (gives_tapleaf (E:=E) (recovery_script phone PHONE_RECOVERY_BLOCKS) s) as (l2 & _ & H2).
  { unfold recovery_script. repeat (rewrite ?length_cons, ?length_app, ?le_bytes_length; cbn [length]). lia. }
  destruct (gives_tapleaf (E:=E) (recovery_script hww HWW_RECOVERY_BLOCKS) s) as (l3 & _ & H3).
  { unfold recovery_script. repeat (rewrite ?length_cons, ?length_app, ?le_bytes_length; cbn [length]). lia. }
  destruct (gives_tapbranch (E:=E) l2 l3 s) as (b1 & _ & H4).
  destruct (gives_tapbranch (E:=E) leaf b1 s) as (b2 & _ & H5).
  eexists. split; [|split;
    [|repeat (eapply gives_step; [eassumption || by apply gives_tagged; cbn; lia|]);
      apply gives_ret]]; [done|by eexists].
Qed.

Lemma gives_controller {S E} phone hww (s : S) : length phone = 32 → length hww = 32 → ∃ p,
  (∃ bytes, cc_output_key_tweak p = sha2_256 (D:=D) bytes) ∧
  gives (controller_commitment_new phone hww : SM (LedgerSha256 D * S) E _) s (Done p) s.
Proof.
  intros Hp Hh. unfold controller_commitment_new.
  destruct (gives_tapleaf (E:=E) (single_signature_script phone) s) as (l1 & _ & H1).
  { unfold single_signature_script. rewrite length_cons, length_app. cbn [length]. lia. }
  destruct (gives_tapleaf (E:=E) (single_signature_script hww) s) as (l2 & _ & H2).
  { unfold single_signature_script. rewrite length_cons, length_app. cbn [length]. lia. }
  destruct (gives_tapbranch (E:=E) l1 l2 s) as (b1 & _ & H4).
  eexists. split; [|repeat (eapply gives_step; [eassumption || by apply gives_tagged; cbn; lia|]);
                    apply gives_ret]. by eexists.
Qed.

(** A prepared context: the graph of [n] inputs under some 32-byte keys. *)
Definition prepared_for (n : nat) (c : BenchmarkContext) : Prop := ∃ vk ck leaf,
  length vk = 32 ∧ length ck = 32 ∧ length leaf = 32 ∧
  config c = config_of (sha2_256 (D:=D)) n vk ck leaf ∧
  context_summary c = {| summary_rollover_inputs := N.of_nat n; summary_transactions := 15;
                         summary_signature_jobs := N.of_nat (n + 14) |} ∧
  hww_public_key c = hww_key ∧ derived (hww_private_key c).

Lemma returns_prepare n cs : 1 ≤ n ≤ 12 →
  returns (prepare (N.of_nat n)) cs cs (λ c l, prepared_for n c ∧ l = [Derived]).
Proof.
  intros Hn. unfold prepare. eapply returns_bind; [apply returns_derive|].
  intros key l (Hpriv & Hkey & ->). eapply returns_pure; [rewrite Hkey; apply xonly_hww|].
  assert (length FIXED_PHONE_XONLY_PUBLIC_KEY = 32) as Hphone by done.
  destruct (gives_policy (E:=BenchmarkError) _ xkey tt Hphone xkey_length) as (policy & Hleaf & [bytes Hb] & H1).
  eapply returns_hashing; [exact H1|done|].
  eapply returns_bind; [exact (returns_taproot _ _ _ Hb)|]. intros vk l [Hvk ->].
  destruct (gives_controller (E:=BenchmarkError) _ xkey tt Hphone xkey_length) as (controller & [bytes' Hb'] & H2).
  eapply returns_hashing; [exact H2|done|].
  eapply returns_bind; [exact (returns_taproot _ _ _ Hb')|]. intros ck l [Hck ->].
  pose proof (gives_deterministic (sha2_256 (D:=D)) n vk ck (pc_cooperative_leaf_hash policy) tt Hn) as H3.
  eapply returns_hashing; [exact H3|done|].
  pose proof (config_of_wf (sha2_256 (D:=D)) n vk ck _ Hn Hvk Hck Hleaf) as Hcfg.
  eapply returns_pure.
  { unfold summary. rewrite (proj1 (wf_count _ _ Hcfg)), add_u8_fits by lia. done. }
  apply returns_ret. split; [|done]. exists vk, ck, (pc_cooperative_leaf_hash policy).
  split_and!; try done. cbn [context_summary]. f_equal. lia.
Qed.

(** The last message hash of the graph. *)
Definition last_sighash (jobs : list SignatureJob) : list N :=
  default (replicate 32 0%N) (sighash <$> last jobs).

Lemma run_count jobs s k : N.to_nat k + length jobs ≤ 255 →
  run_jobs count_job jobs (s, k) =
    (Done tt, (default s (sighash <$> last jobs), (k + N.of_nat (length jobs))%N)).
Proof.
  revert s k. induction jobs as [|j jobs IH]; intros s k Hl; cbn [length] in *.
  - cbn. by rewrite N.add_0_r.
  - cbn [run_jobs]. unfold count_job at 1. rewrite add_u8_fits by lia. rewrite IH by lia.
    f_equal. f_equal; [|lia]. destruct jobs as [|j' jobs]; [done|].
    change (last (j :: j' :: jobs)) with (last (j' :: jobs)).
    destruct (last (j' :: jobs)) eqn:Hlast; [done|by apply last_None in Hlast].
Qed.

Lemma returns_graph n c cs : 1 ≤ n ≤ 12 → prepared_for n c →
  returns (benchmark_graph c) cs cs (λ d l,
    d = last_sighash (annual_jobs (sha2_256 (D:=D)) (config c) n) ∧ l = []).
Proof.
  intros Hn (vk & ck & leaf & Hvk & Hck & Hleaf & Hcfg & Hs & _ & _).
  destruct (signature_jobs_run (H:=LedgerSha256 D) (sha2_256 (D:=D)) count_job n vk ck leaf
    (replicate 32 0%N, 0%N) Hn Hvk Hck Hleaf) as [Hl Hrun]. rewrite <-Hcfg in *.
  rewrite run_count in Hrun by (rewrite Hl; lia).
  unfold benchmark_graph. eapply returns_hashing; [exact Hrun|done|].
  rewrite Hs, Hl. cbn [fst snd summary_signature_jobs].
  rewrite bool_decide_eq_true_2 by lia. by apply returns_ret.
Qed.

Lemma returns_key_derivation n c cs : prepared_for n c →
  returns (benchmark_key_derivation c) cs cs (λ d l, d = xkey ∧ l = [Derived]).
Proof.
  intros (vk & ck & leaf & _ & _ & _ & _ & _ & Hk & _). unfold benchmark_key_derivation.
  eapply returns_bind; [apply returns_derive|]. intros key l (_ & Hkey & ->).
  rewrite Hkey, Hk, bool_decide_eq_true_2 by done.
  apply (returns_lift xkey); [apply xonly_hww|done].
Qed.

Lemma returns_signing n c cs : prepared_for n c →
  returns (benchmark_fixed_digest_signing c) cs cs (λ d l, length d = 32 ∧
    l = replicate (n + 14) (Signed FIXED_SIGNING_DIGEST)).
Proof.
  intros (vk & ck & leaf & _ & _ & _ & _ & Hs & _ & [d0 Hpriv]). unfold benchmark_fixed_digest_signing.
  rewrite Hs. cbn [summary_signature_jobs]. rewrite Nat2N.id.
  eapply returns_bind.
  { apply (returns_loop _ (λ i d l, length d = 64 ∧ l = replicate i (Signed FIXED_SIGNING_DIGEST))).
    - done.
    - intros i d a l [_ ->] w Hw.
      assert (returns (schnorr_sign (hww_private_key c) FIXED_SIGNING_DIGEST) cs cs
        (λ s l', length s = 64 ∧ l' = [Signed FIXED_SIGNING_DIGEST])) as Hone.
      { unfold schnorr_sign. eapply returns_bind.
        { apply (returns_call _ _ _ (λ r, r.1 = CX_OK (D:=D) ∧ r.2.2 = 64 ∧ length r.2.1 = 64)).
          intros e. rewrite Hpriv. split; [apply signing_succeeds|apply inbox_sign]. }
        intros r l [(Hok & H64 & Hb) ->].
        eapply returns_pure; [unfold cx_ok; by rewrite Hok, N.eqb_refl|].
        rewrite H64, bool_decide_eq_true_2 by done. by apply returns_ret. }
      destruct (Hone w Hw) as (s & w' & l & Hrun & Hl & Hi & Hs64 & ->).
      exists s, w', [Signed FIXED_SIGNING_DIGEST]. rewrite Hrun.
      split_and!; try done. by rewrite <-replicate_cons_app. }
  intros d l [Hd ->]. rewrite length_seq. apply (returns_lift (take 32 d)).
  - unfold slice_to. by rewrite bool_decide_eq_true_2 by lia.
  - rewrite app_nil_r. split; [|done]. rewrite length_take. lia.
Qed.

(** ** The session *)

Lemma returns_or_return {E A} (m : SM (World D) E A) on_error cs cs' P :
  returns m cs cs' P → returns (or_return m on_error) cs cs' P.
Proof.
  intros Hm w Hw. destruct (Hm w Hw) as (a & w' & l & Hr & ?). exists a, w', l.
  unfold or_return. by rewrite Hr.
Qed.

Lemma returns_show {E} text cs :
  returns (show text : SM (World D) E unit) cs cs (λ _ l, l = [Shown text]).
Proof.
  eapply returns_mono; [apply (returns_call _ _ _ (λ _, True))|by intros a l [_ ->]].
  intros d. split; [done|]. cbn [snd]. apply inbox_show.
Qed.

Lemma returns_send {E} data sw cs :
  returns (send data sw : SM (World D) E bool) cs cs
    (λ ok l, ok = true ∧ l = [Sent data sw true]).
Proof.
  eapply returns_mono; [apply (returns_call _ _ _ (λ ok, ok = true))|by intros a l [-> ->]].
  intros d. split; [apply sends_succeed|apply inbox_send].
Qed.

Lemma returns_next c cs :
  returns next_command (c :: cs) cs (λ r l, r = c ∧ l = [Received c]).
Proof.
  intros w Hw. destruct (commands_arrive _ _ _ Hw) as [Hc Hi].
  unfold next_command. destruct (sdk_next_command (dev w)) as [r d]. cbn [fst snd] in *. subst r.
  by eexists c, _, [Received c].
Qed.

Lemma returns_expected k h data cs : decode h = Done k →
  returns (next_expected_command k) ((h, data) :: cs) cs
    (λ r l, r = data ∧ l = [Received (h, data)]).
Proof.
  intros Hd. unfold next_expected_command. eapply returns_bind; [apply returns_next|].
  intros c l [-> ->]. cbn [fst snd]. rewrite Hd, bool_decide_eq_true_2 by done.
  by apply returns_ret.
Qed.

(** What the host is answered, and what the device signs. *)
Definition replies (l : list Effect) : list (list N * StatusWord) :=
  omap (λ e, match e with Sent data sw _ => Some (data, sw) | _ => None end) l.
Definition signatures (l : list Effect) : list (list N) :=
  omap (λ e, match e with Signed m => Some m | _ => None end) l.

Lemma returns_host_phase k h ready working s work cs (W : list N → Prop) wl :
  decode h = Done k → returns work cs cs (λ d l, W d ∧ l = wl) → replies wl = [] →
  returns (host_phase k ready working s work) ((h, []) :: cs) cs (λ _ l, ∃ d, W d ∧
    replies l = [(workload_response s d, SwOk)] ∧ signatures l = signatures wl).
Proof.
  intros Hd Hwork Hno. unfold host_phase.
  eapply returns_bind; [apply returns_show|]. intros _ l1 ->.
  eapply returns_bind; [by apply returns_expected|]. intros data l2 [-> ->].
  rewrite bool_decide_eq_true_2 by done. cbn [negb].
  eapply returns_bind; [apply returns_show|]. intros _ l3 ->.
  eapply returns_bind; [by apply returns_or_return|]. intros d l4 [Hd' ->].
  eapply returns_bind; [apply returns_send|]. intros ok l5 [-> ->].
  apply returns_ret. exists d. split; [done|].
  unfold replies, signatures in *. rewrite !omap_app, Hno. cbn. by rewrite app_nil_r.
Qed.

Definition command_header (instruction parameter : N) : ApduHeader :=
  {| cla := BENCHMARK_CLA; ins := instruction; p1 := parameter; p2 := 0 |}.

(** The host's commands after the first. *)
Definition host_script (timings : list N) : list Command :=
  [(command_header KEY_DERIVATION_INS 0, []); (command_header GRAPH_INS 0, []);
   (command_header SIGNING_INS 0, []); (command_header COMPLETE_INS 0, timings)].

Definition announced (n : nat) : WorkloadSummary :=
  {| summary_rollover_inputs := N.of_nat n; summary_transactions := 15;
     summary_signature_jobs := N.of_nat (n + 14) |}.

(** The five answers. *)
Definition answers (n : nat) (vk ck leaf signature : list N) : list (list N * StatusWord) :=
  [(workload_response (announced n) xkey, SwOk);
   (workload_response (announced n) xkey, SwOk);
   (workload_response (announced n) (last_sighash (annual_jobs (sha2_256 (D:=D))
      (config_of (sha2_256 (D:=D)) n vk ck leaf) n)), SwOk);
   (workload_response (announced n) signature, SwOk);
   ([BENCHMARK_VERSION], SwOk)].

Lemma session_completes n timings cs : n ∈ [1; 2; 12] → length timings = 12 →
  returns (handle_host_command (command_header PREPARE_INS (N.of_nat n), []))
    (host_script timings ++ cs) cs (λ _ l, ∃ vk ck leaf signature,
      length vk = 32 ∧ length ck = 32 ∧ length leaf = 32 ∧ length signature = 32 ∧
      replies l = answers n vk ck leaf signature ∧
      signatures l = replicate (n + 14) FIXED_SIGNING_DIGEST).
Proof.
  intros Hn Ht. assert (1 ≤ n ≤ 12) as Hn' by set_solver by lia.
  unfold handle_host_command. cbn [snd]. rewrite bool_decide_eq_true_2 by done. cbn [negb fst].
  assert (decode (command_header PREPARE_INS (N.of_nat n)) = Done (Prepare (N.of_nat n))) as ->.
  { clear -Hn. repeat (apply elem_of_cons in Hn as [->|Hn]; [done|]). by apply not_elem_of_nil in Hn. }
  eapply returns_bind; [apply returns_show|]. intros _ l1 ->.
  eapply returns_bind; [by apply returns_or_return, returns_prepare|]. intros c l2 [Hc ->].
  eapply returns_bind.
  { apply (returns_call _ _ _ (λ ok, ok = true)). intros d.
    split; [apply user_approves|apply inbox_review]. }
  intros ok l3 [-> ->]. cbn [negb].
  pose proof Hc as (vk & ck & leaf & Hvk & Hck & Hleaf & Hcfg & Hs & Hk & _).
  eapply returns_pure; [unfold hww_xonly_public_key; by rewrite Hk, xonly_hww|].
  rewrite Hs. fold (announced n).
  eapply returns_bind; [apply returns_send|]. intros ok l4 [-> ->]. cbn [negb].
  eapply returns_bind.
  { eapply returns_host_phase; [done|by eapply returns_key_derivation|done]. }
  intros _ l5 (d5 & -> & Hr5 & Hs5). eapply returns_bind.
  { eapply returns_host_phase; [done|by eapply returns_graph|done]. }
  intros _ l6 (d6 & -> & Hr6 & Hs6). eapply returns_bind.
  { eapply (returns_host_phase Signing); [done|by eapply returns_signing|].
    clear. by induction (n + 14). }
  intros _ l7 (d7 & Hd7 & Hr7 & Hs7).
  eapply returns_bind; [apply returns_show|]. intros _ l8 ->.
  eapply returns_bind; [by apply returns_expected|]. intros data l9 [-> ->].
  unfold timings_of. rewrite bool_decide_eq_true_2 by done.
  eapply returns_bind; [apply returns_send|]. intros ok l10 [-> ->]. cbn [negb].
  eapply returns_mono; [apply returns_show|]. intros _ l11 ->.
  exists vk, ck, leaf, d7. split_and!; try done.
  - unfold replies in *. rewrite !omap_app, Hr5, Hr6, Hr7, Hcfg. done.
  - unfold signatures in *. rewrite !omap_app, Hs5, Hs6, Hs7. cbn.
    rewrite app_nil_r. clear. by induction (n + 14) as [|k IH]; [|cbn; f_equal].
Qed.
End live.
