(* ===== verification/LedgerWitness.v ===== *)
(** The Ledger session's guarantee of completion, and a device on which the
    theorems about the app are instantiated. *)

From S2P Require Import Prelude ColdSigner ColdSignerJobs ColdSignerTheorems Ledger LedgerProtocol LedgerSession LedgerLive.


(** * A device that works

    Its state is the host's commands; the home screen reads them as events. *)
Definition toy_point : list N := 4%N :: replicate 64 2%N.

Definition toy_signature (m : list N) : list N := take 64 (m ++ replicate 64 0%N).

#[export] Instance toy_sdk : LedgerSdk (list Command) := {|
  ECPrivateKey := unit;
  make_bip32_path p := p;
  derive_from _ d := (tt, d);
  public_key _ d := (Some toy_point, d);
  sha2_256 := toy_sha;
  CX_OK := 7%N;
  cx_ecfp_scalar_mult p _ d := ((7%N, p), d);
  cx_ecfp_add_point _ _ d := ((7%N, toy_point), d);
  cx_ecschnorr_sign _ m d := ((7%N, (toy_signature m, 64)), d);
  sdk_try_next_event d :=
    match d with
    | [] => ((OtherEvent, None), [])
    | c :: d => ((Apdu c, None), d)
    end;
  sdk_next_command d :=
    match d with
    | [] => (None, [])
    | c :: d => (Some c, d)
    end;
  sdk_send _ _ d := (true, d);
  sdk_review _ _ _ d := (true, d);
  sdk_show _ d := d;
|}.


#[export] Instance toy_ledger_laws : LedgerLaws (list Command) id toy_point.
Proof.
  split; try done.
  - intros bytes d d'. split; [done|]. by eexists.
  - intros d c cs Hd. cbn in Hd. by subst d.
Qed.

Definition toy_timings : list N := [0; 0; 0; 9; 0; 0; 0; 8; 0; 0; 0; 7]%N.


(** A session from the home screen, up to its first signature. *)
Definition toy_commands : list Command :=
  (command_header PREPARE_INS 1, []) :: host_script toy_timings.
Definition toy_run : list Effect := log (sample_main [1] (Build_World toy_commands false [])).2.
Definition toy_before : list Effect := Eval vm_compute in take 18 toy_run.
Definition toy_after : list Effect := Eval vm_compute in drop 19 toy_run.

Lemma device_signs_after_approval_witness :
  approved_since toy_before [KeyDerivation; GraphIns; Signing] ∨ approved_since toy_before [].
Proof.
  assert (log (sample_main [1] (Build_World toy_commands false [])).2
          = toy_before ++ (Signed FIXED_SIGNING_DIGEST :: toy_after)) as Hrun
    by vm_cast_no_check (eq_refl (toy_before ++ (Signed FIXED_SIGNING_DIGEST :: toy_after))).
  exact (proj2 (device_signs_after_approval [1] toy_commands false toy_before FIXED_SIGNING_DIGEST
    toy_after Hrun)).
Defined.

(** The same run reaches the end of its session. *)
Lemma app_follows_protocol_witness : ∃ p, run Over toy_run = Some p ∧ final p.
Proof.
  assert ((sample_main [1] (Build_World toy_commands false [])).1 = Done tt) as Hdone
    by (vm_compute; reflexivity).
  pose proof (app_follows_protocol [1] toy_commands false) as Hrun.
  unfold toy_run. destruct (sample_main [1] (Build_World toy_commands false [])) as [o w].
  cbn [fst snd] in *. destruct Hrun as (p & Hp & Hf). exact (ex_intro _ p (conj Hp (Hf Hdone))).
Defined.
