(* ===== verification/Chain.v ===== *)
(** The two chain backends ([core/chain.rs]): Bitcoin Core's RPC and Electrum,
    with their clients as classes, and the interface of the phone's code
    implemented by each. *)

From stdpp Require Import sorting.
From S2P Require Import Prelude Bitcoin Types Policy Storage FileSystem HotWallet.

(** * The clients *)

(** [Ord] on transaction ids. *)
Class TxidOrder `{BitcoinTypes} := {
  txid_le : Txid → Txid → Prop;
  txid_le_dec :: RelDecision txid_le;
  txid_le_order :: PartialOrder txid_le;
  txid_le_total :: Total txid_le;
}.

Record BlockchainInfo := {
  info_chain : Network;
  info_blocks : N;
  info_median_time : N;
  info_best_block_hash : string;
}.

Record ScannedUtxo `{BitcoinTypes} := {
  scanned_txid : Txid;
  scanned_vout : N;
  scanned_amount : N;
  scanned_script_pub_key : ScriptBuf;
  scanned_height : N;
}.
Record ScanTxOutResult `{BitcoinTypes} := {
  scan_success : option bool;
  unspents : list ScannedUtxo;
}.

(** An error of the RPC server with its code, or another. *)
Inductive RpcError := RpcCode (code : Z) | OtherRpcError.

Class RpcApi `{BitcoinTypes} (Node : Type) := {
  get_blockchain_info : M Node BlockchainInfo;
  scan_tx_out_set_blocking : string → M Node ScanTxOutResult;
  send_raw_transaction : Transaction → Node → (RpcError + Txid) * Node;
  call_setmocktime : N → M Node unit;
  generate_to_address : N → Address → M Node (list string);
}.

Record ListUnspentRes `{BitcoinTypes} := {
  tx_hash : Txid;
  tx_pos : N;
  unspent_value : N;
  unspent_height : N;
}.
Record BlockHeader := { header_time : N; header_hash : string }.

(** [Net] is the state of the servers. *)
Class ElectrumApi `{BitcoinTypes} (Net : Type) := {
  ElectrumClient : Type;
  genesis_block_hash : Network → string;
  electrum_new : string → M Net ElectrumClient;
  block_header : ElectrumClient → N → M Net BlockHeader;
  block_headers_subscribe : ElectrumClient → M Net (N * BlockHeader);
  batch_block_header : ElectrumClient → list N → M Net (list BlockHeader);
  script_list_unspent : ElectrumClient → ScriptBuf → M Net (list ListUnspentRes);
  transaction_broadcast : ElectrumClient → Transaction → M Net Txid;
  transaction_get : ElectrumClient → Txid → M Net Transaction;
}.

(** [Result::context] in code with a state. *)
Definition context_m {S A} (m : M S A) (msg : string) : M S A := λ s,
  let '(r, s) := m s in (with_context r msg, s).

(** [as u32] of a wider integer. *)
Definition truncate_u32 (n : N) : N := (n mod 4294967296)%N.

Section chain.
Context `{BitcoinLib, !TxidOrder}.

(** ** Outputs found by a scan *)

(** [sort_by_key(|utxo| (utxo.confirmation_height, utxo.outpoint))]; the sort
    is stable. *)
Definition utxo_le (a b : VaultUtxo) : Prop :=
  (confirmation_height a < confirmation_height b)%N ∨
  confirmation_height a = confirmation_height b ∧
  (txid (utxo_outpoint a) ≠ txid (utxo_outpoint b) ∧
     txid_le (txid (utxo_outpoint a)) (txid (utxo_outpoint b)) ∨
   txid (utxo_outpoint a) = txid (utxo_outpoint b) ∧
     (vout (utxo_outpoint a) <= vout (utxo_outpoint b))%N).
#[export] Instance utxo_le_dec : RelDecision utxo_le.
Proof. intros a b. unfold utxo_le. apply _. Defined.

Definition sort_utxos (l : list VaultUtxo) : list VaultUtxo := merge_sort utxo_le l.

Definition scanned_vault_utxo (u : ScannedUtxo) : VaultUtxo :=
  {| utxo_outpoint := {| txid := scanned_txid u; vout := scanned_vout u |};
     utxo_txout := {| value := scanned_amount u; script_pubkey := scanned_script_pub_key u |};
     confirmation_height := scanned_height u |}.

(** [tx_pos as u32]; a height of zero is not in a block. *)
Definition unspent_vault_utxo (script : ScriptBuf) (u : ListUnspentRes) : VaultUtxo :=
  {| utxo_outpoint := {| txid := tx_hash u; vout := truncate_u32 (tx_pos u) |};
     utxo_txout := {| value := unspent_value u; script_pubkey := script |};
     confirmation_height := unspent_height u |}.
Definition confirmed_utxos (script : ScriptBuf) (l : list ListUnspentRes) : list VaultUtxo :=
  sort_utxos (unspent_vault_utxo script <$> filter (λ u, (0 < unspent_height u)%N) l).

(** The policy whose address the connectors are at. *)
Definition controller_policy (config : VaultConfig) : result ControllerPolicy :=
  phone ← or_err (key_from_str (phone_vault_pubkey config)) "invalid configured phone vault key";
  hww ← or_err (key_from_str (hww_vault_pubkey config)) "invalid configured HWW vault key";
  network ← bitcoin_network config;
  controller_new_for_network phone hww network.

(** A scan is only made of a vault of the backend's network. *)
Definition scan_network (config : VaultConfig) (network : Network) : result unit :=
  n ← bitcoin_network config;
  bail_if (negb (bool_decide (n = network))) "refusing to scan a vault of another network".

(** * Bitcoin Core *)

Section core.
Context {Node : Type} `{!RpcApi Node}.

Record BitcoinCoreBackend := { client : Node; core_network : Network }.

Definition on_client {A} (m : M Node A) : M BitcoinCoreBackend A := λ b,
  let '(r, c) := m (client b) in (r, {| client := c; core_network := core_network b |}).

Definition chain_info : M BitcoinCoreBackend BlockchainInfo :=
  info ← on_client (context_m get_blockchain_info "Bitcoin Core getblockchaininfo failed");
  b ← get;
  _ ← pure (bail_if (negb (bool_decide (info_chain info = core_network b)))
              "Bitcoin Core network does not match requested network");
  mret info.

(** A backend on a node of the expected network. *)
Definition core_connect (node : Node) (expected_network : Network) : result BitcoinCoreBackend :=
  exec chain_info {| client := node; core_network := expected_network |}.

Definition core_chain_tip : M BitcoinCoreBackend ChainTip :=
  info ← chain_info;
  mret {| tip_network := info_chain info; tip_height := info_blocks info;
          tip_median_time := info_median_time info;
          tip_best_block_hash := info_best_block_hash info |}.

Definition set_mock_time (timestamp : N) : M BitcoinCoreBackend unit :=
  on_client (context_m (call_setmocktime timestamp) "Bitcoin Core setmocktime failed").
Definition mine (blocks : N) (address : Address) : M BitcoinCoreBackend (list string) :=
  on_client (context_m (generate_to_address blocks address) "Bitcoin Core generatetoaddress failed").

Definition scan_address (address : string) : M BitcoinCoreBackend (list VaultUtxo) :=
  r ← on_client (context_m (scan_tx_out_set_blocking ("addr(" +:+ address +:+ ")"))
                   "Bitcoin Core scantxoutset failed");
  _ ← pure (bail_if (negb (bool_decide (scan_success r = Some true)))
              "Bitcoin Core did not complete the UTXO scan");
  mret (sort_utxos (scanned_vault_utxo <$> unspents r)).

Definition core_scan_vault (config : VaultConfig) : M BitcoinCoreBackend (list VaultUtxo) :=
  b ← get;
  _ ← pure (scan_network config (core_network b));
  scan_address (vault_address config).

Definition core_scan_connectors (config : VaultConfig) : M BitcoinCoreBackend (list VaultUtxo) :=
  b ← get;
  _ ← pure (scan_network config (core_network b));
  controller ← pure (controller_policy config);
  scan_address (address_to_string (controller_address_of controller)).

(** Code -27: the transaction is already in a block. *)
Definition core_broadcast (transaction : Transaction) : M BitcoinCoreBackend Txid := λ b,
  let '(r, c) := send_raw_transaction transaction (client b) in
  (match r with
   | inl (RpcCode (-27)%Z) => Ok (compute_txid transaction)
   | inl _ => Err "Bitcoin Core transaction broadcast failed"
   | inr id => Ok id
   end, {| client := c; core_network := core_network b |}).

Definition vault_balance (config : VaultConfig) : M BitcoinCoreBackend N :=
  utxos ← core_scan_vault config;
  pure (try_fold (λ sum u, add_u64 sum (value (utxo_txout u))) 0%N utxos).
End core.

(** * Electrum *)

Section electrum.
Context {Net : Type} `{!ElectrumApi Net}.

Record ElectrumBackend := {
  electrum_client : ElectrumClient;
  server : string;
  electrum_network : Network;
}.

Definition MAINNET_ELECTRUM_SERVERS : list string :=
  ["ssl://bitcoin.lu.ke:50002"; "ssl://electrum.blockstream.info:50002";
   "ssl://electrum.bullbitcoin.com:50002"; "ssl://electrum.cakewallet.com:50002"].
Definition REGTEST_ELECTRUM_SERVERS : list string := ["tcp://127.0.0.1:50001"].

(** One server: it must know the network's genesis block. *)
Definition connect_attempt (network : Network) (s : string) : M Net ElectrumBackend :=
  raw ← context_m (electrum_new s) "invalid Electrum server URL";
  genesis ← context_m (block_header raw 0) "Electrum server did not return genesis";
  _ ← pure (bail_if (negb (bool_decide (header_hash genesis = genesis_block_hash network)))
              "Electrum server is not on the requested network");
  mret {| electrum_client := raw; server := s; electrum_network := network |}.

(** The loop over the servers, with the errors so far. *)
Fixpoint connect_first (network : Network) (servers errors : list string) : M Net ElectrumBackend :=
  match servers with
  | [] => pure (Err ("failed to connect to any Electrum server: " +:+ String.concat "; " errors))
  | s :: servers => λ net,
      match connect_attempt network s net with
      | (Err e, net) => connect_first network servers (errors ++ [s +:+ ": " +:+ e]) net
      | r => r
      end
  end.

Definition connect (network : Network) (servers : list string) : M Net ElectrumBackend :=
  _ ← pure (bail_if (bool_decide (servers = [])) "no Electrum servers are configured");
  connect_first network servers [].

Definition connect_default (network : Network) : M Net ElectrumBackend :=
  match network with
  | Bitcoin => connect network MAINNET_ELECTRUM_SERVERS
  | Regtest => connect network REGTEST_ELECTRUM_SERVERS
  | _ => pure (Err "unsupported Electrum network")
  end.

Definition on_net {A} (f : ElectrumClient → M Net A) : M (ElectrumBackend * Net) A :=
  λ '(b, net), let '(r, net) := f (electrum_client b) net in (r, (b, net)).

(** [heights] is the inclusive range, each height [as u32]. *)
Definition last_heights (height : N) : list N :=
  let first_height := saturating_sub height 10 in
  (λ i, truncate_u32 (first_height + N.of_nat i)) <$> seq 0 (N.to_nat (height - first_height) + 1).

(** The median of the times, in the middle of the sorted ones. *)
Definition median_time_past (times : list N) : result N :=
  index (merge_sort N.le times) (length times / 2).

Definition electrum_chain_tip : M (ElectrumBackend * Net) ChainTip :=
  tip ← on_net (λ c, context_m (block_headers_subscribe c) "Electrum header subscription failed");
  headers ← on_net (λ c, context_m (batch_block_header c (last_heights tip.1))
                           "Electrum median-time-past header query failed");
  median_time ← pure (median_time_past (header_time <$> headers));
  b ← get;
  mret {| tip_network := electrum_network b.1; tip_height := tip.1;
          tip_median_time := median_time; tip_best_block_hash := header_hash tip.2 |}.

Definition scan_script (script : ScriptBuf) : M (ElectrumBackend * Net) (list VaultUtxo) :=
  l ← on_net (λ c, context_m (script_list_unspent c script) "Electrum UTXO query failed");
  mret (confirmed_utxos script l).

Definition electrum_scan_vault (config : VaultConfig) : M (ElectrumBackend * Net) (list VaultUtxo) :=
  b ← get;
  _ ← pure (scan_network config (electrum_network b.1));
  unchecked ← pure (or_err (address_from_str (vault_address config)) "invalid address");
  address ← pure (or_err (require_network unchecked (electrum_network b.1)) "wrong network");
  scan_script (address_script_pubkey address).

Definition electrum_scan_connectors (config : VaultConfig)
    : M (ElectrumBackend * Net) (list VaultUtxo) :=
  b ← get;
  _ ← pure (scan_network config (electrum_network b.1));
  controller ← pure (controller_policy config);
  scan_script (address_script_pubkey (controller_address_of controller)).

(** A refused broadcast has succeeded where the server knows the very
    transaction. *)
Definition electrum_broadcast (transaction : Transaction) : M (ElectrumBackend * Net) Txid :=
  λ '(b, net),
  match transaction_broadcast (electrum_client b) transaction net with
  | (Err _, net) =>
      let expected := compute_txid transaction in
      match transaction_get (electrum_client b) expected net with
      | (Ok known, net) =>
          if bool_decide (compute_txid known = expected) then (Ok expected, (b, net))
          else (Err "Electrum transaction broadcast failed", (b, net))
      | (Err _, net) => (Err "Electrum transaction broadcast failed", (b, net))
      | (Panic, net) => (Panic, (b, net))
      end
  | (r, net) => (r, (b, net))
  end.
End electrum.

(** * The interface *)

Context `{!BdkLib}.

#[export] Instance core_blockchain {Node} `{!RpcApi Node}
    (sync_core : M (HotWallet * BitcoinCoreBackend (Node:=Node)) unit)
    : Blockchain (BitcoinCoreBackend (Node:=Node)) := {|
  backend_network := core_network;
  chain_tip := core_chain_tip;
  scan_vault := core_scan_vault;
  scan_connectors := core_scan_connectors;
  broadcast := core_broadcast;
  sync_hot_wallet := sync_core;
|}.

#[export] Instance electrum_blockchain {Net} `{!ElectrumApi Net}
    (sync_electrum : M (HotWallet * (ElectrumBackend (Net:=Net) * Net)) unit)
    : Blockchain (ElectrumBackend (Net:=Net) * Net) := {|
  backend_network b := electrum_network b.1;
  chain_tip := electrum_chain_tip;
  scan_vault := electrum_scan_vault;
  scan_connectors := electrum_scan_connectors;
  broadcast := electrum_broadcast;
  sync_hot_wallet := sync_electrum;
|}.
End chain.
