(* ===== verification/Sync.v ===== *)
(** Synchronising the everyday wallet ([hot_wallet/wallet.rs], [sync_core] and
    [sync_electrum]), and the two implementations of [HotWalletBackend]
    ([hot_wallet/mod.rs]). *)

From S2P Require Import Prelude Bitcoin Types Policy Storage FileSystem Ceremony HotWallet Chain.

(** * What BDK and its two chain sources offer *)

(** The updates that a wallet takes. *)
Class BdkUpdates `{BdkLib} := {
  Update : Type;
  BlockEvent : Type;
  UnconfirmedTxs : Type;
  EvictedTxs : Type;
  CheckPoint : Type;
  FullScanRequest : Type;
  SyncRequest : Type;
  latest_checkpoint : BdkWallet → CheckPoint;
  apply_update : Update → M BdkWallet unit;
  apply_block_connected_to : BlockEvent → M BdkWallet unit;
  apply_unconfirmed_txs : UnconfirmedTxs → BdkWallet → BdkWallet;
  apply_evicted_txs : EvictedTxs → BdkWallet → BdkWallet;
  start_full_scan : BdkWallet → FullScanRequest;
  start_sync_with_revealed_spks : BdkWallet → SyncRequest;
}.

(** [bdk_bitcoind_rpc]: the emitter of a node's blocks, and the node's memory
    pool as an update and the transactions that left it. *)
Class BlockEmitter `{BdkUpdates} (Node : Type) := {
  Emitter : Type;
  emitter_new : CheckPoint → N → Emitter;
  next_block : M (Emitter * Node) (option BlockEvent);
  mempool : M (Emitter * Node) (UnconfirmedTxs * EvictedTxs);
  (* How many blocks the node still has to announce: not a call, but a bound on
     the calls. *)
  blocks_left : Emitter * Node → nat;
}.
(** Every announced block is one less. *)
Class EmitterLaws `{BdkUpdates} (Node : Type) `{!BlockEmitter Node} : Prop :=
  next_block_progress s e s' : next_block s = (Ok (Some e), s') → blocks_left s' < blocks_left s.

(** [bdk_electrum]. *)
Class ElectrumSource `{BdkUpdates} (Net : Type) `{!ElectrumApi Net} := {
  populate_tx_cache : ElectrumClient → BdkWallet → Net → Net;
  full_scan : ElectrumClient → FullScanRequest → N → N → bool → M Net Update;
  electrum_sync : ElectrumClient → SyncRequest → N → bool → M Net Update;
}.

(** * The phone's wallet *)

Definition BATCH_SIZE : N := 20.

Section states.
Context {S T : Type}.

Definition on_left {A} (m : M S A) : M (S * T) A := λ s,
  let '(r, x) := m s.1 in (r, (x, s.2)).
Definition on_right {A} (m : M T A) : M (S * T) A := λ s,
  let '(r, x) := m s.2 in (r, (s.1, x)).
End states.

Section core.
Context `{BitcoinLib, !BdkLib, !BdkUpdates} {Node : Type} `{!BlockEmitter Node}.

(** One announced block. *)
Definition connect_block (event : BlockEvent) : M (HotWallet * (Emitter * Node)) unit :=
  on_left (on_wallet (apply_block_connected_to event)).

(** [while let Some(event) = emitter.next_block()?]; no result is that the
    fuel was not enough. *)
Fixpoint connect_blocks (fuel : nat) : M (HotWallet * (Emitter * Node)) (option unit) :=
  match fuel with
  | 0 => mret None
  | S fuel =>
      event ← on_right next_block;
      match event with
      | None => mret (Some tt)
      | Some event => _ ← connect_block event; connect_blocks fuel
      end
  end.

(** The memory pool, after the blocks. *)
Definition connect_mempool : M (HotWallet * (Emitter * Node)) unit :=
  pool ← on_right mempool;
  _ ← on_left (on_wallet (λ w, (Ok tt, apply_unconfirmed_txs pool.1 w)));
  on_left (on_wallet (λ w, (Ok tt, apply_evicted_txs pool.2 w))).

(** With an emitter that starts at the wallet's last checkpoint; running out
    of fuel, which [sync_core_terminates] excludes, would be a panic. *)
Definition emit_and_apply : M (HotWallet * (Emitter * Node)) unit :=
  s ← get;
  finished ← connect_blocks (S (blocks_left s.2));
  match finished with
  | None => pure Panic
  | Some _ => connect_mempool
  end.

Definition sync_core : M (HotWallet * BitcoinCoreBackend (Node:=Node)) unit := λ s,
  let '(h, b) := s in
  let '(r, (h, (_, node))) :=
    emit_and_apply (h, (emitter_new (latest_checkpoint (wallet h)) 0%N, client b)) in
  (_ ← pure r; on_left persist_wallet)
    (h, {| client := node; core_network := core_network b |}).
End core.

Section electrum.
Context `{BitcoinLib, !BdkLib, !BdkUpdates} {Net : Type} `{!ElectrumApi Net, !ElectrumSource Net}.
#[local] Abbreviation S := (HotWallet * (ElectrumBackend (Net:=Net) * Net))%type.

(** An update, applied and persisted. *)
Definition take_update (u : Update) : M S unit :=
  _ ← on_left (on_wallet (apply_update u));
  on_left persist_wallet.

(** The recovery scan: all addresses, up to a gap of unused ones. *)
Definition discover : M S unit :=
  s ← get;
  update ← on_right (on_net (λ c, full_scan c (start_full_scan (wallet s.1)) RECOVERY_STOP_GAP
                                    BATCH_SIZE false));
  take_update update.

(** The addresses that were revealed. *)
Definition sync_revealed : M S unit :=
  s ← get;
  update ← on_right (on_net (λ c, electrum_sync c (start_sync_with_revealed_spks (wallet s.1))
                                    BATCH_SIZE false));
  take_update update.

Definition sync_electrum : M S unit :=
  s ← get;
  _ ← on_right (on_net (λ c net, (Ok tt, populate_tx_cache c (wallet s.1) net)));
  found ← pure (or_err (discovered (db s.1)) "failed to read the synchronisation state");
  _ ← (if negb found then discover else mret tt);
  _ ← sync_revealed;
  if negb found then on_left (on_db set_discovered) else mret tt.
End electrum.

(** [impl HotWalletBackend]. *)
Section backends.
Context `{BitcoinLib, !TxidOrder, !KeyLib, !BdkLib, !BdkUpdates}.

Definition core_backend {Node} `{!RpcApi Node, !BlockEmitter Node}
  : Blockchain (BitcoinCoreBackend (Node:=Node)) := core_blockchain sync_core.
Definition electrum_backend {Net} `{!ElectrumApi Net, !ElectrumSource Net}
  : Blockchain (ElectrumBackend (Net:=Net) * Net) := electrum_blockchain sync_electrum.
End backends.
