(* ===== verification/SyncFacts.v ===== *)
(** What synchronising does to the wallet's database: a recovery scan is not
    forgotten before it is done, and a node's blocks are stored as a whole. *)

From S2P Require Import Prelude Bitcoin Types Policy Storage FileSystem Ceremony HotWallet Chain Sync.

(** The marker is a row of a table of its own: SQLite changes it in the two
    statements that name it, and not at all when they fail. *)
Class MarkerLaws `{BdkLib} : Prop := {
  persist_marker w d r d' : persist w d = (r, d') → discovered d' = discovered d;
  set_discovered_run d r d' : set_discovered d = (r, d') →
    discovered d' = if r is Ok _ then Some true else discovered d;
  clear_discovered_run d r d' : clear_discovered d = (r, d') →
    discovered d' = if r is Ok _ then Some false else discovered d;
}.

Section lifted.
Context {S T A : Type}.

Lemma on_left_run (m : M S A) (s s' : S * T) r :
  on_left m s = (r, s') ↔ m s.1 = (r, s'.1) ∧ s'.2 = s.2.
Proof. unfold on_left. destruct s, s', (m _). naive_solver. Qed.
Lemma on_right_run (m : M T A) (s s' : S * T) r :
  on_right m s = (r, s') ↔ m s.2 = (r, s'.2) ∧ s'.1 = s.1.
Proof. unfold on_right. destruct s, s', (m _). naive_solver. Qed.
End lifted.

(** * Electrum *)

Section electrum.
Context `{BitcoinLib, !BdkLib, !BdkUpdates, !MarkerLaws} {Net : Type}
  `{!ElectrumApi Net, !ElectrumSource Net}.
#[local] Abbreviation S := (HotWallet * (ElectrumBackend (Net:=Net) * Net))%type.
Implicit Types (s : S) (h : HotWallet).

Definition marker s : option bool := discovered (db s.1).
(** A step that leaves the marker. *)
Definition keeps_marker {A} (m : M S A) : Prop := ∀ s r s', m s = (r, s') → marker s' = marker s.

Lemma keeps_marker_bind {A B} (m : M S A) (g : A → M S B) :
  keeps_marker m → (∀ a, keeps_marker (g a)) → keeps_marker (a ← m; g a).
Proof.
  intros Hm Hg s r s' Hr. unfold mbind, M_bind in Hr. destruct (m s) as [[a|e|] s1] eqn:Hrun.
  - rewrite (Hg a s1 r s' Hr). by eapply Hm.
  - injection Hr as <- <-. by eapply Hm.
  - injection Hr as <- <-. by eapply Hm.
Qed.

Lemma keeps_right {A} (m : M (ElectrumBackend (Net:=Net) * Net) A) : keeps_marker (on_right m).
Proof. intros s r s' [_ Hh]%on_right_run. unfold marker. by rewrite Hh. Qed.
Lemma keeps_wallet {A} (m : M BdkWallet A) : keeps_marker (on_left (on_wallet m)).
Proof.
  intros s r s' [Hm _]%on_left_run. unfold on_wallet in Hm. unfold marker.
  destruct (m (wallet s.1)). by injection Hm as _ <-.
Qed.
Lemma keeps_persist : keeps_marker (on_left persist_wallet).
Proof.
  intros s r s' [Hm _]%on_left_run. unfold persist_wallet in Hm. unfold marker.
  destruct (persist (wallet s.1) (db s.1)) as [r' d] eqn:Hp. apply persist_marker in Hp.
  destruct r'; by injection Hm as _ <-.
Qed.
Lemma keeps_take_update u : keeps_marker (take_update u).
Proof. apply keeps_marker_bind; [apply keeps_wallet|intros _; apply keeps_persist]. Qed.
Lemma keeps_scan {A} (f : S → M S A) : (∀ s, keeps_marker (f s)) → keeps_marker (s ← get; f s).
Proof. intros Hf. apply keeps_marker_bind; [by intros s r s' [= _ <-]|done]. Qed.
Lemma keeps_discover : keeps_marker discover.
Proof.
  apply keeps_scan. intros s. apply keeps_marker_bind; [apply keeps_right|intros u; apply keeps_take_update].
Qed.
Lemma keeps_sync_revealed : keeps_marker sync_revealed.
Proof.
  apply keeps_scan. intros s. apply keeps_marker_bind; [apply keeps_right|intros u; apply keeps_take_update].
Qed.

(** A recovery scan of the wallet of [s], whose result is in the wallet and in
    the database of [s']. *)
Definition scanned s s' : Prop :=
  ∃ u net' w1 w2 d,
    full_scan (electrum_client s.2.1) (start_full_scan (wallet s.1)) RECOVERY_STOP_GAP BATCH_SIZE
      false s.2.2 = (Ok u, net') ∧
    apply_update u (wallet s.1) = (Ok tt, w1) ∧ persist w1 (db s.1) = (Ok w2, d) ∧
    s' = ({| wallet := w2; db := d |}, (s.2.1, net')).

(** What is known was brought up to date, and is in the database. *)
Definition synced s s' : Prop :=
  ∃ u net' w1 w2 d,
    electrum_sync (electrum_client s.2.1) (start_sync_with_revealed_spks (wallet s.1)) BATCH_SIZE
      false s.2.2 = (Ok u, net') ∧
    apply_update u (wallet s.1) = (Ok tt, w1) ∧ persist w1 (db s.1) = (Ok w2, d) ∧
    s' = ({| wallet := w2; db := d |}, (s.2.1, net')).

Lemma take_update_Ok u s s' :
  take_update u s = (Ok tt, s') →
  ∃ w1 w2 d, apply_update u (wallet s.1) = (Ok tt, w1) ∧ persist w1 (db s.1) = (Ok w2, d) ∧
    s' = ({| wallet := w2; db := d |}, s.2).
Proof.
  unfold take_update. intros ([] & [h1 x1] & [Ha Hx]%on_left_run & [Hp Hx']%on_left_run)%M_bind_Ok.
  cbn [fst snd] in *. subst x1. unfold on_wallet in Ha.
  destruct (apply_update u (wallet s.1)) as [ru w1]. injection Ha as -> <-.
  unfold persist_wallet in Hp. cbn [wallet db] in Hp.
  destruct (persist w1 (db s.1)) as [[w2| |] d] eqn:Hd; [|done..]. injection Hp as Hp.
  exists w1, w2, d. split; [done|]. split; [done|]. destruct s' as [h' x']. cbn in *. by subst.
Qed.

Lemma scan_step (f : ElectrumClient → M Net Update) s u s1 :
  on_right (on_net f) s = (Ok u, s1) →
  ∃ net', f (electrum_client s.2.1) s.2.2 = (Ok u, net') ∧ s1 = (s.1, (s.2.1, net')).
Proof.
  intros [Hf Hh]%on_right_run. destruct s as [h [b net]], s1 as [h1 [b1 net1]]. cbn in *. subst h1.
  destruct (f (electrum_client b) net) as [r net']. injection Hf as -> <- <-. by exists net'.
Qed.

Lemma discover_Ok s s' : discover s = (Ok tt, s') → scanned s s'.
Proof.
  unfold discover. intros (? & ? & [= <- <-] & Hr)%M_bind_Ok.
  apply M_bind_Ok in Hr as (u & s1 & (net' & Hf & ->)%scan_step & Hr).
  apply take_update_Ok in Hr as (w1 & w2 & d & Ha & Hp & ->). by exists u, net', w1, w2, d.
Qed.
Lemma sync_revealed_Ok s s' : sync_revealed s = (Ok tt, s') → synced s s'.
Proof.
  unfold sync_revealed. intros (? & ? & [= <- <-] & Hr)%M_bind_Ok.
  apply M_bind_Ok in Hr as (u & s1 & (net' & Hf & ->)%scan_step & Hr).
  apply take_update_Ok in Hr as (w1 & w2 & d & Ha & Hp & ->). by exists u, net', w1, w2, d.
Qed.

(** The state after the transactions the wallet knows were put in the cache. *)
Definition cached s : S :=
  (s.1, (s.2.1, populate_tx_cache (electrum_client s.2.1) (wallet s.1) s.2.2)).

Lemma sync_electrum_cached s :
  sync_electrum s =
  (found ← pure (or_err (marker s) "failed to read the synchronisation state");
   _ ← (if negb found then discover else mret tt);
   _ ← sync_revealed;
   if negb found then on_left (on_db set_discovered) else mret tt) (cached s).
Proof. by destruct s as [h [b net]]. Qed.

(** ** The marker *)

(** What an electrum synchronisation does, by the marker it finds. *)
Definition completed s s' : Prop :=
  match marker s with
  | Some true => synced (cached s) s'
  | Some false => ∃ s1 s2, scanned (cached s) s1 ∧ synced s1 s2 ∧
      set_discovered (db s2.1) = (Ok tt, db s'.1) ∧ wallet s'.1 = wallet s2.1 ∧ s'.2 = s2.2
  | None => False
  end.

Lemma set_marker_run s r s' :
  on_left (on_db set_discovered) s = (r, s') →
  (r = Ok tt → marker s' = Some true) ∧ (r ≠ Ok tt → marker s' = marker s) ∧
  set_discovered (db s.1) = (r, db s'.1) ∧ wallet s'.1 = wallet s.1 ∧ s'.2 = s.2.
Proof.
  intros [Hm Hx]%on_left_run. unfold on_db in Hm. unfold marker.
  destruct (set_discovered (db s.1)) as [r' d] eqn:Hd. injection Hm as -> Hs'. rewrite <-Hs' in *.
  apply set_discovered_run in Hd. cbn in *. rewrite Hd. split; [by intros ->|].
  split; [by destruct r as [[]| |]|done].
Qed.

Lemma sync_electrum_run s r s' :
  sync_electrum s = (r, s') →
  (r = Ok tt → completed s s' ∧ marker s' = Some true) ∧
  (r ≠ Ok tt → marker s' = marker s).
Proof.
  rewrite sync_electrum_cached. unfold completed.
  change (marker s) with (marker (cached s)). set (c := cached s). clearbody c. clear s.
  unfold mbind at 1, M_bind, pure. destruct (marker c) as [found|] eqn:Hfound; cbn.
  2: by intros [= <- <-]. intros Hr. split.
  - intros ->. destruct found; cbn in Hr.
    + apply M_bind_Ok in Hr as ([] & s1 & [_ ->]%mret_Ok & Hr).
      apply M_bind_Ok in Hr as ([] & s2 & Hs & [_ ->]%mret_Ok).
      split; [by apply sync_revealed_Ok|]. by rewrite (keeps_sync_revealed _ _ _ Hs).
    + apply M_bind_Ok in Hr as ([] & s1 & Hs1 & Hr).
      apply M_bind_Ok in Hr as ([] & s2 & Hs2 & (Hok & _ & Hset & Hw & Hx)%set_marker_run).
      split; [|by apply Hok]. exists s1, s2.
      split; [by apply discover_Ok|]. split; [by apply sync_revealed_Ok|done].
  - intros Hne. destruct found; cbn in Hr.
    + eapply (keeps_marker_bind (mret tt) (λ _, _ ← sync_revealed; mret tt)) in Hr; [congruence|..].
      { by intros ? ? ? [= _ <-]. }
      intros _. apply keeps_marker_bind; [apply keeps_sync_revealed|]. by intros _ ? ? ? [= _ <-].
    + unfold mbind, M_bind in Hr. destruct (discover c) as [r1 s1] eqn:Hs1.
      apply keeps_discover in Hs1. destruct r1 as [[]| |]; [|injection Hr as <- <-; congruence..].
      destruct (sync_revealed s1) as [r2 s2] eqn:Hs2. apply keeps_sync_revealed in Hs2.
      destruct r2 as [[]| |]; [|injection Hr as <- <-; congruence..].
      apply set_marker_run in Hr as (_ & Hr & _). rewrite Hr by done. congruence.
Qed.

(** C28: Recovery is complete before it is called complete: a successful
    synchronisation with Electrum of a wallet whose addresses were not
    discovered has scanned all of them up to the recovery gap, stored the
    result, brought it up to date and stored it again before it sets the
    marker; a failed one leaves the marker, so the next one scans; and with
    the marker set only the revealed addresses are asked for. *)
Theorem electrum_discovers_first s r s' :
  sync_electrum s = (r, s') →
  match r with
  | Ok _ => completed s s' ∧ marker s' = Some true
  | _ => marker s' = marker s
  end.
Proof.
  intros [Hok Hfail]%sync_electrum_run. destruct r as [[]|e|]; [by apply Hok|by apply Hfail..].
Qed.

(** ** A requested scan *)

(** A synchronisation that fails, of any wallet on the database and with any
    network. *)
Definition failed_attempt (d d' : Db) : Prop :=
  ∃ w x r s', sync_electrum ({| wallet := w; db := d |}, x) = (r, s') ∧ r ≠ Ok tt ∧ d' = db s'.1.

Lemma failed_attempts_marker d d' :
  rtc failed_attempt d d' → discovered d = Some false → discovered d' = Some false.
Proof.
  induction 1 as [|d1 d2 d3 (w & y & r & s1 & Hrun & Hne & ->) _ IH]; [done|]. intros Hd. apply IH.
  apply sync_electrum_run in Hrun as [_ Hrun]. specialize (Hrun Hne).
  unfold marker in Hrun. cbn in Hrun. congruence.
Qed.

(** A requested scan is made: after [request_full_scan], whatever
    synchronisations of that database fail meanwhile, the one that succeeds
    begins with the full scan. *)
Theorem requested_scan_made h h1 d w x s' :
  request_full_scan h = (Ok tt, h1) → rtc failed_attempt (db h1) d →
  sync_electrum ({| wallet := w; db := d |}, x) = (Ok tt, s') →
  ∃ s1, scanned (cached ({| wallet := w; db := d |}, x)) s1 ∧ discovered (db s'.1) = Some true.
Proof.
  intros Hreq Hrtc Hs. assert (discovered d = Some false) as Hd.
  { apply (failed_attempts_marker _ _ Hrtc). unfold request_full_scan, on_db in Hreq.
    destruct (clear_discovered (db h)) as [r d1] eqn:Hc. injection Hreq as -> <-.
    by apply clear_discovered_run in Hc. }
  apply sync_electrum_run in Hs as [Hs _]. destruct (Hs eq_refl) as [Hc Hm].
  unfold completed, marker in Hc. cbn [fst db] in Hc. rewrite Hd in Hc.
  destruct Hc as (s1 & s2 & Hscan & _). by exists s1.
Qed.
End electrum.

(** * Bitcoin Core *)

Section core.
Context `{BitcoinLib, !BdkLib, !BdkUpdates} {Node : Type} `{!BlockEmitter Node, !EmitterLaws Node}.
Implicit Types (s : Emitter * Node) (h : HotWallet) (w : BdkWallet).

(** The blocks that the emitter announces, up to the end of the chain. *)
Inductive announced : Emitter * Node → list BlockEvent → Emitter * Node → Prop :=
  | announced_end s s' : next_block s = (Ok None, s') → announced s [] s'
  | announced_block s e s1 l s' :
      next_block s = (Ok (Some e), s1) → announced s1 l s' → announced s (e :: l) s'.

Inductive applied : BdkWallet → list BlockEvent → BdkWallet → Prop :=
  | applied_none w : applied w [] w
  | applied_block w e w1 l w' :
      apply_block_connected_to e w = (Ok tt, w1) → applied w1 l w' → applied w (e :: l) w'.

Lemma connect_block_run e h s r h' s' :
  connect_block e (h, s) = (r, (h', s')) →
  ∃ w, apply_block_connected_to e (wallet h) = (r, w) ∧ h' = {| wallet := w; db := db h |} ∧ s' = s.
Proof.
  unfold connect_block. intros [Ha Hs]%on_left_run. cbn in *. subst s'. unfold on_wallet in Ha.
  destruct (apply_block_connected_to e (wallet h)) as [r' w]. injection Ha as -> <-. by exists w.
Qed.

(** The loop never touches the database, and does not run out of fuel. *)
Lemma connect_blocks_run fuel h s r h' s' :
  connect_blocks fuel (h, s) = (r, (h', s')) → blocks_left s < fuel →
  db h' = db h ∧ r ≠ Ok None ∧
  (r = Ok (Some tt) → ∃ l, announced s l s' ∧ applied (wallet h) l (wallet h')).
Proof.
  revert h s. induction fuel as [|fuel IH]; intros h s Hr Hf; [lia|]. simpl in Hr.
  unfold mbind at 1, M_bind in Hr. destruct (on_right next_block (h, s)) as [re [h1 s1]] eqn:Hn.
  apply on_right_run in Hn as [Hn Hh]. cbn [fst snd] in Hn, Hh. subst h1.
  destruct re as [[e|]|e|].
  - unfold mbind, M_bind in Hr. destruct (connect_block e (h, s1)) as [rb [h2 s2]] eqn:Hb.
    apply connect_block_run in Hb as (w & Ha & -> & ->).
    destruct rb as [[]|m|]; [|injection Hr as <- <- <-; done..].
    apply next_block_progress in Hn as Hlt.
    destruct (IH _ _ Hr ltac:(lia)) as (Hd & Hne & Hok). split; [done|]. split; [done|].
    intros (l & Hl & Hw)%Hok. exists (e :: l). split; [by econstructor|by econstructor].
  - injection Hr as <- <- <-. split; [done|]. split; [done|]. intros _. exists [].
    split; [by constructor|constructor].
  - injection Hr as <- <- <-. done.
  - injection Hr as <- <- <-. done.
Qed.

Lemma connect_mempool_run h s r h' s' :
  connect_mempool (h, s) = (r, (h', s')) →
  db h' = db h ∧
  ∃ rp, mempool s = (rp, s') ∧
  match rp with
  | Ok pool => r = Ok tt ∧ wallet h' = apply_evicted_txs pool.2 (apply_unconfirmed_txs pool.1 (wallet h))
  | Err e => r = Err e
  | Panic => r = Panic
  end.
Proof.
  unfold connect_mempool. unfold mbind at 1, M_bind.
  destruct (on_right mempool (h, s)) as [rp [h1 s1]] eqn:Hm.
  apply on_right_run in Hm as [Hm Hh]. cbn [fst snd] in Hm, Hh. subst h1. destruct rp as [pool|e|].
  - intros [= <- <- <-]. split; [done|]. by exists (Ok pool).
  - intros [= <- <- <-]. split; [done|]. by exists (Err e).
  - intros [= <- <- <-]. split; [done|]. by exists Panic.
Qed.

(** The wallet with everything the node has announced. *)
Definition caught_up (h : HotWallet) (node : Node) (w : BdkWallet) (node' : Node) : Prop :=
  ∃ l s1 w1 u x e', announced (emitter_new (latest_checkpoint (wallet h)) 0%N, node) l s1 ∧
    applied (wallet h) l w1 ∧ mempool s1 = (Ok (u, x), (e', node')) ∧
    w = apply_evicted_txs x (apply_unconfirmed_txs u w1).

Lemma emit_and_apply_run h s r h' s' :
  emit_and_apply (h, s) = (r, (h', s')) →
  db h' = db h ∧
  (r = Ok tt → ∃ l s1 w1 u x, announced s l s1 ∧ applied (wallet h) l w1 ∧
     mempool s1 = (Ok (u, x), s') ∧ wallet h' = apply_evicted_txs x (apply_unconfirmed_txs u w1)).
Proof.
  unfold emit_and_apply. cbn [mbind M_bind get]. unfold mbind, M_bind, get. cbn [snd].
  destruct (connect_blocks (S (blocks_left s)) (h, s)) as [rb [h1 s1]] eqn:Hb.
  apply connect_blocks_run in Hb as (Hd & Hne & Hok); [|lia].
  destruct rb as [[[]|]|e|]; [|done|by intros [= <- <- <-]..].
  intros (Hd' & rp & Hm & Hr)%connect_mempool_run. split; [congruence|]. intros ->.
  destruct (Hok eq_refl) as (l & Hl & Hw). destruct rp as [[u x]|e|]; [|done..]. destruct Hr as [_ Hr].
  by exists l, s1, (wallet h1), u, x.
Qed.

Lemma persist_wallet_run h r h' :
  persist_wallet h = (r, h') →
  (r = Ok tt → persist (wallet h) (db h) = (Ok (wallet h'), db h')) ∧
  (r ≠ Ok tt → ∃ r', persist (wallet h) (db h) = (r', db h') ∧ ∀ w, r' ≠ Ok w).
Proof.
  unfold persist_wallet. destruct (persist (wallet h) (db h)) as [[w|e|] d]; intros [= <- <-];
    split; try done; by eauto.
Qed.

(** C29: A node's news reaches the database as a whole: a successful
    synchronisation has applied, in order, every block that the node announced
    from the wallet's last checkpoint to the end of the chain, then the memory
    pool and what had left it, and the database holds that wallet; one that
    fails has left the database as it was, unless what failed was the storing
    itself. *)
Theorem core_sync_whole h (b : BitcoinCoreBackend (Node:=Node)) r h' b' :
  sync_core (h, b) = (r, (h', b')) →
  core_network b' = core_network b ∧
  (r = Ok tt → ∃ w, caught_up h (client b) w (client b') ∧
     persist w (db h) = (Ok (wallet h'), db h')) ∧
  (r ≠ Ok tt → db h' = db h ∨
     ∃ w r', caught_up h (client b) w (client b') ∧ persist w (db h) = (r', db h') ∧ ∀ w', r' ≠ Ok w').
Proof.
  unfold sync_core.
  destruct (emit_and_apply (h, (emitter_new (latest_checkpoint (wallet h)) 0%N, client b)))
    as [r1 [h1 [e1 node]]] eqn:Hrun. apply emit_and_apply_run in Hrun as [Hd Hok].
  unfold pure, mbind, M_bind. destruct r1 as [[]|e|]; [|by intros [= <- <- <-]; split_and!; [..|left]..].
  destruct (Hok eq_refl) as (l & s1 & w1 & u & x & Hl & Hw & Hm & Heq).
  assert (caught_up h (client b) (wallet h1) node) as Hc by (by exists l, s1, w1, u, x, e1).
  intros [Hp Hb]%on_left_run. cbn [fst snd] in Hp, Hb. subst b'. cbn [core_network client].
  apply persist_wallet_run in Hp as [Hp1 Hp2]. rewrite Hd in *. split; [done|]. split.
  - intros Hr. exists (wallet h1). auto.
  - intros Hr. right. destruct (Hp2 Hr) as (r' & Hr' & Hne). by exists (wallet h1), r'.
Qed.

Section no_panic.
Context (Hblock : ∀ s, (next_block s).1 ≠ Panic) (Hpool : ∀ s, (mempool s).1 ≠ Panic)
  (Happly : ∀ e w, (apply_block_connected_to e w).1 ≠ Panic).

Lemma connect_blocks_no_panic fuel h s : (connect_blocks fuel (h, s)).1 ≠ Panic.
Proof using Hblock Happly.
  revert h s. induction fuel as [|fuel IH]; intros h s; [done|]. simpl.
  unfold mbind at 1, M_bind. destruct (on_right next_block (h, s)) as [re [h1 s1]] eqn:Hx.
  apply on_right_run in Hx as [Hx _]. cbn [fst snd] in Hx.
  pose proof (Hblock s) as Hn. rewrite Hx in Hn. destruct re as [[e|]|e|]; [|done..].
  unfold mbind, M_bind. destruct (connect_block e (h1, s1)) as [ry [h2 s2]] eqn:Hy.
  apply connect_block_run in Hy as (w & Hy & _).
  pose proof (Happly e (wallet h1)) as Ha. rewrite Hy in Ha. destruct ry as [[]|m|]; [apply IH|done..].
Qed.

Lemma emit_and_apply_no_panic h s : (emit_and_apply (h, s)).1 ≠ Panic.
Proof using All.
  unfold emit_and_apply, mbind, M_bind, get. cbn [snd].
  pose proof (connect_blocks_no_panic (S (blocks_left s)) h s) as Hrb.
  destruct (connect_blocks (S (blocks_left s)) (h, s)) as [rb [h2 s2]] eqn:Hb.
  apply connect_blocks_run in Hb as (_ & Hne & _); [|lia].
  destruct rb as [[[]|]|e|]; [|done..].
  destruct (connect_mempool (h2, s2)) as [r [h3 s3]] eqn:Hm.
  apply connect_mempool_run in Hm as (_ & rp & Hrp & Hr). pose proof (Hpool s2) as Hp. rewrite Hrp in Hp.
  cbn [fst] in *. destruct rp; [by destruct Hr as [-> _]|by rewrite Hr|done].
Qed.
End no_panic.

(** Synchronising with a node ends: when the node announces finitely
    many blocks and no call of the libraries panics, [sync_core] returns with
    a result or an error. *)
Theorem sync_core_terminates h (b : BitcoinCoreBackend (Node:=Node)) :
  (∀ s, (next_block s).1 ≠ Panic) → (∀ s, (mempool s).1 ≠ Panic) →
  (∀ e w, (apply_block_connected_to e w).1 ≠ Panic) → (∀ w d, (persist w d).1 ≠ Panic) →
  (sync_core (h, b)).1 ≠ Panic.
Proof.
  intros Hn Hm Ha Hp. unfold sync_core.
  pose proof (emit_and_apply_no_panic Hn Hm Ha h
    (emitter_new (latest_checkpoint (wallet h)) 0%N, client b)) as Hr1.
  destruct (emit_and_apply _) as [r1 [h1 [e1 node]]]. cbn [fst] in Hr1.
  unfold pure, mbind, M_bind. destruct r1 as [[]|e|]; [|done..].
  destruct (on_left persist_wallet _) as [r h3] eqn:Hx. apply on_left_run in Hx as [Hx _].
  unfold persist_wallet in Hx. cbn [fst wallet db] in Hx. specialize (Hp (wallet h1) (db h1)).
  destruct (persist (wallet h1) (db h1)) as [[]]; injection Hx as <- _; done.
Qed.
End core.
