(* ===== verification/ChainFacts.v ===== *)
(** What the chain backends report: scans, the tip's median time past, the
    choice of an Electrum server and repeated broadcasts. *)

From stdpp Require Import sorting.
From S2P Require Import Prelude Bitcoin Types Policy Storage FileSystem HotWallet Chain.

Section order.
Context `{BitcoinLib, !TxidOrder}.

#[export] Instance utxo_le_trans : Transitive utxo_le.
Proof.
  intros a b c Hab Hbc. unfold utxo_le in *.
  destruct Hab as [Hab|(Hh & Hab)], Hbc as [Hbc|(Hh' & Hbc)];
    [left; lia|left; lia|left; lia|right; split; [lia|]].
  destruct Hab as [[Hn Ha]|[He Ha]], Hbc as [[Hn' Hb]|[He' Hb]].
  - left. split; [|by etrans]. intros He. rewrite He in *. apply Hn'. by apply (anti_symm txid_le).
  - left. split; [congruence|]. by rewrite <-He'.
  - left. split; [congruence|]. by rewrite He.
  - right. split; [congruence|lia].
Qed.

#[export] Instance utxo_le_total : Total utxo_le.
Proof.
  intros a b. unfold utxo_le.
  destruct (N.lt_trichotomy (confirmation_height a) (confirmation_height b)) as [?|[Hh|?]];
    [by left; left| |by right; left].
  destruct (decide (txid (utxo_outpoint a) = txid (utxo_outpoint b))) as [He|Hn].
  - destruct (N.le_ge_cases (vout (utxo_outpoint a)) (vout (utxo_outpoint b)));
      [left|right]; right; auto.
  - destruct (total txid_le (txid (utxo_outpoint a)) (txid (utxo_outpoint b)));
      [left|right]; right; auto.
Qed.

Lemma sort_utxos_perm l : sort_utxos l ≡ₚ l.
Proof. apply merge_sort_Permutation. Qed.
Lemma sort_utxos_sorted l : StronglySorted utxo_le (sort_utxos l).
Proof. apply (StronglySorted_merge_sort utxo_le). Qed.
End order.

(** * Electrum *)

Section electrum.
Context `{BitcoinLib, !TxidOrder} {Net : Type} `{!ElectrumApi Net}.

Lemma context_m_Ok {S A} (m : M S A) msg s a s' :
  context_m m msg s = (Ok a, s') → m s = (Ok a, s').
Proof. unfold context_m. by destruct (m s) as [[] ?]; intros [= <- <-]. Qed.

Lemma scan_network_Ok config network : scan_network config network = Ok tt →
  bitcoin_network config = Ok network.
Proof.
  unfold scan_network. intros (n & Hn & Hb)%bind_Ok. unfold bail_if in Hb.
  case_bool_decide; by subst.
Qed.

(** A scan of the vault through Electrum is made only of a vault of the
    backend's network, and reports exactly the outputs the server lists as
    being in a block, once each and in the order of height and outpoint: every
    one pays the vault's script at the stated height.  Of any other network
    nothing is asked. *)
Theorem electrum_scan_reports_confirmed config (b : ElectrumBackend (Net:=Net)) net :
  (∀ l s', electrum_scan_vault config (b, net) = (Ok l, s') →
    bitcoin_network config = Ok (electrum_network b) ∧
    ∃ unchecked address listed net',
      address_from_str (vault_address config) = Some unchecked ∧
      require_network unchecked (electrum_network b) = Some address ∧
      script_list_unspent (electrum_client b) (address_script_pubkey address) net
        = (Ok listed, net') ∧ s' = (b, net') ∧
      l ≡ₚ unspent_vault_utxo (address_script_pubkey address)
             <$> filter (λ u, (0 < unspent_height u)%N) listed ∧
      StronglySorted utxo_le l ∧
      Forall (λ u, script_pubkey (utxo_txout u) = address_script_pubkey address ∧
                   (0 < confirmation_height u)%N) l) ∧
  (∀ n, bitcoin_network config = Ok n → n ≠ electrum_network b →
    electrum_scan_vault config (b, net)
      = (Err "refusing to scan a vault of another network", (b, net))).
Proof.
  split.
  - intros l s' Hscan. unfold electrum_scan_vault, get, pure, mbind, M_bind in Hscan.
    cbn [fst] in Hscan.
    destruct (scan_network _ _) as [[]|?|] eqn:Hn; [|done..]. apply scan_network_Ok in Hn.
    split; [done|]. destruct (or_err (address_from_str _) _) as [un|?|] eqn:Hun; [|done..].
    destruct (or_err (require_network _ _) _) as [address|?|] eqn:Ha; [|done..].
    apply or_err_Ok in Hun, Ha. unfold scan_script, on_net, mbind, M_bind in Hscan.
    cbn [electrum_client] in Hscan.
    destruct (context_m _ _ net) as [[listed|?|] net'] eqn:Hl; [|done..].
    apply context_m_Ok in Hl. injection Hscan as <- <-.
    exists un, address, listed, net'.
    assert (confirmed_utxos (address_script_pubkey address) listed ≡ₚ
      unspent_vault_utxo (address_script_pubkey address)
        <$> filter (λ u, (0 < unspent_height u)%N) listed) as Hp by apply sort_utxos_perm.
    split_and!; try done; [apply sort_utxos_sorted|]. rewrite Hp.
    apply Forall_fmap, Forall_forall. intros u [Hu _]%list_elem_of_filter. by split.
  - intros n Hn Hne. unfold electrum_scan_vault, get, pure, mbind, M_bind, scan_network.
    cbn [fst]. rewrite Hn. cbn [mbind result_bind]. by rewrite bool_decide_eq_false_2.
Qed.

(** ** Choosing a server *)

(** Servers that all answer with an error, from a state to a state. *)
Inductive all_fail (network : Network) : list string → Net → Net → Prop :=
  | all_fail_nil net : all_fail network [] net net
  | all_fail_cons s l net net1 net2 e :
      connect_attempt network s net = (Err e, net1) → all_fail network l net1 net2 →
      all_fail network (s :: l) net net2.

Lemma connect_attempt_Ok network s net b net' : connect_attempt network s net = (Ok b, net') →
  server b = s ∧ electrum_network b = network ∧ ∃ net1 header,
    electrum_new s net = (Ok (electrum_client b), net1) ∧
    block_header (electrum_client b) 0 net1 = (Ok header, net') ∧
    header_hash header = genesis_block_hash network.
Proof.
  unfold connect_attempt, mbind, M_bind, pure.
  destruct (context_m (electrum_new s) _ net) as [[raw|?|] net1] eqn:Hr; [|done..].
  destruct (context_m (block_header raw 0) _ net1) as [[h|?|] net2] eqn:Hh; [|done..].
  unfold bail_if. case_bool_decide as Hg; [|done]. intros [= <- <-].
  apply context_m_Ok in Hr, Hh. split_and!; try done. by exists net1, h.
Qed.

Lemma connect_first_spec network servers : ∀ errors net,
  match connect_first network servers errors net with
  | (Ok b, net') => ∃ pre s post net1, servers = pre ++ s :: post ∧
      all_fail network pre net net1 ∧ connect_attempt network s net1 = (Ok b, net')
  | (Err _, net') => all_fail network servers net net'
  | (Panic, _) => True
  end.
Proof.
  induction servers as [|s servers IH]; intros errors net; cbn [connect_first]; [constructor|].
  destruct (connect_attempt network s net) as [[b|e|] net1] eqn:Ha; [|
  |done].
  - exists [], s, servers, net. split; [done|]. split; [constructor|done].
  - specialize (IH (errors ++ [s +:+ ": " +:+ e]) net1).
    destruct (connect_first _ _ _ net1) as [[b|e'|] net2]; [| |done].
    + destruct IH as (pre & s' & post & n1 & -> & Hf & Hok).
      exists (s :: pre), s', post, n1. split; [done|]. split; [by econstructor|done].
    + by econstructor.
Qed.

(** A connection to Electrum is the first of the configured servers that
    answers and whose genesis block is the network's: every earlier one failed,
    and the backend carries that server and that network.  When none is, the
    connection is an error after every server was tried. *)
Theorem electrum_connection_checked network servers net :
  match connect network servers net with
  | (Ok b, net') => ∃ pre post net0 net1 header,
      servers = pre ++ server b :: post ∧ all_fail network pre net net0 ∧
      electrum_network b = network ∧
      electrum_new (server b) net0 = (Ok (electrum_client b), net1) ∧
      block_header (electrum_client b) 0 net1 = (Ok header, net') ∧
      header_hash header = genesis_block_hash network
  | (Err _, net') => all_fail network servers net net'
  | (Panic, _) => servers ≠ []
  end.
Proof.
  unfold connect, mbind, M_bind, pure. unfold bail_if.
  case_bool_decide as Hs; [subst; constructor|].
  pose proof (connect_first_spec network servers [] net) as Hspec.
  destruct (connect_first network servers [] net) as [[b|e|] net']; [| |done].
  - destruct Hspec as (pre & s & post & net0 & -> & Hf & Hok).
    apply connect_attempt_Ok in Hok as (<- & Hn & net1 & h & Hc & Hh & Hg).
    by exists pre, post, net0, net1, h.
  - done.
Qed.
End electrum.
