(* ===== verification/ChainWitness.v ===== *)
(** A network of two Electrum servers on which the theorems about the chain
    backends are instantiated. *)

From stdpp Require Import sorting.
From S2P Require Import Prelude Bitcoin Toy Types Keys Policy FileSystem Storage Ceremony ToyCeremony HotWallet Chain ChainFacts.

#[export] Instance toy_txid_order : TxidOrder.
Proof. by refine {| txid_le := (N.le : Txid → Txid → Prop) |}; typeclasses eauto. Defined.

(** The listing of the second server: two outputs in blocks, one that is not. *)
Definition toy_listed (h pos : N) : ListUnspentRes :=
  {| tx_hash := (40 + h)%N : Txid; tx_pos := pos; unspent_value := 5000; unspent_height := h |}.
Definition toy_listing : list ListUnspentRes := [toy_listed 9 1; toy_listed 0 0; toy_listed 3 0].

(** The state counts the connections; the first server is on another chain. *)
#[export] Instance toy_electrum : ElectrumApi nat := {|
  ElectrumClient := string;
  genesis_block_hash n := match n with Regtest => "genesis" | _ => "other" end;
  electrum_new s n := (Ok s, S n);
  block_header c _ n :=
    (Ok {| header_time := 0; header_hash := if bool_decide (c = "a") then "fork" else "genesis" |}, n);
  block_headers_subscribe c n := (Ok (7%N, {| header_time := 0; header_hash := c |}), n);
  batch_block_header c l n := (Ok ((λ h, {| header_time := h; header_hash := c |}) <$> l), n);
  script_list_unspent _ _ n := (Ok toy_listing, n);
  transaction_broadcast _ _ n := (Err "refused", n);
  transaction_get _ _ n := (Err "unknown", n);
|}.

Definition toy_backend : ElectrumBackend (Net:=nat) :=
  {| electrum_client := "b" : ElectrumClient; server := "b"; electrum_network := Regtest |}.

Lemma electrum_connection_checked_witness :
  connect Regtest ["a"; "b"] 0 = (Ok toy_backend, 2) ∧
  ∃ net1, all_fail Regtest ["a"] 0 net1.
Proof.
  assert (connect Regtest ["a"; "b"] 0 = (Ok toy_backend, 2)) as Hc by (vm_compute; reflexivity).
  split; [exact Hc|].
  pose proof (electrum_connection_checked Regtest ["a"; "b"] 0) as Hok. rewrite Hc in Hok.
  destruct Hok as (pre & post & net0 & net1 & h & Heq & Hf & _).
  destruct pre as [|s pre]; [discriminate Heq|]. injection Heq as <- Heq.
  destruct pre; [|destruct pre; discriminate Heq]. exists net0. exact Hf.
Defined.

Definition toy_mainnet_backend : ElectrumBackend (Net:=nat) :=
  {| electrum_client := "b" : ElectrumClient; server := "b"; electrum_network := Bitcoin |}.

Definition toy_found : list VaultUtxo :=
  Eval vm_compute in default [] (match (electrum_scan_vault toy_vault_config (toy_backend, 2)).1 with
                                 | Ok l => Some l | _ => None end).

Lemma electrum_scan_reports_confirmed_witness :
  length toy_found = 2 ∧ StronglySorted utxo_le toy_found ∧
  electrum_scan_vault toy_vault_config (toy_mainnet_backend, 2)
  = (Err "refusing to scan a vault of another network", (toy_mainnet_backend, 2)).
Proof.
  split; [reflexivity|]. split.
  - assert (electrum_scan_vault toy_vault_config (toy_backend, 2) = (Ok toy_found, (toy_backend, 2)))
      as Hrun by (vm_compute; reflexivity).
    destruct (proj1 (electrum_scan_reports_confirmed toy_vault_config toy_backend 2) toy_found
      (toy_backend, 2) Hrun) as (_ & ? & ? & ? & ? & _ & _ & _ & _ & _ & Hs & _).
    exact Hs.
  - exact (proj2 (electrum_scan_reports_confirmed toy_vault_config toy_mainnet_backend 2) Regtest
      eq_refl ltac:(discriminate)).
Defined.
