(* ===== verification/SyncWitness.v ===== *)
(** Synchronising at a concrete wallet: the list of what it has seen, stored
    beside the marker; a node that announces a list of blocks, and a server
    that answers from the second call on. *)

From S2P Require Import Prelude Bitcoin Toy Types Keys Policy FileSystem Storage Ceremony HotWallet Chain ChainWitness Sync SyncFacts.

#[local] Instance seen_bdk : BdkLib := {|
  Db := list N * bool;
  BdkWallet := list N;
  connection_open _ := Some ();
  load_wallet _ _ _ := λ d, (Ok (Some d.1), d);
  create_wallet _ _ _ := λ d, (Ok [], d);
  persist w := λ d, (Ok w, (w, d.2));
  reveal_next_address _ w := ("r-hot" : Address, w);
  get_utxo _ _ := false;
  balance _ := (0, 0)%N;
  calculate_fee _ _ := None;
  can_add_utxo _ _ := false;
  finish _ := λ w, (Err "no funds", w);
  wallet_sign _ p := Some (p, true);
  create_marker_table := λ d, (Ok tt, d);
  discovered d := Some d.2;
  set_discovered := λ d, (Ok tt, (d.1, true));
  clear_discovered := λ d, (Ok tt, (d.1, false));
|}.

#[local] Instance seen_marker : MarkerLaws.
Proof. split; intros; cbn in *; by simplify_eq. Qed.

#[local] Instance seen_updates : BdkUpdates := {|
  Update := N; BlockEvent := N; UnconfirmedTxs := N; EvictedTxs := N; CheckPoint := nat;
  FullScanRequest := unit; SyncRequest := unit;
  latest_checkpoint w := length (w : list N);
  apply_update u := λ w, (Ok tt, w ++ [u]);
  apply_block_connected_to e := λ w, (Ok tt, w ++ [e]);
  apply_unconfirmed_txs u w := w ++ [u];
  apply_evicted_txs x w := filter (λ y, y ≠ x) w;
  start_full_scan _ := ();
  start_sync_with_revealed_spks _ := ();
|}.

(** The node's blocks that are still to come. *)
#[local] Instance seen_node : BlockEmitter (list N) := {|
  Emitter := unit;
  emitter_new _ _ := ();
  next_block := λ '(e, l), match l with
                           | [] => (Ok None, (e, []))
                           | x :: l => (Ok (Some x), (e, l))
                           end;
  mempool := λ s, (Ok (70%N, 6%N), s);
  blocks_left s := length s.2;
|}.
#[local] Instance seen_node_laws : EmitterLaws (list N).
Proof. intros [[] [|x l]] e s'; [done|]. intros [= <- <-]. cbn. lia. Qed.

#[local] Instance seen_source : ElectrumSource nat := {|
  populate_tx_cache _ _ n := n;
  full_scan _ _ _ _ _ n := (if bool_decide (n = 0) then Err "offline" else Ok 100%N, S n);
  electrum_sync _ _ _ _ n := (Ok 20%N, S n);
|}.

Definition fresh_hot : HotWallet := {| wallet := [] : BdkWallet; db := ([], true) : Db |}.
Definition node_backend (l : list N) : BitcoinCoreBackend (Node:=list N) :=
  {| client := l; core_network := Regtest |}.
Definition caught_hot : HotWallet :=
  {| wallet := [5; 70]%N : BdkWallet; db := ([5; 70]%N, true) : Db |}.

Lemma core_sync_whole_witness :
  sync_core (fresh_hot, node_backend [5; 6]%N) = (Ok tt, (caught_hot, node_backend [])) ∧
  ∃ w, caught_up fresh_hot [5; 6]%N w ([] : list N) ∧
       persist w (db fresh_hot) = (Ok (wallet caught_hot), db caught_hot).
Proof.
  assert (sync_core (fresh_hot, node_backend [5; 6]%N) = (Ok tt, (caught_hot, node_backend []))) as Hr
    by (vm_compute; reflexivity).
  split; [exact Hr|]. exact (proj1 (proj2 (core_sync_whole _ _ _ _ _ Hr)) eq_refl).
Defined.

Lemma sync_core_terminates_witness : (sync_core (fresh_hot, node_backend [5; 6]%N)).1 ≠ Panic.
Proof.
  apply (sync_core_terminates fresh_hot (node_backend [5; 6]%N)); cbn.
  - intros [[] [|x l]]; discriminate.
  - discriminate.
  - discriminate.
  - discriminate.
Defined.

(** A restored phone on a surviving database. *)
Definition requested_hot : HotWallet := {| wallet := [] : BdkWallet; db := ([], false) : Db |}.
Definition scanned_hot : HotWallet :=
  {| wallet := [100; 20]%N : BdkWallet; db := ([100; 20]%N, true) : Db |}.

Lemma electrum_discovers_first_witness :
  sync_electrum (requested_hot, (toy_backend, 1)) = (Ok tt, (scanned_hot, (toy_backend, 3))) ∧
  completed (requested_hot, (toy_backend, 1)) (scanned_hot, (toy_backend, 3)).
Proof.
  assert (sync_electrum (requested_hot, (toy_backend, 1)) = (Ok tt, (scanned_hot, (toy_backend, 3))))
    as Hr by (vm_compute; reflexivity).
  split; [exact Hr|]. exact (proj1 (electrum_discovers_first _ _ _ Hr)).
Defined.

Lemma requested_scan_made_witness :
  ∃ s1, scanned (cached (requested_hot, (toy_backend, 1))) s1 ∧ discovered (db scanned_hot) = Some true.
Proof.
  assert (request_full_scan fresh_hot = (Ok tt, requested_hot)) as Hq by (vm_compute; reflexivity).
  assert (rtc (failed_attempt (Net:=nat)) (db requested_hot) (db requested_hot)) as Ht.
  { apply rtc_once. exists (wallet requested_hot), (toy_backend, 0), (Err "offline").
    eexists. split; [vm_compute; reflexivity|]. split; [discriminate|reflexivity]. }
  assert (sync_electrum (requested_hot, (toy_backend, 1)) = (Ok tt, (scanned_hot, (toy_backend, 3))))
    as Hr by (vm_compute; reflexivity).
  exact (requested_scan_made fresh_hot requested_hot (db requested_hot) (wallet requested_hot)
    (toy_backend, 1) (scanned_hot, (toy_backend, 3)) Hq Ht Hr).
Defined.
