(* ===== verification/Cli.v ===== *)
(** The command line ([main.rs]): its commands and options, the terminal, the
    choice of a chain backend, artifacts, the approval prompt and the texts that
    are printed.

    Parsing the arguments is clap's: a command is a value here.  The terminal
    is the text that is left on standard input and the lines printed so far. *)

From S2P Require Import Prelude Bitcoin Types Keys Policy Transactions FileSystem Storage Crypto Social Ceremony CeremonyValidate Recovery ColdWallet HotWallet Phone Vanity Rotation Chain.
From Stdlib Require Import Ascii.

(** * Commands *)

Inductive EmergencyCommand := EmergencyInitiate | EmergencyWithdraw | EmergencyCancel.

Inductive PhoneCommand :=
  | PhoneInit (vanity : bool)
  | ReceiveAddress
  | Send (address : string) (amount_sats : N)
  | SetPolicy (monthly_limit emergency_access_limit : N) (output : string) (now : option Z)
  | ActivatePolicy (approved_policy : string)
  | Authorize (step : N)
  | ApplySoftLimit (step limit : N)
  | Revoke (step : N)
  | Emergency (command : EmergencyCommand)
  | RestorePhone (recovery : string)
  | PhoneRecover (destination : string)
  | CreateSweep (destination output : string)
  | BroadcastSweep (approved_sweep : string)
  | RotateKey (vanity : bool) (output : string)
  | ActivateRotation (approved_rotation : string).

Inductive HwwCommand :=
  | HwwInit
  | ConfirmPolicy (proposal output : string) (yes : bool)
  | DecryptPhoneBackup (backup output : string)
  | AddRecoveryFriend (public_key : string) (yes : bool)
  | HwwRecover (destination : string)
  | RevokePolicy (destination : string) (yes : bool)
  | ConfirmSweep (proposal output : string) (yes : bool)
  | ConfirmRotation (proposal output : string) (yes : bool).

Inductive SocialCommand :=
  | GenerateFriendKey (name public_key private_key : string)
  | DecryptBackup (backup private_key output : string)
  | EmergencyAccess (backup private_key destination : string).

Inductive NodeCommand :=
  | Info
  | SetTime (timestamp : N)
  | Mine (blocks : N) (address : string).

Inductive Command :=
  | CommandInit
  | CommandPolicy
  | CommandStatus
  | CommandPhone (command : PhoneCommand)
  | CommandHww (command : HwwCommand)
  | CommandSocial (command : SocialCommand)
  | CommandNode (command : NodeCommand).

Inductive ChainBackendKind := Rpc | Electrum.

Record ChainArgs := {
  chain_backend : option ChainBackendKind;
  rpc_url : option string;
  rpc_user : string;
  rpc_password : string;
  electrum_url : option string;
}.

Record RpcConfig := { url : string; user : string; password : string }.

Record Cli := {
  cli_data_dir : Path;
  dangerously_enable_mainnet : bool;
  cli_chain : ChainArgs;
  cli_command : Command;
}.

(** * Libraries of the command line *)

(** Connecting a backend, and the calls of a node and a backend that only the
    command line makes. *)
Class Connector `{BitcoinTypes} (B : Type) := {
  bitcoin_core_connect : RpcConfig → Network → M B unit;
  electrum_connect : Network → list string → M B unit;
  electrum_connect_default : Network → M B unit;
  backend_description : B → string;
  node_chain_info : M B BlockchainInfo;
  node_set_mock_time : N → M B unit;
  node_mine : N → Address → M B (list string);
}.

(** [chrono]: the dates of Unix timestamps. *)
Class Chrono := {
  from_timestamp : Z → option Z;
  format_utc : Z → string;
}.

(** * The world of a command *)

Inductive Line := Out (text : string) | ErrOut (text : string).

Record CliWorld `{DbFiles, CryptoLib} (B : Type) := {
  cli_world : RotationWorld B;
  stdin : string;
  printed : list Line;
}.
Arguments Build_CliWorld {_ _ _ _ _} _ _ _ : rename.
Arguments cli_world {_ _ _ _ _} _ : rename.
Arguments stdin {_ _ _ _ _} _ : rename.
Arguments printed {_ _ _ _ _} _ : rename.

Section terminal.
Context `{BdkLib, !DbFiles, CryptoLib} {B : Type}.
#[local] Abbreviation C := (M (CliWorld B)).

Definition on_rotation {A} (m : M (RotationWorld B) A) : C A := λ w,
  let '(r, v) := m (cli_world w) in (r, Build_CliWorld v (stdin w) (printed w)).
Definition on_phone {A} (m : M (World B) A) : C A := on_rotation (on_world m).
Definition on_files {A} (m : M FS A) : C A := on_phone (at_fs m).
Definition reading {A} (g : FS → result A) : C A := on_phone (with_fs g).
Definition on_chain {A} (m : M B A) : C A := on_phone (at_chain m).

(** The hardware wallet's code, on the files and the random source. *)
Definition at_fs_rng {A} (m : M (FS * Rng) A) : M (World B) A := λ w,
  let '(r, (f, g)) := m (w_fs w, w_rng w) in (r, Build_World f g (w_db w) (w_chain w)).
Definition on_device {A} (m : M (FS * Rng) A) : C A := on_phone (at_fs_rng m).

Definition emit (stderr : bool) (text : string) : C unit := λ w,
  (Ok tt, Build_CliWorld (cli_world w) (stdin w)
            (printed w ++ [if stderr then ErrOut text else Out text])).
Definition println (text : string) : C unit := emit false text.
Definition eprintln (text : string) : C unit := emit true text.

(** Text up to the first line end, which it keeps. *)
Fixpoint split_line (s : string) : string * string :=
  match s with
  | EmptyString => (EmptyString, EmptyString)
  | String c s' =>
      if bool_decide (String c EmptyString = NEWLINE) then (NEWLINE, s')
      else let '(l, rest) := split_line s' in (String c l, rest)
  end.
Definition read_line : C string := λ w,
  let '(l, rest) := split_line (stdin w) in
  ((_ ← bail_if (negb (utf8 (bytes_of l))) "stream did not contain valid UTF-8"; mret l),
   Build_CliWorld (cli_world w) rest (printed w)).

(** ** Artifacts: [-] is the terminal *)

Definition is_dash (path : string) : bool := bool_decide (components path = [Normal "-"]).

Definition read_artifact {A} `{!Json A} (path : string) : C A :=
  if is_dash path then λ w,
    (or_err (from_slice (stdin w)) "failed to read JSON artifact from stdin",
     Build_CliWorld (cli_world w) EmptyString (printed w))
  else reading (λ f, read_json f (components path)).

Definition write_artifact {A} `{!Json A} (path : string) (a : A) : C unit :=
  if is_dash path then
    text ← pure (or_err (to_vec_pretty a) "failed to serialize");
    println text
  else on_files (write_json (components path) a).

Definition artifact_reports_to_stderr (path : string) : bool := is_dash path.

Definition report_artifact (path description : string) : C unit :=
  if is_dash path then mret tt else println (description +:+ ": " +:+ path).

(** ** The approval prompt *)

Definition require_hww_approval (yes : bool) (input description : string) : C unit :=
  if yes then mret tt else
  _ ← pure (bail_if (is_dash input) "--yes is required when the proposal is read from stdin");
  _ ← println ("Type `approve` to confirm the " +:+ description +:+ ": ");
  response ← read_line;
  pure (bail_if (negb (bool_decide (trim response = "approve"))) "HWW approval declined").
End terminal.

(** * Texts *)

(** A comma before every third digit from the end. *)
Fixpoint group_digits (digits : string) : string :=
  match digits with
  | EmptyString => EmptyString
  | String c rest =>
      String c (match rest with
                | EmptyString => EmptyString
                | _ => if bool_decide (String.length rest mod 3 = 0)
                       then String ","%char (group_digits rest) else group_digits rest
                end)
  end.
Definition format_number (n : N) : string := group_digits (pretty n).

Definition network_label (n : Network) : string :=
  match n with
  | Bitcoin => "MAINNET — REAL FUNDS"
  | Regtest => "REGTEST ONLY"
  | _ => "UNSUPPORTED NETWORK"
  end.

Definition network_text (n : Network) : string :=
  match n with
  | Bitcoin => "bitcoin"
  | Testnet => "testnet"
  | Testnet4 => "testnet4"
  | Signet => "signet"
  | Regtest => "regtest"
  end.

Section texts.
Context `{BdkLib, !DbFiles, CryptoLib} {B : Type}.
#[local] Abbreviation C := (M (CliWorld B)).

Fixpoint emit_lines (stderr : bool) (texts : list string) : C unit :=
  match texts with
  | [] => mret tt
  | t :: texts => _ ← emit stderr t; emit_lines stderr texts
  end.

Definition when (b : bool) (l : list string) : list string := if b then l else [].
Definition sats (n : N) : string := pretty n +:+ " sats".

Definition manifest_lines (m : BatchManifest) : list string :=
  ["PHONE POLICY PROPOSAL";
   "Cold storage descriptor: " +:+ manifest_vault_descriptor m;
   "Vault address: " +:+ manifest_vault_address m;
   "Policy controller address: " +:+ controller_address m;
   "Policy controller reserve: " +:+ sats (connector_value_sats m) +:+ " per active chain";
   if (monthly_limit_sats m =? 0)%N then "Monthly spending: disabled"
   else "Monthly limit: " +:+ sats (monthly_limit_sats m)] ++
  (if (emergency_access_limit_sats m =? 0)%N then ["Emergency access: disabled"]
   else ["Emergency access limit: " +:+ sats (emergency_access_limit_sats m);
         "Emergency access delay: " +:+ pretty EMERGENCY_ACCESS_DELAY_SECONDS
           +:+ " seconds (~1 week)"]) ++
  ["Fee rate: " +:+ pretty (fee_rate_sat_vb m) +:+ " sat/vB";
   "Total input: " +:+ sats (total_input_sats m);
   "Allowance steps: " +:+ pretty (N.of_nat (allowance_count m))] ++
  when (0 <? monthly_limit_sats m)%N
    ["Allowance hop delay: " +:+ pretty MONTHLY_ALLOWANCE_DELAY_SECONDS
       +:+ " seconds (~30 days)"] ++
  when (bool_decide (allowance_count m < MONTHS_PER_ROLLOVER) && (0 <? monthly_limit_sats m)%N)
    ["WARNING: balance funds only " +:+ pretty (N.of_nat (allowance_count m)) +:+ " of "
       +:+ pretty (N.of_nat MONTHS_PER_ROLLOVER) +:+ " monthly allowances"] ++
  ["Rollover txid: " +:+ unsigned_txid (rollover m);
   "Rollover fee: " +:+ sats (fee_sats (rollover m))] ++
  when (bool_decide (0 < allowance_count m))
    ["Initial allowance-chain UTXO: " +:+ sats (allowance_value_sats m);
     "Rollover remainder: " +:+ sats (remainder_value_sats m)] ++
  match emergency_access m with
  | Some e =>
      ["Emergency trigger txid: " +:+ unsigned_txid (trigger e);
       "Emergency withdrawal txid: " +:+ unsigned_txid (withdrawal e);
       "Emergency hot address: " +:+ emergency_hot_address e]
  | None => []
  end ++
  ["Phone signed PSBTs: " +:+ pretty (N.of_nat (length (manifest_transactions m)))].
Definition print_manifest (m : BatchManifest) (stderr : bool) : C unit :=
  emit_lines stderr (manifest_lines m).

Definition bool_text (b : bool) : string := if b then "true" else "false".

Definition report_sweep (p : CooperativeSweepPackage) (stderr : bool) : C unit :=
  emit_lines stderr (
    ["COOPERATIVE VAULT SWEEP";
     "Destination: " +:+ sweep_destination p;
     "Inputs: " +:+ pretty (N.of_nat (sweep_input_count p));
     "Sent: " +:+ sats (sweep_sent_sats p);
     "Fee: " +:+ sats (sweep_fee_sats p) +:+ " (1 sat/vB)";
     "Phone signed: " +:+ bool_text (sweep_phone_approved p)] ++
    when (sweep_hww_approved p) ["HWW signed: true"]).

Definition report_rotation (p : PhoneRotationPackage) (stderr : bool) : C unit :=
  let sweep := rotation_sweep p in
  emit_lines stderr (
    ["PHONE-KEY ROTATION";
     "New phone vault key: " +:+ new_phone_vault_pubkey p;
     "New cold storage descriptor: " +:+ new_vault_descriptor p;
     "New vault address: " +:+ new_vault_address p;
     "Inputs: " +:+ pretty (N.of_nat (sweep_input_count sweep));
     "Sent: " +:+ sats (sweep_sent_sats sweep);
     "Fee: " +:+ sats (sweep_fee_sats sweep) +:+ " (1 sat/vB)"] ++
    match renewed_policy p with
    | Some policy =>
        let m := package_manifest policy in
        ["Monthly policy preserved: " +:+ sats (monthly_limit_sats m);
         "Renewed allowance steps: " +:+ pretty (N.of_nat (allowance_count m));
         "Renewed policy PSBTs: " +:+ pretty (N.of_nat (length (manifest_transactions m)))] ++
        when (0 <? emergency_access_limit_sats m)%N
          ["Emergency access preserved: " +:+ sats (emergency_access_limit_sats m)]
    | None => ["Programmable vault policy remains disabled"]
    end).

Definition print_sweep_result `{!BitcoinLib} (label : string) (r : SweepResult) : C unit :=
  emit_lines false
    [label +:+ ": " +:+ txid_to_string (result_txid r);
     "Inputs: " +:+ pretty (N.of_nat (result_input_count r));
     "Sent: " +:+ sats (result_sent_sats r);
     "Fee: " +:+ sats (result_fee_sats r) +:+ " (1 sat/vB)"].
End texts.
