(* ===== verification/CliCommands.v ===== *)
(** The commands of the command line ([main.rs]), each composed of the
    operations of the phone, the hardware wallet and the friends, and [main]
    with its check of the vault's network. *)

From S2P Require Import Prelude Bitcoin Types Keys Policy Transactions FileSystem Storage Crypto Social Ceremony CeremonyValidate Recovery ColdWallet HotWallet Phone Vanity Rotation Chain Cli.

Section commands.
Context `{BitcoinLib, !KeyLib, !BdkLib, !DbFiles, !TxidText, !TweakedLib, !CryptoLib, !PgpLib,
          !Json VaultConfig, !Json DeviceFile, !Json PublicDeviceFile, !Json BatchManifest,
          !Json Schedule, !Json PolicyPackage, !JsonVec PolicyPackage, !Json ApprovedPolicyInput,
          !Json EncryptedTransaction, !Json EncryptedEmergencyTransaction,
          !Json EncryptedBlob, !Json Transaction, !Json bool, !Json CloudRecoveryBackup}.
Context `{!Json RecoveryPayload, !JsonVec RecoveryPayload, !JsonVec (list FriendKeyWrapper),
          !Json PhoneRecoveryPackage, !Json CooperativeSweepPackage, !Json PhoneRotationPackage}.
Context {B : Type} `{!Blockchain B, !Connector B, !Chrono}.
(** The clock, and what the vanity search is given. *)
Context (clock : Z) (search : Search) (available_parallelism : nat).
#[local] Abbreviation C := (M (CliWorld B)).

(** * The chain backend *)

Definition selected_backend (args : ChainArgs) (network : Network) : result ChainBackendKind :=
  match chain_backend args with
  | Some kind => Ok kind
  | None =>
      match network with
      | Regtest => Ok Rpc
      | Bitcoin => Ok Electrum
      | _ => Err "unsupported vault network"
      end
  end.

Definition connect_core (args : ChainArgs) (network : Network) : M B unit :=
  default_url ← pure match network with
                     | Regtest => Ok "http://127.0.0.1:18443"
                     | Bitcoin => Ok "http://127.0.0.1:8332"
                     | _ => Err "unsupported Bitcoin Core network"
                     end;
  bitcoin_core_connect {| url := default default_url (rpc_url args);
                          user := rpc_user args; password := rpc_password args |} network.

Definition connect_electrum (args : ChainArgs) (network : Network) : M B unit :=
  match electrum_url args with
  | Some server => electrum_connect network [server]
  | None => electrum_connect_default network
  end.

Definition connect_chain (args : ChainArgs) (data_dir : Path) : C unit :=
  config ← reading (λ f, load_config f data_dir);
  network ← pure (bitcoin_network config);
  kind ← pure (selected_backend args network);
  match (kind : ChainBackendKind) with
  | Rpc => on_chain (connect_core args network)
  | Electrum => on_chain (connect_electrum args network)
  end.
Definition connect_hot (args : ChainArgs) (data_dir : Path) : C unit := connect_chain args data_dir.

Definition configured_address (data_dir : Path) (text : string) : C Address :=
  config ← reading (λ f, load_config f data_dir);
  unchecked ← pure (or_err (address_from_str text) "invalid address");
  network ← pure (bitcoin_network config);
  pure (or_err (require_network unchecked network) "address is not of the vault's network").

(** [for ... in l { println!(...) }] of optional lines. *)
Definition print_lines (l : list string) : C unit := emit_lines false l.

(** Checking the transaction id a backend returns. *)
Definition broadcast_checked (transaction : Transaction) (expected : Txid) (msg : string) : C Txid :=
  id ← on_chain (broadcast transaction);
  _ ← pure (bail_if (negb (bool_decide (id = expected))) msg);
  mret id.

(** * Vault and status *)

Definition recovery_lines (config : VaultConfig) : list string :=
  ["Phone recovery: " +:+ format_number (phone_recovery_blocks config) +:+ " blocks (~14 months)";
   "HWW recovery:   " +:+ format_number (hww_recovery_blocks config) +:+ " blocks (~15 months)"].

Definition cli_initialize_vault (data_dir : Path) (network : Network) : C unit :=
  config ← on_files (initialize_vault_for_network data_dir network);
  backup ← on_device (create_cloud_recovery_backup data_dir config);
  print_lines (
    ["Vault initialized (" +:+ network_label network +:+ ")"] ++
    when (bool_decide (network = Bitcoin))
      ["DANGER: mainnet mode uses real bitcoin and fixed 1 sat/vB MVP fees"] ++
    ["Cold storage descriptor: " +:+ vault_descriptor config;
     "Vault address: " +:+ vault_address config] ++
    recovery_lines config ++
    ["Monthly spending: disabled"; "Emergency access: disabled";
     "Cloud recovery backup: phone key + descriptor encrypted; "
       +:+ pretty (N.of_nat (length (friends backup))) +:+ " recovery friends"]).

Definition policy_lines (config : VaultConfig) (schedule : result Schedule) : list string :=
  (if (config_monthly_limit_sats config =? 0)%N then ["Monthly spending: disabled"]
   else ["Monthly limit: " +:+ sats (config_monthly_limit_sats config)] ++
        match schedule with
        | Ok s => ["Presigned allowance authorizations: "
                     +:+ pretty (N.of_nat (length (schedule_entries s)));
                   "Allowance hop delay: " +:+ pretty (schedule_monthly_delay_seconds s)
                     +:+ " seconds (~30 days)"]
        | _ => []
        end) ++
  (if (config_emergency_access_limit_sats config =? 0)%N then ["Emergency access: disabled"]
   else ["Emergency access limit: " +:+ sats (config_emergency_access_limit_sats config);
         "Emergency access delay: " +:+ pretty EMERGENCY_ACCESS_DELAY_SECONDS
           +:+ " seconds (~1 week)"]).

Definition print_active_policy (data_dir : Path) : C unit :=
  config ← reading (λ f, load_config f data_dir);
  phone ← pure (or_err (key_from_str (phone_vault_pubkey config)) "malformed public key");
  hww ← pure (or_err (key_from_str (hww_vault_pubkey config)) "malformed public key");
  network ← pure (bitcoin_network config);
  controller ← pure (controller_new_for_network phone hww network);
  schedule ← (λ w, (Ok (load_schedule (w_fs (rw_world (cli_world w))) data_dir), w));
  print_lines (
    ["Cold storage descriptor: " +:+ vault_descriptor config;
     "Vault address: " +:+ vault_address config;
     "Policy controller address: " +:+ address_to_string (controller_address_of controller);
     "Policy controller reserve: " +:+ sats CONNECTOR_VALUE_SATS +:+ " per active chain"] ++
    recovery_lines config ++ policy_lines config schedule).

Definition disabled_or_sats (n : N) : string := if (n =? 0)%N then "disabled" else sats n.

Definition recovery_activation_text (label : string) (valid_height next_height median_time : N)
    : string :=
  if (valid_height <=? next_height)%N
  then label +:+ " recovery: ACTIVE (valid next-block height " +:+ pretty valid_height +:+ ")"
  else
    let remaining := (valid_height - next_height)%N in
    let estimated_timestamp :=
      saturating_add median_time (N.min (remaining * 600) U64_MAX) in
    let estimated :=
      if (Z.of_N estimated_timestamp <=? 9223372036854775807)%Z
      then match from_timestamp (Z.of_N estimated_timestamp) with
           | Some date => format_utc date
           | None => "outside displayable range"
           end
      else "outside displayable range" in
    label +:+ " recovery: valid next-block height " +:+ pretty valid_height +:+ " ("
      +:+ pretty remaining +:+ " blocks remaining; estimated " +:+ estimated
      +:+ " at 10-minute blocks)".

Definition print_recovery_activation (label : string) (height blocks : N) (tip : ChainTip) : C unit :=
  valid_height ← pure (add_u64 height blocks);
  next_height ← pure (add_u64 (tip_height tip) 1);
  println (recovery_activation_text label valid_height next_height (tip_median_time tip)).

Definition print_status (args : ChainArgs) (data_dir : Path) : C unit :=
  config ← reading (λ f, load_config f data_dir);
  _ ← connect_chain args data_dir;
  tip ← on_chain chain_tip;
  utxos ← on_chain (scan_vault config);
  connectors ← on_chain (scan_connectors config);
  balance ← pure (try_fold (λ sum u, add_u64 sum (value (utxo_txout u))) 0%N utxos);
  description ← (λ w, (Ok (backend_description (w_chain (rw_world (cli_world w)))), w));
  _ ← print_lines (
    ["Network: " +:+ config_network config] ++
    when (bool_decide (tip_network tip = Bitcoin)) ["Chain backend: " +:+ description] ++
    ["Height: " +:+ pretty (tip_height tip);
     "Median time past: " +:+ pretty (tip_median_time tip);
     "Vault UTXOs: " +:+ pretty (N.of_nat (length utxos));
     "Vault balance: " +:+ sats balance;
     "Live policy controller outputs: " +:+ pretty (N.of_nat (length connectors));
     "Monthly spending: " +:+ disabled_or_sats (config_monthly_limit_sats config);
     "Emergency access: " +:+ disabled_or_sats (config_emergency_access_limit_sats config)]);
  match head utxos with
  | Some oldest =>
      let height := confirmation_height oldest in
      _ ← println ("Oldest confirmation height: " +:+ pretty height);
      _ ← print_recovery_activation "Phone" height (phone_recovery_blocks config) tip;
      print_recovery_activation "HWW" height (hww_recovery_blocks config) tip
  | None => mret tt
  end.

(** * The phone *)

Definition initialized_line (device : string) (network : Network) : string :=
  "Simulated " +:+ device +:+ " initialized (" +:+ network_label network +:+ ")".

Definition phone_init (data_dir : Path) (network : Network) (vanity : bool) : C unit :=
  if vanity then
    target ← pure (vanity_address_prefix network);
    _ ← eprintln ("Grinding phone vault keys across all available CPU threads for "
                    +:+ target +:+ "...");
    result ← on_phone (initialize_vanity search available_parallelism data_dir network);
    let device := vanity_device result in
    print_lines
      [initialized_line "phone" network;
       "Phone mnemonic: " +:+ initialized_mnemonic device;
       "Phone vault key: " +:+ initialized_vault_pubkey device;
       "Phone vault key index: " +:+ pretty (initialized_vault_key_index device);
       "Vanity vault address: " +:+ vanity_vault_address result;
       "Vanity search: " +:+ format_number (vanity_attempts result) +:+ " candidates across "
         +:+ pretty (N.of_nat (vanity_worker_count result)) +:+ " threads"]
  else
    phone ← on_phone (phone_initialize data_dir network);
    print_lines
      [initialized_line "phone" network;
       "Phone mnemonic: " +:+ initialized_mnemonic phone;
       "Phone vault key: " +:+ initialized_vault_pubkey phone].

Definition receive_address (args : ChainArgs) (data_dir : Path) : C unit :=
  hot ← on_phone (open_hot data_dir);
  _ ← connect_hot args data_dir;
  synced ← on_phone (at_hot_chain hot sync_hot_wallet);
  address ← on_phone (at_hot synced.2 hot_next_receive_address);
  println ("Hot receive address: " +:+ address_to_string address.1).

Definition phone_send (args : ChainArgs) (data_dir : Path) (address : string) (amount_sats : N)
    : C unit :=
  address ← configured_address data_dir address;
  _ ← connect_hot args data_dir;
  hot ← on_phone (open_hot data_dir);
  synced ← on_phone (at_hot_chain hot sync_hot_wallet);
  built ← on_phone (at_hot synced.2 (build_payment (address_script_pubkey address) amount_sats));
  let '(transaction, fee_sats) := (built.1 : Transaction * N) in
  id ← on_chain (broadcast transaction);
  print_lines
    ["Hot-wallet payment broadcast: " +:+ txid_to_string id;
     "Destination: " +:+ address_to_string address;
     "Amount: " +:+ sats amount_sats;
     "Fee: " +:+ sats fee_sats +:+ " (1 sat/vB)"].

Definition proposal_dir (data_dir : Path) : Path := join data_dir "phone/policy-proposal".

Definition phone_set_policy (args : ChainArgs) (data_dir : Path)
    (monthly_limit emergency_access_limit : N) (now : option Z) (output : string) : C unit :=
  _ ← connect_hot args data_dir;
  network ← (λ w, (Ok (backend_network (w_chain (rw_world (cli_world w)))), w));
  _ ← pure (bail_if (bool_decide (is_Some now) && negb (bool_decide (network = Regtest)))
              "--now is available only for deterministic regtest tests");
  now ← pure (or_err (from_timestamp (default clock now)) "invalid policy timestamp");
  let workspace := proposal_dir data_dir in
  _ ← on_files (reset_workspace workspace);
  manifest ← on_phone (propose_policy data_dir now monthly_limit emergency_access_limit workspace);
  package ← reading (λ f, package_from_batch f workspace);
  _ ← print_manifest manifest (artifact_reports_to_stderr output);
  _ ← write_artifact output package;
  report_artifact output "Phone-signed policy proposal".

Definition activation_dir (data_dir : Path) : Path := join data_dir "phone/policy-activation".

Definition phone_activate_policy (args : ChainArgs) (data_dir : Path) (approved : string) : C unit :=
  input ← read_artifact approved;
  package ← reading (λ f, open_approved_policy f data_dir input);
  let m := package_manifest package in
  _ ← pure (bail_if (negb (phone_approved m) || negb (hww_approved m))
              "policy package requires both phone and HWW approval");
  let workspace := activation_dir data_dir in
  _ ← on_files (reset_workspace workspace);
  _ ← on_files (materialize_policy_package package workspace);
  _ ← connect_hot args data_dir;
  schedule ← on_phone (activate_policy data_dir workspace);
  print_lines (
    ["Rollover broadcast: " +:+ schedule_rollover_txid schedule;
     "Active monthly limit: " +:+ sats (schedule_monthly_limit_sats schedule);
     "Encrypted allowance authorizations: " +:+ pretty (N.of_nat (length (schedule_entries schedule)))] ++
    match schedule_emergency_access schedule with
    | Some e => ["Active emergency access: " +:+ sats (es_amount_sats e);
                 "Encrypted emergency transaction set: trigger, withdrawal"]
    | None => ["Emergency access: disabled"]
    end).

Definition cli_broadcast_monthly (args : ChainArgs) (data_dir : Path) (step : N)
    (kind : TransactionKind) : C unit :=
  _ ← connect_hot args data_dir;
  id ← on_phone (broadcast_monthly data_dir step kind);
  let action := match kind with Authorization => "Authorization" | Revocation => "Revocation" end in
  println ("Broadcast " +:+ action +:+ " for allowance step " +:+ pretty step +:+ ": "
             +:+ txid_to_string id).

Definition cli_apply_soft_limit (args : ChainArgs) (data_dir : Path) (step limit : N) : C unit :=
  _ ← connect_hot args data_dir;
  id ← on_phone (apply_soft_limit data_dir step limit);
  println match id with
          | Some id => "Soft limit applied for allowance step " +:+ pretty step
                         +:+ ": retained at most " +:+ sats limit +:+ " hot; cold-return txid="
                         +:+ txid_to_string id
          | None => "Soft limit equals the monthly limit for allowance step " +:+ pretty step
                      +:+ "; no cold-return transaction required"
          end.

Definition run_emergency (args : ChainArgs) (data_dir : Path) (command : EmergencyCommand) : C unit :=
  _ ← connect_hot args data_dir;
  match command with
  | EmergencyInitiate =>
      id ← on_phone (initiate_emergency_access data_dir);
      _ ← println ("Emergency access initiated: " +:+ txid_to_string id);
      schedule ← reading (λ f, load_schedule f data_dir);
      emergency ← pure (or_err (schedule_emergency_access schedule)
                          "active schedule omitted emergency access metadata");
      print_lines ["Amount after delay: " +:+ sats (es_amount_sats emergency);
                   "Cancellation window: " +:+ pretty (es_delay_seconds emergency) +:+ " seconds"]
  | EmergencyWithdraw =>
      id ← on_phone (withdraw_emergency_access data_dir);
      println ("Emergency access withdrawal broadcast: " +:+ txid_to_string id)
  | EmergencyCancel =>
      id ← on_phone (cancel_emergency_access data_dir);
      println ("Emergency access cancelled: " +:+ txid_to_string id)
  end.

(** The on-chain recovery of either device. *)
Definition run_recover (args : ChainArgs) (data_dir : Path) (destination msg label : string)
    (sweep : FS → VaultConfig → list VaultUtxo → N → Address → result (Transaction * SweepResult))
    : C unit :=
  destination ← configured_address data_dir destination;
  config ← reading (λ f, load_config f data_dir);
  _ ← connect_chain args data_dir;
  tip ← on_chain chain_tip;
  utxos ← on_chain (scan_vault config);
  built ← reading (λ f, sweep f config utxos (tip_height tip) destination);
  let '(transaction, result) := (built : Transaction * SweepResult) in
  _ ← broadcast_checked transaction (result_txid result) msg;
  print_sweep_result label result.

Definition phone_create_sweep (args : ChainArgs) (data_dir : Path) (destination output : string)
    : C unit :=
  address ← configured_address data_dir destination;
  _ ← connect_hot args data_dir;
  package ← on_phone (phone_create_cooperative_sweep data_dir address);
  _ ← report_sweep package (artifact_reports_to_stderr output);
  _ ← write_artifact output package;
  report_artifact output "Phone-signed cooperative sweep".

Definition rotate_key (args : ChainArgs) (data_dir : Path) (network : Network) (vanity : bool)
    (output : string) : C unit :=
  _ ← connect_hot args data_dir;
  package ← (
    if vanity then
      target ← pure (vanity_address_prefix network);
      _ ← eprintln ("Preparing a vanity phone-key rotation for " +:+ target
                      +:+ "; this may take a while...");
      result ← on_phone (create_vanity_phone_rotation search available_parallelism clock data_dir);
      let address := new_vault_address (vanity_package result) in
      _ ← emit_lines true (
            if resumed result
            then ["Reused the matching pending vanity key for " +:+ address]
            else ["Vanity search: " +:+ format_number (rotation_attempts result)
                    +:+ " candidates across "
                    +:+ pretty (N.of_nat (rotation_worker_count result)) +:+ " threads";
                  "Vanity vault address: " +:+ address]);
      mret (vanity_package result)
    else on_phone (create_phone_rotation clock data_dir));
  _ ← report_rotation package (artifact_reports_to_stderr output);
  _ ← write_artifact output package;
  report_artifact output "Phone-key rotation proposal".

Definition activate_rotation (args : ChainArgs) (data_dir : Path) (approved : string) : C unit :=
  package ← read_artifact approved;
  _ ← connect_hot args data_dir;
  result ← on_rotation (activate_phone_rotation data_dir package);
  print_lines (
    ["Emergency phone-key rotation broadcast: "
       +:+ txid_to_string (result_txid (rotation_result_sweep result))] ++
    match controller_revocation_txid result with
    | Some id => ["Old policy controllers revoked: " +:+ txid_to_string id]
    | None => []
    end ++
    match hot_wallet_sweep_txid result with
    | Some id => ["Old hot-wallet funds swept to replacement phone: " +:+ txid_to_string id]
    | None => []
    end ++
    ["Previous and replacement recovery keys retained in the rotation archive";
     "Old vault address: " +:+ rotation_old_address result;
     "New vault address: " +:+ rotation_new_address result;
     "New phone mnemonic: " +:+ new_phone_mnemonic result] ++
    match renewed_schedule result with
    | Some s =>
        ["Monthly policy preserved: " +:+ sats (schedule_monthly_limit_sats s);
         "Policy rollover broadcast: " +:+ schedule_rollover_txid s;
         "Encrypted allowance authorizations: " +:+ pretty (N.of_nat (length (schedule_entries s)))] ++
        match schedule_emergency_access s with
        | Some e => ["Emergency access preserved: " +:+ sats (es_amount_sats e)]
        | None => []
        end
    | None => ["Programmable vault policy remains disabled"]
    end).

Definition run_phone (command : PhoneCommand) (data_dir : Path) (args : ChainArgs)
    (network : Network) : C unit :=
  match command with
  | PhoneInit vanity => phone_init data_dir network vanity
  | ReceiveAddress => receive_address args data_dir
  | Send address amount_sats => phone_send args data_dir address amount_sats
  | SetPolicy monthly_limit emergency_access_limit output now =>
      phone_set_policy args data_dir monthly_limit emergency_access_limit now output
  | ActivatePolicy approved => phone_activate_policy args data_dir approved
  | Authorize step => cli_broadcast_monthly args data_dir step Authorization
  | ApplySoftLimit step limit => cli_apply_soft_limit args data_dir step limit
  | Revoke step => cli_broadcast_monthly args data_dir step Revocation
  | Emergency command => run_emergency args data_dir command
  | RestorePhone recovery =>
      package ← read_artifact recovery;
      words ← on_phone (restore_phone data_dir package);
      print_lines ["Phone key restored from authenticated recovery package";
                   "Recovered phone mnemonic: " +:+ words]
  | PhoneRecover destination =>
      run_recover args data_dir destination
        "chain backend returned an unexpected phone recovery transaction ID"
        "Phone recovery sweep broadcast" (λ f, Phone.recover f data_dir)
  | CreateSweep destination output => phone_create_sweep args data_dir destination output
  | BroadcastSweep approved =>
      package ← read_artifact approved;
      _ ← connect_hot args data_dir;
      result ← on_phone (broadcast_cooperative_sweep data_dir package);
      print_sweep_result "Cooperative vault sweep broadcast" result
  | RotateKey vanity output => rotate_key args data_dir network vanity output
  | ActivateRotation approved => activate_rotation args data_dir approved
  end.

(** * The hardware wallet *)

Definition hww_init (data_dir : Path) (network : Network) : C unit :=
  hww ← on_device (ColdWallet.initialize data_dir network);
  print_lines
    [initialized_line "HWW" network;
     "HWW mnemonic: " +:+ initialized_mnemonic hww;
     "HWW vault key: " +:+ initialized_vault_pubkey hww;
     "HWW ready to wrap the descriptor-bound cloud backup at anzen init"].

Definition review_dir (data_dir : Path) : Path := join data_dir "hww/policy-review".

Definition hww_confirm_policy (data_dir : Path) (proposal output : string) (yes : bool) : C unit :=
  package ← read_artifact (A:=PolicyPackage) proposal;
  _ ← eprintln "SIMULATED HWW — ONE HIGH-LEVEL POLICY APPROVAL";
  _ ← print_manifest (package_manifest package) true;
  _ ← require_hww_approval yes proposal "complete vault policy";
  let workspace := review_dir data_dir in
  _ ← on_files (reset_workspace workspace);
  _ ← on_files (materialize_policy_package package workspace);
  manifest ← on_files (approve_policy data_dir workspace);
  _ ← eprintln ("HWW validated and signed all "
                  +:+ pretty (N.of_nat (length (manifest_transactions manifest)))
                  +:+ " PSBTs after one approval");
  approved ← reading (λ f, package_from_batch f workspace);
  _ ← write_artifact output approved;
  report_artifact output "HWW-approved policy".

Definition hww_decrypt_backup (data_dir : Path) (backup output : string) : C unit :=
  package ← on_device (decrypt_phone_backup_package data_dir (components backup));
  _ ← write_artifact output package;
  report_artifact output "Decrypted phone recovery package".

Definition hww_add_friend (data_dir : Path) (public_key : string) (yes : bool) : C unit :=
  key ← reading (λ f, with_context (read f (components public_key)) "failed to read friend public key");
  proposed_fingerprint ← pure (friend_fingerprint (bytes_of key));
  _ ← emit_lines true
    ["SIMULATED HWW — ADD RECOVERY FRIEND";
     "OpenPGP fingerprint: " +:+ proposed_fingerprint;
     "This friend gains the phone key and descriptor if they obtain the cloud backup";
     "The 61,200-block phone recovery delay still applies to vault funds"];
  _ ← require_hww_approval yes public_key "recovery friend";
  fingerprint ← on_device (add_recovery_friend data_dir (bytes_of key));
  print_lines ["Recovery friend added: " +:+ fingerprint;
               "Cloud backup now grants this friend delayed phone recovery access"].

Definition hww_revoke_policy (args : ChainArgs) (data_dir : Path) (destination : string) (yes : bool)
    : C unit :=
  destination ← configured_address data_dir destination;
  config ← reading (λ f, load_config f data_dir);
  _ ← connect_chain args data_dir;
  connectors ← on_chain (scan_connectors config);
  _ ← pure (bail_if (bool_decide (connectors = []))
              "no live policy controller outputs are available to revoke");
  _ ← emit_lines true
    ["SIMULATED HWW — REVOKE ACTIVE VAULT POLICY";
     "Controller outputs: " +:+ pretty (N.of_nat (length connectors));
     "Change destination: " +:+ address_to_string destination;
     "All policy transactions committed to these states will be invalidated"];
  _ ← require_hww_approval yes "controller-revocation" "policy revocation";
  transaction ← reading (λ f, revoke_policy f data_dir config connectors destination);
  id ← broadcast_checked transaction (compute_txid transaction)
    "chain backend returned an unexpected policy revocation transaction ID";
  print_lines ["HWW policy revocation broadcast: " +:+ txid_to_string id;
               "Revoked controller outputs: " +:+ pretty (N.of_nat (length connectors))].

Definition print_hww_sweep_prompt (package : CooperativeSweepPackage) (yes : bool)
    (proposal : string) : C unit :=
  _ ← report_sweep package true;
  require_hww_approval yes proposal "cooperative sweep".

Definition hww_confirm_sweep (data_dir : Path) (proposal output : string) (yes : bool) : C unit :=
  package ← read_artifact proposal;
  _ ← print_hww_sweep_prompt package yes proposal;
  approved ← reading (λ f, approve_cooperative_sweep f data_dir package);
  _ ← eprintln "HWW validated and signed the cooperative sweep";
  _ ← write_artifact output approved;
  report_artifact output "HWW-approved cooperative sweep".

Definition hww_confirm_rotation (data_dir : Path) (proposal output : string) (yes : bool) : C unit :=
  package ← read_artifact proposal;
  _ ← report_rotation package true;
  _ ← require_hww_approval yes proposal "phone-key rotation";
  approved ← on_device (approve_phone_rotation data_dir package);
  _ ← eprintln match renewed_policy approved with
               | Some policy =>
                   "HWW validated and signed the phone-key rotation plus "
                     +:+ pretty (N.of_nat (length (manifest_transactions (package_manifest policy))))
                     +:+ " renewed-policy PSBTs"
               | None => "HWW validated and signed the phone-key rotation"
               end;
  _ ← write_artifact output approved;
  report_artifact output "HWW-approved phone-key rotation".

Definition run_hww (command : HwwCommand) (data_dir : Path) (args : ChainArgs) (network : Network)
    : C unit :=
  match command with
  | HwwInit => hww_init data_dir network
  | ConfirmPolicy proposal output yes => hww_confirm_policy data_dir proposal output yes
  | DecryptPhoneBackup backup output => hww_decrypt_backup data_dir backup output
  | AddRecoveryFriend public_key yes => hww_add_friend data_dir public_key yes
  | HwwRecover destination =>
      run_recover args data_dir destination
        "chain backend returned an unexpected HWW recovery transaction ID"
        "HWW recovery sweep broadcast" (λ f, ColdWallet.recover f data_dir)
  | RevokePolicy destination yes => hww_revoke_policy args data_dir destination yes
  | ConfirmSweep proposal output yes => hww_confirm_sweep data_dir proposal output yes
  | ConfirmRotation proposal output yes => hww_confirm_rotation data_dir proposal output yes
  end.

(** * Friends *)

Definition friend_recovery_package (data_dir : Path) (backup_path private_key_path : string)
    : C PhoneRecoveryPackage :=
  config ← reading (λ f, load_config f data_dir);
  backup ← reading (λ f, read_json (A:=CloudRecoveryBackup) f (components backup_path));
  private_key ← reading (λ f, with_context (read f (components private_key_path))
                                "failed to read friend private key");
  payload ← pure (decrypt_with_friend backup (bytes_of private_key));
  _ ← pure (validate_against payload config);
  mret {| recovery_version := 2; recovery_kind := "phone-recovery";
          recovery_phone_mnemonic := payload_phone_mnemonic payload;
          recovery_phone_vault_key_index := payload_phone_vault_key_index payload;
          recovery_phone_vault_pubkey := payload_phone_vault_pubkey payload;
          recovery_vault_descriptor := payload_vault_descriptor payload;
          recovery_vault_address := payload_vault_address payload |}.

Definition generate_friend (name public_key private_key : string) : C unit :=
  _ ← pure (bail_if (bool_decide (components public_key = components private_key))
              "friend public and private key paths must be different");
  generated ← on_phone (at_rng (generate_friend_key name));
  _ ← on_files (write_private (components public_key) (generated_public_key_armored generated));
  _ ← on_files (write_private (components private_key) (generated_private_key_armored generated));
  print_lines ["Recovery friend OpenPGP key generated: " +:+ generated_fingerprint generated;
               "Public key: " +:+ public_key;
               "Private key: " +:+ private_key +:+ " (give only to the recovery friend)"].

Definition friend_decrypt (data_dir : Path) (backup private_key output : string) : C unit :=
  package ← friend_recovery_package data_dir backup private_key;
  _ ← print_lines ["Social recovery decrypted and authenticated";
                   "Phone vault key: " +:+ recovery_phone_vault_pubkey package;
                   "Cold storage descriptor: " +:+ recovery_vault_descriptor package;
                   "Vault address: " +:+ recovery_vault_address package];
  _ ← write_artifact output package;
  report_artifact output "Friend-decrypted phone recovery package".

Definition friend_emergency_access (args : ChainArgs) (data_dir : Path)
    (backup private_key destination : string) : C unit :=
  package ← friend_recovery_package data_dir backup private_key;
  config ← reading (λ f, load_config f data_dir);
  destination ← configured_address data_dir destination;
  _ ← connect_chain args data_dir;
  tip ← on_chain chain_tip;
  utxos ← on_chain (scan_vault config);
  plan ← pure (prepare_sweep config utxos (tip_height tip) SweepPhoneRecovery destination);
  network ← pure (bitcoin_network config);
  phone ← pure (parse_for_network_at_index (recovery_phone_mnemonic package) network
                  (recovery_phone_vault_key_index package));
  signed ← pure (sign_recovery_sweep plan SweepPhoneRecovery phone);
  let '(transaction, result) := (signed : Transaction * SweepResult) in
  _ ← broadcast_checked transaction (result_txid result)
    "chain backend returned an unexpected emergency-access transaction ID";
  _ ← print_sweep_result "Social emergency-access sweep broadcast" result;
  println "On-chain phone recovery delay was enforced".

Definition run_social (command : SocialCommand) (data_dir : Path) (args : ChainArgs) : C unit :=
  match command with
  | GenerateFriendKey name public_key private_key => generate_friend name public_key private_key
  | DecryptBackup backup private_key output => friend_decrypt data_dir backup private_key output
  | EmergencyAccess backup private_key destination =>
      friend_emergency_access args data_dir backup private_key destination
  end.

(** * The node, and [main] *)

Definition run_node (command : NodeCommand) (args : ChainArgs) (network : Network) : C unit :=
  _ ← pure (bail_if (negb (bool_decide (network = Regtest)))
              "vault node commands are unavailable in mainnet mode");
  _ ← on_chain (connect_core args Regtest);
  match command with
  | Info =>
      info ← on_chain node_chain_info;
      print_lines ["Network: " +:+ network_text (info_chain info);
                   "Height: " +:+ pretty (info_blocks info);
                   "Median time past: " +:+ pretty (info_median_time info);
                   "Best block: " +:+ info_best_block_hash info]
  | SetTime timestamp =>
      _ ← on_chain (node_set_mock_time timestamp);
      println ("Regtest mock time set to " +:+ pretty timestamp)
  | Mine blocks address =>
      unchecked ← pure (or_err (address_from_str address) "invalid address");
      address ← pure (or_err (require_network unchecked Regtest) "address is not of regtest");
      hashes ← on_chain (node_mine blocks address);
      print_lines (["Mined " +:+ pretty (N.of_nat (length hashes)) +:+ " blocks"] ++
                   match last hashes with
                   | Some tip => ["New tip: " +:+ tip]
                   | None => []
                   end)
  end.

(** The network of the vault or of the devices that exist. *)
Definition configured_network (f : FS) (data_dir : Path) : result (option Network) :=
  if config_exists f data_dir then
    config ← load_config f data_dir;
    n ← bitcoin_network config;
    mret (Some n)
  else if exists_ f (join data_dir PHONE_DEVICE_FILE) then
    device ← load_device f data_dir PHONE_DEVICE_FILE;
    n ← device_bitcoin_network device;
    mret (Some n)
  else if exists_ f (join data_dir HWW_DEVICE_FILE) then
    device ← load_device f data_dir HWW_DEVICE_FILE;
    n ← device_bitcoin_network device;
    mret (Some n)
  else mret None.

Definition command_network (f : FS) (data_dir : Path) (dangerously_enable_mainnet : bool)
    : result Network :=
  configured ← configured_network f data_dir;
  match configured, dangerously_enable_mainnet with
  | Some Bitcoin, false =>
      Err "mainnet vault is locked; pass --dangerously-enable-mainnet on every command"
  | Some Bitcoin, true => Ok Bitcoin
  | Some Regtest, true => Err "vault is configured for regtest"
  | Some Regtest, false => Ok Regtest
  | Some _, _ => Err "unsupported vault network"
  | None, true => Ok Bitcoin
  | None, false => Ok Regtest
  end.

Definition main (cli : Cli) : C unit :=
  let data_dir := cli_data_dir cli in
  network ← reading (λ f, command_network f data_dir (dangerously_enable_mainnet cli));
  match cli_command cli with
  | CommandInit => cli_initialize_vault data_dir network
  | CommandPolicy => print_active_policy data_dir
  | CommandStatus => print_status (cli_chain cli) data_dir
  | CommandPhone command => run_phone command data_dir (cli_chain cli) network
  | CommandHww command => run_hww command data_dir (cli_chain cli) network
  | CommandSocial command => run_social command data_dir (cli_chain cli)
  | CommandNode command => run_node command (cli_chain cli) network
  end.
End commands.
