(* ===== verification/CliSafety.v ===== *)
(** What the hardware wallet's commands do without the user's approval: they
    refuse, and have done nothing but read, print the review and ask. *)

From S2P Require Import Prelude Bitcoin Types Keys Policy Transactions FileSystem Storage Crypto Social Ceremony CeremonyValidate Recovery ColdWallet HotWallet Phone Vanity Rotation Chain Cli CliCommands.

Section terminal.
Context `{BdkLib, !DbFiles, !CryptoLib} {B : Type}.
#[local] Abbreviation C := (M (CliWorld B)).

(** The prompt is all that a command may have printed to standard output. *)
Definition is_prompt (l : Line) : Prop :=
  match l with
  | Out text => ∃ description, text = "Type `approve` to confirm the " +:+ description +:+ ": "
  | ErrOut _ => True
  end.

(** Only the terminal has changed, and no result was printed. *)
Definition harmless (w w' : CliWorld B) : Prop :=
  cli_world w' = cli_world w ∧
  ∃ lines, printed w' = printed w ++ lines ∧ Forall is_prompt lines.

#[export] Instance harmless_preorder : PreOrder harmless.
Proof.
  split.
  - intros w. split; [done|]. exists []. by rewrite app_nil_r.
  - intros w1 w2 w3 [Hw1 (l1 & Hl1 & Hp1)] [Hw2 (l2 & Hl2 & Hp2)]. split; [congruence|].
    exists (l1 ++ l2). split; [by rewrite Hl2, Hl1, app_assoc|by apply Forall_app].
Qed.

(** A step that only reads or talks to the user, and leaves his input. *)
Definition talks {A} (m : C A) : Prop :=
  ∀ w, harmless w (m w).2 ∧ stdin (m w).2 = stdin w.

Lemma talks_ret {A} (a : A) : talks (mret a : C A).
Proof. done. Qed.
Lemma talks_pure {A} (r : result A) : talks (pure r : C A).
Proof. done. Qed.
Lemma talks_reading {A} (g : FS → result A) : talks (reading g : C A).
Proof.
  intros w. unfold reading, on_phone, on_rotation, on_world, with_fs.
  destruct w as [[[f r d c] a] i p]. simpl. split; [|done].
  split; [done|]. exists []. by rewrite app_nil_r.
Qed.
Lemma talks_eprintln text : talks (eprintln text : C unit).
Proof.
  intros w. split; [|done]. split; [done|]. exists [ErrOut text]. split; [done|by constructor].
Qed.
Lemma talks_bind {A R} (m : C A) (f : A → C R) :
  talks m → (∀ a, talks (f a)) → talks (a ← m; f a).
Proof.
  intros Hm Hf w. unfold mbind, M_bind. destruct (Hm w) as [Hw1 Hw2].
  destruct (m w) as [[a|e|] w1]; [|done..]. destruct (Hf a w1) as [Hw3 Hw4].
  cbn in *; split; [by etrans|by rewrite Hw4].
Qed.
Lemma talks_emit_lines texts : talks (emit_lines true texts : C unit).
Proof.
  induction texts as [|t texts IH]; [apply talks_ret|].
  apply talks_bind; [apply talks_eprintln|done].
Qed.
Lemma talks_read_artifact {A} `{!Json A} path : is_dash path = false →
  talks (read_artifact path : C A).
Proof. intros Hp. unfold read_artifact. rewrite Hp. apply talks_reading. Qed.

(** The first line of the user's input approves. *)
Definition approves (input : string) : bool :=
  bool_decide (trim (split_line input).1 = "approve").

(** A refusal: an error, and nothing done. *)
Definition refused {A} (w : CliWorld B) (o : result A * CliWorld B) : Prop :=
  (∀ a, o.1 ≠ Ok a) ∧ harmless w o.2.

Lemma approval_refused input description w :
  is_dash input = true ∨ approves (stdin w) = false →
  refused w (require_hww_approval false input description w).
Proof.
  intros Ha. unfold require_hww_approval, pure, mbind, M_bind, bail_if.
  destruct (is_dash input); [done|]. destruct Ha as [|Ha]; [done|].
  unfold println, emit, read_line. cbn [stdin fst snd]. unfold approves in Ha.
  destruct (split_line (stdin w)) as [line rest]. cbn [fst] in Ha.
  assert (harmless w (Build_CliWorld (cli_world w) rest
    (printed w ++ [Out ("Type `approve` to confirm the " +:+ description +:+ ": ")]))) as Hq.
  { split; [done|]. eexists. split; [done|]. constructor; [by exists description|constructor]. }
  unfold mbind, result_bind, bail_if. destruct (negb (utf8 _)); [done|]. simpl.
  rewrite Ha. split; [done|exact Hq].
Qed.

Lemma refused_after {A R} (m : C A) (f : A → C R) w :
  talks m → (∀ a w', harmless w w' → stdin w' = stdin w → refused w' (f a w')) →
  refused w ((a ← m; f a) w).
Proof.
  intros Hm Hf. unfold mbind, M_bind. destruct (Hm w) as [Hw1 Hw2].
  destruct (m w) as [[a|e|] w1]; [|done..].
  destruct (Hf a w1 Hw1 Hw2) as [Hr Hh]. split; [exact Hr|by etrans].
Qed.

Lemma refused_bind {A R} (m : C A) (f : A → C R) w :
  refused w (m w) → refused w ((a ← m; f a) w).
Proof.
  intros [Hr Hh]. unfold mbind, M_bind. destruct (m w) as [[a|e|] w1]; [|done..].
  by destruct (Hr a).
Qed.

(** Two commands with the same beginning. *)
Lemma refused_both {A R S} (m : C A) (f : A → C S) (g : A → C R) w :
  (∀ a w', approves (stdin (f a w').2) = false → refused (f a w').2 (g a w')) →
  approves (stdin ((a ← m; f a) w).2) = false →
  refused ((a ← m; f a) w).2 ((a ← m; g a) w).
Proof.
  intros Hf. unfold mbind, M_bind. destruct (m w) as [[a|e|] w1]; [apply Hf|done..].
Qed.
Lemma refused_last {A R} (m : C A) (g : A → C R) w :
  (∀ a w', approves (stdin w') = false → refused w' (g a w')) →
  approves (stdin (m w).2) = false → refused (m w).2 ((a ← m; g a) w).
Proof.
  intros Hf. unfold mbind, M_bind. destruct (m w) as [[a|e|] w1]; [apply Hf|done..].
Qed.

(** An artifact on the terminal, or in a file and the input still there. *)
Lemma refused_artifact {A R} `{!Json A} path (f : A → C R) w :
  approves (stdin w) = false →
  (∀ a w', harmless w w' → is_dash path = true ∨ approves (stdin w') = false →
    refused w' (f a w')) →
  refused w ((a ← read_artifact path; f a) w).
Proof.
  intros Ha Hf. destruct (is_dash path) eqn:Hp.
  - unfold mbind, M_bind, read_artifact. rewrite Hp.
    pose (w1 := Build_CliWorld (cli_world w) EmptyString (printed w)).
    assert (harmless w w1) as Hh by (split; [done|exists []; by rewrite app_nil_r]).
    destruct (or_err _ _) as [a|e|]; [|done..].
    destruct (Hf a w1 Hh (or_introl eq_refl)) as [Hr Hh']. split; [exact Hr|by etrans].
  - apply refused_after; [by apply talks_read_artifact|].
    intros a w' Hh Hs. apply Hf; [done|]. right. by rewrite Hs.
Qed.
End terminal.

(** * Commands of the hardware wallet *)

Section hww.
Context `{BitcoinLib, !KeyLib, !BdkLib, !DbFiles, !TxidText, !TweakedLib, !CryptoLib, !PgpLib,
          !Json VaultConfig, !Json DeviceFile, !Json PublicDeviceFile, !Json BatchManifest,
          !Json Schedule, !Json PolicyPackage, !JsonVec PolicyPackage, !Json ApprovedPolicyInput,
          !Json EncryptedTransaction, !Json EncryptedEmergencyTransaction,
          !Json EncryptedBlob, !Json Transaction, !Json bool, !Json CloudRecoveryBackup}.
Context `{!Json RecoveryPayload, !JsonVec RecoveryPayload, !JsonVec (list FriendKeyWrapper),
          !Json PhoneRecoveryPackage, !Json CooperativeSweepPackage, !Json PhoneRotationPackage}.
Context {B : Type} `{!Blockchain B, !Connector B, !Chrono}.

(** The commands that make the device sign or share its backup, without
    [--yes]. *)
Definition asks (command : HwwCommand) : bool :=
  match command with
  | ConfirmPolicy _ _ yes | AddRecoveryFriend _ yes | RevokePolicy _ yes
  | ConfirmSweep _ _ yes | ConfirmRotation _ _ yes => negb yes
  | _ => false
  end.

(** What [hww revoke-policy] does before it asks: it reads the vault, connects
    to the network and scans it for controllers. *)
Definition revocation_scan (args : ChainArgs) (data_dir : Path) (destination : string) :
    M (CliWorld B) (list VaultUtxo) :=
  _ ← configured_address data_dir destination;
  config ← reading (λ f, load_config f data_dir);
  _ ← connect_chain args data_dir;
  on_chain (scan_connectors config).

(** The world in which a command asks for approval. *)
Definition asked_in (command : HwwCommand) (args : ChainArgs) (data_dir : Path)
    (w : CliWorld B) : CliWorld B :=
  match command with
  | RevokePolicy destination _ => (revocation_scan args data_dir destination w).2
  | _ => w
  end.

Lemma confirm_policy_refused data_dir proposal output (w : CliWorld B) :
  approves (stdin w) = false → refused w (hww_confirm_policy data_dir proposal output false w).
Proof.
  intros Ha. unfold hww_confirm_policy. apply refused_artifact; [done|]. intros p w1 _ Ha1.
  apply refused_after; [apply talks_eprintln|]. intros _ w2 _ Hs2.
  apply refused_after; [apply talks_emit_lines|]. intros _ w3 _ Hs3.
  apply refused_bind, approval_refused. by rewrite Hs3, Hs2.
Qed.

Lemma confirm_sweep_refused data_dir proposal output (w : CliWorld B) :
  approves (stdin w) = false → refused w (hww_confirm_sweep data_dir proposal output false w).
Proof.
  intros Ha. unfold hww_confirm_sweep. apply refused_artifact; [done|]. intros p w1 _ Ha1.
  apply refused_bind. unfold print_hww_sweep_prompt.
  apply refused_after; [apply talks_emit_lines|]. intros _ w3 _ Hs3.
  apply approval_refused. by rewrite Hs3.
Qed.

Lemma confirm_rotation_refused data_dir proposal output (w : CliWorld B) :
  approves (stdin w) = false → refused w (hww_confirm_rotation data_dir proposal output false w).
Proof.
  intros Ha. unfold hww_confirm_rotation. apply refused_artifact; [done|]. intros p w1 _ Ha1.
  apply refused_after; [apply talks_emit_lines|]. intros _ w3 _ Hs3.
  apply refused_bind, approval_refused. by rewrite Hs3.
Qed.

Lemma add_friend_refused data_dir public_key (w : CliWorld B) :
  approves (stdin w) = false → refused w (hww_add_friend data_dir public_key false w).
Proof.
  intros Ha. unfold hww_add_friend.
  apply refused_after; [apply talks_reading|]. intros key w1 _ Hs1.
  apply refused_after; [apply talks_pure|]. intros fp w2 _ Hs2.
  apply refused_after; [apply talks_emit_lines|]. intros _ w3 _ Hs3.
  apply refused_bind, approval_refused. right. by rewrite Hs3, Hs2, Hs1.
Qed.

Lemma revoke_policy_refused args data_dir destination (w : CliWorld B) :
  approves (stdin (revocation_scan args data_dir destination w).2) = false →
  refused (revocation_scan args data_dir destination w).2
    (hww_revoke_policy args data_dir destination false w).
Proof.
  unfold hww_revoke_policy, revocation_scan.
  apply refused_both. intros address w1. apply refused_both. intros config w2.
  apply refused_both. intros [] w3. apply refused_last. intros connectors w4 Ha.
  apply refused_after; [apply talks_pure|]. intros _ w5 _ Hs5.
  apply refused_after; [apply talks_emit_lines|]. intros _ w6 _ Hs6.
  apply refused_bind, approval_refused. right. by rewrite Hs6, Hs5.
Qed.

End hww.
