(* ===== verification/CliReview.v ===== *)
(** What the user approves is what the hardware wallet signs: the policy shown
    before the prompt, the one written to the workspace, the one that is
    validated and signed, and the one in the package that is handed out. *)

From stdpp Require Import sorting.
From S2P Require Import Prelude Bitcoin Types Keys Policy Transactions FileSystem Storage Crypto Social Ceremony CeremonyValidate CeremonySound CeremonyBuild Recovery ColdWallet ColdWalletFacts HotWallet Phone Vanity Rotation Preserve Chain Cli CliCommands CliSafety.

(** * The workspace *)

Section workspace.
Context `{BitcoinLib, !KeyLib, JsonLaws BatchManifest, !Json VaultConfig, !Json DeviceFile}.
Context (ws : Path).

Lemma reset_workspace_env f f' u : reset_workspace ws f = (Ok u, f') → same_env f f'.
Proof.
  unfold reset_workspace, get, mbind, M_bind. cbn. destruct (exists_ f ws).
  - unfold remove_dir_all. intros (? & ? & [= <- <-] & Hr)%M_bind_Ok.
    apply M_bind_Ok in Hr as ([] & ? & [_ ->]%pure_Ok & [= _ <-]). done.
  - by intros [_ ->]%mret_Ok.
Qed.

(** No packaged PSBT takes the place of the manifest. *)
Definition names_apart (f : FS) (p : PolicyPackage) : Prop :=
  ∀ name psbt : string, psbts p !! name = Some psbt →
    resolve f (join ws name) ≠ resolve f (join ws "manifest.json"%string).

Lemma entries_lookup (m : gmap string string) e : e ∈ entries m → m !! e.1 = Some e.2.
Proof.
  unfold entries. rewrite (merge_sort_Permutation key_le). destruct e.
  apply elem_of_map_to_list.
Qed.

Lemma materialized_manifest p f f' :
  no_read_fault f → names_apart f p →
  materialize_policy_package p ws f = (Ok tt, f') →
  same_env f f' ∧ load_manifest f' ws = Ok (package_manifest p).
Proof.
  intros Hn Hnames Hm. unfold materialize_policy_package in Hm.
  apply M_bind_Ok in Hm as ([] & ? & [_ ->]%pure_Ok & Hm).
  apply M_bind_Ok in Hm as ([] & ? & ->%empty_batch_dir_same & Hm). cbv zeta in Hm.
  apply M_bind_Ok in Hm as ([] & ? & [_ ->]%pure_Ok & Hm).
  apply M_bind_Ok in Hm as ([] & f1 & Hdir & Hm).
  apply M_bind_Ok in Hm as ([] & f2 & Hjson & Hall).
  destruct (pres_create_dir_all f [] "" ws f _ _ ltac:(done) Hdir) as [He1 _]. unfold id in He1.
  apply write_json_run in Hjson as (He2 & _ & _ & Hs).
  destruct (Hs eq_refl) as (s & Hjs & Hf2).
  pose proof (same_env_trans _ _ _ He1 He2) as He.
  rewrite (resolve_env _ _ _ He1) in Hf2.
  destruct (pres_for_each id f (resolve f (join ws "manifest.json")) s (write_package_psbt ws)
              (entries (psbts p))) with (w := f2) (r := Ok tt) (w' := f') as [He' Hk]; [|done..|].
  { apply Forall_forall. intros [name psbt] Hin%entries_lookup. cbn in Hin.
    unfold write_package_psbt. apply pres_bind; [apply pres_pure|]. intros _.
    apply pres_write_private. left. intros Heq. by eapply Hnames. }
  split; [exact He'|]. unfold load_manifest. eapply read_json_of; [by eapply same_env_faults|done|].
  rewrite (resolve_env _ _ _ He'). by apply Hk.
Qed.

Lemma approve_transactions_env m policy controller phone hww l f f' u :
  for_eachM (approve_transaction m ws policy controller phone hww) l f = (Ok u, f') →
  same_env f f'.
Proof.
  revert f. induction l as [|t l IH]; intros f Ha; simpl in Ha.
  { by apply mret_Ok in Ha as [_ ->]. }
  apply M_bind_Ok in Ha as ([] & f1 & Ht & Ha). unfold approve_transaction in Ht.
  apply M_bind_Ok in Ht as (? & ? & [= <- <-] & Ht).
  do 5 (apply M_bind_Ok in Ht as (? & ? & [_ ->]%pure_Ok & Ht)).
  apply M_bind_Ok in Ht as (q & ? & [_ ->]%pure_Ok & (He & _ & _)%write_psbt_run).
  eapply same_env_trans; [exact He|by eapply IH].
Qed.

Lemma approved_manifest d config f f' m :
  no_read_fault f → approve_policy_for_config d config ws f = (Ok m, f') →
  same_env f f' ∧ ∃ m0, load_manifest f ws = Ok m0 ∧ m = set_hww_approved m0 ∧
  load_manifest f' ws = Ok m.
Proof.
  intros Hn Ha. unfold approve_policy_for_config in Ha.
  apply M_bind_Ok in Ha as (? & ? & [= <- <-] & Ha).
  apply M_bind_Ok in Ha as (m0 & ? & [Hl ->]%pure_Ok & Ha).
  do 7 (apply M_bind_Ok in Ha as (? & ? & [_ ->]%pure_Ok & Ha)).
  apply M_bind_Ok in Ha as ([] & f1 & He1%approve_transactions_env & Ha). cbv zeta in Ha.
  apply M_bind_Ok in Ha as ([] & f2 & Hw & [<- ->]%mret_Ok).
  apply write_json_run in Hw as (He2 & _ & _ & Hs).
  destruct (Hs eq_refl) as (s & Hjs & Hf2).
  pose proof (same_env_trans _ _ _ He1 He2) as He. split; [done|].
  exists m0. split; [done|]. split; [done|]. unfold load_manifest.
  eapply read_json_of; [by eapply same_env_faults|done|].
  by rewrite (resolve_env _ _ _ He2).
Qed.

(** A package that is written to the workspace, approved there and packed
    again is the package of the same policy. *)
Lemma review_keeps_manifest d config p f f1 f2 f3 u m approved :
  no_read_fault f → names_apart f p →
  reset_workspace ws f = (Ok u, f1) →
  materialize_policy_package p ws f1 = (Ok tt, f2) →
  approve_policy_for_config d config ws f2 = (Ok m, f3) →
  package_from_batch f3 ws = Ok approved →
  same_env f f3 ∧ m = set_hww_approved (package_manifest p) ∧ package_manifest approved = m.
Proof.
  intros Hn Hnames He1%reset_workspace_env Hm Ha Hp.
  apply materialized_manifest in Hm as [He2 Hl]; [|by eapply same_env_faults|].
  2:{ intros name psbt Hin. rewrite !(resolve_env _ _ _ He1). by eapply Hnames. }
  pose proof (same_env_trans _ _ _ He1 He2) as He12.
  apply approved_manifest in Ha as (He3 & m0 & Hl' & -> & Hl3); [|by eapply same_env_faults].
  rewrite Hl in Hl'. injection Hl' as <-.
  split; [by eapply same_env_trans|]. split; [done|].
  unfold package_from_batch in Hp. rewrite Hl3 in Hp. cbn in Hp.
  by apply bind_Ok in Hp as (? & _ & [= <-]).
Qed.
End workspace.

(** * The command *)

Section steps.
Context `{BdkLib, !DbFiles, CryptoLib} {B : Type}.
#[local] Abbreviation C := (M (CliWorld B)).

Definition files (w : CliWorld B) : FS := w_fs (rw_world (cli_world w)).

Lemma emit_lines_run e texts (w : CliWorld B) :
  emit_lines e texts w =
    (Ok tt, Build_CliWorld (cli_world w) (stdin w)
              (printed w ++ ((λ t, if e then ErrOut t else Out t) <$> texts))).
Proof.
  revert w. induction texts as [|t texts IH]; intros w; cbn.
  - rewrite app_nil_r. by destruct w.
  - unfold emit, mbind, M_bind. rewrite IH. cbn. by rewrite <-app_assoc.
Qed.

Lemma on_files_Ok {A} (m : M FS A) (w w' : CliWorld B) a :
  on_files m w = (Ok a, w') →
  m (files w) = (Ok a, files w') ∧ stdin w' = stdin w ∧ printed w' = printed w.
Proof.
  unfold on_files, on_phone, on_rotation, on_world, at_fs, files.
  destruct w as [[[f r d c] v] i p]. cbn. destruct (m f) as [r' f']. by intros [= -> <-].
Qed.

Lemma reading_Ok {A} (g : FS → result A) (w w' : CliWorld B) a :
  reading g w = (Ok a, w') → g (files w) = Ok a ∧ w' = w.
Proof.
  unfold reading, on_phone, on_rotation, on_world, with_fs, files.
  destruct w as [[[f r d c] v] i p]. cbn. by intros [= -> <-].
Qed.

Lemma read_artifact_keeps {A} `{!Json A} path (w w' : CliWorld B) (a : A) :
  read_artifact path w = (Ok a, w') → files w' = files w ∧ printed w' = printed w.
Proof.
  unfold read_artifact. destruct (is_dash path); [by intros [= _ <-]|].
  by intros [_ ->]%reading_Ok.
Qed.

Lemma require_approval_Ok yes input description (w w' : CliWorld B) u :
  require_hww_approval yes input description w = (Ok u, w') →
  (yes = true ∨ approves (stdin w) = true) ∧ files w' = files w ∧
  ∃ rest, printed w' = printed w ++ rest.
Proof.
  unfold require_hww_approval, approves, read_line, println, emit. destruct yes.
  { intros [_ ->]%mret_Ok. split; [by left|]. split; [done|]. exists []. by rewrite app_nil_r. }
  intros (? & ? & [_ ->]%pure_Ok & Hr)%M_bind_Ok.
  apply M_bind_Ok in Hr as (? & ? & [= _ <-] & Hr). cbn [stdin] in Hr.
  apply M_bind_Ok in Hr as (response & w1 & Hl & [Hb%bail_if_Ok ->]%pure_Ok).
  cbn [stdin cli_world printed] in Hl. destruct (split_line (stdin w)) as [line rest].
  injection Hl as Hl <-. apply bind_Ok in Hl as ([] & _ & [= <-]).
  apply negb_false_iff in Hb. split; [by right|]. split; [done|]. by eexists.
Qed.

(** An artifact was handed out: printed last, or written to its file. *)
Definition handed_out {A} `{!Json A} (output : string) (a : A) (w : CliWorld B) : Prop :=
  ∃ s, to_vec_pretty a = Some s ∧
  if is_dash output then last (printed w) = Some (Out s)
  else file_at (files w) (resolve (files w) (components output)) = Some s.

Lemma write_artifact_Ok {A} `{!Json A} output (a : A) description (w w' : CliWorld B) u :
  (_ ← write_artifact output a; report_artifact output description) w = (Ok u, w') →
  handed_out output a w' ∧ ∃ rest, printed w' = printed w ++ rest.
Proof.
  intros ([] & w1 & Hw & Hr)%M_bind_Ok. unfold write_artifact, report_artifact, handed_out in *.
  destruct (is_dash output).
  - apply M_bind_Ok in Hw as (s & ? & [Hs ->]%pure_Ok & [= <-]).
    apply mret_Ok in Hr as [_ ->]. split; [|by eexists]. exists s. split.
    + by destruct (to_vec_pretty a); [injection Hs as ->|].
    + cbn. by rewrite last_snoc.
  - apply on_files_Ok in Hw as (Hw & _ & Hp). unfold println, emit in Hr. injection Hr as _ <-.
    split; [|exists [Out (description +:+ ": " +:+ output)]; cbn; by rewrite Hp].
    apply write_json_run in Hw as (He & _ & _ & Hs). destruct (Hs eq_refl) as (s & Hjs & Hf).
    exists s. split; [done|]. unfold files in *. cbn. by rewrite (resolve_env _ _ _ He).
Qed.
End steps.

Section review.
Context `{BitcoinLib, !KeyLib, !BdkLib, !DbFiles, !CryptoLib, JsonLaws BatchManifest,
          !Json VaultConfig, !Json DeviceFile, !Json PolicyPackage} {B : Type}.

(** C6: When [hww confirm-policy] succeeds on a package none of whose PSBTs
    takes the place of the manifest, the policy it printed is the one the user
    approved (or [--yes] was given) and the one in the signed package that it
    hands out: the printed review is that of the manifest read, and the
    manifest handed out differs from it in nothing but the approval mark. *)
Theorem hww_confirms_what_it_shows data_dir proposal output yes (w w' : CliWorld B) :
  no_read_fault (files w) →
  (∀ package w0, read_artifact proposal w = (Ok package, w0) →
    names_apart (review_dir data_dir) (files w) package) →
  hww_confirm_policy data_dir proposal output yes w = (Ok tt, w') →
  ∃ package approved w0, read_artifact proposal w = (Ok package, w0) ∧
    (yes = true ∨ approves (stdin w0) = true) ∧
    (∃ rest, printed w' = printed w ++
       (ErrOut "SIMULATED HWW — ONE HIGH-LEVEL POLICY APPROVAL"
        :: (ErrOut <$> manifest_lines (package_manifest package))) ++ rest) ∧
    package_manifest approved = set_hww_approved (package_manifest package) ∧
    handed_out output approved w'.
Proof.
  intros Hn Hnames Hrun. unfold hww_confirm_policy in Hrun.
  apply M_bind_Ok in Hrun as (package & w0 & Hread & Hrun).
  destruct (read_artifact_keeps _ _ _ _ Hread) as [Hf0 Hp0].
  apply M_bind_Ok in Hrun as ([] & w1 & [= <-] & Hrun).
  apply M_bind_Ok in Hrun as ([] & w2 & Hm & Hrun).
  unfold print_manifest in Hm. rewrite emit_lines_run in Hm. injection Hm as <-.
  apply M_bind_Ok in Hrun as ([] & w3 & (Hyes & Hf3 & rest3 & Hp3)%require_approval_Ok & Hrun).
  cbv zeta in Hrun. unfold files in Hf3. cbn in Hyes, Hf3, Hp3.
  apply M_bind_Ok in Hrun as ([] & w4 & (Hreset & _ & Hp4)%on_files_Ok & Hrun).
  apply M_bind_Ok in Hrun as ([] & w5 & (Hmat & _ & Hp5)%on_files_Ok & Hrun).
  apply M_bind_Ok in Hrun as (m & w6 & (Happ & _ & Hp6)%on_files_Ok & Hrun).
  apply M_bind_Ok in Hrun as ([] & w7 & [= <-] & Hrun).
  apply M_bind_Ok in Hrun as (approved & w8 & [Hpack ->]%reading_Ok & Hrun).
  apply write_artifact_Ok in Hrun as (Hout & rest & Hp'). cbn [printed] in Hp'.
  change (files (Build_CliWorld _ _ _)) with (files w6) in Hpack.
  unfold approve_policy in Happ. apply M_bind_Ok in Happ as (? & ? & [= <- <-] & Happ).
  apply M_bind_Ok in Happ as (config & ? & [_ ->]%pure_Ok & Happ).
  assert (files w3 = files w) as Hf by (unfold files in *; congruence). rewrite Hf in Hreset.
  destruct (review_keeps_manifest (review_dir data_dir) data_dir config package _ _ _ _ _ _ _
              Hn (Hnames _ _ Hread) Hreset Hmat Happ Hpack) as (_ & -> & Hman).
  exists package, approved, w0. split_and!; [done|done| |done|done].
  rewrite Hp', Hp6, Hp5, Hp4, Hp3, Hp0. eexists. rewrite <-!app_assoc. done.
Qed.
End review.
