(* ===== verification/CliNetwork.v ===== *)
(** The network lock: [main] runs a command for one network, the one that the
    mainnet flag and the vault agree on. *)

From S2P Require Import Prelude Bitcoin Types Keys Policy Transactions FileSystem Storage Crypto Social Ceremony CeremonyValidate Recovery ColdWallet HotWallet Phone Vanity Rotation Chain Cli CliCommands CliSafety CliReview.

Section network.
Context `{BitcoinLib, !KeyLib, !BdkLib, !DbFiles, !TxidText, !TweakedLib, !CryptoLib, !PgpLib,
          !Json VaultConfig, !Json DeviceFile, !Json PublicDeviceFile, !Json BatchManifest,
          !Json Schedule, !Json PolicyPackage, !JsonVec PolicyPackage, !Json ApprovedPolicyInput,
          !Json EncryptedTransaction, !Json EncryptedEmergencyTransaction,
          !Json EncryptedBlob, !Json Transaction, !Json bool, !Json CloudRecoveryBackup}.
Context `{!Json RecoveryPayload, !JsonVec RecoveryPayload, !JsonVec (list FriendKeyWrapper),
          !Json PhoneRecoveryPackage, !Json CooperativeSweepPackage, !Json PhoneRotationPackage}.
Context {B : Type} `{!Blockchain B, !Connector B, !Chrono}.
Context (clock : Z) (search : Search) (available_parallelism : nat).

(** The network that the files of [d] are for: the vault's, or while there is
    no vault that of the phone, or of the hardware wallet without a phone. *)
Inductive belongs (f : FS) (d : Path) : Network → Prop :=
  | belongs_vault config n :
      config_exists f d = true → load_config f d = Ok config → bitcoin_network config = Ok n →
      belongs f d n
  | belongs_phone device n :
      config_exists f d = false → exists_ f (join d PHONE_DEVICE_FILE) = true →
      load_device f d PHONE_DEVICE_FILE = Ok device → device_bitcoin_network device = Ok n →
      belongs f d n
  | belongs_hww device n :
      config_exists f d = false → exists_ f (join d PHONE_DEVICE_FILE) = false →
      exists_ f (join d HWW_DEVICE_FILE) = true →
      load_device f d HWW_DEVICE_FILE = Ok device → device_bitcoin_network device = Ok n →
      belongs f d n.

(** Nothing is there yet. *)
Definition fresh_dir (f : FS) (d : Path) : bool :=
  negb (config_exists f d) && negb (exists_ f (join d PHONE_DEVICE_FILE))
  && negb (exists_ f (join d HWW_DEVICE_FILE)).

Lemma configured_network_spec f d o :
  configured_network f d = Ok o →
  match o with Some n => belongs f d n | None => fresh_dir f d = true end.
Proof.
  unfold configured_network, fresh_dir. destruct (config_exists f d) eqn:Hc.
  { intros (config & Hl & (n & Hn & [= <-])%bind_Ok)%bind_Ok. by eapply belongs_vault. }
  destruct (exists_ f (join d PHONE_DEVICE_FILE)) eqn:Hp.
  { intros (device & Hl & (n & Hn & [= <-])%bind_Ok)%bind_Ok. by eapply belongs_phone. }
  destruct (exists_ f (join d HWW_DEVICE_FILE)) eqn:Hh.
  { intros (device & Hl & (n & Hn & [= <-])%bind_Ok)%bind_Ok. by eapply belongs_hww. }
  by intros [= <-].
Qed.

Lemma command_network_spec f d flag n :
  command_network f d flag = Ok n →
  n = (if flag then Bitcoin else Regtest) ∧ (belongs f d n ∨ fresh_dir f d = true).
Proof.
  unfold command_network. intros (o & Ho%configured_network_spec & Hn)%bind_Ok.
  destruct o as [m|]; [destruct m|]; destruct flag; naive_solver.
Qed.

(** A command runs only for one network, mainnet exactly when
    [--dangerously-enable-mainnet] is given, and only on the files of a vault
    or of devices of that network, or on none at all; on the files of another
    network, or on files that do not say one, it is refused with nothing
    done. *)
Theorem commands_respect_network cli (w : CliWorld B) :
  let d := cli_data_dir cli in
  let network := if dangerously_enable_mainnet cli then Bitcoin else Regtest in
  let run := main clock search available_parallelism cli w in
  belongs (files w) d network ∨ fresh_dir (files w) d = true ∨ (∀ u, run.1 ≠ Ok u) ∧ run.2 = w.
Proof.
  intros d network run. unfold run, main.
  destruct (command_network (files w) d (dangerously_enable_mainnet cli)) as [n|e|] eqn:Hn.
  { apply command_network_spec in Hn as [-> [Hb|Hf]]; [by left|by right; left]. }
  all: right; right; unfold reading, on_phone, on_rotation, on_world, with_fs, mbind, M_bind;
    destruct w as [[[f g db c] v] i p]; unfold files, d in *; cbn [cli_world rw_world w_fs] in *;
    cbn; by rewrite Hn.
Qed.
End network.
