(* ===== verification/CliBackends.v ===== *)
(** The command line on the program's own backends: the one that a command
    selects and connects, behind the interfaces of the phone's code and of the
    commands ([connect_core], [connect_electrum], [connect_chain] and
    [connect_hot] of [main.rs] over [core/chain.rs]). *)

From S2P Require Import Prelude Bitcoin Types Keys Policy Transactions FileSystem Storage Crypto Social Ceremony CeremonyValidate Recovery ColdWallet HotWallet Phone Vanity Rotation Chain ChainFacts Sync SyncFacts Cli CliCommands CliSafety CliReview.

(** [Builder::url], [auth] and [build], and the client on that transport. *)
Class RpcClients (Node : Type) := { rpc_client : RpcConfig → option Node }.

(** * The selected backend *)

Section selected.
Context `{BitcoinLib, !TxidOrder, !KeyLib, !BdkLib, !BdkUpdates} {Node Net : Type}
  `{!RpcApi Node, !RpcClients Node, !BlockEmitter Node, !ElectrumApi Net, !ElectrumSource Net}.

(** [Box<dyn Blockchain>]; nothing before a connection. *)
Inductive Selected :=
  | NotConnected
  | CoreRpc (b : BitcoinCoreBackend (Node:=Node))
  | ElectrumServer (b : ElectrumBackend (Net:=Net)).

Record Backends := { selected : Selected; servers : Net }.

Definition bitcoin_core_backend_connect (config : RpcConfig) (network : Network) : M Backends unit :=
  node ← pure (or_err (rpc_client config) "invalid Bitcoin Core RPC URL");
  b ← pure (core_connect node network);
  s ← get;
  put {| selected := CoreRpc b; servers := servers s |}.

(** An Electrum backend is what a connection to the servers returns. *)
Definition box_electrum (m : M Net (ElectrumBackend (Net:=Net))) : M Backends unit := λ s,
  let '(r, net) := m (servers s) in
  match r with
  | Ok b => (Ok tt, {| selected := ElectrumServer b; servers := net |})
  | Err e => (Err e, {| selected := selected s; servers := net |})
  | Panic => (Panic, {| selected := selected s; servers := net |})
  end.

(** A call on the trait object. *)
Definition dispatch {A} (core : M (BitcoinCoreBackend (Node:=Node)) A)
    (electrum : M (ElectrumBackend (Net:=Net) * Net) A) : M Backends A := λ s,
  match selected s with
  | NotConnected => (Panic, s)
  | CoreRpc b => let '(r, b) := core b in (r, {| selected := CoreRpc b; servers := servers s |})
  | ElectrumServer b =>
      let '(r, (b, net)) := electrum (b, servers s) in
      (r, {| selected := ElectrumServer b; servers := net |})
  end.

(** A call that only a node has. *)
Definition on_node {A} (core : M (BitcoinCoreBackend (Node:=Node)) A) : M Backends A :=
  dispatch core (pure Panic).

Definition selected_network (s : Backends) : Network :=
  match selected s with
  | NotConnected => Regtest
  | CoreRpc b => core_network b
  | ElectrumServer b => electrum_network b
  end.

Definition selected_description (s : Backends) : string :=
  match selected s with
  | NotConnected => EmptyString
  | CoreRpc _ => "Bitcoin Core RPC"
  | ElectrumServer b => "Electrum (" +:+ server b +:+ ")"
  end.

(** [sync_hot_wallet] is a call on the wallet and on the backend. *)
Definition selected_sync : M (HotWallet * Backends) unit := λ '(h, s),
  match selected s with
  | NotConnected => (Panic, (h, s))
  | CoreRpc b =>
      let '(r, (h, b)) := sync_core (h, b) in (r, (h, {| selected := CoreRpc b; servers := servers s |}))
  | ElectrumServer b =>
      let '(r, (h, (b, net))) := sync_electrum (h, (b, servers s)) in
      (r, (h, {| selected := ElectrumServer b; servers := net |}))
  end.

#[export] Instance selected_blockchain : Blockchain Backends := {|
  backend_network := selected_network;
  chain_tip := dispatch core_chain_tip electrum_chain_tip;
  scan_vault config := dispatch (core_scan_vault config) (electrum_scan_vault config);
  scan_connectors config := dispatch (core_scan_connectors config) (electrum_scan_connectors config);
  broadcast tx := dispatch (core_broadcast tx) (electrum_broadcast tx);
  sync_hot_wallet := selected_sync;
|}.

#[export] Instance selected_connector : Connector Backends := {|
  bitcoin_core_connect := bitcoin_core_backend_connect;
  electrum_connect network l := box_electrum (connect network l);
  electrum_connect_default network := box_electrum (connect_default network);
  backend_description := selected_description;
  node_chain_info := on_node chain_info;
  node_set_mock_time t := on_node (set_mock_time t);
  node_mine n a := on_node (mine n a);
|}.
End selected.
Arguments Selected {_} _ _ {_}.
Arguments Backends {_} _ _ {_}.

(** * The network of a backend *)

(** A step that leaves a backend's network. *)
Definition stays {S A} (network_of : S → Network) (m : M S A) : Prop :=
  ∀ s r s', m s = (r, s') → network_of s' = network_of s.

Section stays.
Context {S : Type} (network_of : S → Network).

Lemma stays_pure {A} (r : result A) : stays network_of (pure r).
Proof. by intros s r' s' [= _ <-]. Qed.
Lemma stays_ret {A} (a : A) : stays network_of (mret a).
Proof. by intros s r' s' [= _ <-]. Qed.
Lemma stays_get : stays network_of get.
Proof. by intros s r' s' [= _ <-]. Qed.
Lemma stays_bind {A B} (m : M S A) (g : A → M S B) :
  stays network_of m → (∀ a, stays network_of (g a)) → stays network_of (a ← m; g a).
Proof.
  intros Hm Hg s r s' Hr. unfold mbind, M_bind in Hr. destruct (m s) as [[a|e|] s1] eqn:Hrun.
  - rewrite (Hg a s1 r s' Hr). by eapply Hm.
  - injection Hr as _ <-. by eapply Hm.
  - injection Hr as _ <-. by eapply Hm.
Qed.
End stays.

Ltac stay :=
  repeat first [apply stays_get|apply stays_ret|apply stays_pure|assumption
               |(apply stays_bind; [|intros])|progress unfold chain_info, scan_address, scan_script].

Section networks.
Context `{BitcoinLib, !TxidOrder, !KeyLib, !BdkLib, !BdkUpdates} {Node Net : Type}
  `{!RpcApi Node, !RpcClients Node, !BlockEmitter Node, !ElectrumApi Net, !ElectrumSource Net}.
#[local] Abbreviation Core := (BitcoinCoreBackend (Node:=Node)).
#[local] Abbreviation Elec := (ElectrumBackend (Net:=Net) * Net)%type.
#[local] Abbreviation core_stays := (stays (core_network : Core → Network)).
#[local] Abbreviation elec_stays := (stays ((λ s, electrum_network s.1) : Elec → Network)).

Lemma on_client_stays {A} (m : M Node A) : core_stays (on_client m).
Proof. intros b r b'. unfold on_client. destruct (m (client b)). by intros [= _ <-]. Qed.
Lemma on_net_stays {A} (f : ElectrumClient → M Net A) : elec_stays (on_net f).
Proof. intros [b net] r [b' net']. unfold on_net. destruct (f _ net). by intros [= _ <- _]. Qed.

Lemma core_calls_stay config tx :
  core_stays core_chain_tip ∧ core_stays (core_scan_vault config) ∧
  core_stays (core_scan_connectors config) ∧ core_stays (core_broadcast tx).
Proof.
  pose proof @on_client_stays as Hc. split_and!.
  - unfold core_chain_tip. stay. apply Hc.
  - unfold core_scan_vault. stay. apply Hc.
  - unfold core_scan_connectors. stay. apply Hc.
  - intros b r b'. unfold core_broadcast. destruct (send_raw_transaction tx (client b)).
    by intros [= _ <-].
Qed.

Lemma electrum_calls_stay config tx :
  elec_stays electrum_chain_tip ∧ elec_stays (electrum_scan_vault config) ∧
  elec_stays (electrum_scan_connectors config) ∧ elec_stays (electrum_broadcast tx).
Proof.
  pose proof @on_net_stays as Hc. split_and!.
  - unfold electrum_chain_tip. stay; apply Hc.
  - unfold electrum_scan_vault. stay; apply Hc.
  - unfold electrum_scan_connectors. stay; apply Hc.
  - intros [b net] r [b' net']. unfold electrum_broadcast.
    destruct (transaction_broadcast (electrum_client b) tx net) as [[t|e|] net1];
      [by intros [= _ <- _]| |by intros [= _ <- _]].
    destruct (transaction_get (electrum_client b) _ net1) as [[t|e'|] net2]; try by intros [= _ <- _].
    case_bool_decide; by intros [= _ <- _].
Qed.

Lemma sync_core_stays : stays (λ s : HotWallet * Core, core_network s.2) sync_core.
Proof.
  intros [h b] r [h' b']. unfold sync_core. destruct (emit_and_apply _) as [r1 [h1 [e1 node]]].
  unfold pure, mbind, M_bind. destruct r1 as [[]|e|]; [|by intros [= _ _ <-]..].
  unfold on_left. cbn [fst snd]. destruct (persist_wallet h1). by intros [= _ _ <-].
Qed.

Lemma on_right_net_stays {A} (f : ElectrumClient → M Net A) :
  stays (λ s : HotWallet * Elec, electrum_network s.2.1) (on_right (on_net f)).
Proof. intros [h s] r [h' s'] [Hf _]%on_right_run. by apply on_net_stays in Hf. Qed.
Lemma on_left_stays {A} (m : M HotWallet A) :
  stays (λ s : HotWallet * Elec, electrum_network s.2.1) (on_left m).
Proof. intros [h s] r [h' s'] [_ Hs]%on_left_run. cbn in *. by rewrite Hs. Qed.

Lemma sync_electrum_stays : stays (λ s : HotWallet * Elec, electrum_network s.2.1) sync_electrum.
Proof.
  pose proof @on_right_net_stays as Hr. pose proof @on_left_stays as Hl.
  assert (∀ u, stays (λ s : HotWallet * Elec, electrum_network s.2.1) (take_update u)) as Ht.
  { intros u. unfold take_update. stay; apply Hl. }
  unfold sync_electrum, discover, sync_revealed.
  repeat first [apply stays_get|apply stays_ret|apply stays_pure|apply Hr|apply Hl|apply Ht
               |(apply stays_bind; [|intros])|case_match].
Qed.

Lemma dispatch_stays {A} (c : M Core A) (e : M Elec A) :
  core_stays c → elec_stays e → stays selected_network (dispatch c e).
Proof.
  intros Hc He s r s'. unfold dispatch, selected_network.
  destruct (selected s) as [|b|b] eqn:Hs; [by intros [= _ <-]; rewrite Hs| |].
  - destruct (c b) as [r' b'] eqn:Hb. intros [= _ <-]. by eapply Hc.
  - destruct (e (b, servers s)) as [r' [b' net]] eqn:Hb. intros [= _ <-].
    by apply He in Hb.
Qed.

(** A backend stays on its network: no call that the phone's code makes
    on the selected backend, a synchronisation included, changes the network
    that it was connected for. *)
Theorem backend_network_stable config tx (h : HotWallet) (s : Backends Node Net) :
  (∀ r s', chain_tip s = (r, s') → backend_network s' = backend_network s) ∧
  (∀ r s', scan_vault config s = (r, s') → backend_network s' = backend_network s) ∧
  (∀ r s', scan_connectors config s = (r, s') → backend_network s' = backend_network s) ∧
  (∀ r s', broadcast tx s = (r, s') → backend_network s' = backend_network s) ∧
  (∀ r h' s', sync_hot_wallet (h, s) = (r, (h', s')) → backend_network s' = backend_network s).
Proof.
  destruct (core_calls_stay config tx) as (C1 & C2 & C3 & C4).
  destruct (electrum_calls_stay config tx) as (E1 & E2 & E3 & E4).
  split_and!; [intros r s'; by apply dispatch_stays..|].
  intros r h' s'. cbn [sync_hot_wallet backend_network selected_blockchain].
  unfold selected_sync, selected_network.
  destruct (selected s) as [|b|b] eqn:Hs; [by intros [= _ _ <-]; rewrite Hs| |].
  - destruct (sync_core (h, b)) as [r1 [h1 b1]] eqn:Hb. intros [= _ _ <-]. by apply sync_core_stays in Hb.
  - destruct (sync_electrum (h, (b, servers s))) as [r1 [h1 [b1 net]]] eqn:Hb. intros [= _ _ <-].
    by apply sync_electrum_stays in Hb.
Qed.

(** The backend's server has shown that it is on the network. *)
Definition verified (n : Network) (s : Backends Node Net) : Prop :=
  match selected s with
  | NotConnected => False
  | CoreRpc b => ∃ node info, get_blockchain_info node = (Ok info, client b) ∧ info_chain info = n
  | ElectrumServer b => ∃ net header,
      block_header (electrum_client b) 0 net = (Ok header, servers s) ∧
      header_hash header = genesis_block_hash n
  end ∧ selected_network s = n.

Lemma core_connect_Ok node n b :
  core_connect node n = Ok b →
  core_network b = n ∧ ∃ info, get_blockchain_info node = (Ok info, client b) ∧ info_chain info = n.
Proof.
  unfold core_connect. intros (info & Hr)%exec_Ok. unfold chain_info in Hr.
  apply M_bind_Ok in Hr as (i & b1 & Hi & Hr). apply M_bind_Ok in Hr as (? & ? & [= <- <-] & Hr).
  apply M_bind_Ok in Hr as ([] & b2 & [Hc%bail_if_Ok%negb_false_iff%bool_decide_eq_true ->]%pure_Ok
    & [<- <-]%mret_Ok).
  unfold on_client in Hi. cbn [client core_network] in Hi.
  destruct (context_m get_blockchain_info _ node) as [r c] eqn:Hg. injection Hi as -> <-.
  apply context_m_Ok in Hg. split; [done|]. by exists i.
Qed.

Lemma core_backend_connect_Ok config n s s' :
  bitcoin_core_backend_connect config n s = (Ok tt, s') → verified n s'.
Proof.
  unfold bitcoin_core_backend_connect. intros (node & ? & [_ ->]%pure_Ok & Hr)%M_bind_Ok.
  apply M_bind_Ok in Hr as (b & ? & [[Hn (info & Hi & Hc)]%core_connect_Ok ->]%pure_Ok & Hr).
  apply M_bind_Ok in Hr as (? & ? & [= <- <-] & [= <-]).
  split; [|exact Hn]. by exists node, info.
Qed.

Lemma connect_first_verified n l errors net b net' :
  connect_first n l errors net = (Ok b, net') →
  electrum_network b = n ∧ ∃ net1 header,
    block_header (electrum_client b) 0 net1 = (Ok header, net') ∧ header_hash header = genesis_block_hash n.
Proof.
  revert errors net. induction l as [|x l IH]; intros errors net; cbn; [done|].
  destruct (connect_attempt n x net) as [[b1|e|] net1] eqn:Ha; [|by apply IH|done].
  intros [= -> ->]. apply connect_attempt_Ok in Ha as (_ & Hn & net2 & header & _ & Hh & Hg).
  split; [done|]. by exists net2, header.
Qed.

Lemma box_electrum_Ok m n s s' :
  (∀ net b net', m net = (Ok b, net') → electrum_network b = n ∧ ∃ net1 header,
     block_header (electrum_client b) 0 net1 = (Ok header, net') ∧
     header_hash header = genesis_block_hash n) →
  box_electrum m s = (Ok tt, s') → verified n (s' : Backends Node Net).
Proof.
  intros Hm. unfold box_electrum. destruct (m (servers s)) as [[b|e|] net] eqn:Hr; [|done..].
  intros [= <-]. destruct (Hm _ _ _ Hr) as [Hn (net1 & header & Hh & Hg)].
  split; [|exact Hn]. by exists net1, header.
Qed.

Lemma electrum_connect_verified n l net b net' :
  connect n l net = (Ok b, net') →
  electrum_network b = n ∧ ∃ net1 header,
    block_header (electrum_client b) 0 net1 = (Ok header, net') ∧ header_hash header = genesis_block_hash n.
Proof.
  unfold connect. intros (? & ? & [_ ->]%pure_Ok & Hc)%M_bind_Ok. by apply connect_first_verified in Hc.
Qed.
End networks.

(** * Connecting *)

Section connecting.
Context `{BitcoinLib, !TxidOrder, !KeyLib, !BdkLib, !BdkUpdates, !DbFiles, !CryptoLib,
          !Json VaultConfig} {Node Net : Type}
  `{!RpcApi Node, !RpcClients Node, !BlockEmitter Node, !ElectrumApi Net, !ElectrumSource Net}.

Definition backend (w : CliWorld (Backends Node Net)) : Backends Node Net :=
  w_chain (rw_world (cli_world w)).

Lemma on_chain_run {A} (m : M (Backends Node Net) A) (w w' : CliWorld (Backends Node Net)) a :
  on_chain m w = (Ok a, w') → m (backend w) = (Ok a, backend w') ∧ files w' = files w.
Proof.
  unfold on_chain, on_phone, on_rotation, on_world, at_chain, backend, files.
  destruct w as [[[f g d c] v] i p]. cbn. destruct (m c) as [r c']. by intros [= -> <-].
Qed.

(** What was selected. *)
Definition is_kind (kind : ChainBackendKind) (s : Backends Node Net) : bool :=
  match kind, selected s with
  | Rpc, CoreRpc _ => true
  | Electrum, ElectrumServer _ => true
  | _, _ => false
  end.

(** C17: A command's backend is the vault's: when the command line has
    connected a backend, it is the kind that was asked for or that the network
    of the configured vault has by default, it is bound to that network, and
    its server has shown to be on it. *)
Theorem connected_backend_verified args d (w w' : CliWorld (Backends Node Net)) :
  connect_chain args d w = (Ok tt, w') →
  ∃ config n kind, load_config (files w) d = Ok config ∧ bitcoin_network config = Ok n ∧
    selected_backend args n = Ok kind ∧ is_kind kind (backend w') = true ∧
    verified n (backend w') ∧ backend_network (backend w') = n ∧ files w' = files w.
Proof.
  unfold connect_chain. intros (config & ? & [Hc ->]%reading_Ok & Hr)%M_bind_Ok.
  apply M_bind_Ok in Hr as (n & ? & [Hn ->]%pure_Ok & Hr).
  apply M_bind_Ok in Hr as (kind & ? & [Hk ->]%pure_Ok & Hr).
  exists config, n, kind. split; [done|]. split; [done|]. split; [done|].
  assert (is_kind kind (backend w') = true ∧ verified n (backend w') ∧ files w' = files w)
    as (Hkind & Hv & Hf); [|by split_and!; [..|apply Hv|]].
  destruct kind; apply on_chain_run in Hr as [Hr Hf].
  - unfold connect_core in Hr. apply M_bind_Ok in Hr as (u & ? & [_ ->]%pure_Ok & Hr).
    cbn [bitcoin_core_connect selected_connector] in Hr.
    apply core_backend_connect_Ok in Hr as Hv.
    split; [|done]. apply M_bind_Ok in Hr as (node & ? & [_ ->]%pure_Ok & Hr).
    apply M_bind_Ok in Hr as (b & ? & [_ ->]%pure_Ok & Hr).
    apply M_bind_Ok in Hr as (? & ? & [= <- <-] & Hput). unfold put in Hput. injection Hput as Hput.
    unfold is_kind. by rewrite <-Hput.
  - assert (∃ m, box_electrum m (backend w) = (Ok tt, backend w') ∧
      ∀ net b net', m net = (Ok b, net') → electrum_network b = n ∧ ∃ net1 header,
        block_header (electrum_client b) 0 net1 = (Ok header, net') ∧
        header_hash header = genesis_block_hash n) as (m & Hm & Hspec).
    { unfold connect_electrum in Hr. destruct (electrum_url args) as [url|].
      - exists (connect n [url]). split; [exact Hr|]. apply electrum_connect_verified.
      - exists (connect_default n). split; [exact Hr|]. intros net b net'.
        unfold connect_default. destruct n; try done; apply electrum_connect_verified. }
    pose proof (box_electrum_Ok _ _ _ _ Hspec Hm) as Hv. split; [|done].
    unfold box_electrum in Hm. destruct (m (servers (backend w))) as [[b|e|] net]; [|done..].
    injection Hm as Hm. unfold is_kind. by rewrite <-Hm.
Qed.
End connecting.
