(* ===== verification/CliWitness.v ===== *)
(** The command line at the concrete vault of [Storage], and a package whose
    policy is not the one the hardware wallet shows. *)

From S2P Require Import Prelude Bitcoin Toy Types Keys Policy Transactions FileSystem Storage Crypto Social SocialFacts Ceremony CeremonyValidate CeremonySound CeremonyBuild ToyCeremony Recovery ColdWallet ColdWalletFacts ColdWalletWitness HotWallet Phone ToyPhone Vanity Rotation RotationWitness Preserve Chain Cli CliCommands CliSafety CliReview.

(** A reader that, as [serde_json], accepts a line end after the value. *)
Fixpoint without_newline (s : string) : string :=
  match s with
  | EmptyString => EmptyString
  | String c rest =>
      if bool_decide (s = NEWLINE) then EmptyString else String c (without_newline rest)
  end.
#[local] Instance lenient_manifest : Json BatchManifest :=
  {| to_vec_pretty m := Some (Toy.to_text m);
     from_slice s := match Toy.of_text s with
                     | Some m => Some m
                     | None => Toy.of_text (without_newline s)
                     end |}.
#[local] Instance lenient_manifest_laws : JsonLaws BatchManifest.
Proof. constructor. intros m s [= <-]. unfold from_slice, lenient_manifest. by rewrite Toy.of_to_text. Qed.

(** * A policy that is shown, approved and signed *)

Definition toy_policy_package : PolicyPackage :=
  ltac:(let r := eval vm_compute in (package_from_batch toy_proposed_fs toy_batch_dir) in
        match r with Ok ?p => exact p end).
Definition toy_review (package : PolicyPackage) (typed : string) : CliWorld (list Transaction) :=
  Build_CliWorld (Build_RotationWorld (toy_world
    (set_nodes (<[["p"] := File (Toy.to_text package)]> (nodes toy_proposed_fs)) toy_proposed_fs)) [])
    typed [].

Definition toy_confirm (w : CliWorld (list Transaction)) :=
  hww_confirm_policy toy_dir "/p" "/approved" false w.
Definition toy_typed : string := "approve" +:+ NEWLINE.
Definition toy_confirmed : result unit * CliWorld (list Transaction) := Eval vm_compute in
  toy_confirm (toy_review toy_policy_package toy_typed).
Definition toy_confirmed_world : CliWorld (list Transaction) :=
  ltac:(let r := eval cbv delta [toy_confirmed] in toy_confirmed in
        match r with (_, ?w) => exact w end).

Lemma toy_faultless (w : CliWorld (list Transaction)) k :
  fault (files w) = (λ _, None) → fault (files w) k ≠ Some AtRead.
Proof. by intros ->. Qed.

Lemma hww_confirms_what_it_shows_witness :
  toy_confirm (toy_review toy_policy_package toy_typed) = (Ok tt, toy_confirmed_world) ∧
  ∃ approved, package_manifest approved = set_hww_approved toy_proposed_manifest ∧
    handed_out "/approved" approved toy_confirmed_world.
Proof.
  assert (toy_confirm (toy_review toy_policy_package toy_typed) = (Ok tt, toy_confirmed_world)) as Hrun
    by (vm_cast_no_check (eq_refl toy_confirmed)).
  split; [exact Hrun|].
  assert (read_artifact (A:=PolicyPackage) "/p" (toy_review toy_policy_package toy_typed)
          = (Ok toy_policy_package, toy_review toy_policy_package toy_typed)) as Hread
    by (vm_cast_no_check (eq_refl (Ok toy_policy_package, toy_review toy_policy_package toy_typed))).
  destruct (hww_confirms_what_it_shows toy_dir "/p" "/approved" false
    (toy_review toy_policy_package toy_typed) toy_confirmed_world)
    as (package & approved & w0 & Hr & _ & _ & Hm & Ho).
  - intros k. by apply toy_faultless.
  - intros package w0. rewrite Hread. intros [= <- <-] name psbt Hin.
    assert (map_Forall (λ (name _ : string),
      resolve (files (toy_review toy_policy_package toy_typed)) (FileSystem.join (review_dir toy_dir) name) ≠
      resolve (files (toy_review toy_policy_package toy_typed)) (FileSystem.join (review_dir toy_dir) "manifest.json"%string))
      (psbts toy_policy_package)) as Hall by (apply (bool_decide_unpack _); vm_compute; exact I).
    exact (Hall name psbt Hin).
  - exact Hrun.
  - exists approved. rewrite Hread in Hr. injection Hr as <- <-. split; [exact Hm|exact Ho].
Defined.

(** * A refusal *)

#[local] Instance no_recovery_package : Json PhoneRecoveryPackage :=
  {| to_vec_pretty _ := None; from_slice _ := None |}.
#[local] Instance no_sweep_package : Json CooperativeSweepPackage :=
  {| to_vec_pretty _ := None; from_slice _ := None |}.
#[local] Instance no_rotation_package : Json PhoneRotationPackage :=
  {| to_vec_pretty _ := None; from_slice _ := None |}.
#[local] Instance toy_connector_calls : Connector (list Transaction) := {|
  bitcoin_core_connect _ _ := λ b, (Ok tt, b);
  electrum_connect _ _ := λ b, (Ok tt, b);
  electrum_connect_default _ := λ b, (Ok tt, b);
  backend_description _ := "node";
  node_chain_info := λ b, (Err "no node", b);
  node_set_mock_time _ := λ b, (Err "no node", b);
  node_mine _ _ := λ b, (Err "no node", b);
|}.
Definition toy_args : ChainArgs :=
  {| chain_backend := None; rpc_url := None; rpc_user := "anzen"; rpc_password := "anzen";
     electrum_url := None |}.
Definition toy_declined : CliWorld (list Transaction) :=
  toy_review toy_policy_package ("decline" +:+ NEWLINE).


(** * A policy that is not shown

    A package holds the PSBTs of its manifest under their names, and writing
    them comes after writing the manifest.  One that is called
    [manifest.json] replaces the manifest that was shown. *)

Definition forged_step : AllowanceStep → AllowanceStep := λ a,
  {| step := step a; step_delay_seconds := step_delay_seconds a;
     step_delay_sequence := step_delay_sequence a; chain_value_sats := chain_value_sats a;
     step_hot_address := step_hot_address a; connector := connector a;
     next_connector := next_connector a;
     authorization :=
       {| psbt_file := "manifest.json"; unsigned_txid := unsigned_txid (authorization a);
          fee_sats := fee_sats (authorization a);
          vault_input_indexes := vault_input_indexes (authorization a);
          controller_input_indexes := controller_input_indexes (authorization a) |} |}.

(** The manifest that is shown: one satoshi a month. *)
Definition forged_manifest (m : BatchManifest) : BatchManifest :=
  {| manifest_version := manifest_version m; created_at := created_at m;
     manifest_network := manifest_network m;
     manifest_vault_descriptor := manifest_vault_descriptor m;
     manifest_vault_address := manifest_vault_address m;
     controller_descriptor := controller_descriptor m; controller_address := controller_address m;
     connector_value_sats := connector_value_sats m; monthly_limit_sats := 1;
     emergency_access_limit_sats := emergency_access_limit_sats m;
     fee_rate_sat_vb := fee_rate_sat_vb m; total_input_sats := total_input_sats m;
     vault_input_sats := vault_input_sats m; controller_input_sats := controller_input_sats m;
     allowance_count := allowance_count m; rollover := rollover m;
     allowance_vout := allowance_vout m; allowance_value_sats := allowance_value_sats m;
     remainder_vout := remainder_vout m; remainder_value_sats := remainder_value_sats m;
     monthly_connector_vout := monthly_connector_vout m;
     emergency_connector_vout := emergency_connector_vout m;
     allowances := allowances m ++ (forged_step <$> allowances m);
     emergency_access := emergency_access m; phone_approved := phone_approved m;
     hww_approved := hww_approved m |}.
Definition forged_package : PolicyPackage :=
  {| package_version := package_version toy_policy_package;
     package_kind := package_kind toy_policy_package;
     package_manifest := forged_manifest (package_manifest toy_policy_package);
     psbts := <["manifest.json" := Toy.to_text (package_manifest toy_policy_package)]>
                (psbts toy_policy_package) |}.
Definition forged_run : result unit * CliWorld (list Transaction) := Eval vm_compute in
  toy_confirm (toy_review forged_package toy_typed).
Definition forged_world : CliWorld (list Transaction) :=
  ltac:(let r := eval cbv delta [forged_run] in forged_run in
        match r with (_, ?w) => exact w end).
Definition forged_approved : PolicyPackage :=
  ltac:(let r := eval vm_compute in (package_from_batch (files forged_world) (review_dir toy_dir)) in
        match r with Ok ?p => exact p end).

(** C38: The policy that the hardware wallet signs need not be the one that
    it showed: for a package with a PSBT called [manifest.json],
    [hww confirm-policy] prints a monthly limit of one satoshi, takes the
    user's approval, and succeeds with a signed package, handed out, whose
    manifest allows 20,000 satoshis a month. *)
Theorem forged_policy_signed :
  hww_confirm_policy toy_dir "/p" "/approved" false (toy_review forged_package toy_typed)
    = (Ok tt, forged_world) ∧
  monthly_limit_sats (package_manifest forged_package) = 1%N ∧
  printed forged_world !! 6 = Some (ErrOut "Monthly limit: 1 sats") ∧
  handed_out "/approved" forged_approved forged_world ∧
  hww_approved (package_manifest forged_approved) = true ∧
  monthly_limit_sats (package_manifest forged_approved) = 20000%N.
Proof.
  split; [vm_cast_no_check (eq_refl forged_run)|]. split; [reflexivity|].
  split; [vm_cast_no_check (eq_refl (Some (ErrOut "Monthly limit: 1 sats")))|].
  split; [|split; reflexivity].
  exists (Toy.to_text forged_approved). split; [reflexivity|].
  vm_cast_no_check (eq_refl (Some (Toy.to_text forged_approved))).
Qed.
