(* ===== verification/CliBackendsWitness.v ===== *)
(** A command that connects to the concrete servers of [ChainWitness], for the
    vault of [Storage]. *)

From S2P Require Import Prelude Bitcoin Toy Types Keys Policy Transactions FileSystem Storage Crypto Social SocialFacts Ceremony CeremonyValidate CeremonySound CeremonyBuild ToyCeremony Recovery ColdWallet ColdWalletFacts ColdWalletWitness HotWallet Phone ToyPhone Vanity Rotation RotationWitness Preserve Chain ChainFacts ChainWitness Sync SyncFacts SyncWitness Cli CliCommands CliSafety CliReview CliBackends.

(** A wallet that takes no updates, and a node that is not used. *)
#[local] Instance idle_updates : BdkUpdates := {|
  Update := unit; BlockEvent := unit; UnconfirmedTxs := unit; EvictedTxs := unit;
  CheckPoint := unit; FullScanRequest := unit; SyncRequest := unit;
  latest_checkpoint _ := ();
  apply_update _ := λ w, (Ok tt, w);
  apply_block_connected_to _ := λ w, (Ok tt, w);
  apply_unconfirmed_txs _ w := w;
  apply_evicted_txs _ w := w;
  start_full_scan _ := ();
  start_sync_with_revealed_spks _ := ();
|}.
#[local] Instance idle_node : RpcApi unit := {|
  get_blockchain_info n := (Err "no node", n);
  scan_tx_out_set_blocking _ n := (Err "no node", n);
  send_raw_transaction _ n := (inl OtherRpcError, n);
  call_setmocktime _ n := (Err "no node", n);
  generate_to_address _ _ n := (Err "no node", n);
|}.
#[local] Instance idle_clients : RpcClients unit := {| rpc_client _ := Some () |}.
#[local] Instance idle_blocks : BlockEmitter unit := {|
  Emitter := unit; emitter_new _ _ := ();
  next_block s := (Ok None, s); mempool s := (Ok (tt, tt), s); blocks_left _ := 0;
|}.
#[local] Instance idle_source : ElectrumSource nat := {|
  populate_tx_cache _ _ n := n;
  full_scan _ _ _ _ _ n := (Ok tt, n);
  electrum_sync _ _ _ _ n := (Ok tt, n);
|}.

Definition electrum_args : ChainArgs :=
  {| chain_backend := Some Electrum; rpc_url := None; rpc_user := "anzen"; rpc_password := "anzen";
     electrum_url := Some "b" |}.
Definition unconnected : CliWorld (Backends unit nat) :=
  Build_CliWorld (Build_RotationWorld
    (Build_World toy_initialized 5%N 0%N {| selected := NotConnected; servers := 0 |}) [])
    EmptyString [].
Definition connected : CliWorld (Backends unit nat) :=
  Build_CliWorld (Build_RotationWorld
    (Build_World toy_initialized 5%N 0%N
       {| selected := ElectrumServer toy_backend; servers := 1 |}) []) EmptyString [].

Lemma connected_backend_verified_witness :
  connect_chain electrum_args toy_dir unconnected = (Ok tt, connected) ∧
  ∃ n, verified n (backend connected) ∧ backend_network (backend connected) = n.
Proof.
  assert (connect_chain electrum_args toy_dir unconnected = (Ok tt, connected)) as Hr
    by (vm_cast_no_check (eq_refl (Ok (A:=unit) tt, connected))).
  split; [exact Hr|].
  destruct (connected_backend_verified electrum_args toy_dir unconnected connected Hr)
    as (config & n & kind & _ & _ & _ & _ & Hv & Hn & _).
  exists n. split; [exact Hv|exact Hn].
Defined.

Definition toy_held : HotWallet := {| wallet := 0%N : BdkWallet; db := 0%N : Db |}.
Definition toy_unspent : Transaction :=
  {| version := VERSION_TWO; lock_time := LOCK_TIME_ZERO; input := []; output := [] |}.

(** The database of the toy phone does not keep the marker, so every
    synchronisation scans. *)
Lemma backend_network_stable_witness :
  sync_hot_wallet (B:=Backends unit nat) (toy_held, backend connected)
    = (Ok tt, (toy_held, backend connected)) ∧
  backend_network (backend connected) = Regtest.
Proof.
  assert (sync_hot_wallet (B:=Backends unit nat) (toy_held, backend connected)
    = (Ok tt, (toy_held, backend connected))) as Hr by (vm_compute; reflexivity).
  split; [exact Hr|].
  exact (proj2 (proj2 (proj2 (proj2 (backend_network_stable toy_config toy_unspent toy_held
    (backend connected))))) _ _ _ Hr).
Defined.
